(* ===== verification/_CoqProject ===== *)
-Q . S2P
Prelude.v
GoStd.v
GoPath.v
Metrics.v
Vfs.v
Symlink.v
LocalVfs.v
Header.v
GoUrl.v
HeaderTime.v
GoQuery.v
Tls.v
Config.v
Http.v
Redirects.v
Serving.v
DiskServing.v
Domain.v
GitlabClient.v
Cache.v
CacheLiveness.v
CacheClients.v
GitlabSource.v
Serverless.v
DiskSource.v
DiskScan.v
Domains.v
Artifact.v
App.v
Logging.v
Auth.v
SiteContent.v
Login.v
LiveDomain.v
Retriever.v
HttpRange.v
HttpFs.v
ZipArchive.v
DeflateReader.v
ZipVfs.v
ZipSite.v
Requests.v
Transport.v
Limiter.v
Jail.v
Daemon.v
Server.v
Startup.v
