(* ===== verification/Prelude.v ===== *)
(** * GitLab Pages daemon: a verification library

    GitLab Pages is an HTTP server for static sites.  A request passes a
    chain of middlewares ([app.go]); the host name is looked up in a domain
    source ([internal/source]: the GitLab API behind a cache, or a legacy
    scan of the pages directory); the domain resolves the URL to a project
    ([internal/domain], [internal/serving]); the disk serving finds the file
    below the project's root ([internal/serving/disk] over [internal/vfs]) or
    answers with a redirect or an error page; projects with access control
    are guarded by an OAuth login ([internal/auth]).  At start-up the process
    reads its configuration ([internal/config]), opens the sockets
    ([main.go]), and serves them itself ([server.go], [app.go]) or starts an
    unprivileged child in a jail that does ([daemon.go], [internal/jail]).

    The library translates this, file by file, into
    executable definitions and proves what makes each part correct.  Names of
    definitions are those of the Go functions (with the type in front where a
    method name is used twice); a Go [string] is a list of bytes, an [error]
    a value of [error], a pair of value and error a [result], a nil pointer
    an [option], a response writer the record [Response] passed along.

    ** Files

    - [Prelude]: strings, errors, results with their notation, tactics and
      the hint database [pages].
    - [GoStd], [GoPath], [GoUrl], [GoQuery]: the functions of [strings],
      [path], [path/filepath], [net] and [net/url] the program uses, with the
      facts the components share (splitting and joining, cleaning paths,
      escaping, queries that are parsed back).
    - [Vfs]: [internal/vfs], the [VFS], [Root] and [File] interfaces as
      records, with the instrumented wrappers.
    - [Symlink]: [internal/serving/disk/symlink], the byte-level loop of
      [walkSymlinks].
    - [LocalVfs]: [internal/vfs/local] over the record [OS] of system calls.
    - [Header]: [internal/httputil], header parsing and content negotiation;
      qualities are binary64 numbers, the digit counters 64-bit integers that
      wrap around.
    - [HeaderTime]: [ParseTime] of the same package, with the layouts, the
      zone abbreviations and the calendar it uses of [time.Parse].
    - [Http]: requests and the response writer, [http.Redirect], and
      [internal/httperrors], [internal/host], [internal/request].
    - [Metrics]: [metrics], the collectors and their registration.
    - [Tls], [Config]: [internal/config] with [tls] and [internal/validateargs]:
      flags, files and validation up to the configuration record.
    - [Redirects]: [internal/redirects].
    - [Serving], [DiskServing]: [internal/serving] as the interface [Serving]
      with the class [ServingLaws], and [internal/serving/disk], which is an
      instance of it.
    - [Domain]: [internal/domain], against [ServingLaws].
    - [GitlabClient], [Cache], [GitlabSource]: [internal/source/gitlab]; the
      cache is a transition system on a heap of entries shared by the store,
      the clients and the refreshing goroutines.
    - [CacheLiveness]: infinite runs of that system under a fair scheduler.
    - [CacheClients]: the clients of the cache, one critical section after the
      other, among all its other steps.
    - [Retriever]: [retriever.go] as two goroutines with their channel and
      deadline, and the cache as the configuration makes it.
    - [Serverless]: [internal/serving/serverless], another instance of
      [ServingLaws].
    - [DiskSource], [DiskScan], [Domains]: [internal/source/disk], the order
      of its concurrent scan and the source over the turns of [Watch], and
      [internal/source/domains.go].
    - [Artifact]: [internal/artifact] and [internal/handlers].
    - [App]: [app.go], [internal/acme], [internal/middleware],
      [internal/rejectmethods]: the middlewares and their composition.
    - [Logging]: [internal/logging], which discharges the promise that [App]
      asks of its access logger.
    - [Auth]: [internal/auth], an implementation of the interface [AppAuth]
      that [App] uses.
    - [SiteContent]: [App], [GitlabSource], [Auth] and [DiskServing] composed:
      a request from the routing to the bytes of the page.
    - [Login]: the requests of one login, from the private page to GitLab and
      back, over the handlers of [Auth].
    - [LiveDomain]: the handlers of [App], [Domain] and [Auth] once more, with
      the domain looked up anew at every call as the code does it; the number
      of the call is threaded through by a small monad.  [one_view_pipeline]
      says that [App] is the case in which the lookups do not change, and
      [cached_calls] takes the lookups from the runs of [CacheClients].
    - [HttpRange]: [internal/httprange], reading a remote file in ranges, with
      64-bit offsets and bodies that arrive in parts.
    - [HttpFs]: [internal/httpfs], the files behind [file://] URLs.
    - [ZipArchive], [ZipVfs]: [internal/vfs/zip]; an archive is a second
      implementation of [Root], so that the theorems of [Symlink] and
      [DiskServing] apply to it; the cache of archives is a transition system.
    - [ZipSite]: [ZipVfs], [ZipArchive] and [HttpRange] composed below
      [SiteContent]: a page from the lookup to the range requests.
    - [Requests]: the running server as a transition system: any number of
      connections, each of them a run of the handlers of [LiveDomain] that
      stops at its calls of the cache and goes through their critical sections
      as a client of [CacheClients], over one [Cache] and one [GitlabSource].
    - [DeflateReader]: the pool of decompressing readers, on a heap, and an
      abstract machine in which every file has a reader of its own.
    - [Transport]: [internal/httptransport], and the settings of the zip file
      system ([New], [Reconfigure]).
    - [Limiter]: [internal/netutil], the connection limit that the listeners
      share, as a transition system.
    - [Jail], [Daemon]: [internal/jail] and [daemon.go] over an arbitrary
      operating system [JailOS] that records its calls.
    - [Server]: [server.go] and [Run] of [app.go]: the layers of the
      listeners, and the goroutines with the wait group as a transition
      system.
    - [Startup]: [main.go], [helpers.go] and [runApp]: operations that append
      to a trace and may exit the process; it composes [Config], [Domains],
      [Auth], [App], [Server] and [Daemon].

    ** What the theorems show

    - Confinement: the path check of a local root accepts exactly the paths
      below it, and a root asks the system about no path outside
      ([LocalVfs]); symlink evaluation returns on every input and its result
      has no link left in it, but for the parts behind a [".."] it keeps
      ([Symlink]); what the disk serving sends is a
      regular file found that way, or its precompressed sibling in an
      encoding the client accepts ([DiskServing], [Header]).
    - Responses: which requests are answered with a file, a redirect, an
      error page or declined, with status, body and headers ([DiskServing],
      [Domain], [Redirects]); every page is served, through the whole
      pipeline, to those who may read it ([SiteContent]), and pages out of
      remote archives down to the bytes of the range requests ([ZipSite]); in
      every interleaving of many requests each gets the response it would get
      alone, as long as the API's lookup for its host stays the same
      ([Requests]); the pipeline answers every request and never meets a
      missing context value, and a handler in front of the
      content either answers or leaves the response alone; the
      promises of the authentication are the classes [AuthLaws] and
      [AppAuthLaws], which [Auth] discharges ([Artifact], [App], [Auth]).
    - Access control: content of a private project is reached only after
      GitLab confirmed the session's token for that project, as long as the
      lookups of the request agree; after a refusal
      no private page is sent; login callbacks are forwarded only to checked
      domains, the OAuth code is bound to its domain by the key derivation and the
      cipher, and no token is
      requested when the state does not match ([Auth], [App], [Domain]); the
      same holds when the cache changes between the lookups of one request, as
      long as no lookup fails ([LiveDomain]), and among concurrent requests of
      which some may read the project ([Requests]); a login that GitLab accepts ends
      at the page with a session that is let in ([Login]).
    - Domain lookup: the API request and the reading of its answer, the
      cache's answers to its clients in every interleaving, what a refresh
      leaves, the choice of the lookup path ([GitlabClient], [Cache],
      [CacheClients], [GitlabSource]); that a
      retrieval ends, with the answer of its retry loop, and that with at
      least one attempt configured a lookup has neither error nor domain only
      when the API has answered [null] ([Retriever]); for the disk source, that projects entered by the scan
      are found again, that building the map cannot fail ([DiskSource]), that
      the order of the workers does not matter for groups with names of their
      own, and that requests see whole scans only ([DiskScan]);
      the dispatch between the sources ([Domains]).
    - Archives: range requests stay inside the resource and read exactly its
      bytes ([HttpRange]); an archive shows the entries below [public/] and
      nothing else, its caches change no answer ([ZipArchive]); requests get
      the archive of their own URL in every interleaving, after one turn of the
      loop that opens it, and its bytes come from URLs with the same key
      ([ZipVfs]); local
      archives are opened below the allowed directories only ([HttpFs]), which
      for a loaded configuration is the pages root ([Transport]); pooled
      decompressors behave like fresh ones ([DeflateReader]).
    - Progress: under a fair scheduler every client that waits for a lookup is
      answered, and an outdated entry is replaced ([CacheLiveness]); no request
      of a running server can get stuck, each can get a response, and none makes
      more than twelve lookups ([Requests]).
    - Configuration: what every accepted configuration satisfies, which flags
      and files are accepted, that the log shows no secret ([Config]), that
      options with secrets are refused on the command line ([Tls]).
    - Start-up: one socket per configured address, each served as its kind
      with the layers and the handler of that kind, none before the checks,
      all closed when the parent returns ([Startup], [Server]); an
      application that starts on the GitLab API answers every request, as
      long as every lookup has an error or a domain ([Startup]); registering the metrics does not panic ([Metrics]).
    - Privileges: the jail is never removed across a mount, building and
      disposing restores the files ([Jail]); the daemon changes files and mounts
      below its jail only, starts the child in the jail it built, and passes every
      listener on under its new number ([Daemon]).
    - Connections: the limit is respected and no slot is lost ([Limiter]);
      accepting does not panic and sets keep-alive ([Server]).
    - Parsing: Accept headers are parsed back after printing and their
      parser is total ([Header]); dates are read in each of the three formats
      of HTTP ([HeaderTime]); queries are parsed back ([GoQuery]); artifact
      URLs have the shape of the API ([Artifact]).
    - A few theorems state behaviour that is probably not intended, in the
      words of the code: [escaped_slash_target_leaves_site],
      [foreign_domain_allowed], [zero_retries_dereferences_nil],
      [unauthorized_after_poll_is_final], [stale_response_outlives_expiration],
      [serverless_host_without_gitlab_is_nil],
      [error_page_keeps_encoding_headers], [Watch_failed_scan_not_retried],
      [project_depth_scan_and_lookup_differ],
      [acme_file_served_and_continued], [zip_unlisted_parents_hide_file],
      [api_secret_key_is_padded], [LogConfig_swaps_cert_and_key],
      [failed_copy_removes_existing_file], [daemon_uid_wraps_to_root],
      [pages_root_below_etc_never_starts], [busy_forwarder_drops_signal],
      [serverless_error_type_not_sent], [closed_reader_reads_other_file],
      [Reconfigure_twice_panics], [relative_root_refuses_archives],
      [access_control_fails_open], [timed_out_worker_never_ends],
      [state_injects_login_parameters], [domain_claim_not_checked],
      [zero_retries_accepted], [null_answer_dereferences_nil],
      [duplicate_domain_depends_on_order], and the
      second half of [Run_returns_after_servers].

    ** Parameters

    Code outside the repository is an argument of the definitions: the
    system calls ([OS], [DiskFS]), [http.ServeContent], the MIME tables and
    time formats ([ContentLib] with [ContentLaws]), the netlify rule parser,
    go-cache (with its laws in [Cache] and [ZipVfs]), the zip directory reader
    and decompression, HTTP clients and servers ([RangeServer]), JSON decoders, the
    cookie store, the cryptography ([Crypto] with [CryptoLaws]), the CORS,
    metrics and correlation middlewares ([PanicFree], [AddsHeaders]), the zones
    of the machine in [HeaderTime], the access logger
    ([AccessLoggerLaws]), decompressors ([FlateLaws]), the Prometheus registry
    ([RegistryLaws]), HTTP/2 ([Http2Laws]), the reverse proxy, the operating
    system of the jail ([JailOS] with [JailOSLaws], [HostEnv]), the order in
    which Go visits maps ([MapVisit] with [MapVisitLaws]), and the process
    environment ([AppEnv], [ProcEnv]).
    Each set of laws has an instance in the file that states it, and the
    theorems are applied to it.

    ** Bounds and fuel

    [walkSymlinks] follows at most 255 links, and between two links every
    turn consumes part of the path, so that [walk_links] runs with 256 rounds
    of [length rest] turns; [walkSymlinks_terminates] shows that this is
    always enough.  The Accept parser takes the length of the header plus one
    ([ParseAccept_total_and_valid]).  The directory scan takes
    [scan_fuel = subgroupScanLimit + 2], beyond which more fuel changes
    nothing ([readProjects_fuel]).  The loop of [zip_Root] takes the number of
    its turns, of which one is enough ([zip_Root_one_turn]).  Reading a layout
    and its literal text takes their lengths ([HeaderTime]).  The retry loop is
    a step relation whose runs end ([Retrieve_terminates]).  The other
    recursions are structural.

    ** Not modelled

    Mocks, stubs and test helpers; error tracking, log messages and the
    increments of metrics inside the other components; the flag library, JSON
    encoding and the time of day.  [ToLower] is that of ASCII, which host names
    are; for other letters [strings.ToLower] does more.  A dereference of a nil
    domain, which panics, is the error [errPanic] of [GitlabSource]: [Requests]
    ends the request by a panic instead, and the theorems on answers exclude
    lookups with neither an error nor a domain.  [App], [Domain] and [Auth]
    have one resolver per domain, a request of them one state of the sources;
    the lookups of the single calls are in [LiveDomain] and [Requests].  The
    states of the sources of a started application ([Startup]) are those of
    [GitlabSource], [Cache], [Retriever] and [DiskScan].  [Requests] runs the handlers from the
    routing on over the cache and the GitLab source; sessions, the artifact
    server and the sites do not change while a request of it runs, and the
    disk source is run in [DiskScan] alone.  A request that reads an archive opens
    it once, and the URL of its resource does not change while it reads one
    page ([ZipSite]); that every URL set later has the same key is in
    [ZipVfs]. *)

From stdpp Require Export gmap strings list fin_maps.
From Stdlib Require Export ZArith Lia ZifyNat Ascii.
From Stdlib Require String.

(** ** Strings

    A Go [string] is an immutable sequence of bytes: here a list of 8-bit
    [ascii] values.  [&"abc"] is the literal. *)

Abbreviation str := (list ascii).

Definition go (s : string) : str := String.list_ascii_of_string s.
#[global] Arguments go : simpl never.

Declare Scope go_scope.
Delimit Scope go_scope with go.

Notation "& s" := (go s%string) (at level 5, s at level 0, format "& s").

(** The double quote byte (a string literal of this development never holds
    one). *)
Definition dquote : ascii := ascii_of_nat 34.

(** ** Errors and results

    The Go type [error].  A package level [errors.New] value is identified
    by its qualified name ([ErrSentinel]); an error made on the spot by
    [errors.New] or [fmt.Errorf] carries its message ([ErrMsg]); the [%w]
    verb of [fmt.Errorf] wraps ([ErrWrap]); the remaining constructors are
    the error struct types of the program. *)

Inductive error : Type :=
  | ErrSentinel (name : str)
  | ErrMsg (msg : str)
  | ErrWrap (msg : str) (inner : error)
  | ErrNotExist (inner : error)                       (* vfs.ErrNotExist *)
  | LocationDirectoryError (FullPath RelativePath : str)
  | LocationFileNoExtensionError (FullPath : str)
  | InvalidPathError (rootPath requestedPath : str).

#[export] Instance error_eq_dec : EqDecision error.
Proof. solve_decision. Defined.

(** [errors.Is]: equality with the target or with what it wraps.  Only
    [fmt.Errorf]'s [%w] gives an [Unwrap] method; [vfs.ErrNotExist] has
    none. *)
Fixpoint errors_Is (e target : error) : bool :=
  bool_decide (e = target) ||
  match e with ErrWrap _ i => errors_Is i target | _ => false end.

(** A Go result pair [(v, err)] in which exactly one side is meaningful. *)
Inductive result (A : Type) : Type :=
  | Ok (a : A)
  | Err (e : error).
Arguments Ok {A} _.
Arguments Err {A} _.

Definition is_ok {A} (r : result A) : bool :=
  match r with Ok _ => true | Err _ => false end.

Definition result_bind {A B} (r : result A) (f : A -> result B) : result B :=
  match r with Ok a => f a | Err e => Err e end.

Notation "'let?' x ':=' r 'in' k" := (result_bind r (fun x => k))
  (at level 10, x name, r at level 100, k at level 200,
   format "'[' 'let?'  x  ':='  r  'in' ']' '//' k") : go_scope.

Open Scope go_scope.

Lemma result_bind_ok {A B} (r : result A) (f : A -> result B) b :
  result_bind r f = Ok b <-> exists a, r = Ok a /\ f a = Ok b.
Proof.
  destruct r as [a|e]; simpl.
  - split; [eauto|]. by intros (a' & [= <-] & H).
  - split; [done|]. by intros (a & [=] & _).
Qed.

(** ** Machine integers

    Go's [int] and [int64] are 64-bit two's complement on the supported
    platforms. *)

Definition wrap64 (z : Z) : Z := ((z + 2 ^ 63) mod 2 ^ 64 - 2 ^ 63)%Z.
Definition in_int64 (z : Z) : Prop := (- 2 ^ 63 <= z < 2 ^ 63)%Z.
Definition wrapu64 (z : Z) : Z := (z mod 2 ^ 64)%Z.

Lemma wrap64_in z : in_int64 (wrap64 z).
Proof.
  unfold wrap64, in_int64.
  pose proof (Z.mod_pos_bound (z + 2 ^ 63) (2 ^ 64) ltac:(lia)). lia.
Qed.

Lemma wrap64_small z : in_int64 z -> wrap64 z = z.
Proof.
  unfold wrap64, in_int64. intros H. rewrite Z.mod_small by lia. lia.
Qed.

(** Two [int64] values sum to a value that is off by at most one wrap. *)
Lemma wrap64_sum a b :
  in_int64 a -> in_int64 b ->
  wrap64 (a + b) = (a + b)%Z \/ wrap64 (a + b) = (a + b - 2 ^ 64)%Z
  \/ wrap64 (a + b) = (a + b + 2 ^ 64)%Z.
Proof.
  unfold wrap64, in_int64. intros Ha Hb.
  destruct (Z.lt_ge_cases (a + b) (- 2 ^ 63)).
  - right; right.
    rewrite <- (Z_mod_plus_full (a + b + 2 ^ 63) 1 (2 ^ 64)).
    rewrite Z.mod_small; lia.
  - destruct (Z.lt_ge_cases (a + b) (2 ^ 63)).
    + left. rewrite Z.mod_small; lia.
    + right; left.
      rewrite <- (Z_mod_plus_full (a + b + 2 ^ 63) (-1) (2 ^ 64)).
      rewrite Z.mod_small; lia.
Qed.

(** ** Tactics and hints of the development *)

Create HintDb pages.
Create Rewrite HintDb pages.
#[export] Hint Resolve wrap64_in wrap64_small : pages.

(** Case analysis on every [match]/[if] scrutinee, keeping the equations. *)
Ltac split_match :=
  match goal with
  | |- context [match ?x with _ => _ end] =>
      lazymatch x with
      | context [match _ with _ => _ end] => fail
      | _ => destruct x eqn:?
      end
  end.

Ltac split_match_in H :=
  match type of H with
  | context [match ?x with _ => _ end] =>
      lazymatch x with
      | context [match _ with _ => _ end] => fail
      | _ => destruct x eqn:?
      end
  end.

(** Turn boolean tests in the context into propositions. *)
Ltac bools :=
  repeat match goal with
  | H : _ && _ = true |- _ => apply andb_true_iff in H; destruct H
  | H : _ || _ = false |- _ => apply orb_false_iff in H; destruct H
  | H : negb _ = true |- _ => apply negb_true_iff in H
  | H : negb _ = false |- _ => apply negb_false_iff in H
  | H : bool_decide _ = true |- _ => apply bool_decide_eq_true in H
  | H : bool_decide _ = false |- _ => apply bool_decide_eq_false in H
  | H : (_ <? _)%Z = true |- _ => apply Z.ltb_lt in H
  | H : (_ <? _)%Z = false |- _ => apply Z.ltb_ge in H
  | H : (_ <=? _)%Z = true |- _ => apply Z.leb_le in H
  | H : (_ <=? _)%Z = false |- _ => apply Z.leb_gt in H
  | H : (_ =? _)%Z = true |- _ => apply Z.eqb_eq in H
  | H : (_ =? _)%Z = false |- _ => apply Z.eqb_neq in H
  | H : (_ <? _)%nat = true |- _ => apply Nat.ltb_lt in H
  | H : (_ <? _)%nat = false |- _ => apply Nat.ltb_ge in H
  | H : (_ <=? _)%nat = true |- _ => apply Nat.leb_le in H
  | H : (_ <=? _)%nat = false |- _ => apply Nat.leb_gt in H
  end.

(** Evaluate a closed statement about an executable definition. *)
Ltac run := vm_compute; reflexivity.

(** Decide a closed proposition with a [Decision] instance. *)
Ltac decide_now := apply (bool_decide_unpack _); vm_compute; exact I.

(** Arithmetic with division and remainder by constants. *)
Ltac divmod := zify; Z.div_mod_to_equations; lia.
