(* ===== verification/GoStd.v ===== *)
(** * The Go standard library functions the daemon uses on strings and paths

    Packages [strings], [path], [path/filepath] (on Unix) and [net]
    ([SplitHostPort]).  Each is written as the documented algorithm of the
    Go library; [ToLower] covers the ASCII range, which is what host names,
    header tokens and path components are made of here.  Slash handling is
    by components: a path is split at every ['/'] byte. *)

From S2P Require Import Prelude.

(** ** Package strings *)

Definition HasPrefix (s prefix : str) : bool := bool_decide (prefix `prefix_of` s).
Definition HasSuffix (s suffix : str) : bool := bool_decide (suffix `suffix_of` s).

#[global] Arguments HasPrefix : simpl never.
#[global] Arguments HasSuffix : simpl never.

Definition TrimPrefix (s prefix : str) : str :=
  if HasPrefix s prefix then drop (length prefix) s else s.
Definition TrimSuffix (s suffix : str) : str :=
  if HasSuffix s suffix then take (length s - length suffix) s else s.

(** Index of the first and of the last occurrence of a byte. *)
Fixpoint IndexByte (s : str) (c : ascii) : option nat :=
  match s with
  | [] => None
  | x :: s' => if decide (x = c) then Some 0 else S <$> IndexByte s' c
  end.
Fixpoint LastIndexByte (s : str) (c : ascii) : option nat :=
  match s with
  | [] => None
  | x :: s' =>
      match LastIndexByte s' c with
      | Some i => Some (S i)
      | None => if decide (x = c) then Some 0 else None
      end
  end.

Definition ContainsByte (s : str) (c : ascii) : bool :=
  match IndexByte s c with Some _ => true | None => false end.

(** [strings.Contains]: some suffix of [s] starts with [sub]. *)
Fixpoint Contains (s sub : str) : bool :=
  HasPrefix s sub ||
  match s with [] => false | _ :: s' => Contains s' sub end.

(** [strings.ToLower] on ASCII bytes. *)
Definition lower_byte (c : ascii) : ascii :=
  let n := nat_of_ascii c in
  if (65 <=? n) && (n <=? 90) then ascii_of_nat (n + 32) else c.
Definition ToLower (s : str) : str := lower_byte <$> s.

(** Put a byte in front of the first field. *)
Definition cons_field (c : ascii) (l : list str) : list str :=
  match l with [] => [[c]] | f :: l' => (c :: f) :: l' end.

(** [strings.Split] with a one byte separator. *)
Fixpoint Split (s : str) (c : ascii) : list str :=
  match s with
  | [] => [[]]
  | x :: s' => if decide (x = c) then [] :: Split s' c else cons_field x (Split s' c)
  end.

(** [strings.SplitN] with a one byte separator and [n >= 1]: at most [n]
    fields, the last one holds the unsplit remainder. *)
Fixpoint SplitN (s : str) (c : ascii) (n : nat) : list str :=
  match s with
  | [] => [[]]
  | x :: s' =>
      if n <=? 1 then [s]
      else if decide (x = c) then [] :: SplitN s' c (n - 1)
      else cons_field x (SplitN s' c n)
  end.

(** [strings.Join] *)
Fixpoint Join (elems : list str) (sep : str) : str :=
  match elems with
  | [] => []
  | [e] => e
  | e :: rest => e ++ sep ++ Join rest sep
  end.

(** [strings.TrimLeft] / [TrimRight] with a cutset of one byte. *)
Fixpoint TrimLeftByte (s : str) (c : ascii) : str :=
  match s with
  | [] => []
  | x :: s' => if decide (x = c) then TrimLeftByte s' c else s
  end.
Definition TrimRightByte (s : str) (c : ascii) : str :=
  reverse (TrimLeftByte (reverse s) c).

(** [strings.TrimSpace] on ASCII white space. *)
Definition is_space_byte (c : ascii) : bool :=
  bool_decide (nat_of_ascii c ∈ [9; 10; 11; 12; 13; 32]).
Fixpoint trim_space_left (s : str) : str :=
  match s with
  | [] => []
  | x :: s' => if is_space_byte x then trim_space_left s' else s
  end.
Definition TrimSpace (s : str) : str :=
  reverse (trim_space_left (reverse (trim_space_left s))).

(** *** Prefixes, suffixes and fields *)

Lemma HasPrefix_spec s p : HasPrefix s p = true <-> exists k, s = p ++ k.
Proof. unfold HasPrefix. rewrite bool_decide_eq_true. reflexivity. Qed.

Lemma HasSuffix_spec s p : HasSuffix s p = true <-> exists k, s = k ++ p.
Proof. unfold HasSuffix. rewrite bool_decide_eq_true. reflexivity. Qed.

Lemma HasPrefix_app p k : HasPrefix (p ++ k) p = true.
Proof. apply HasPrefix_spec. eauto. Qed.

Lemma HasSuffix_app k p : HasSuffix (k ++ p) p = true.
Proof. apply HasSuffix_spec. eauto. Qed.

Lemma TrimPrefix_app p k : TrimPrefix (p ++ k) p = k.
Proof. unfold TrimPrefix. rewrite HasPrefix_app. apply drop_app_length. Qed.

Lemma TrimSuffix_app k p : TrimSuffix (k ++ p) p = k.
Proof.
  unfold TrimSuffix. rewrite HasSuffix_app, length_app.
  replace (_ + _ - _) with (length k) by lia. apply take_app_length.
Qed.

Lemma TrimPrefix_restore s p : HasPrefix s p = true -> p ++ TrimPrefix s p = s.
Proof. intros [k ->]%HasPrefix_spec. by rewrite TrimPrefix_app. Qed.

(** [TrimPrefix] returns its argument exactly when nothing was trimmed. *)
Lemma TrimPrefix_changed s p :
  p <> [] -> TrimPrefix s p <> s <-> HasPrefix s p = true.
Proof.
  intros Hp. unfold TrimPrefix. destruct (HasPrefix s p) eqn:E; [|naive_solver].
  split; [done|]. intros _ Heq. apply HasPrefix_spec in E as [k ->].
  rewrite drop_app_length in Heq.
  apply (f_equal length) in Heq. rewrite length_app in Heq.
  destruct p; simpl in *; [done|lia].
Qed.

#[export] Hint Resolve HasPrefix_app HasSuffix_app : pages.
#[export] Hint Rewrite TrimPrefix_app TrimSuffix_app : pages.

Lemma Split_nonempty s c : Split s c <> [].
Proof.
  destruct s as [|x s]; simpl; [done|].
  case_decide; [done|]. destruct (Split s c); done.
Qed.

Lemma cons_field_app x l m : l <> [] -> cons_field x (l ++ m) = cons_field x l ++ m.
Proof. by destruct l. Qed.

Lemma Split_app s t c : Split (s ++ c :: t) c = Split s c ++ Split t c.
Proof.
  induction s as [|x s IH]; simpl.
  - by rewrite decide_True.
  - case_decide; rewrite IH; [done|].
    apply cons_field_app, Split_nonempty.
Qed.

Lemma Split_no_sep s c : c ∉ s -> Split s c = [s].
Proof.
  induction s as [|x s IH]; simpl; intros H; [done|].
  apply not_elem_of_cons in H as [Hx Hs].
  rewrite decide_False by congruence. by rewrite IH.
Qed.

Lemma Split_fields s c : Forall (fun f => c ∉ f) (Split s c).
Proof.
  induction s as [|x s IH]; simpl.
  - constructor; [apply not_elem_of_nil|constructor].
  - case_decide; [constructor; [apply not_elem_of_nil|done]|].
    destruct (Split s c) as [|f l]; simpl; inversion IH; subst.
    + constructor; [|constructor]. set_solver.
    + constructor; [|done]. set_solver.
Qed.

Lemma Join_cons e l sep : l <> [] -> Join (e :: l) sep = e ++ sep ++ Join l sep.
Proof. by destruct l. Qed.

Lemma Join_app l m sep :
  l <> [] -> m <> [] -> Join (l ++ m) sep = Join l sep ++ sep ++ Join m sep.
Proof.
  intros Hl Hm. induction l as [|e l IH]; [done|].
  destruct l as [|e' l'].
  - simpl app. by rewrite Join_cons.
  - rewrite <- app_comm_cons, Join_cons by done.
    rewrite IH, (Join_cons e (e' :: l')) by done. by rewrite <- !app_assoc.
Qed.

(** Splitting and joining are inverse. *)
Lemma Join_Split s c : Join (Split s c) [c] = s.
Proof.
  induction s as [|x s IH]; simpl; [done|].
  pose proof (Split_nonempty s c).
  case_decide as Hx.
  - rewrite Join_cons by done. rewrite IH. by subst.
  - destruct (Split s c) as [|f [|g l]] eqn:E; [done| |]; simpl in *; by rewrite <- IH.
Qed.

Lemma Split_Join l c :
  l <> [] -> Forall (fun f => c ∉ f) l -> Split (Join l [c]) c = l.
Proof.
  induction l as [|e l IH]; intros Hne HF; [done|].
  inversion HF; subst.
  destruct l as [|e' l'].
  - simpl. by apply Split_no_sep.
  - rewrite Join_cons by done. change ([c] ++ ?t) with (c :: t).
    rewrite (Split_app e (Join (e' :: l') [c]) c), Split_no_sep, IH by done. done.
Qed.

Lemma ToLower_app s t : ToLower (s ++ t) = ToLower s ++ ToLower t.
Proof. apply fmap_app. Qed.

Lemma lower_byte_idem c : lower_byte (lower_byte c) = lower_byte c.
Proof. destruct c as [[] [] [] [] [] [] [] []]; reflexivity. Qed.

Lemma ToLower_idem s : ToLower (ToLower s) = ToLower s.
Proof.
  unfold ToLower. rewrite <- list_fmap_compose.
  apply list_fmap_ext. intros i c _. apply lower_byte_idem.
Qed.

Lemma lower_byte_slash c : lower_byte c = "/"%char <-> c = "/"%char.
Proof. destruct c as [[] [] [] [] [] [] [] []]; vm_compute; split; congruence. Qed.

(** Lower-casing commutes with splitting a path. *)
Lemma Split_ToLower s : Split (ToLower s) "/" = ToLower <$> Split s "/".
Proof.
  induction s as [|x s IH]; [done|].
  change (ToLower (x :: s)) with (lower_byte x :: ToLower s).
  simpl Split. case_decide as Hx.
  - apply lower_byte_slash in Hx as ->.
    rewrite decide_True by done. by rewrite IH.
  - rewrite decide_False by (rewrite <- lower_byte_slash; done).
    rewrite IH. by destruct (Split s "/").
Qed.

Lemma LastIndexByte_None s c : c ∉ s -> LastIndexByte s c = None.
Proof.
  induction s as [|x s IH]; simpl; intros H; [done|].
  apply not_elem_of_cons in H as [Hx Hs]. rewrite IH by done.
  by rewrite decide_False by congruence.
Qed.

Lemma LastIndexByte_last s t c : c ∉ t -> LastIndexByte (s ++ c :: t) c = Some (length s).
Proof.
  intros Ht. induction s as [|x s IH]; simpl.
  - rewrite LastIndexByte_None by done. by rewrite decide_True.
  - by rewrite IH.
Qed.

Lemma LastIndexByte_lookup s c r : LastIndexByte s c = Some r -> s !! r = Some c.
Proof.
  revert r. induction s as [|x s IH]; intros r; simpl; [done|].
  destruct (LastIndexByte s c) as [i|].
  - intros [= <-]. simpl. by apply IH.
  - case_decide; [|done]. intros [= <-]. by subst.
Qed.

Lemma IndexByte_app_absent p s c :
  c ∉ p -> IndexByte (p ++ s) c = (fun i => length p + i) <$> IndexByte s c.
Proof.
  intros Hp. induction p as [|x p IH]; simpl.
  - by destruct (IndexByte s c).
  - rewrite decide_False by set_solver. rewrite IH by set_solver. by destruct (IndexByte s c).
Qed.

(** ** SplitN *)

Lemma SplitN_field f c t n :
  c ∉ f -> 1 < n -> SplitN (f ++ c :: t) c n = f :: SplitN t c (n - 1).
Proof.
  intros Hf Hn. induction f as [|x f IH]; cbn [app SplitN].
  - assert ((n <=? 1) = false) as -> by (by apply Nat.leb_gt). by rewrite decide_True.
  - assert ((n <=? 1) = false) as -> by (by apply Nat.leb_gt).
    rewrite decide_False by set_solver. rewrite IH by set_solver. done.
Qed.

(** Enough room for the fields in front leaves the rest to be split. *)
Lemma SplitN_Join_app l c t n :
  Forall (fun f => c ∉ f) l -> l <> [] -> 1 <= n ->
  SplitN (Join l [c] ++ c :: t) c (length l + n) = l ++ SplitN t c n.
Proof.
  intros HF Hl Hn. induction HF as [|f l Hf HF IH]; [done|].
  destruct l as [|f' l].
  - cbn [Join length]. rewrite SplitN_field by (done || lia).
    replace (1 + n - 1) with n by lia. done.
  - rewrite Join_cons by done. rewrite <- !app_assoc. cbn [app].
    change (length (f :: f' :: l)) with (S (length (f' :: l))).
    rewrite SplitN_field by (done || (simpl; lia)).
    replace (S (length (f' :: l)) + n - 1) with (length (f' :: l) + n) by lia.
    by rewrite IH.
Qed.

Lemma SplitN_no_sep s c n : c ∉ s -> SplitN s c n = [s].
Proof.
  induction s as [|x s IH]; [done|]. intros H. cbn [SplitN]. destruct (n <=? 1); [done|].
  rewrite decide_False by set_solver. rewrite IH by set_solver. done.
Qed.

Lemma SplitN_Join l c n :
  Forall (fun f => c ∉ f) l -> l <> [] -> length l <= n -> SplitN (Join l [c]) c n = l.
Proof.
  intros HF. revert n. induction HF as [|f l Hf HF IH]; [done|]. intros n _ Hn.
  destruct l as [|f' l]; [by apply SplitN_no_sep|].
  rewrite Join_cons by done. change ([c] ++ ?x) with (c :: x). simpl in Hn.
  rewrite SplitN_field by (done || lia). rewrite IH by (done || (simpl; lia)). done.
Qed.

Lemma ContainsByte_false s c : ContainsByte s c = false <-> c ∉ s.
Proof.
  unfold ContainsByte. induction s as [|x s IH]; cbn [IndexByte].
  - split; [intros _; apply not_elem_of_nil|done].
  - case_decide as Hx.
    + split; [done|]. intros H. exfalso. apply H. rewrite Hx. by left.
    + rewrite not_elem_of_cons. destruct (IndexByte s c); simpl; naive_solver.
Qed.
