(* ===== verification/GoPath.v ===== *)
(** * Packages path, path/filepath (Unix) and net.SplitHostPort

    [Clean] works on the components of a path: it drops empty and ["."]
    components, lets [".."] cancel the component before it, drops [".."] at
    the root and keeps leading [".."] of a relative path. *)

From S2P Require Import Prelude GoStd.

Definition slash : ascii := "/"%char.

Definition components (p : str) : list str := Split p slash.

Definition IsAbs (p : str) : bool := HasPrefix p [slash].

(** One component of [Clean]; [acc] is the output so far, last first. *)
Definition clean_step (rooted : bool) (acc : list str) (c : str) : list str :=
  if decide (c = []) then acc
  else if decide (c = &".") then acc
  else if decide (c = &"..") then
    match acc with
    | [] => if rooted then [] else [c]
    | a :: acc' => if decide (a = &"..") then c :: acc else acc'
    end
  else c :: acc.

Definition clean_components (rooted : bool) (cs : list str) : list str :=
  reverse (foldl (clean_step rooted) [] cs).

Definition Clean (p : str) : str :=
  if decide (p = []) then &"."
  else
    let rooted := IsAbs p in
    let out := Join (clean_components rooted (components p)) [slash] in
    if rooted then slash :: out
    else if decide (out = []) then &"." else out.

(** [path.Join] and [filepath.Join]: leading empty elements are ignored. *)
Fixpoint path_Join (elems : list str) : str :=
  match elems with
  | [] => []
  | e :: rest => if decide (e = []) then path_Join rest else Clean (Join elems [slash])
  end.

(** [path.Split]: directory part with its final slash, and file part. *)
Definition path_Split (p : str) : str * str :=
  match LastIndexByte p slash with
  | Some i => (take (S i) p, drop (S i) p)
  | None => ([], p)
  end.

(** [filepath.Dir] *)
Definition Dir (p : str) : str := Clean (path_Split p).1.

(** [filepath.Base] *)
Definition Base (p : str) : str :=
  if decide (p = []) then &"."
  else
    let q := TrimRightByte p slash in
    let b := (path_Split q).2 in
    if decide (b = []) then [slash] else b.

(** [filepath.Ext]: from the last dot of the last component. *)
Definition Ext (p : str) : str :=
  let b := (path_Split p).2 in
  match LastIndexByte b "."%char with Some i => drop i b | None => [] end.

(** [filepath.Rel] for two absolute paths: drop the common prefix of the
    cleaned paths, go up once per remaining base component. *)
Fixpoint strip_common (b t : list str) : list str * list str :=
  match b, t with
  | x :: b', y :: t' => if decide (x = y) then strip_common b' t' else (b, t)
  | _, _ => (b, t)
  end.
Definition Rel (base targ : str) : str :=
  let '(b, t) := strip_common (clean_components true (components base))
                              (clean_components true (components targ)) in
  let out := Join (replicate (length b) &".." ++ t) [slash] in
  if decide (out = []) then &"." else out.

(** [net.SplitHostPort], host part only ([None] is the error). *)
Definition SplitHostPort (hostport : str) : option str :=
  match LastIndexByte hostport ":" with
  | None => None
  | Some i =>
      if HasPrefix hostport &"[" then
        match IndexByte hostport "]" with
        | None => None
        | Some e =>
            if decide (S e = i) then
              if ContainsByte (drop 1 hostport) "[" then None
              else if ContainsByte (drop (S e) hostport) "]" then None
              else Some (take (e - 1) (drop 1 hostport))
            else None
        end
      else
        let host := take i hostport in
        if ContainsByte host ":" then None
        else if ContainsByte hostport "[" then None
        else if ContainsByte hostport "]" then None
        else Some host
  end.

(** ** Components of a cleaned path *)

(** A component that names an entry of a directory. *)
Definition ordinary (c : str) : Prop :=
  c <> [] /\ c <> &"." /\ c <> &".." /\ slash ∉ c.

#[export] Instance ordinary_dec c : Decision (ordinary c).
Proof. unfold ordinary. apply _. Defined.

(** An absolute path in the form [Clean] gives it. *)
Definition abs_path (cs : list str) : str := slash :: Join cs [slash].
#[global] Arguments abs_path : simpl never.

Lemma components_abs_path cs :
  Forall ordinary cs -> cs <> [] -> components (abs_path cs) = [] :: cs.
Proof.
  intros HF Hne. unfold components, abs_path. simpl. f_equal.
  apply Split_Join; [done|]. eapply Forall_impl; [done|]. by intros c (?&?&?&?).
Qed.

Lemma clean_step_ordinary rooted acc c : ordinary c -> clean_step rooted acc c = c :: acc.
Proof. intros (?&?&?&_). unfold clean_step. by rewrite !decide_False by done. Qed.

Lemma foldl_clean_ordinary rooted cs : forall acc,
  Forall ordinary cs -> foldl (clean_step rooted) acc cs = reverse cs ++ acc.
Proof.
  induction cs as [|c cs IH]; intros acc HF; [done|].
  inversion HF; subst. simpl. rewrite clean_step_ordinary, IH by done.
  by rewrite reverse_cons, <- app_assoc.
Qed.

Lemma foldl_clean_rooted cs : forall acc,
  Forall ordinary acc -> Forall (fun f => slash ∉ f) cs ->
  Forall ordinary (foldl (clean_step true) acc cs).
Proof.
  induction cs as [|c cs IH]; intros acc HA HF; [done|].
  inversion HF; subst. simpl. apply IH; [|done].
  unfold clean_step. repeat case_decide; try done.
  - destruct acc as [|a acc]; [constructor|]. apply Forall_cons in HA as [Ha HA].
    case_decide; [|done]. by destruct Ha as (_&_&?&_).
  - constructor; [|done]. by repeat split.
Qed.

(** The components of a cleaned absolute path are ordinary: no ["."],
    no [".."], no empty component. *)
Lemma clean_components_rooted p : Forall ordinary (clean_components true (components p)).
Proof.
  unfold clean_components. apply Forall_reverse.
  apply foldl_clean_rooted; [constructor|apply Split_fields].
Qed.

Lemma Clean_abs p :
  IsAbs p = true -> Clean p = abs_path (clean_components true (components p)).
Proof.
  intros H. unfold Clean. rewrite H, decide_False; [done|].
  intros ->. by compute in H.
Qed.

Lemma IsAbs_abs_path cs : IsAbs (abs_path cs) = true.
Proof. apply HasPrefix_spec. by exists (Join cs [slash]). Qed.

Lemma components_slash p q : components (p ++ slash :: q) = components p ++ components q.
Proof. apply Split_app. Qed.

Lemma clean_components_ordinary rooted cs :
  Forall ordinary cs -> clean_components rooted cs = cs.
Proof.
  intros H. unfold clean_components.
  rewrite foldl_clean_ordinary, app_nil_r by done. apply reverse_involutive.
Qed.

Lemma foldl_clean_nil rooted acc cs :
  foldl (clean_step rooted) acc ([] :: cs) = foldl (clean_step rooted) acc cs.
Proof. done. Qed.

(** [Clean] leaves a path that is already in absolute clean form alone. *)
Lemma Clean_abs_path cs : Forall ordinary cs -> Clean (abs_path cs) = abs_path cs.
Proof.
  intros HF. rewrite Clean_abs by apply IsAbs_abs_path. f_equal.
  destruct cs as [|c cs]; [done|].
  rewrite components_abs_path by done.
  unfold clean_components. rewrite foldl_clean_nil.
  by apply clean_components_ordinary.
Qed.

Lemma Clean_idem_abs p : IsAbs p = true -> Clean (Clean p) = Clean p.
Proof.
  intros H. rewrite (Clean_abs p H).
  apply Clean_abs_path, clean_components_rooted.
Qed.

(** Joining below an absolute clean directory continues cleaning from it. *)
Lemma path_Join_below cs p :
  Forall ordinary cs -> cs <> [] ->
  path_Join [abs_path cs; p]
  = abs_path (reverse (foldl (clean_step true) (reverse cs) (components p))).
Proof.
  intros HF Hne. unfold path_Join.
  rewrite decide_False by (unfold abs_path; done).
  change (Join [abs_path cs; p] [slash]) with (abs_path cs ++ slash :: p).
  rewrite Clean_abs.
  2:{ apply HasPrefix_spec. eexists. reflexivity. }
  rewrite components_slash, components_abs_path by done.
  unfold clean_components. rewrite foldl_app, foldl_clean_nil.
  rewrite (foldl_clean_ordinary true cs []), app_nil_r by done. done.
Qed.

Lemma abs_path_app cs ds :
  cs <> [] -> ds <> [] -> abs_path (cs ++ ds) = abs_path cs ++ slash :: Join ds [slash].
Proof. intros H1 H2. unfold abs_path. by rewrite Join_app. Qed.

Lemma Join_inj l m :
  l <> [] -> m <> [] -> Forall ordinary l -> Forall ordinary m ->
  Join l [slash] = Join m [slash] -> l = m.
Proof.
  intros Hl Hm HFl HFm H. apply (f_equal (fun s => Split s slash)) in H.
  rewrite !Split_Join in H; try done;
    (eapply Forall_impl; [done|]); by intros c (?&?&?&?).
Qed.

Lemma Join_nonempty l : l <> [] -> Forall ordinary l -> Join l [slash] <> [].
Proof.
  destruct l as [|c l]; [done|]. intros _ HF. inversion HF as [|?? (Hc&_) _]; subst.
  destruct l; [done|]. rewrite Join_cons by done. by destruct c.
Qed.

Lemma abs_path_inj cs ds :
  Forall ordinary cs -> Forall ordinary ds -> abs_path cs = abs_path ds -> cs = ds.
Proof.
  intros H1 H2 [= H]. destruct cs, ds; try done.
  - by apply (Join_nonempty (l :: ds)) in H2; [rewrite <- H in H2|].
  - by apply (Join_nonempty (l :: cs)) in H1; [rewrite H in H1|].
  - by apply Join_inj in H.
Qed.

(** [Clean] leaves a relative path of ordinary components alone. *)
Lemma IsAbs_Join cs : Forall ordinary cs -> IsAbs (Join cs [slash]) = false.
Proof.
  intros HF. destruct cs as [|c cs]; [done|].
  inversion HF as [|?? (Hc & _ & _ & Hs) _]; subst.
  unfold IsAbs, HasPrefix. apply bool_decide_eq_false. intros [k Hk].
  apply Hs. destruct c as [|x c]; [done|].
  assert (x = slash) as -> by (destruct cs; simpl in Hk; congruence).
  apply list_elem_of_here.
Qed.

Lemma Clean_Join cs : Forall ordinary cs -> cs <> [] -> Clean (Join cs [slash]) = Join cs [slash].
Proof.
  intros HF Hne. pose proof (Join_nonempty cs Hne HF) as HJ. unfold Clean.
  rewrite decide_False by done. rewrite IsAbs_Join by done.
  assert (Hc : components (Join cs [slash]) = cs).
  { apply Split_Join; [done|]. eapply Forall_impl; [done|]. by intros c (?&?&?&?). }
  rewrite Hc, clean_components_ordinary by done. by rewrite decide_False.
Qed.

(** The directory of an absolute clean path. *)
Lemma Dir_abs_path ds c :
  Forall ordinary ds -> ds <> [] -> ordinary c -> Dir (abs_path (ds ++ [c])) = abs_path ds.
Proof.
  intros HF Hne (Hc & _ & _ & Hs). unfold Dir, path_Split.
  rewrite abs_path_app by done. simpl (Join [c] _).
  rewrite LastIndexByte_last by done. cbn [fst].
  replace (S (length (abs_path ds))) with (length (abs_path ds ++ [slash]))
    by (rewrite length_app; simpl; lia).
    rewrite (cons_middle slash (abs_path ds) c), app_assoc, take_app_length.
  rewrite Clean_abs by (apply HasPrefix_spec; eexists; reflexivity).
  change ([slash]) with (slash :: []). rewrite components_slash, components_abs_path by done.
  unfold clean_components. rewrite foldl_app, foldl_clean_nil.
  rewrite (foldl_clean_ordinary true ds []), app_nil_r by done.
  change (foldl _ ?a (components [])) with a. by rewrite reverse_involutive.
Qed.
