(* ===== verification/Metrics.v ===== *)
(** * Metrics

    metrics/metrics.go: the collectors as data, and their registration.  The
    Prometheus client is a parameter; its documented behaviour is that it
    takes a collector with valid names whose name is new, and that a vector
    is used with one value per label. *)

From S2P Require Import Prelude GoStd.

Inductive metric_kind : Type := Counter | Gauge | Histogram.

(** Bucket bounds are in thousandths; without them the library has defaults. *)
Record Collector : Type := mkCollector {
  m_kind : metric_kind; m_Name : str; m_Help : str; m_Buckets : list Z; m_labels : list str }.

Fixpoint ExponentialBuckets (start factor : Z) (count : nat) : list Z :=
  match count with
  | 0 => []
  | S count => start :: ExponentialBuckets (start * factor) factor count
  end.

Definition DomainsServed : Collector :=
  mkCollector Gauge &"gitlab_pages_served_domains"
    &"The number of sites served by this Pages app"
    [] [].
Definition DomainFailedUpdates : Collector :=
  mkCollector Counter &"gitlab_pages_domains_failed_total"
    &"The total number of site updates that have failed since daemon start"
    [] [].
Definition DomainUpdates : Collector :=
  mkCollector Counter &"gitlab_pages_domains_updated_total"
    &"The total number of site updates successfully processed since daemon start"
    [] [].
Definition DomainLastUpdateTime : Collector :=
  mkCollector Gauge &"gitlab_pages_last_domain_update_seconds"
    &"UNIX timestamp of the last update"
    [] [].
Definition DomainsConfigurationUpdateDuration : Collector :=
  mkCollector Gauge &"gitlab_pages_domains_configuration_update_duration"
    &"The time (in seconds) it takes to update domains configuration from disk"
    [] [].
Definition DomainsSourceCacheHit : Collector :=
  mkCollector Counter &"gitlab_pages_domains_source_cache_hit"
    &"The number of GitLab domains API cache hits"
    [] [].
Definition DomainsSourceCacheMiss : Collector :=
  mkCollector Counter &"gitlab_pages_domains_source_cache_miss"
    &"The number of GitLab domains API cache misses"
    [] [].
Definition DomainsSourceFailures : Collector :=
  mkCollector Counter &"gitlab_pages_domains_source_failures_total"
    &"The number of GitLab API calls that failed"
    [] [].
Definition ServerlessRequests : Collector :=
  mkCollector Counter &"gitlab_pages_serverless_requests"
    &"The number of total GitLab Serverless requests served"
    [] [].
Definition ServerlessLatency : Collector :=
  mkCollector Histogram &"gitlab_pages_serverless_latency"
    &"Serverless serving roundtrip duration"
    [] [].
Definition DomainsSourceAPIReqTotal : Collector :=
  mkCollector Counter &"gitlab_pages_domains_source_api_requests_total"
    &"The number of GitLab domains API calls with different status codes"
    [] [&"status_code"].
Definition DomainsSourceAPICallDuration : Collector :=
  mkCollector Histogram &"gitlab_pages_domains_source_api_call_duration"
    &"The time (in seconds) it takes to get a response from the GitLab domains API"
    [] [&"status_code"].
Definition DomainsSourceAPITraceDuration : Collector :=
  mkCollector Histogram &"gitlab_pages_domains_source_api_trace_duration"
    &"Domain source API request tracing duration in seconds for different connection stages (see Go's httptrace.ClientTrace)"
    ([1; 5; 10; 20; 50; 100; 250; 500; 1000; 2000; 5000; 10000; 20000; 50000])%Z [&"request_stage"].
Definition DiskServingFileSize : Collector :=
  mkCollector Histogram &"gitlab_pages_disk_serving_file_size_bytes"
    &"The size in bytes for each file that has been served"
    (ExponentialBuckets 1000 10 9) [&"vfs_name"].
Definition ServingTime : Collector :=
  mkCollector Histogram &"gitlab_pages_serving_time_seconds"
    &"The time (in seconds) taken to serve a file"
    ([100; 500; 1000; 2500; 5000; 10000; 60000; 180000])%Z [].
Definition VFSOperations : Collector :=
  mkCollector Counter &"gitlab_pages_vfs_operations_total"
    &"The number of VFS operations"
    [] [&"vfs_name"; &"operation"; &"success"].
Definition HTTPRangeRequestsTotal : Collector :=
  mkCollector Counter &"gitlab_pages_httprange_requests_total"
    &"The number of requests made by the zip VFS to a Resource with different status codes.Could be bigger than the number of requests served"
    [] [&"status_code"].
Definition HTTPRangeRequestDuration : Collector :=
  mkCollector Histogram &"gitlab_pages_httprange_requests_duration"
    &"The time (in seconds) it takes to get a response from a httprange.Resource hosted in object storage for a request made by the zip VFS"
    [] [&"status_code"].
Definition HTTPRangeTraceDuration : Collector :=
  mkCollector Histogram &"gitlab_pages_httprange_trace_duration"
    &"httprange request tracing duration in seconds for different connection stages (see Go's httptrace.ClientTrace)"
    ([1; 5; 10; 20; 50; 100; 250; 500; 1000; 2000; 5000; 10000; 20000; 50000])%Z [&"request_stage"].
Definition HTTPRangeOpenRequests : Collector :=
  mkCollector Gauge &"gitlab_pages_httprange_open_requests"
    &"The number of open requests made by httprange.Reader"
    [] [].
Definition ZipOpened : Collector :=
  mkCollector Counter &"gitlab_pages_zip_opened"
    &"The total number of zip archives that have been opened"
    [] [&"state"].
Definition ZipCacheRequests : Collector :=
  mkCollector Counter &"gitlab_pages_zip_cache_requests"
    &"The number of zip archives cache hits/misses"
    [] [&"op"; &"cache"].
Definition ZipCachedEntries : Collector :=
  mkCollector Gauge &"gitlab_pages_zip_cached_entries"
    &"The number of entries in the cache"
    [] [&"op"].
Definition ZipArchiveEntriesCached : Collector :=
  mkCollector Gauge &"gitlab_pages_zip_archive_entries_cached"
    &"The number of files per zip archive currently in the cache"
    [] [].
Definition ZipOpenedEntriesCount : Collector :=
  mkCollector Counter &"gitlab_pages_zip_opened_entries_count"
    &"The number of files per zip archive total count over time"
    [] [].
Definition RejectedRequestsCount : Collector :=
  mkCollector Counter &"gitlab_pages_unknown_method_rejected_requests"
    &"The number of requests with unknown HTTP method which were rejected"
    [] [].
Definition LimitListenerMaxConns : Collector :=
  mkCollector Gauge &"gitlab_pages_limit_listener_max_conns"
    &"The maximum concurrent connections allowed by the limit listener."
    [] [].
Definition LimitListenerConcurrentConns : Collector :=
  mkCollector Gauge &"gitlab_pages_limit_listener_concurrent_conns"
    &"The number of concurrent connections."
    [] [].
Definition LimitListenerWaitingConns : Collector :=
  mkCollector Gauge &"gitlab_pages_limit_listener_waiting_conns"
    &"The number of backlogged connections waiting on concurrency limit."
    [] [].

(** The arguments of [prometheus.MustRegister]. *)
Definition registered : list Collector :=
  [ DomainsServed; DomainFailedUpdates; DomainUpdates; DomainLastUpdateTime; DomainsConfigurationUpdateDuration;
    DomainsSourceCacheHit; DomainsSourceCacheMiss; DomainsSourceAPIReqTotal; DomainsSourceAPICallDuration;
    DomainsSourceAPITraceDuration; DomainsSourceFailures; ServerlessRequests; ServerlessLatency;
    DiskServingFileSize; ServingTime; VFSOperations; HTTPRangeRequestsTotal; HTTPRangeRequestDuration;
    HTTPRangeTraceDuration; HTTPRangeOpenRequests; ZipOpened; ZipOpenedEntriesCount; ZipCacheRequests;
    ZipArchiveEntriesCached; ZipCachedEntries; RejectedRequestsCount; LimitListenerMaxConns;
    LimitListenerConcurrentConns; LimitListenerWaitingConns ].

(** ** Valid collectors *)

Definition metric_char (c : ascii) : bool :=
  let n := nat_of_ascii c in
  ((97 <=? n) && (n <=? 122)) || ((65 <=? n) && (n <=? 90)) || ((48 <=? n) && (n <=? 57)) || (n =? 95).
Definition digit_char (c : ascii) : bool := let n := nat_of_ascii c in (48 <=? n) && (n <=? 57).

(** Letters, digits and underscores, with no digit in front. *)
Definition valid_name (s : str) : bool :=
  match s with [] => false | c :: _ => negb (digit_char c) && forallb metric_char s end.

Fixpoint increasing (l : list Z) : bool :=
  match l with
  | x :: ((y :: _) as l') => (x <? y)%Z && increasing l'
  | _ => true
  end.

(** Histograms have increasing bounds and keep the label [le] for themselves. *)
Definition valid_collector (c : Collector) : bool :=
  valid_name (m_Name c) && forallb valid_name (m_labels c) && bool_decide (NoDup (m_labels c))
  && forallb (fun l => negb (HasPrefix l &"__")) (m_labels c)
  && match m_kind c with
     | Histogram => increasing (m_Buckets c) && bool_decide (&"le" ∉ m_labels c)
     | _ => true
     end.

Section Register.

#[local] Set Default Proof Using "Type".

Context {Registry : Type} (Register : Collector -> Registry -> result Registry).
Context (names : Registry -> gset str).

(** [MustRegister]: the first error is a panic. *)
Definition must_register (cs : list Collector) (r : Registry) : option Registry :=
  foldl (fun acc c => r ← acc; match Register c r with Ok r' => Some r' | Err _ => None end) (Some r) cs.

Definition MustRegister (r : Registry) : option Registry := must_register registered r.

Class RegistryLaws : Prop :=
  register_new c r : valid_collector c = true -> m_Name c ∉ names r ->
    exists r', Register c r = Ok r' /\ names r' = {[ m_Name c ]} ∪ names r.

Context `{RL : !RegistryLaws}.

Lemma must_register_ok cs r :
  forallb valid_collector cs = true -> NoDup (m_Name <$> cs) -> (forall c, c ∈ cs -> m_Name c ∉ names r) ->
  exists r', must_register cs r = Some r' /\ names r' = list_to_set (m_Name <$> cs) ∪ names r.
Proof using RL.
  unfold must_register. revert r. induction cs as [|c cs IH]; intros r Hv Hd Hn.
  - exists r. split; [done|]. cbn. by rewrite union_empty_l_L.
  - cbn in Hv, Hd. apply andb_true_iff in Hv as [Hvc Hv]. apply NoDup_cons in Hd as [Hc Hd].
    destruct (register_new c r Hvc) as (r1 & E1 & Hn1); [apply Hn; by left|].
    destruct (IH r1 Hv Hd) as (r' & Er & Hr).
    + intros c' Hin. rewrite Hn1, elem_of_union, elem_of_singleton. intros [Heq|Hx].
      * apply Hc. rewrite <- Heq. by apply list_elem_of_fmap_2.
      * apply (Hn c'); [by right|done].
    + exists r'. cbn. rewrite E1. split; [exact Er|]. rewrite Hr, Hn1. cbn.
      by rewrite union_assoc_L, (union_comm_L (list_to_set _) {[m_Name c]}).
Qed.

(** Registering the metrics does not panic: every collector has valid
    names, labels and buckets and no two share a name, so that on a registry
    without names of this program all 29 collectors are registered. *)
Theorem MustRegister_succeeds r :
  (forall n, n ∈ names r -> HasPrefix n &"gitlab_pages_" = false) ->
  exists r', MustRegister r = Some r' /\ names r' = list_to_set (m_Name <$> registered) ∪ names r.
Proof using RL.
  intros Hr. apply must_register_ok; [vm_compute; reflexivity|apply (bool_decide_unpack _); vm_compute; exact I|].
  intros c Hc Hin. apply Hr in Hin.
  assert (Hall : forallb (fun c => HasPrefix (m_Name c) &"gitlab_pages_") registered = true) by (vm_compute; reflexivity).
  rewrite forallb_forall in Hall. apply list_elem_of_In in Hc. rewrite (Hall c Hc) in Hin. done.
Qed.

End Register.

(** ** A concrete registry: the set of names. *)

Definition set_Register (c : Collector) (r : gset str) : result (gset str) :=
  if valid_collector c && bool_decide (m_Name c ∉ r) then Ok ({[ m_Name c ]} ∪ r) else Err (ErrMsg &"duplicate").

#[export] Instance set_registry_laws : RegistryLaws set_Register (fun r => r).
Proof. intros c r Hv Hn. unfold set_Register. rewrite Hv, bool_decide_true by done. by eexists. Qed.

Lemma MustRegister_succeeds_witness :
  exists r', MustRegister set_Register {[ &"go_goroutines" ]} = Some r'
    /\ r' = list_to_set (m_Name <$> registered) ∪ {[ &"go_goroutines" ]}.
Proof.
  apply (MustRegister_succeeds set_Register (fun r => r) {[ &"go_goroutines" ]}).
  intros n ->%elem_of_singleton. reflexivity.
Defined.

(** ** Using vectors *)

(** [WithLabelValues]: [None] is the panic on a wrong number of values. *)
Definition WithLabelValues (c : Collector) (values : list str) : option (str * list str) :=
  if length values =? length (m_labels c) then Some (m_Name c, values) else None.
