(* ===== verification/Vfs.v ===== *)
(** * Package vfs: the file system interface of the servings

    [internal/vfs/{vfs,root,file,errors}.go].  A [Root] is the record of the
    three operations a serving uses; it is a snapshot: a request sees one
    state of the files.  The instrumented wrappers thread the
    [VFSOperations] counter. *)

From S2P Require Import Prelude.

(** [os.FileMode], by the type bits the program tests. *)
Inductive FileMode : Type := ModeRegular | ModeDir | ModeSymlink | ModeIrregular.

#[export] Instance FileMode_eq_dec : EqDecision FileMode.
Proof. solve_decision. Defined.

(** [os.FileInfo] *)
Record FileInfo : Type := mkFileInfo { Mode : FileMode; Size : Z; ModTime : Z }.

Definition IsRegular (m : FileMode) : bool := bool_decide (m = ModeRegular).
Definition IsDir (m : FileMode) : bool := bool_decide (m = ModeDir).
Definition is_symlink (m : FileMode) : bool := bool_decide (m = ModeSymlink).

(** [vfs.File]: the contents a reader would deliver, and whether the value
    also implements [vfs.SeekableFile]. *)
Record File : Type := mkFile { file_data : str; seekable : bool }.

(** [vfs.Root] *)
Record Root : Type := mkRoot {
  Lstat : str -> result FileInfo;
  Readlink : str -> result str;
  Open : str -> result File }.

(** [vfs.VFS] *)
Record VFS : Type := mkVFS {
  vfs_Root : str -> result Root;
  vfs_Name : str }.

(** [vfs.IsNotExist]: a type assertion on [*ErrNotExist]. *)
Definition IsNotExist (err : error) : bool :=
  match err with ErrNotExist _ => true | _ => false end.

(** [os.IsNotExist] for the errors the os package gives. *)
Definition os_ErrNotExist : error := ErrSentinel &"os.ErrNotExist".
Definition os_IsNotExist (err : error) : bool := bool_decide (err = os_ErrNotExist).

(** ** Instrumentation *)

(** [metrics.VFSOperations]: a counter per (vfs, operation, success). *)
Abbreviation VFSOperations := (gmap (str * str * bool) nat).

Definition increment (name operation : str) (ok : bool) (m : VFSOperations) : VFSOperations :=
  <[(name, operation, ok) := S (default 0 (m !! (name, operation, ok)))]> m.

Record instrumentedRoot : Type := mkInstrumentedRoot {
  iroot : Root; iname : str; irootPath : str }.

Definition instrumented_Lstat (i : instrumentedRoot) (name : str) (m : VFSOperations)
  : result FileInfo * VFSOperations :=
  let r := Lstat (iroot i) name in (r, increment (iname i) &"Lstat" (is_ok r) m).

Definition instrumented_Readlink (i : instrumentedRoot) (name : str) (m : VFSOperations)
  : result str * VFSOperations :=
  let r := Readlink (iroot i) name in (r, increment (iname i) &"Readlink" (is_ok r) m).

Definition instrumented_Open (i : instrumentedRoot) (name : str) (m : VFSOperations)
  : result File * VFSOperations :=
  let r := Open (iroot i) name in (r, increment (iname i) &"Open" (is_ok r) m).

Definition instrumented_Root (fs : VFS) (path : str) (m : VFSOperations)
  : result instrumentedRoot * VFSOperations :=
  let r := vfs_Root fs path in
  let m' := increment (vfs_Name fs) &"Root" (is_ok r) m in
  match r with
  | Err e => (Err e, m')
  | Ok root => (Ok (mkInstrumentedRoot root (vfs_Name fs) path), m')
  end.

(** The sum of all counters. *)
Definition total (m : VFSOperations) : nat := map_fold (fun _ n acc => n + acc) 0 m.

Lemma total_increment name op ok m : total (increment name op ok m) = S (total m).
Proof.
  unfold increment, total. set (k := (name, op, ok)).
  assert (HC : forall (j1 j2 : str * str * bool) (z1 z2 y : nat),
    z1 + (z2 + y) = z2 + (z1 + y)) by (intros; lia).
  destruct (m !! k) as [n|] eqn:E; simpl.
  - rewrite <- (insert_delete_id m k n E) at 2.
    rewrite <- insert_delete_eq.
    rewrite !map_fold_insert_L; try (intros; lia); try apply lookup_delete_eq.
  - rewrite map_fold_insert_L; [lia|intros; lia|done].
Qed.

(** ** A concrete root

    A finite tree given by its entries, used to run the definitions. *)

Definition dir_entry : FileInfo * str := (mkFileInfo ModeDir 0 0, []).
Definition file_entry (data : str) : FileInfo * str :=
  (mkFileInfo ModeRegular (Z.of_nat (length data)) 0, data).
Definition link_entry (target : str) : FileInfo * str := (mkFileInfo ModeSymlink 0 0, target).

Definition mem_root (entries : list (str * (FileInfo * str))) : Root :=
  let m : gmap str (FileInfo * str) := list_to_map entries in
  {| Lstat p := match m !! p with Some (fi, _) => Ok fi | None => Err os_ErrNotExist end;
     Readlink p := match m !! p with
                   | Some (fi, t) => if is_symlink (Mode fi) then Ok t
                                     else Err (ErrMsg &"not a symlink")
                   | None => Err os_ErrNotExist end;
     Open p := match m !! p with
               | Some (fi, t) => if IsRegular (Mode fi) then Ok (mkFile t true)
                                 else Err (ErrMsg &"not a file")
               | None => Err os_ErrNotExist end |}.
