(* ===== verification/Symlink.v ===== *)
(** * Symlink evaluation inside a root

    [internal/serving/disk/symlink/{symlink,shims}.go], on Unix
    ([volumeNameLen] is 0 and [isWindowsDot] is false).  The Go loop keeps
    indices [start <= end] into [path]; it only ever looks at [path[end:]],
    which is the [rest] of the model.  One turn of the loop is [step]; the
    loop is split into the stretches between two followed links
    ([walk_segment], at most [length rest] turns) and the followed links
    ([walk_links], at most 256 of them). *)

From S2P Require Import Prelude GoStd GoPath Vfs.

Definition errBacktrack : error := ErrMsg &"EvalSymlinks: cannot backtrack root path".
Definition errTooManyLinks : error := ErrMsg &"EvalSymlinks: too many links".
Definition ENOTDIR : error := ErrSentinel &"syscall.ENOTDIR".

(** Skip separators, then take the next component off the path. *)
Fixpoint skip_slashes (s : str) : str :=
  match s with
  | [] => []
  | c :: s' => if decide (c = slash) then skip_slashes s' else s
  end.

Fixpoint take_component (s : str) : str * str :=
  match s with
  | [] => ([], [])
  | c :: s' =>
      if decide (c = slash) then ([], s)
      else let '(comp, rest) := take_component s' in (c :: comp, rest)
  end.

(** [for r = len(dest) - 1; r >= volLen; r--]: the index of the last slash
    of [dest] at or after [volLen], or where the loop stops. *)
Definition last_slash (volLen : nat) (dest : str) : Z :=
  match LastIndexByte dest slash with
  | Some r => if volLen <=? r then Z.of_nat r else (Z.of_nat volLen - 1)%Z
  | None => Z.min (Z.of_nat (length dest) - 1) (Z.of_nat volLen - 1)
  end.

(** The [".."] branch of the loop. *)
Definition backup (volLen : nat) (dest : str) : result str :=
  let r := last_slash volLen dest in
  if (0 <=? r)%Z && (r + 1 =? Z.of_nat volLen)%Z
     && bool_decide (dest !! Z.to_nat r = Some slash)
  then Err errBacktrack
  else if (r <? Z.of_nat volLen)%Z
          || bool_decide (drop (Z.to_nat (r + 1)) dest = &"..")
  then Ok ((if volLen <? length dest then dest ++ [slash] else dest) ++ &"..")
  else Ok (take (Z.to_nat r) dest).

(** Append an ordinary component, with a separator where one is needed. *)
Definition add_component (dest comp : str) : str :=
  (if (0 <? length dest) && negb (bool_decide (last dest = Some slash))
   then dest ++ [slash] else dest) ++ comp.

Inductive step_result : Type :=
  | SBreak                          (* leave the loop *)
  | SNext (dest rest : str)         (* continue with the rest of the path *)
  | SLink (dest rest : str)         (* a link was followed *)
  | SFail (e : error).              (* return an error *)

Definition step (root : Root) (vol : str) (linksWalked : nat) (dest rest : str)
  : step_result :=
  let volLen := length vol in
  let '(comp, rest') := take_component (skip_slashes rest) in
  if decide (comp = []) then SBreak
  else if decide (comp = &".") then SNext dest rest'
  else if decide (comp = &"..") then
    match backup volLen dest with Err e => SFail e | Ok d => SNext d rest' end
  else
    let dest := add_component dest comp in
    match Lstat root dest with
    | Err e => SFail e
    | Ok fi =>
        if negb (is_symlink (Mode fi)) then
          if negb (IsDir (Mode fi)) && bool_decide (rest' <> []) then SFail ENOTDIR
          else SNext dest rest'
        else if 255 <? S linksWalked then SFail errTooManyLinks
        else
          match Readlink root dest with
          | Err e => SFail e
          | Ok link =>
              if IsAbs link then SLink [slash] (drop 1 link ++ rest')
              else
                let r := last_slash volLen dest in
                SLink (if (r <? Z.of_nat volLen)%Z then vol else take (Z.to_nat r) dest)
                      (link ++ rest')
          end
    end.

(** Turns of the loop up to the end of the path ([inl]) or up to the next
    followed link ([inr]); [None] when the turns run out. *)
Fixpoint walk_segment (root : Root) (vol : str) (linksWalked : nat) (turns : nat)
    (dest rest : str) : option (result str + str * str) :=
  match rest with
  | [] => Some (inl (Ok (Clean dest)))
  | _ =>
      match turns with
      | O => None
      | S turns' =>
          match step root vol linksWalked dest rest with
          | SBreak => Some (inl (Ok (Clean dest)))
          | SFail e => Some (inl (Err e))
          | SNext d r => walk_segment root vol linksWalked turns' d r
          | SLink d r => Some (inr (d, r))
          end
      end
  end.

Fixpoint walk_links (root : Root) (vol : str) (linksWalked : nat) (budget : nat)
    (dest rest : str) : option (result str) :=
  match walk_segment root vol linksWalked (length rest) dest rest with
  | None => None
  | Some (inl r) => Some r
  | Some (inr (d, r)) =>
      match budget with
      | O => None
      | S b => walk_links root vol (S linksWalked) b d r
      end
  end.

Definition walkSymlinks (root : Root) (path : str) : option (result str) :=
  let vol := if IsAbs path then [slash] else [] in
  walk_links root vol 0 256 vol (drop (length vol) path).

(** [EvalSymlinks]; [walkSymlinks] never runs out of turns
    ([walkSymlinks_terminates]), so the default is never taken. *)
Definition EvalSymlinks (root : Root) (path : str) : result str :=
  default (Err errTooManyLinks) (walkSymlinks root path).

(** ** Termination *)

Lemma skip_slashes_length s : length (skip_slashes s) <= length s.
Proof. induction s as [|c s IH]; simpl; [done|]. case_decide; simpl; lia. Qed.

Lemma take_component_app s comp rest :
  take_component s = (comp, rest) -> s = comp ++ rest /\ slash ∉ comp.
Proof.
  revert comp rest. induction s as [|c s IH]; intros comp rest; simpl.
  - intros [= <- <-]. split; [done|]. apply not_elem_of_nil.
  - case_decide as Hc.
    + intros [= <- <-]. split; [done|]. apply not_elem_of_nil.
    + destruct (take_component s) as [comp' rest'].
      intros [= <- <-]. destruct (IH _ _ eq_refl) as [-> Hn]. split; [done|].
      apply not_elem_of_cons. by split; [congruence|].
Qed.

Lemma take_component_shorter rest comp rest' :
  take_component (skip_slashes rest) = (comp, rest') -> comp <> [] ->
  length rest' < length rest.
Proof.
  intros [H _]%take_component_app Hc. pose proof (skip_slashes_length rest) as Hl.
  rewrite H, length_app in Hl. destruct comp; simpl in *; [done|lia].
Qed.

Lemma step_next_shorter root vol k dest rest d r :
  step root vol k dest rest = SNext d r -> length r < length rest.
Proof.
  unfold step. destruct (take_component (skip_slashes rest)) as [comp rest'] eqn:E.
  case_decide as Hc; [done|]. pose proof (take_component_shorter _ _ _ E Hc).
  intros Hs. repeat split_match_in Hs; simplify_eq; done.
Qed.

Lemma step_link_budget root vol k dest rest d r :
  step root vol k dest rest = SLink d r -> k < 255.
Proof.
  unfold step. destruct (take_component (skip_slashes rest)) as [comp rest'].
  intros Hs. repeat split_match_in Hs; simplify_eq; bools; lia.
Qed.

Lemma walk_segment_total root vol k turns : forall dest rest,
  length rest <= turns -> is_Some (walk_segment root vol k turns dest rest).
Proof.
  induction turns as [|n IH]; intros dest rest Hl.
  - destruct rest; simpl in *; [eauto|lia].
  - destruct rest as [|c rest]; simpl; [eauto|].
    destruct (step root vol k dest (c :: rest)) as [|d r|d r|e] eqn:E; eauto.
    apply IH. apply step_next_shorter in E. simpl in *. lia.
Qed.

Lemma walk_segment_link root vol k turns : forall dest rest d r,
  walk_segment root vol k turns dest rest = Some (inr (d, r)) -> k < 255.
Proof.
  induction turns as [|n IH]; intros dest rest d r; destruct rest as [|c rest];
    simpl; try done.
  destruct (step root vol k dest (c :: rest)) as [|d' r'|d' r'|e] eqn:E; try done.
  - apply IH.
  - intros [= <- <-]. by apply step_link_budget in E.
Qed.

Lemma walk_links_total root vol budget : forall k dest rest,
  256 <= k + budget -> is_Some (walk_links root vol k budget dest rest).
Proof.
  induction budget as [|b IH]; intros k dest rest Hk; simpl;
    destruct (walk_segment_total root vol k (length rest) dest rest) as [x Hx];
    try lia; rewrite Hx; destruct x as [r|[d r]]; eauto.
  - apply walk_segment_link in Hx. lia.
  - apply IH. lia.
Qed.

(** The walk ends on every root and every path: a link is followed at most
    255 times and every other turn consumes a part of the path. *)
Lemma walkSymlinks_total root path : is_Some (walkSymlinks root path).
Proof. unfold walkSymlinks. apply walk_links_total. lia. Qed.

(** ** What a successful walk has checked

    [resolved root d dir]: every component of [d] other than [".."] was looked
    up below the components before it, is not a symbolic link, and all but the
    last are directories ([dir] tells whether the last one is, or is a [".."]
    or the start, so that the walk may go below it).  A [".."] that the walk
    cannot take back stays in the path and is not looked up: it follows the
    start, a directory or another [".."]. *)

Inductive resolved (root : Root) : str -> bool -> Prop :=
  | resolved_rel : resolved root [] true
  | resolved_root : resolved root [slash] true
  | resolved_comp d c fi :
      resolved root d true -> ordinary c ->
      Lstat root (add_component d c) = Ok fi -> is_symlink (Mode fi) = false ->
      resolved root (add_component d c) (IsDir (Mode fi))
  | resolved_up d :
      resolved root d true -> resolved root (add_component d &"..") true.

#[local] Hint Constructors resolved : pages.

Lemma slash_dotdot : slash ∉ &"..".
Proof. vm_compute. set_solver. Qed.

Lemma add_component_shape d c :
  add_component d c = d ++ c /\ (d = [] \/ last d = Some slash)
  \/ add_component d c = d ++ slash :: c /\ d <> [].
Proof.
  unfold add_component. destruct d as [|x d]; [left; auto|].
  simpl (0 <? _). destruct (bool_decide (last (x :: d) = Some slash)) eqn:E; bools; simpl.
  - left. auto.
  - right. rewrite <- !app_assoc. auto.
Qed.

(** Only the root itself ends in a separator. *)
Lemma resolved_last root d b :
  resolved root d b -> last d = Some slash -> d = [slash].
Proof.
  intros H. assert (Hc : forall d c, c <> [] -> slash ∉ c ->
    last (add_component d c) = Some slash -> add_component d c = [slash]).
  { intros d0 c Hc Hs Hl. exfalso. apply Hs.
    assert (Hlc : last c = Some slash).
    { destruct (add_component_shape d0 c) as [[E _]|[E _]]; rewrite E in Hl;
        [rewrite last_app in Hl|rewrite last_app_cons, last_cons in Hl];
        destruct c as [|x c] using rev_ind; try done;
        rewrite last_snoc in *; simpl in *; congruence. }
    apply last_Some in Hlc as [l ->]. set_solver. }
  destruct H as [| |d c fi _ (Hne&_&_&Hs) _ _|d _]; try done; apply Hc; try done.
  apply slash_dotdot.
Qed.

(** Cutting [dest] at its last slash leaves a resolved directory. *)
Lemma resolved_cut root d b r :
  resolved root d b -> LastIndexByte d slash = Some r -> resolved root (take r d) true.
Proof.
  intros H. assert (Hc : forall d c, resolved root d true -> slash ∉ c ->
    LastIndexByte (add_component d c) slash = Some r ->
    resolved root (take r (add_component d c)) true).
  { intros d0 c Hd Hs. destruct (add_component_shape d0 c) as [[E [->|Hl]]|[E _]]; rewrite E.
    - by rewrite LastIndexByte_None.
    - apply (resolved_last _ _ _ Hd) in Hl as ->.
      change ([slash] ++ c) with ([] ++ slash :: c).
      rewrite LastIndexByte_last by done. intros [= <-]. constructor.
    - rewrite LastIndexByte_last by done. intros [= <-]. by rewrite take_app_length. }
  destruct H as [| |d c fi Hd (_&_&_&Hs) _ _|d Hd]; auto using slash_dotdot.
  - done.
  - intros [= <-]. constructor.
Qed.

(** [dest] stays absolute when the walk started from an absolute path. *)
Definition vol_ok (vol dest : str) : Prop :=
  vol = [] \/ vol = [slash] /\ IsAbs dest = true.

Lemma IsAbs_cons s : IsAbs s = true <-> exists t, s = slash :: t.
Proof. unfold IsAbs. rewrite HasPrefix_spec. done. Qed.

Lemma vol_ok_add vol d c : vol_ok vol d -> vol_ok vol (add_component d c).
Proof.
  intros [->|[-> H]]; [by left|]. right. split; [done|].
  apply IsAbs_cons in H as [t ->]. apply IsAbs_cons.
  destruct (add_component_shape (slash :: t) c) as [[E _]|[E _]]; rewrite E; eauto.
Qed.

Lemma vol_ok_resolved root vol dest : vol_ok vol dest -> resolved root vol true /\ vol_ok vol vol.
Proof.
  intros [->|[-> _]]; (split; [constructor|]); [by left|by right].
Qed.

(** Where [last_slash] finds a separator at or after the volume. *)
Lemma last_slash_found vol dest :
  vol_ok vol dest -> (last_slash (length vol) dest <? Z.of_nat (length vol))%Z = false ->
  exists r, last_slash (length vol) dest = Z.of_nat r /\ length vol <= r
            /\ LastIndexByte dest slash = Some r.
Proof.
  intros Hv Hr. bools. unfold last_slash in *.
  destruct (LastIndexByte dest slash) as [r|] eqn:E.
  - destruct (length vol <=? r) eqn:E2; bools; [eauto|lia].
  - lia.
Qed.

Lemma vol_ok_cut vol dest r :
  vol_ok vol dest -> length vol <= r -> vol_ok vol (take r dest).
Proof.
  intros [->|[-> H]] Hr; [by left|]. right. split; [done|].
  apply IsAbs_cons in H as [t ->]. destruct r as [|r]; simpl in Hr; [lia|].
  apply IsAbs_cons. simpl. eauto.
Qed.

Lemma resolved_backup root vol dest d :
  resolved root dest true -> vol_ok vol dest -> backup (length vol) dest = Ok d ->
  resolved root d true /\ vol_ok vol d.
Proof.
  intros Hres Hv. unfold backup.
  destruct (_ && _ && _) eqn:E1; [done|].
  destruct (_ || _) eqn:E2; intros H;
    apply (f_equal (fun r => match r with Ok x => x | Err _ => d end)) in H; subst d.
  - assert (Hup : (if length vol <? length dest then dest ++ [slash] else dest) ++ &".."
                  = add_component dest &"..").
    { destruct (add_component_shape dest &"..") as [[E Hd]|[E Hd]]; rewrite E.
      - destruct Hd as [->|Hl]; [by destruct vol|].
        exfalso. apply (resolved_last _ _ _ Hres) in Hl as ->.
        destruct Hv as [->|[-> _]]; [vm_compute in E2|vm_compute in E1]; done.
      - destruct (length vol <? length dest) eqn:E3; [by rewrite <- app_assoc|].
        exfalso. bools. destruct Hv as [->|[-> Ha]]; [destruct dest; [done|simpl in E3; lia]|].
        apply IsAbs_cons in Ha as [t ->]. destruct t; [|simpl in E3; lia].
        by vm_compute in E1. }
    rewrite Hup. split; [by constructor|by apply vol_ok_add].
  - apply orb_false_iff in E2 as [E2 _].
    destruct (last_slash_found _ _ Hv E2) as (r & -> & Hr & HL).
    rewrite Nat2Z.id. split; [by eapply resolved_cut|by apply vol_ok_cut].
Qed.

(** The loop invariant. *)
Definition walk_inv (root : Root) (vol dest rest : str) : Prop :=
  exists b, resolved root dest b /\ (rest <> [] -> b = true) /\ vol_ok vol dest.

Lemma step_inv root vol k dest rest :
  rest <> [] -> walk_inv root vol dest rest ->
  match step root vol k dest rest with
  | SNext d r | SLink d r => walk_inv root vol d r
  | SBreak | SFail _ => True
  end.
Proof.
  intros Hne (b & Hres & Hb & Hv). rewrite (Hb Hne) in Hres. unfold step.
  destruct (take_component (skip_slashes rest)) as [comp rest'] eqn:E.
  apply take_component_app in E as [_ Hs].
  case_decide as H1; [done|]. case_decide as H2; [by exists true|].
  case_decide as H3.
  { destruct (backup _ _) as [d|e] eqn:Eb; [|done].
    destruct (resolved_backup _ _ _ _ Hres Hv Eb). by exists true. }
  assert (Hc : ordinary comp) by (by repeat split).
  destruct (Lstat root (add_component dest comp)) as [fi|e] eqn:El; [|done].
  destruct (is_symlink (Mode fi)) eqn:Esym; simpl.
  - destruct (255 <? _); [done|].
    destruct (Readlink root _) as [link|e]; [|done].
    destruct (IsAbs link) eqn:Ea.
    + exists true. split; [constructor|]. split; [done|].
      destruct Hv as [->|[-> _]]; [by left|right; done].
    + exists true. destruct (_ <? _)%Z eqn:Er.
      * destruct (vol_ok_resolved root _ _ Hv). done.
      * pose proof (vol_ok_add _ _ comp Hv) as Hv'.
        destruct (last_slash_found _ _ Hv' Er) as (r & -> & Hr & HL).
        rewrite Nat2Z.id. split; [|split; [done|by apply vol_ok_cut]].
        destruct (add_component_shape dest comp) as [[Es [->|Hl]]|[Es _]];
          rewrite Es in *.
        -- by rewrite LastIndexByte_None in HL.
        -- apply (resolved_last _ _ _ Hres) in Hl as ->.
           change ([slash] ++ comp) with ([] ++ slash :: comp) in *.
           rewrite LastIndexByte_last in HL by done. simplify_eq. constructor.
        -- rewrite LastIndexByte_last in HL by done. simplify_eq.
           by rewrite take_app_length.
  - destruct (negb _ && _) eqn:Ed; [done|].
    exists (IsDir (Mode fi)). split; [by econstructor|]. split; [|by apply vol_ok_add].
    intros Hr. destruct (IsDir (Mode fi)); [done|]. simpl in Ed. by bools.
Qed.

Lemma walk_segment_inv root vol k turns : forall dest rest x,
  walk_inv root vol dest rest -> walk_segment root vol k turns dest rest = Some x ->
  match x with
  | inl (Ok p) => exists d b, p = Clean d /\ resolved root d b
  | inl (Err _) => True
  | inr (d, r) => walk_inv root vol d r
  end.
Proof.
  induction turns as [|n IH]; intros dest rest x Hinv; destruct rest as [|c rest]; simpl.
  - intros [= <-]. destruct Hinv as (b & Hr & _). eauto.
  - done.
  - intros [= <-]. destruct Hinv as (b & Hr & _). eauto.
  - pose proof (step_inv root vol k dest (c :: rest) ltac:(done) Hinv) as Hs.
    destruct (step _ _ _ _ _) as [|d r|d r|e].
    + intros [= <-]. destruct Hinv as (b & Hr & _). eauto.
    + by apply IH.
    + by intros [= <-].
    + by intros [= <-].
Qed.

Lemma walk_links_inv root vol budget : forall k dest rest p,
  walk_inv root vol dest rest -> walk_links root vol k budget dest rest = Some (Ok p) ->
  exists d b, p = Clean d /\ resolved root d b.
Proof.
  induction budget as [|n IH]; intros k dest rest p Hinv Hw; simpl in Hw;
    destruct (walk_segment root vol k (length rest) dest rest) as [[r|[d r]]|] eqn:E;
    try done; apply (walk_segment_inv _ _ _ _ _ _ _ Hinv) in E.
  - by simplify_eq.
  - by simplify_eq.
  - by apply IH in Hw.
Qed.

Lemma EvalSymlinks_resolved_dest root path p :
  EvalSymlinks root path = Ok p -> exists d b, p = Clean d /\ resolved root d b.
Proof.
  unfold EvalSymlinks. destruct (walkSymlinks_total root path) as [r Hr].
  rewrite Hr. simpl. intros ->. revert Hr. apply walk_links_inv.
  exists true. destruct (IsAbs path) eqn:E; (split; [constructor|]); split; try done.
  - by right.
  - by left.
Qed.

(** ** Paths without links and dots *)

(** [root] holds the directories above [cs] and an entry [fi] at [cs]. *)
Definition plain_path (root : Root) (cs : list str) (fi : FileInfo) : Prop :=
  Forall ordinary cs /\ cs <> []
  /\ (forall n, 0 < n < length cs -> exists d,
        Lstat root (Join (take n cs) [slash]) = Ok d /\ Mode d = ModeDir)
  /\ Lstat root (Join cs [slash]) = Ok fi /\ is_symlink (Mode fi) = false.

Lemma take_component_ordinary c t :
  slash ∉ c -> take_component (c ++ slash :: t) = (c, slash :: t)
               /\ take_component c = (c, []).
Proof.
  induction c as [|x c IH]; simpl; intros Hs; [done|].
  apply not_elem_of_cons in Hs as [Hx Hs]. destruct (IH Hs) as [E1 E2].
  rewrite !decide_False by congruence. by rewrite E1, E2.
Qed.

Lemma skip_slashes_id c t : ordinary c -> skip_slashes (c ++ t) = c ++ t.
Proof.
  intros (Hc & _ & _ & Hs). destruct c as [|x c]; [done|]. simpl.
  apply not_elem_of_cons in Hs as [Hx _]. by rewrite decide_False by congruence.
Qed.

Lemma skip_slashes_id_dotdot t : skip_slashes (&".." ++ slash :: t) = &".." ++ slash :: t.
Proof. done. Qed.

Lemma step_ordinary root k dest c t fi (rest := c ++ match t with [] => [] | _ => slash :: t end) :
  ordinary c -> Lstat root (add_component dest c) = Ok fi ->
  is_symlink (Mode fi) = false -> (t <> [] -> Mode fi = ModeDir) ->
  step root [] k dest rest
  = SNext (add_component dest c) (match t with [] => [] | _ => slash :: t end)
  /\ step root [] k dest (slash :: rest)
  = SNext (add_component dest c) (match t with [] => [] | _ => slash :: t end).
Proof.
  intros Hc Hl Hsym Ht.
  assert (Hstep : forall r, skip_slashes r = rest -> step root [] k dest r
    = SNext (add_component dest c) (match t with [] => [] | _ => slash :: t end)).
  { intros r Hr. unfold step. rewrite Hr. subst rest.
    destruct Hc as (H1&H2&H3&H4). destruct (take_component_ordinary c t H4) as [E1 E2].
    assert (take_component (c ++ match t with [] => [] | _ => slash :: t end)
            = (c, match t with [] => [] | _ => slash :: t end)) as ->.
    { destruct t; [by rewrite app_nil_r|done]. }
    rewrite !decide_False by done. rewrite Hl, Hsym. simpl.
    destruct t; [by rewrite andb_false_r|]. by rewrite (Ht ltac:(done)). }
  split; apply Hstep; [by apply skip_slashes_id|].
  cbn [skip_slashes]. rewrite decide_True by done. by apply skip_slashes_id.
Qed.

Lemma add_component_Join ds c :
  Forall ordinary ds -> ordinary c ->
  add_component (Join ds [slash]) c = Join (ds ++ [c]) [slash].
Proof.
  intros HF Hc. destruct ds as [|d ds]; [done|].
  rewrite Join_app by done. simpl (Join [c] _).
  destruct (add_component_shape (Join (d :: ds) [slash]) c) as [[_ [H|Hl]]|[E _]]; [..|done].
  - exfalso. revert H. by apply Join_nonempty.
  - exfalso. apply last_Some in Hl as [l Hl].
    pose proof (Split_Join (d :: ds) slash ltac:(done)) as HS.
    rewrite Hl in HS. change (l ++ [slash]) with (l ++ slash :: []) in HS.
    rewrite Split_app in HS. simpl (Split [] slash) in HS.
    assert (In [] (d :: ds)) as HI.
    { rewrite <- HS; [apply in_or_app; right; by left|].
      eapply Forall_impl; [done|]. by intros x (?&?&?&?). }
    apply list_elem_of_In in HI. rewrite Forall_forall in HF.
    by destruct (HF _ HI) as [? _].
Qed.

Lemma walk_segment_plain root k todo : forall turns ds fi,
  todo <> [] -> plain_path root (ds ++ todo) fi ->
  length todo <= turns ->
  walk_segment root [] k turns (Join ds [slash])
    ((if decide (ds = []) then [] else [slash]) ++ Join todo [slash])
  = Some (inl (Ok (Join (ds ++ todo) [slash]))).
Proof.
  induction todo as [|c todo IH]; intros turns ds fi Hne Hp Ht; [done|].
  pose proof Hp as (HF & Hne' & Hdirs & Hl & Hsym).
  apply Forall_app in HF as [HFd HFt]. apply Forall_cons in HFt as [Hc HFt].
  assert (Hrest : Join (c :: todo) [slash]
    = c ++ match Join todo [slash] with [] => [] | _ => slash :: Join todo [slash] end).
  { destruct todo as [|c' todo]; [simpl; by rewrite app_nil_r|].
    rewrite Join_cons by done. pose proof (Join_nonempty (c' :: todo) ltac:(done) HFt).
    destruct (Join (c' :: todo) [slash]); done. }
  assert (Hlook : exists d, Lstat root (add_component (Join ds [slash]) c) = Ok d
     /\ is_symlink (Mode d) = false /\ (Join todo [slash] <> [] -> Mode d = ModeDir)).
  { rewrite add_component_Join by done. destruct todo as [|c' todo].
    - exists fi. done.
    - destruct (Hdirs (length ds + 1)) as (d & Hd & Hm).
      { rewrite length_app. simpl. lia. }
      exists d. rewrite take_app_add in Hd. simpl in Hd.
      rewrite Hd, Hm. done. }
  destruct Hlook as (d & Hd & Hds & Hdd).
  destruct (step_ordinary root k (Join ds [slash]) c (Join todo [slash]) d Hc Hd Hds Hdd)
    as [S1 S2].
  destruct turns as [|turns]; [simpl in Ht; lia|].
  assert (Hws : walk_segment root [] k (S turns) (Join ds [slash])
     ((if decide (ds = []) then [] else [slash]) ++ Join (c :: todo) [slash])
     = walk_segment root [] k turns (add_component (Join ds [slash]) c)
         (match Join todo [slash] with [] => [] | _ => slash :: Join todo [slash] end)).
  { rewrite Hrest. destruct Hc as (Hcn & _). case_decide.
    - destruct c; [done|]. cbn [walk_segment app]. cbn [app] in S1. by rewrite S1.
    - cbn [walk_segment app]. by rewrite S2. }
  rewrite Hws, add_component_Join by done.
  destruct todo as [|c' todo].
  - destruct turns; simpl; rewrite Clean_Join; try done; by apply Forall_app; auto.
  - pose proof (Join_nonempty (c' :: todo) ltac:(done) HFt) as HJ.
    rewrite (cons_middle c ds (c' :: todo)), app_assoc in Hp |- *.
    specialize (IH turns (ds ++ [c]) fi ltac:(done) Hp ltac:(simpl in *; lia)).
    rewrite decide_False in IH by (by destruct ds).
    destruct (Join (c' :: todo) [slash]) eqn:EJ; [done|]. exact IH.
Qed.

Lemma Join_length cs : Forall ordinary cs -> length cs <= length (Join cs [slash]).
Proof.
  induction cs as [|c cs IH]; intros HF; [simpl; lia|].
  apply Forall_cons in HF as [(Hc&_) HF]. specialize (IH HF).
  destruct cs as [|c' cs]; [destruct c; simpl in *; [done|lia]|].
  rewrite Join_cons, !length_app by done. simpl in *. destruct c; simpl; [done|lia].
Qed.

Lemma EvalSymlinks_plain_path root cs fi :
  plain_path root cs fi -> EvalSymlinks root (Join cs [slash]) = Ok (Join cs [slash]).
Proof.
  intros Hp. pose proof Hp as (HF & Hne & _).
  unfold EvalSymlinks, walkSymlinks. rewrite IsAbs_Join by done.
  change (drop _ ?x) with x. cbn [walk_links].
  pose proof (walk_segment_plain root 0 cs (length (Join cs [slash])) [] fi Hne Hp
    (Join_length _ HF)) as H.
  simpl in H. by rewrite H.
Qed.

(** ** Properties *)

(** [C7] Symlink evaluation returns on every root and every path, whatever
    the lengths and the targets of the links: a link is followed at most 255
    times, and between two links every turn consumes a part of the path. *)
Theorem walkSymlinks_terminates root path : exists r, walkSymlinks root path = Some r.
Proof. apply walkSymlinks_total. Qed.

(** [C8] A path returned by [EvalSymlinks] is the cleaned form of a path whose
    components other than [".."] were looked up one below the other: none of
    them is a symbolic link, and whatever has a component behind it, [".."]
    included, is a directory.  The [".."] components that the walk could not
    take back are kept without a lookup. *)
Theorem EvalSymlinks_resolved root path p :
  EvalSymlinks root path = Ok p -> exists d b, p = Clean d /\ resolved root d b.
Proof. apply EvalSymlinks_resolved_dest. Qed.

(** A path of ordinary components that leads through directories to an
    entry that is not a link evaluates to itself. *)
Theorem EvalSymlinks_plain root cs fi :
  plain_path root cs fi -> EvalSymlinks root (Join cs [slash]) = Ok (Join cs [slash]).
Proof. apply EvalSymlinks_plain_path. Qed.

(** An absolute path that enters a directory and leaves it again is
    rejected as backtracking the root, although it never leaves the root: the
    test for the root is met by every directory directly below it. *)
Theorem EvalSymlinks_rejects_dotdot_below_root root c fi t :
  ordinary c -> Lstat root (slash :: c) = Ok fi -> Mode fi = ModeDir ->
  EvalSymlinks root (slash :: c ++ slash :: &".." ++ slash :: t) = Err errBacktrack.
Proof.
  intros Hc Hl Hm. pose proof Hc as (Hn & H2 & H3 & Hs).
  set (rest := c ++ slash :: &".." ++ slash :: t).
  assert (S1 : step root [slash] 0 [slash] rest
               = SNext (slash :: c) (slash :: &".." ++ slash :: t)).
  { unfold step, rest. rewrite skip_slashes_id by done.
    rewrite (proj1 (take_component_ordinary c (&".." ++ slash :: t) Hs)).
    rewrite !decide_False by done. change (add_component [slash] c) with (slash :: c).
    by rewrite Hl, Hm. }
  assert (S2 : step root [slash] 0 (slash :: c) (slash :: &".." ++ slash :: t)
               = SFail errBacktrack).
  { unfold step. cbn [skip_slashes]. rewrite decide_True by done.
    rewrite (skip_slashes_id_dotdot t).
    rewrite (proj1 (take_component_ordinary &".." t slash_dotdot)).
    rewrite decide_False, decide_False, decide_True by done.
    unfold backup, last_slash. change (slash :: c) with ([] ++ slash :: c).
    by rewrite LastIndexByte_last. }
  unfold EvalSymlinks, walkSymlinks.
  assert (IsAbs (slash :: rest) = true) as -> by (apply IsAbs_cons; eauto).
  change (drop _ (slash :: rest)) with rest. cbn [walk_links].
  assert (Hlen : exists k, length rest = S (S k)).
  { unfold rest. rewrite length_app. simpl. exists (length c + S (S (length t))). lia. }
  destruct Hlen as [k ->].
  destruct rest as [|x rest'] eqn:Er; [by destruct c|].
  cbn [walk_segment]. rewrite S1. cbn [walk_segment app]. by rewrite S2.
Qed.

Definition link_root : Root :=
  mem_root [ (&"a", dir_entry); (&"a/real", dir_entry); (&"a/link", link_entry &"real");
             (&"a/real/index.html", file_entry &"hello"); (&"/a", dir_entry) ].

Lemma EvalSymlinks_resolved_witness :
  exists d b, &"a/real/index.html" = Clean d /\ resolved link_root d b.
Proof. apply (EvalSymlinks_resolved link_root &"a/link/index.html"). run. Defined.

Lemma EvalSymlinks_plain_witness :
  EvalSymlinks link_root (Join [&"a"; &"real"; &"index.html"] [slash])
  = Ok (Join [&"a"; &"real"; &"index.html"] [slash]).
Proof.
  apply (EvalSymlinks_plain link_root _ (mkFileInfo ModeRegular 5 0)).
  repeat split; try done.
  - repeat constructor; try done; vm_compute; set_solver.
  - intros [|[|[|n]]] Hn; simpl in Hn; try lia; eexists; split; run.
Defined.

Lemma EvalSymlinks_rejects_dotdot_below_root_witness :
  EvalSymlinks link_root (slash :: &"a" ++ slash :: &".." ++ slash :: &"index.html")
  = Err errBacktrack.
Proof.
  apply (EvalSymlinks_rejects_dotdot_below_root link_root &"a" (mkFileInfo ModeDir 0 0)); try run.
  repeat split; try done. vm_compute. set_solver.
Defined.
