(* ===== verification/LocalVfs.v ===== *)
(** * Package vfs/local: serving from directories

    [internal/vfs/local/{root,vfs}.go].  The operating system is the record
    [OS] of the calls the package makes; it is a parameter. *)

From S2P Require Import Prelude GoStd GoPath Vfs.

(** The calls of packages os and path/filepath that read the file system.
    [os_OpenFile] is [OpenFile] with [O_RDONLY|O_NOFOLLOW] together with the
    [Stat] of the opened file and the bytes it holds. *)
Record OS : Type := mkOS {
  Getwd : str;
  filepath_EvalSymlinks : str -> result str;
  os_Lstat : str -> result FileInfo;
  os_Readlink : str -> result str;
  os_OpenFile : str -> result (FileInfo * str) }.

Definition errNotFile : error := ErrSentinel &"local.errNotFile".
Definition errNotDirectory : error := ErrSentinel &"local.errNotDirectory".

(** ** Root *)

Definition validatePath (rootPath path : str) : result (str * str) :=
  let fullPath := path_Join [rootPath; path] in
  if decide (rootPath = fullPath) then Ok (fullPath, [])
  else
    let vfsPath := TrimPrefix fullPath (rootPath ++ [slash]) in
    if decide (fullPath = vfsPath) then Err (InvalidPathError rootPath fullPath)
    else Ok (fullPath, vfsPath).

Definition local_Lstat (os : OS) (rootPath name : str) : result FileInfo :=
  let? p := validatePath rootPath name in os_Lstat os p.1.

Definition local_Readlink (os : OS) (rootPath name : str) : result str :=
  let? p := validatePath rootPath name in
  let fullPath := p.1 in
  let? target := os_Readlink os fullPath in
  if HasPrefix target (rootPath ++ [slash]) then Ok (Rel (Dir fullPath) target)
  else if IsAbs target then Ok target
  else Ok target.

Definition local_Open (os : OS) (rootPath name : str) : result File :=
  let? p := validatePath rootPath name in
  let? opened := os_OpenFile os p.1 in
  let '(fi, data) := opened in
  if negb (IsRegular (Mode fi)) then Err errNotFile else Ok (mkFile data true).

Definition local_root (os : OS) (rootPath : str) : Root :=
  {| Lstat := local_Lstat os rootPath;
     Readlink := local_Readlink os rootPath;
     Open := local_Open os rootPath |}.

(** ** VFS *)

(** [filepath.Abs] *)
Definition filepath_Abs (os : OS) (path : str) : str :=
  if IsAbs path then Clean path else path_Join [Getwd os; path].

Definition local_VFS_Root (os : OS) (path : str) : result Root :=
  let rootPath := filepath_Abs os path in
  match filepath_EvalSymlinks os rootPath with
  | Err e => if os_IsNotExist e then Err (ErrNotExist e) else Err e
  | Ok rootPath =>
      match os_Lstat os rootPath with
      | Err e => if os_IsNotExist e then Err (ErrNotExist e) else Err e
      | Ok fi =>
          if negb (IsDir (Mode fi)) then Err errNotDirectory
          else Ok (local_root os rootPath)
      end
  end.

Definition local_VFS (os : OS) : VFS :=
  {| vfs_Root := local_VFS_Root os; vfs_Name := &"local" |}.

(** ** Containment *)

(** The components of [filepath.Join(rootPath, path)]. *)
Definition joined (rs : list str) (path : str) : list str :=
  reverse (foldl (clean_step true) (reverse rs) (components path)).

Lemma joined_ordinary rs path : Forall ordinary rs -> Forall ordinary (joined rs path).
Proof.
  intros H. apply Forall_reverse, foldl_clean_rooted; [by apply Forall_reverse|].
  apply Split_fields.
Qed.

Lemma abs_path_prefix rs cs k :
  Forall ordinary rs -> rs <> [] -> Forall ordinary cs ->
  abs_path cs = abs_path rs ++ slash :: k -> cs = rs ++ components k.
Proof.
  intros Hrs Hne Hcs H.
  assert (Hcn : cs <> []).
  { intros ->. unfold abs_path in H. simpl in H. injection H as H.
    pose proof (Join_nonempty rs Hne Hrs). by destruct (Join rs [slash]). }
  apply (f_equal components) in H.
  rewrite components_slash, !components_abs_path in H by done. by injection H.
Qed.

(** Accepted: the joined path extends the root by ordinary components.
    Rejected: the root is not a prefix of the joined path. *)
Lemma validatePath_cases rs path :
  Forall ordinary rs -> rs <> [] ->
  match validatePath (abs_path rs) path with
  | Ok (full, vfsPath) =>
      exists cs, Forall ordinary cs /\ joined rs path = rs ++ cs
                 /\ full = abs_path (rs ++ cs) /\ vfsPath = Join cs [slash]
  | Err e => ~ rs `prefix_of` joined rs path
             /\ e = InvalidPathError (abs_path rs) (abs_path (joined rs path))
  end.
Proof.
  intros Hrs Hne. unfold validatePath. rewrite path_Join_below by done.
  fold (joined rs path). pose proof (joined_ordinary rs path Hrs) as Hj.
  assert (Hp : abs_path rs ++ [slash] <> []) by done.
  case_decide as H1.
  - apply abs_path_inj in H1; [|done..]. exists []. rewrite app_nil_r, <- H1. done.
  - case_decide as H2.
    + split; [|done]. intros [cs Hcs]. destruct cs as [|c cs].
      { by rewrite app_nil_r in Hcs; rewrite Hcs in H1. }
      rewrite Hcs in H2. rewrite abs_path_app in H2 by done.
      change (abs_path rs ++ slash :: ?t) with (abs_path rs ++ [slash] ++ t) in H2.
      rewrite app_assoc in H2. symmetry in H2. revert H2.
      apply (TrimPrefix_changed _ _ Hp), HasPrefix_app.
    + apply not_eq_sym in H2.
      apply (TrimPrefix_changed _ _ Hp) in H2.
      apply HasPrefix_spec in H2 as [k Hk]. rewrite Hk, TrimPrefix_app.
      rewrite <- app_assoc in Hk. simpl in Hk.
      pose proof (abs_path_prefix _ _ _ Hrs Hne Hj Hk) as Hc.
      exists (components k).
      assert (Forall ordinary (components k)) by (rewrite Hc in Hj; by apply Forall_app in Hj as [_ ?]).
      split; [done|]. split; [done|]. unfold components. rewrite Join_Split. split; [|done].
      rewrite Hc in Hk. unfold components in Hk. by rewrite Hk, <- app_assoc.
Qed.

(** The operating systems [os1] and [os2] give the same answers for the paths
    that extend the directory with components [rs]. *)
Definition agree_below (rs : list str) (os1 os2 : OS) : Prop :=
  forall cs, Forall ordinary cs ->
    let p := abs_path (rs ++ cs) in
    os_Lstat os1 p = os_Lstat os2 p /\ os_Readlink os1 p = os_Readlink os2 p
    /\ os_OpenFile os1 p = os_OpenFile os2 p.

(** Two roots that give the same answers. *)
Definition root_equiv (r1 r2 : Root) : Prop :=
  (forall n, Lstat r1 n = Lstat r2 n) /\ (forall n, Readlink r1 n = Readlink r2 n)
  /\ (forall n, Open r1 n = Open r2 n).

#[export] Instance root_equiv_equivalence : Equivalence root_equiv.
Proof.
  split.
  - by intros r.
  - intros r1 r2 (H1 & H2 & H3). by repeat split.
  - intros r1 r2 r3 (H1 & H2 & H3) (G1 & G2 & G3).
    repeat split; intros n; [by rewrite H1|by rewrite H2|by rewrite H3].
Qed.

#[export] Instance Lstat_proper : Proper (root_equiv ==> eq ==> eq) Lstat.
Proof. intros r1 r2 (H & _) n ? <-. apply H. Qed.
#[export] Instance Readlink_proper : Proper (root_equiv ==> eq ==> eq) Readlink.
Proof. intros r1 r2 (_ & H & _) n ? <-. apply H. Qed.
#[export] Instance Open_proper : Proper (root_equiv ==> eq ==> eq) Open.
Proof. intros r1 r2 (_ & _ & H) n ? <-. apply H. Qed.

Lemma local_root_agree rs os1 os2 :
  Forall ordinary rs -> rs <> [] -> agree_below rs os1 os2 ->
  root_equiv (local_root os1 (abs_path rs)) (local_root os2 (abs_path rs)).
Proof.
  intros Hrs Hne Hag.
  assert (Hop : forall name f, validatePath (abs_path rs) name = Ok f ->
    os_Lstat os1 f.1 = os_Lstat os2 f.1 /\ os_Readlink os1 f.1 = os_Readlink os2 f.1
    /\ os_OpenFile os1 f.1 = os_OpenFile os2 f.1).
  { intros name [full v] Hv. pose proof (validatePath_cases rs name Hrs Hne) as H.
    rewrite Hv in H. destruct H as (cs & Hcs & _ & -> & _). by apply Hag. }
  repeat split; intros name; simpl;
    [unfold local_Lstat|unfold local_Readlink|unfold local_Open];
    destruct (validatePath (abs_path rs) name) as [f|e] eqn:E; simpl; try done;
    destruct (Hop _ _ E) as (E1 & E2 & E3); by rewrite ?E1, ?E2, ?E3.
Qed.

(** ** Rel *)

Lemma strip_common_split b t b' t' :
  strip_common b t = (b', t') -> exists p, b = p ++ b' /\ t = p ++ t'.
Proof.
  revert t. induction b as [|x b IH]; intros [|y t]; simpl; intros H; simplify_eq;
    try by exists [].
  case_decide; simplify_eq; [|by exists []].
  destruct (IH _ H) as (p & -> & ->). by exists (y :: p).
Qed.

Lemma foldl_dotdots acc n :
  Forall ordinary acc -> n <= length acc ->
  foldl (clean_step true) acc (replicate n &"..") = drop n acc.
Proof.
  revert acc. induction n as [|n IH]; intros acc HF Hn; [done|].
  destruct acc as [|a acc]; [simpl in Hn; lia|].
  apply Forall_cons in HF as [(_&_&Ha&_) HF].
  change (foldl (clean_step true) (clean_step true (a :: acc) &"..") (replicate n &"..")
          = drop n acc).
  assert (clean_step true (a :: acc) &".." = acc) as ->.
  { unfold clean_step. rewrite !decide_False, decide_True by done. by rewrite decide_False. }
  rewrite IH; [done|done|simpl in Hn; lia].
Qed.

Lemma clean_components_abs cs :
  Forall ordinary cs -> clean_components true (components (abs_path cs)) = cs.
Proof.
  intros H. pose proof (Clean_abs_path cs H) as HC.
  rewrite Clean_abs in HC by apply IsAbs_abs_path.
  by apply abs_path_inj in HC; [|apply clean_components_rooted|].
Qed.

(** Following [Rel base targ] from [base] leads back to [targ]. *)
Lemma Rel_joined bs ts :
  Forall ordinary bs -> Forall ordinary ts ->
  joined bs (Rel (abs_path bs) (abs_path ts)) = ts.
Proof.
  intros Hb Ht. unfold Rel. rewrite !clean_components_abs by done.
  destruct (strip_common bs ts) as [b t] eqn:E.
  apply strip_common_split in E as (p & -> & ->).
  apply Forall_app in Hb as [Hp Hb]. apply Forall_app in Ht as [_ Ht].
  set (l := replicate (length b) &".." ++ t).
  assert (Hl : Forall (fun f => slash ∉ f) l).
  { apply Forall_app. split.
    - apply Forall_replicate. vm_compute. set_solver.
    - eapply Forall_impl; [done|]. by intros c (?&?&?&?). }
  assert (Hfold : foldl (clean_step true) (reverse (p ++ b)) l = reverse (p ++ t)).
  { unfold l. rewrite foldl_app, foldl_dotdots.
    - rewrite reverse_app, drop_app_length' by (by rewrite length_reverse).
      rewrite foldl_clean_ordinary by done. by rewrite reverse_app.
    - by apply Forall_reverse, Forall_app.
    - rewrite length_reverse, length_app. lia. }
  assert (HJ : l <> [] -> Join l [slash] <> []).
  { unfold l. destruct b as [|b0 b]; simpl.
    - intros Hn. by apply Join_nonempty.
    - intros _. by destruct (replicate (length b) _ ++ t). }
  unfold joined. destruct l as [|x l'] eqn:El.
  - rewrite decide_True by done.
    change (foldl (clean_step true) ?a (components &".")) with a.
    simpl in Hfold. rewrite Hfold. by rewrite reverse_involutive.
  - case_decide as Hn.
    + by apply HJ in Hn.
    + unfold components. rewrite Split_Join by done. rewrite Hfold.
      apply reverse_involutive.
Qed.

(** ** Properties *)

(** [C5] The path check of a local root decides exactly whether the requested
    path lies below the root: an accepted path is the root extended by ordinary
    components (none of them empty, ["."] or [".."]) together with those
    components as the path inside the root; a rejected path does not have the
    root as a prefix of its components.  The root is an absolute, cleaned path
    other than ["/"]. *)
Theorem validatePath_contained rs path :
  Forall ordinary rs -> rs <> [] ->
  match validatePath (abs_path rs) path with
  | Ok (full, vfsPath) =>
      exists cs, Forall ordinary cs /\ joined rs path = rs ++ cs
                 /\ full = abs_path (rs ++ cs) /\ vfsPath = Join cs [slash]
  | Err e => ~ rs `prefix_of` joined rs path
             /\ e = InvalidPathError (abs_path rs) (abs_path (joined rs path))
  end.
Proof. apply validatePath_cases. Qed.

(** [C6] A local root asks the system about paths below its directory only: two
    operating systems that give the same answers to [Lstat], [Readlink] and
    [OpenFile] for every path that is, as a path, the root directory extended
    by ordinary components cannot be told apart by any operation of the root,
    on any name, [".."] included.  What the system finds at such a path is its
    own matter: it follows links in the directories of the path, which the
    symlink evaluation in front of the root excludes. *)
Theorem local_root_confined rs os1 os2 :
  Forall ordinary rs -> rs <> [] -> agree_below rs os1 os2 ->
  root_equiv (local_root os1 (abs_path rs)) (local_root os2 (abs_path rs)).
Proof. apply local_root_agree. Qed.

(** A link to an absolute target inside the root is handed to the symlink
    evaluation as a relative path that leads from the directory of the link to
    exactly that target. *)
Theorem local_Readlink_relative os rs cs c ts :
  Forall ordinary rs -> rs <> [] -> Forall ordinary cs -> ordinary c ->
  Forall ordinary ts -> ts <> [] ->
  os_Readlink os (abs_path (rs ++ cs ++ [c])) = Ok (abs_path (rs ++ ts)) ->
  exists l, local_Readlink os (abs_path rs) (Join (cs ++ [c]) [slash]) = Ok l
            /\ joined (rs ++ cs) l = rs ++ ts.
Proof.
  intros Hrs Hne Hcs Hc Hts Htne Hlink.
  assert (Hcc : Forall ordinary (cs ++ [c])) by (apply Forall_app; auto).
  assert (Hv : validatePath (abs_path rs) (Join (cs ++ [c]) [slash])
               = Ok (abs_path (rs ++ cs ++ [c]), Join (cs ++ [c]) [slash])).
  { assert (Hj : joined rs (Join (cs ++ [c]) [slash]) = rs ++ cs ++ [c]).
    { unfold joined, components. rewrite Split_Join; [|by destruct cs|].
      - rewrite foldl_clean_ordinary by done. by rewrite <- reverse_app, reverse_involutive.
      - eapply Forall_impl; [done|]. by intros x (?&?&?&?). }
    pose proof (validatePath_cases rs (Join (cs ++ [c]) [slash]) Hrs Hne) as H.
    destruct (validatePath _ _) as [[full v]|e].
    - destruct H as (ds & _ & Hd & -> & ->). rewrite Hj in Hd. by simplify_list_eq.
    - destruct H as [H _]. exfalso. apply H. rewrite Hj. by eexists. }
  unfold local_Readlink. rewrite Hv. cbn [result_bind fst]. rewrite Hlink. cbn [result_bind].
  assert (HasPrefix (abs_path (rs ++ ts)) (abs_path rs ++ [slash]) = true) as ->.
  { rewrite abs_path_app by done. apply HasPrefix_spec. eexists.
    by rewrite <- app_assoc. }
  eexists. split; [done|]. rewrite app_assoc, Dir_abs_path; [|..|done].
  - apply Rel_joined; by apply Forall_app.
  - by apply Forall_app.
  - by destruct rs.
Qed.

Definition site : list str := [&"srv"; &"pages"].

Definition os_with (secret : str) : OS := {|
  Getwd := &"/";
  filepath_EvalSymlinks p := Ok p;
  os_Lstat p := if decide (p = &"/srv/pages/public/l") then Ok (mkFileInfo ModeSymlink 0 0)
                else Err os_ErrNotExist;
  os_Readlink p := if decide (p = &"/srv/pages/public/l") then Ok &"/srv/pages/x/y"
                   else Err os_ErrNotExist;
  os_OpenFile p := if decide (p = &"/etc/passwd") then Ok (mkFileInfo ModeRegular 0 0, secret)
                   else Err os_ErrNotExist |}.

Lemma validatePath_contained_witness :
  validatePath &"/srv/pages" &"../secret"
  = Err (InvalidPathError &"/srv/pages" &"/srv/secret")
  /\ match validatePath (abs_path site) &"../secret" with
     | Ok (full, vfsPath) =>
         exists cs, Forall ordinary cs /\ joined site &"../secret" = site ++ cs
                    /\ full = abs_path (site ++ cs) /\ vfsPath = Join cs [slash]
     | Err e => ~ site `prefix_of` joined site &"../secret"
                /\ e = InvalidPathError (abs_path site) (abs_path (joined site &"../secret"))
     end.
Proof.
  split; [run|]. apply validatePath_contained; [decide_now|done].
Defined.

Lemma local_root_confined_witness :
  root_equiv (local_root (os_with &"one") (abs_path site))
             (local_root (os_with &"two") (abs_path site)).
Proof.
  apply local_root_confined; [decide_now|done|].
  intros cs Hcs p. split; [done|]. split; [done|].
  assert (p <> &"/etc/passwd") by (destruct cs; vm_compute; congruence).
  unfold os_with; cbn [os_OpenFile]. by rewrite !decide_False.
Defined.

Lemma local_Readlink_relative_witness :
  exists l, local_Readlink (os_with &"s") (abs_path site) (Join [&"public"; &"l"] [slash]) = Ok l
            /\ joined (site ++ [&"public"]) l = site ++ [&"x"; &"y"].
Proof.
  apply (local_Readlink_relative (os_with &"s") site [&"public"] &"l" [&"x"; &"y"]);
    try done; try decide_now; run.
Defined.
