(* ===== verification/Header.v ===== *)
(** * HTTP header parsing and content negotiation

    [internal/httputil/header/header.go] and [internal/httputil/negotiate.go].
    Quality values are IEEE doubles ([float64], as [spec_float] with 53 bits
    of precision); the digit accumulators of [expectQuality] are 64-bit
    [int]s that wrap around. *)

From S2P Require Import Prelude GoStd.
From Stdlib Require Import SpecFloat.

(** ** Octet types ([init], [octetTypes]) *)

Definition separators : list nat :=
  [32; 9; 34; 40; 41; 44; 47; 58; 59; 60; 61; 62; 63; 64; 91; 93; 92; 123; 125].

Definition isSpace (b : ascii) : bool :=
  bool_decide (nat_of_ascii b ∈ [32; 9; 13; 10]).

Definition isToken (b : ascii) : bool :=
  let c := nat_of_ascii b in
  let isCtl := (c <=? 31) || (c =? 127) in
  let isChar := c <=? 127 in
  let isSeparator := bool_decide (c ∈ separators) in
  isChar && negb isCtl && negb isSeparator.

(** ** Header values

    [http.Header] is a map from canonical keys to the list of values. *)

Abbreviation Header := (gmap str (list str)).

Definition upper_byte (c : ascii) : ascii :=
  let n := nat_of_ascii c in
  if (97 <=? n) && (n <=? 122) then ascii_of_nat (n - 32) else c.

(** [http.CanonicalHeaderKey]: the first letter and every letter after a
    hyphen in upper case, the others in lower case; a key with a byte that is
    not a token byte is left as it is. *)
Fixpoint canonical_bytes (upper : bool) (s : str) : str :=
  match s with
  | [] => []
  | c :: s' => (if upper then upper_byte c else lower_byte c)
               :: canonical_bytes (bool_decide (c = "-"%char)) s'
  end.
Definition CanonicalHeaderKey (s : str) : str :=
  if forallb isToken s then canonical_bytes true s else s.

Definition header_values (h : Header) (key : str) : list str := default [] (h !! key).

(** [Header.Get] *)
Definition Header_Get (h : Header) (key : str) : str :=
  match header_values h (CanonicalHeaderKey key) with v :: _ => v | [] => [] end.

(** [Copy] returns a shallow copy of the header. *)
Definition Copy (header : Header) : Header :=
  map_fold (fun k vs (h : Header) => <[k := vs]> h) ∅ header.

(** ** Scanners *)

(** Split a string after its longest prefix of bytes that satisfy [p]. *)
Fixpoint span (p : ascii -> bool) (s : str) : str * str :=
  match s with
  | [] => ([], [])
  | c :: s' => if p c then let '(t, r) := span p s' in (c :: t, r) else ([], s)
  end.

Definition skipSpace (s : str) : str := (span isSpace s).2.
Definition expectToken (s : str) : str * str := span isToken s.
Definition isTokenSlash (b : ascii) : bool := isToken b || bool_decide (b = "/"%char).
Definition expectTokenSlash (s : str) : str * str := span isTokenSlash s.

(** *** float64 *)

Definition f64_of_Z (z : Z) : spec_float := binary_normalize 53 1024 z 0 false.
Definition f64_div : spec_float -> spec_float -> spec_float := SFdiv 53 1024.
Definition f64_add : spec_float -> spec_float -> spec_float := SFadd 53 1024.
Definition f64_lt : spec_float -> spec_float -> bool := SFltb.
Definition f64_eq : spec_float -> spec_float -> bool := SFeqb.
#[global] Arguments f64_of_Z : simpl never.
#[global] Arguments f64_div : simpl never.
#[global] Arguments f64_add : simpl never.

Definition isDigit (b : ascii) : bool :=
  let c := nat_of_ascii b in (48 <=? c) && (c <=? 57).

(** The loop over the fraction digits: [n = n*10 + int(b) - '0'; d *= 10]. *)
Fixpoint fraction (s : str) (n d : Z) : Z * Z * str :=
  match s with
  | [] => (n, d, [])
  | b :: s' =>
      if isDigit b then
        fraction s' (wrap64 (n * 10 + Z.of_nat (nat_of_ascii b) - 48)) (wrap64 (d * 10))
      else (n, d, s)
  end.

Definition expectQuality (s : str) : spec_float * str :=
  match s with
  | [] => (f64_of_Z (-1), [])
  | c :: s' =>
      let frac (q : Z) :=
        if HasPrefix s' &"." then
          let '(n, d, rest) := fraction (drop 1 s') 0 1 in
          (f64_add (f64_of_Z q) (f64_div (f64_of_Z n) (f64_of_Z d)), rest)
        else (f64_of_Z q, s') in
      if decide (c = "0"%char) then frac 0%Z
      else if decide (c = "1"%char) then frac 1%Z
      else (f64_of_Z (-1), [])
  end.

(** *** Accept headers *)

Record AcceptSpec : Type := mkSpec { Value : str; Q : spec_float }.

(** The inner loop of [ParseAccept] on one header value; every turn consumes
    at least one byte, [None] when the turns run out. *)
Fixpoint parse_accept_value (turns : nat) (s : str) : option (list AcceptSpec) :=
  match turns with
  | O => None
  | S turns' =>
      let '(v, s1) := expectTokenSlash s in
      if decide (v = []) then Some []
      else
        let s2 := skipSpace s1 in
        let finish (q : spec_float) (s3 : str) :=
          let spec := mkSpec v q in
          let s4 := skipSpace s3 in
          if negb (HasPrefix s4 &",") then Some [spec]
          else cons spec <$> parse_accept_value turns' (skipSpace (drop 1 s4)) in
        if HasPrefix s2 &";" then
          let s3 := skipSpace (drop 1 s2) in
          if negb (HasPrefix s3 &"q=") then Some []
          else
            let '(q, s4) := expectQuality (drop 2 s3) in
            if f64_lt q (f64_of_Z 0) then Some [] else finish q s4
        else finish (f64_of_Z 1) s2
  end.

Definition ParseAccept (header : Header) (key : str) : list AcceptSpec :=
  mjoin ((fun s => default [] (parse_accept_value (S (length s)) s))
           <$> header_values header key).

(** *** Lists *)

Record list_scan : Type := mkScan {
  ls_begin : nat; ls_end : nat; ls_escape : bool; ls_quote : bool; ls_result : list str }.

Definition substring (s : str) (b e : nat) : str := take (e - b) (drop b s).

(** One byte of [ParseList]: [i] is its index in [s]. *)
Definition parse_list_byte (s : str) (st : list_scan) (i : nat) (b : ascii) : list_scan :=
  let '(mkScan bg en esc quo res) := st in
  if esc then mkScan bg (i + 1) false quo res
  else if quo then
    if decide (b = "\"%char) then mkScan bg (i + 1) true quo res
    else if decide (b = dquote) then mkScan bg (i + 1) esc false res
    else mkScan bg (i + 1) esc quo res
  else if decide (b = dquote) then mkScan bg (i + 1) esc true res
  else if isSpace b then
    if bg =? en then mkScan (i + 1) (i + 1) esc quo res else st
  else if decide (b = ","%char) then
    let res := if bg <? en then res ++ [substring s bg en] else res in
    mkScan (i + 1) (i + 1) esc quo res
  else mkScan bg (i + 1) esc quo res.

Fixpoint parse_list_loop (s : str) (st : list_scan) (i : nat) (rest : str) : list_scan :=
  match rest with
  | [] => st
  | b :: rest' => parse_list_loop s (parse_list_byte s st i b) (i + 1) rest'
  end.

Definition parse_list_value (s : str) : list str :=
  let st := parse_list_loop s (mkScan 0 0 false false []) 0 s in
  if ls_begin st <? ls_end st
  then ls_result st ++ [substring s (ls_begin st) (ls_end st)] else ls_result st.

Definition ParseList (header : Header) (key : str) : list str :=
  mjoin (parse_list_value <$> header_values header (CanonicalHeaderKey key)).

(** *** Quoted strings and parameters *)

(** The loop after the first backslash: [acc] is [p[:j]]. *)
Fixpoint unescape (acc : str) (escape : bool) (s : str) : str * str :=
  match s with
  | [] => ([], [])
  | b :: s' =>
      if escape then unescape (acc ++ [b]) false s'
      else if decide (b = "\"%char) then unescape acc true s'
      else if decide (b = dquote) then (acc, s')
      else unescape (acc ++ [b]) false s'
  end.

(** The loop up to the closing quote or the first backslash. *)
Fixpoint scan_quoted (acc : str) (s : str) : str * str :=
  match s with
  | [] => ([], [])
  | b :: s' =>
      if decide (b = dquote) then (acc, s')
      else if decide (b = "\"%char) then unescape acc true s'
      else scan_quoted (acc ++ [b]) s'
  end.

Definition expectTokenOrQuoted (s : str) : str * str :=
  if negb (HasPrefix s [dquote]) then expectToken s else scan_quoted [] (drop 1 s).

(** The parameter loop of [ParseValueAndParams]. *)
Fixpoint parse_params (turns : nat) (s : str) (params : gmap str str) : option (gmap str str) :=
  match turns with
  | O => None
  | S turns' =>
      if negb (HasPrefix s &";") then Some params
      else
        let '(pkey, s1) := expectToken (skipSpace (drop 1 s)) in
        if decide (pkey = []) then Some params
        else if negb (HasPrefix s1 &"=") then Some params
        else
          let '(pvalue, s2) := expectTokenOrQuoted (drop 1 s1) in
          if decide (pvalue = []) then Some params
          else parse_params turns' (skipSpace s2) (<[ToLower pkey := pvalue]> params)
  end.

Definition ParseValueAndParams (header : Header) (key : str) : str * gmap str str :=
  let '(value, s) := expectTokenSlash (Header_Get header key) in
  if decide (value = []) then (value, ∅)
  else (ToLower value, default ∅ (parse_params (S (length s)) (skipSpace s) ∅)).

(** ** Negotiation *)

(** Does [spec] speak about [offer]? *)
Definition spec_matches (offer : str) (spec : AcceptSpec) : bool :=
  bool_decide (Value spec = &"*") || bool_decide (Value spec = offer).

Definition encoding_step (offer : str) (best : str * spec_float) (spec : AcceptSpec)
  : str * spec_float :=
  if f64_lt (best.2) (Q spec) && spec_matches offer spec then (offer, Q spec) else best.

Definition NegotiateContentEncoding (header : Header) (offers : list str) : str :=
  let specs := ParseAccept header &"Accept-Encoding" in
  let '(bestOffer, bestQ) :=
    foldl (fun best offer => foldl (encoding_step offer) best specs)
          (&"identity", f64_of_Z (-1)) offers in
  if f64_eq bestQ (f64_of_Z 0) then [] else bestOffer.

(** State of the content type negotiation. *)
Record type_best : Type := mkBest { bestOffer : str; bestQ : spec_float; bestWild : nat }.

Definition type_step (offer : str) (b : type_best) (spec : AcceptSpec) : type_best :=
  let better wild := f64_lt (bestQ b) (Q spec) || (wild <? bestWild b) in
  if f64_eq (Q spec) (f64_of_Z 0) then b
  else if f64_lt (Q spec) (bestQ b) then b
  else if decide (Value spec = &"*/*") then
    if better 2 then mkBest offer (Q spec) 2 else b
  else if HasSuffix (Value spec) &"/*" then
    if HasPrefix offer (take (length (Value spec) - 1) (Value spec)) && better 1
    then mkBest offer (Q spec) 1 else b
  else if bool_decide (Value spec = offer) && better 0 then mkBest offer (Q spec) 0 else b.

Definition NegotiateContentType (header : Header) (offers : list str) (defaultOffer : str) : str :=
  let specs := ParseAccept header &"Accept" in
  bestOffer (foldl (fun b offer => foldl (type_step offer) b specs)
                   (mkBest defaultOffer (f64_of_Z (-1)) 3) offers).

(** ** Scanner lemmas *)

Lemma span_app p s t r : span p s = (t, r) -> s = t ++ r /\ forallb p t = true.
Proof.
  revert t r. induction s as [|c s IH]; simpl; intros t r H; [by simplify_eq|].
  destruct (p c) eqn:Ec; [|by simplify_eq].
  destruct (span p s) as [t' r']. simplify_eq. destruct (IH _ _ eq_refl) as [-> Ht].
  simpl. by rewrite Ec, Ht.
Qed.

(** The head of [r], if any, does not satisfy [p]. *)
Definition stops (p : ascii -> bool) (r : str) : Prop :=
  match r with [] => True | c :: _ => p c = false end.

Lemma span_exact p t r : forallb p t = true -> stops p r -> span p (t ++ r) = (t, r).
Proof.
  intros Ht Hr. induction t as [|c t IH]; simpl in *.
  - destruct r as [|c r]; [done|]. simpl in *. by rewrite Hr.
  - bools. by rewrite H, IH.
Qed.

Lemma skipSpace_length s : length (skipSpace s) <= length s.
Proof.
  unfold skipSpace. destruct (span isSpace s) as [t r] eqn:E.
  apply span_app in E as [-> _]. rewrite length_app. simpl. lia.
Qed.

Lemma skipSpace_stop s : stops isSpace s -> skipSpace s = s.
Proof.
  intros H. unfold skipSpace. change s with ([] ++ s). by rewrite span_exact.
Qed.

Lemma skipSpace_space t : skipSpace (" "%char :: t) = skipSpace t.
Proof. unfold skipSpace. simpl. by destruct (span isSpace t). Qed.

Lemma span_stops p s : stops p (span p s).2.
Proof.
  induction s as [|c s IH]; simpl; [done|].
  destruct (p c) eqn:E; [|done]. by destruct (span p s).
Qed.

Lemma skipSpace_idem s : skipSpace (skipSpace s) = skipSpace s.
Proof. apply skipSpace_stop, span_stops. Qed.

Lemma fraction_length s : forall n d, length (fraction s n d).2 <= length s.
Proof.
  induction s as [|c s IH]; intros n d; simpl; [done|].
  destruct (isDigit c); [|simpl; lia].
  etransitivity; [apply IH|lia].
Qed.

Lemma expectQuality_length s : length (expectQuality s).2 <= length s.
Proof.
  unfold expectQuality. destruct s as [|c s]; [done|].
  assert (Hf : forall q, length (if HasPrefix s &"." then
    let '(n, d, rest) := fraction (drop 1 s) 0 1 in
    (f64_add (f64_of_Z q) (f64_div (f64_of_Z n) (f64_of_Z d)), rest)
    else (f64_of_Z q, s)).2 <= length s).
  { intros q. destruct (HasPrefix s &"."); [|done].
    pose proof (fraction_length (drop 1 s) 0 1) as H. rewrite length_drop in H.
    destruct (fraction (drop 1 s) 0 1) as [[n d] rest]. simpl in *. lia. }
  case_decide; [specialize (Hf 0%Z); simpl in *; lia|].
  case_decide; [specialize (Hf 1%Z); simpl in *; lia|]. simpl. lia.
Qed.

Lemma parse_accept_value_total turns : forall s,
  length s < turns -> is_Some (parse_accept_value turns s).
Proof.
  induction turns as [|n IH]; intros s Hs; [lia|]. cbn [parse_accept_value].
  destruct (expectTokenSlash s) as [v s1] eqn:E1. case_decide as Hv; [eauto|].
  apply span_app in E1 as [-> _]. rewrite length_app in Hs.
  assert (0 < length v) by (destruct v; simpl; [done|lia]).
  pose proof (skipSpace_length s1) as L1.
  assert (Hfin : forall q s3, length s3 <= length s1 ->
    is_Some (if negb (HasPrefix (skipSpace s3) &",") then Some [mkSpec v q]
             else cons (mkSpec v q) <$>
                    parse_accept_value n (skipSpace (drop 1 (skipSpace s3))))).
  { intros q s3 L3. destruct (negb _); [eauto|].
    pose proof (skipSpace_length s3). pose proof (skipSpace_length (drop 1 (skipSpace s3))).
    rewrite length_drop in *. destruct (IH (skipSpace (drop 1 (skipSpace s3)))) as [l ->]; [lia|].
    simpl. eauto. }
  destruct (HasPrefix (skipSpace s1) &";"); [|by apply Hfin].
  destruct (negb _); [eauto|].
  set (s3 := skipSpace (drop 1 (skipSpace s1))).
  assert (L3 : length s3 <= length s1).
  { unfold s3. pose proof (skipSpace_length (drop 1 (skipSpace s1))).
    rewrite length_drop in *. lia. }
  pose proof (expectQuality_length (drop 2 s3)) as L4. rewrite length_drop in L4.
  destruct (expectQuality (drop 2 s3)) as [q s4]. simpl in L4.
  destruct (f64_lt q (f64_of_Z 0)); [eauto|]. apply Hfin. lia.
Qed.

(** What every parsed specification satisfies. *)
Definition spec_ok (spec : AcceptSpec) : Prop :=
  Value spec <> [] /\ forallb isTokenSlash (Value spec) = true
  /\ f64_lt (Q spec) (f64_of_Z 0) = false.

Lemma parse_accept_value_ok turns : forall s l,
  parse_accept_value turns s = Some l -> Forall spec_ok l.
Proof.
  induction turns as [|n IH]; intros s l; [done|]. cbn [parse_accept_value].
  destruct (expectTokenSlash s) as [v s1] eqn:E1. case_decide as Hv.
  { intros [= <-]. constructor. }
  apply span_app in E1 as [_ Ht].
  assert (Hfin : forall q s3, f64_lt q (f64_of_Z 0) = false ->
    (if negb (HasPrefix (skipSpace s3) &",") then Some [mkSpec v q]
     else cons (mkSpec v q) <$> parse_accept_value n (skipSpace (drop 1 (skipSpace s3))))
    = Some l -> Forall spec_ok l).
  { intros q s3 Hq. assert (spec_ok (mkSpec v q)) by done. destruct (negb _).
    - intros [= <-]. by repeat constructor.
    - intros H1. apply fmap_Some in H1 as (l' & Hl' & ->). constructor; [done|]. by eapply IH. }
  destruct (HasPrefix (skipSpace s1) &";"); [|by apply Hfin].
  destruct (negb _); [intros [= <-]; constructor|].
  destruct (expectQuality _) as [q s4].
  destruct (f64_lt q (f64_of_Z 0)) eqn:Eq; [intros [= <-]; constructor|by apply Hfin].
Qed.

(** ** Order of float64 *)

Ltac float_cmp :=
  repeat match goal with
  | x : spec_float |- _ => destruct x as [[]|[]| |[] ? ?]
  end;
  unfold SFltb, SFleb, SFcompare in *;
  repeat match goal with
  | H : context [Z.compare ?a ?b] |- _ => destruct (Z.compare_spec a b)
  | |- context [Z.compare ?a ?b] => destruct (Z.compare_spec a b)
  | H : context [Pos.compare_cont Eq ?a ?b] |- _ =>
      change (Pos.compare_cont Eq a b) with (Pos.compare a b) in H;
      destruct (Pos.compare_spec a b)
  | |- context [Pos.compare_cont Eq ?a ?b] =>
      change (Pos.compare_cont Eq a b) with (Pos.compare a b);
      destruct (Pos.compare_spec a b)
  end; simpl in *; try done; try lia.

Lemma f64_lt_le_trans a b c : f64_lt a b = true -> SFleb b c = true -> f64_lt a c = true.
Proof. unfold f64_lt. intros H1 H2. float_cmp. Qed.

Lemma f64_lt_le a b : f64_lt a b = true -> SFleb a b = true.
Proof. unfold f64_lt. intros H1. float_cmp. Qed.

Lemma f64_lt_trans a b c : f64_lt a b = true -> f64_lt b c = true -> f64_lt a c = true.
Proof. intros H1 H2. eapply f64_lt_le_trans; [done|by apply f64_lt_le]. Qed.

Lemma f64_lt_irrefl a : f64_lt a a = false.
Proof. unfold f64_lt. destruct (SFltb a a) eqn:E; [|done]. exfalso. float_cmp. Qed.

Lemma f64_lt_asym a b : f64_lt a b = true -> f64_lt b a = false.
Proof.
  intros H1. destruct (f64_lt b a) eqn:H2; [|done].
  pose proof (f64_lt_trans _ _ _ H1 H2) as H. by rewrite f64_lt_irrefl in H.
Qed.

(** ** The negotiated encoding is the best one *)

(** [(o, q)] is the choice after the offers before it have been seen:
    [o] stands at its place among the [offers], a specification gives it [q],
    no pair has a higher quality and no pair of an earlier offer an equal
    one. *)
Definition best_choice (specs : list AcceptSpec) (offers : list str) (o : str)
    (q : spec_float) : Prop :=
  exists pre post, offers = pre ++ o :: post
  /\ (exists sp, sp ∈ specs /\ spec_matches o sp = true /\ Q sp = q)
  /\ (forall o' sp, o' ∈ offers -> sp ∈ specs -> spec_matches o' sp = true ->
        f64_lt q (Q sp) = false)
  /\ (forall o' sp, o' ∈ pre -> sp ∈ specs -> spec_matches o' sp = true ->
        SFleb q (Q sp) = false).

(** No pair beats the initial quality. *)
Definition no_choice (specs : list AcceptSpec) (offers : list str) (q0 : spec_float) : Prop :=
  forall o sp, o ∈ offers -> sp ∈ specs -> spec_matches o sp = true -> f64_lt q0 (Q sp) = false.

Lemma encoding_inner offer specs : forall best,
  let r := foldl (encoding_step offer) best specs in
  (r = best /\ forall sp, sp ∈ specs -> spec_matches offer sp = true -> f64_lt best.2 (Q sp) = false)
  \/ (r.1 = offer /\ f64_lt best.2 r.2 = true
      /\ (exists sp, sp ∈ specs /\ spec_matches offer sp = true /\ Q sp = r.2)
      /\ forall sp, sp ∈ specs -> spec_matches offer sp = true -> f64_lt r.2 (Q sp) = false).
Proof.
  induction specs as [|sp specs IH]; intros best; simpl.
  { left. split; [done|]. intros ? []%not_elem_of_nil. }
  unfold encoding_step at 2 4 6 8 10.
  destruct (f64_lt best.2 (Q sp) && spec_matches offer sp) eqn:E.
  - bools. specialize (IH (offer, Q sp)). simpl in IH. right.
    destruct IH as [[-> Hn]|(H1 & H2 & (sp' & Hin & Hm & Hq) & Hn)].
    + simpl. repeat split; try done; [exists sp; set_solver|].
      intros sp' [->|Hs]%elem_of_cons Hm; [apply f64_lt_irrefl|by apply Hn].
    + repeat split; try done; [by eapply f64_lt_trans|exists sp'; set_solver|].
      intros sp'' [->|Hs]%elem_of_cons Hm'; [by apply f64_lt_asym|by apply Hn].
  - specialize (IH best). simpl in IH.
    destruct IH as [[Heq Hn]|(H1 & H2 & (sp' & Hin & Hm & Hq) & Hn)]; [left|right].
    + split; [done|]. intros sp' [->|Hs]%elem_of_cons Hm; [|by apply Hn].
      by apply andb_false_iff in E as [E|E]; [|congruence].
    + repeat split; try done; [exists sp'; set_solver|].
      intros sp'' [->|Hs]%elem_of_cons Hm'; [|by apply Hn].
      apply andb_false_iff in E as [E|E]; [|congruence].
      destruct (f64_lt (foldl (encoding_step offer) best specs).2 (Q sp)) eqn:Er; [|done].
      by rewrite (f64_lt_trans _ _ _ H2 Er) in E.
Qed.

Lemma encoding_outer specs q0 o0 offers :
  let r := foldl (fun best offer => foldl (encoding_step offer) best specs) (o0, q0) offers in
  (r = (o0, q0) /\ no_choice specs offers q0)
  \/ (f64_lt q0 r.2 = true /\ best_choice specs offers r.1 r.2).
Proof.
  induction offers as [|o offers IH] using rev_ind; simpl.
  { left. split; [done|]. intros ? ? []%not_elem_of_nil. }
  rewrite foldl_app. simpl. set (r := foldl _ (o0, q0) offers) in *.
  pose proof (encoding_inner o specs r) as Hi. simpl in Hi.
  destruct Hi as [[-> Hn]|(H1 & H2 & Hex & Hn)].
  - destruct IH as [[Hr Hno]|(Hlt & pre & post & Hof & Hex & Hmax & Hpre)]; [left|right].
    + split; [done|]. rewrite Hr in Hn.
      intros o' sp [Ho|Ho%list_elem_of_singleton]%elem_of_app; [by apply Hno|].
      subst o'. apply Hn.
    + split; [done|]. exists pre, (post ++ [o]).
      split; [rewrite Hof; by rewrite <- app_assoc|].
      split; [done|]. split; [|done]. intros o' sp Ho.
      apply elem_of_app in Ho as [Ho|Ho%list_elem_of_singleton]; [by apply Hmax|].
      subst o'. apply Hn.
  - right. set (r' := foldl (encoding_step o) r specs) in *.
    assert (Hold : forall o' sp, o' ∈ offers -> sp ∈ specs -> spec_matches o' sp = true ->
              f64_lt r.2 (Q sp) = false).
    { destruct IH as [[Hr Hno]|(Hlt & pre & post & Hof & _ & Hmax & Hpre)]; [|done].
      rewrite Hr. done. }
    assert (Hnle : forall o' sp, o' ∈ offers -> sp ∈ specs -> spec_matches o' sp = true ->
              SFleb r'.2 (Q sp) = false).
    { intros o' sp Ho Hs Hm. destruct (SFleb r'.2 (Q sp)) eqn:E; [|done].
      specialize (Hold _ _ Ho Hs Hm). by rewrite (f64_lt_le_trans _ _ _ H2 E) in Hold. }
    split.
    + destruct IH as [[Hr _]|[Hlt _]]; [by rewrite Hr in H2|by eapply f64_lt_trans].
    + exists offers, []. rewrite H1. split; [done|]. split; [done|]. split; [|done].
      intros o' sp [Ho|Ho%list_elem_of_singleton]%elem_of_app Hs Hm;
        [|subst o'; by apply Hn].
      destruct (f64_lt r'.2 (Q sp)) eqn:E; [|done].
      apply f64_lt_le in E. by rewrite (Hnle _ _ Ho Hs Hm) in E.
Qed.

Lemma NegotiateContentEncoding_cases header offers :
  let specs := ParseAccept header &"Accept-Encoding" in
  (no_choice specs offers (f64_of_Z (-1))
   /\ NegotiateContentEncoding header offers = &"identity")
  \/ exists o q, best_choice specs offers o q
     /\ NegotiateContentEncoding header offers
        = if f64_eq q (f64_of_Z 0) then [] else o.
Proof.
  intros specs. unfold NegotiateContentEncoding. fold specs.
  pose proof (encoding_outer specs (f64_of_Z (-1)) &"identity" offers) as H.
  simpl in H. destruct (foldl _ _ offers) as [o q]. simpl in H.
  destruct H as [[Heq Hn]|[_ Hb]]; [left|right].
  - simplify_eq. split; [done|]. by vm_compute.
  - by exists o, q.
Qed.

(** An encoding other than ["identity"] is chosen only when the header
    accepts it. *)
Lemma NegotiateContentEncoding_accepted header offers e :
  NegotiateContentEncoding header offers = e -> e <> [] -> e <> &"identity" ->
  e ∈ offers
  /\ exists sp, sp ∈ ParseAccept header &"Accept-Encoding" /\ spec_matches e sp = true
                /\ f64_eq (Q sp) (f64_of_Z 0) = false.
Proof.
  intros H Hne Hid. destruct (NegotiateContentEncoding_cases header offers)
    as [[_ H1]|(o & q & Hb & H1)]; rewrite H in H1; [done|].
  destruct (f64_eq q (f64_of_Z 0)) eqn:E; [done|]. subst o.
  destruct Hb as (pre & post & -> & (sp & Hs & Hm & <-) & _). split; [set_solver|eauto].
Qed.

(** ** Printing Accept headers *)

(** A weight: ["0"] or ["1"], with up to 18 fraction digits. *)
Record weight : Type := mkWeight { w_one : bool; w_digits : option str }.
Record item : Type := mkItem { it_value : str; it_weight : option weight }.

Definition print_weight (w : weight) : str :=
  (if w_one w then &"1" else &"0")
  ++ match w_digits w with Some ds => &"." ++ ds | None => [] end.
Definition print_item (it : item) : str :=
  it_value it ++ match it_weight it with Some w => &";q=" ++ print_weight w | None => [] end.
Definition print_accept (items : list item) : str := Join (print_item <$> items) &", ".

(** The value a weight stands for. *)
Definition weight_value (w : weight) : spec_float :=
  let q := f64_of_Z (if w_one w then 1 else 0) in
  match w_digits w with
  | Some ds => let '(n, d, _) := fraction ds 0 1 in f64_add q (f64_div (f64_of_Z n) (f64_of_Z d))
  | None => q
  end.
Definition item_spec (it : item) : AcceptSpec :=
  mkSpec (it_value it) (match it_weight it with Some w => weight_value w | None => f64_of_Z 1 end).

Definition item_ok (it : item) : Prop :=
  it_value it <> [] /\ forallb isTokenSlash (it_value it) = true
  /\ match it_weight it with
     | Some (mkWeight _ (Some ds)) => forallb isDigit ds = true /\ length ds <= 18
     | _ => True
     end.

#[export] Instance item_ok_dec it : Decision (item_ok it).
Proof. unfold item_ok. destruct (it_weight it) as [[? []]|]; apply _. Defined.

(** *** Weights are not negative *)

Definition nonneg (x : spec_float) : Prop :=
  match x with
  | S754_zero true | S754_infinity true | S754_finite true _ _ => False
  | _ => True
  end.

Lemma nonneg_not_lt0 x : nonneg x -> f64_lt x (f64_of_Z 0) = false.
Proof. by destruct x as [[]|[]| |[] ? ?]. Qed.

Lemma nonneg_round_aux m e l : nonneg (binary_round_aux 53 1024 false m e l).
Proof. unfold binary_round_aux. repeat split_match; done. Qed.

Lemma nonneg_of_Z z : (0 <= z)%Z -> nonneg (f64_of_Z z).
Proof.
  intros H. unfold f64_of_Z, binary_normalize. destruct z; [done| |lia].
  unfold binary_round. destruct (shl_align _ _ _). apply nonneg_round_aux.
Qed.

Lemma nonneg_div x y : nonneg x -> nonneg y -> nonneg (f64_div x y).
Proof.
  intros Hx Hy. unfold f64_div, SFdiv.
  destruct x as [[]|[]| |[] mx ex], y as [[]|[]| |[] my ey]; try done.
  destruct (SFdiv_core_binary _ _ _ _ _ _) as [[mz ez] lz]. apply nonneg_round_aux.
Qed.

Lemma nonneg_add x y : nonneg x -> nonneg y -> nonneg (f64_add x y).
Proof.
  intros Hx Hy. unfold f64_add, SFadd.
  destruct x as [[]|[]| |[] mx ex], y as [[]|[]| |[] my ey]; try done.
  cbn [cond_Zopp].
  set (z := (_ + _)%Z). assert (0 <= z)%Z by (unfold z; lia).
  unfold binary_normalize. destruct z; [done| |lia].
  unfold binary_round. destruct (shl_align _ _ _). apply nonneg_round_aux.
Qed.

Lemma isDigit_bound b : isDigit b = true -> (48 <= Z.of_nat (nat_of_ascii b) <= 57)%Z.
Proof. unfold isDigit. intros H. bools. lia. Qed.

(** Up to 18 digits do not overflow the accumulators. *)
Lemma fraction_bounds ds : forall r n d,
  forallb isDigit ds = true -> stops isDigit r ->
  (0 <= n < d)%Z -> (d * 10 ^ Z.of_nat (length ds) <= 10 ^ 18)%Z ->
  exists n' d', fraction (ds ++ r) n d = (n', d', r) /\ fraction ds n d = (n', d', [])
                /\ (0 <= n')%Z /\ (0 < d')%Z.
Proof.
  induction ds as [|b ds IH]; intros r n d Hd Hr Hn Hb.
  - exists n, d. simpl. repeat split; try lia.
    destruct r as [|c r]; [done|]. simpl in *. by rewrite Hr.
  - simpl in Hd. bools. pose proof (isDigit_bound b H) as Hbd.
    assert (Hpow : (d * 10 * 10 ^ Z.of_nat (length ds) <= 10 ^ 18)%Z).
    { replace (Z.of_nat (length (b :: ds))) with (Z.of_nat (length ds) + 1)%Z in Hb
        by (simpl; lia).
      rewrite Z.pow_add_r in Hb by lia. lia. }
    assert (1 <= 10 ^ Z.of_nat (length ds))%Z by (pose proof (Z.pow_pos_nonneg 10 (Z.of_nat (length ds))); lia).
    assert (d * 10 <= 10 ^ 18)%Z by nia.
    simpl. rewrite H. rewrite !wrap64_small by (unfold in_int64; lia).
    apply IH; [done|done|lia|done].
Qed.

Lemma expectQuality_print w r :
  match w_digits w with Some ds => forallb isDigit ds = true /\ length ds <= 18 | None => True end ->
  stops (fun c => isDigit c || bool_decide (c = "."%char)) r ->
  expectQuality (print_weight w ++ r) = (weight_value w, r) /\ nonneg (weight_value w).
Proof.
  intros Hw Hr. unfold print_weight, weight_value.
  assert (Hq : forall b : bool, nonneg (f64_of_Z (if b then 1 else 0))).
  { intros b. apply nonneg_of_Z. destruct b; lia. }
  destruct w as [one [ds|]]; cbn [w_digits w_one] in *.
  - destruct Hw as [Hd Hl].
    destruct (fraction_bounds ds r 0 1) as (n & d & E1 & E2 & Hn & Hdd); [done| |lia| |].
    { destruct r as [|c r]; [done|]. simpl in *. by apply orb_false_iff in Hr as [? _]. }
    { rewrite Z.mul_1_l. apply Z.pow_le_mono_r; lia. }
    rewrite E2. assert (nonneg (f64_add (f64_of_Z (if one then 1 else 0))
                                 (f64_div (f64_of_Z n) (f64_of_Z d)))).
    { apply nonneg_add; [apply Hq|]. apply nonneg_div; apply nonneg_of_Z; lia. }
    assert (Hf : expectQuality (((if one then &"1" else &"0") ++ &"." ++ ds) ++ r)
      = let '(n, d, rest) := fraction (ds ++ r) 0 1 in
        (f64_add (f64_of_Z (if one then 1 else 0)) (f64_div (f64_of_Z n) (f64_of_Z d)), rest)).
    { by destruct one. }
    split; [|done]. rewrite Hf. by rewrite E1.
  - assert (HasPrefix r &"." = false).
    { destruct r as [|c r]; [done|]. simpl in Hr.
      apply orb_false_iff in Hr as [_ Hr]. bools.
      unfold HasPrefix. apply bool_decide_eq_false. intros [k Hk]. by simplify_eq/=. }
    assert (Hf : expectQuality (((if one then &"1" else &"0") ++ []) ++ r)
      = if HasPrefix r &"." then
          let '(n, d, rest) := fraction (drop 1 r) 0 1 in
          (f64_add (f64_of_Z (if one then 1 else 0)) (f64_div (f64_of_Z n) (f64_of_Z d)), rest)
        else (f64_of_Z (if one then 1 else 0), r)).
    { by destruct one. }
    split; [by rewrite Hf, H|]. apply nonneg_of_Z. by destruct one.
Qed.

(** One printed item followed by the end or by a comma. *)
Lemma parse_accept_item it r turns :
  item_ok it -> (r = [] \/ exists t, r = &", " ++ t /\ stops isSpace t) ->
  parse_accept_value (S turns) (print_item it ++ r)
  = if decide (r = []) then Some [item_spec it]
    else cons (item_spec it) <$> parse_accept_value turns (drop 2 r).
Proof.
  intros (Hne & Htok & Hw) Hr. destruct it as [v w]; cbn [it_value it_weight] in *.
  assert (Hfin : forall q,
    (if negb (HasPrefix (skipSpace r) &",") then Some [mkSpec v q]
     else cons (mkSpec v q) <$> parse_accept_value turns (skipSpace (drop 1 (skipSpace r))))
    = if decide (r = []) then Some [mkSpec v q]
      else cons (mkSpec v q) <$> parse_accept_value turns (drop 2 r)).
  { intros q. destruct Hr as [->|(t & -> & Ht)]; [done|].
    assert (skipSpace (&", " ++ t) = &", " ++ t) as -> by done.
    assert (HasPrefix (&", " ++ t) &"," = true) as -> by apply (HasPrefix_app &"," (&" " ++ t)).
    assert (skipSpace (drop 1 (&", " ++ t)) = t) as ->.
    { rewrite <- (skipSpace_stop t Ht) at 2. exact (skipSpace_space t). }
    by rewrite decide_False. }
  unfold print_item, item_spec; cbn [it_value it_weight parse_accept_value].
  unfold expectTokenSlash.
  destruct w as [w|]; rewrite <- app_assoc.
  - rewrite (span_exact isTokenSlash v) by done. rewrite decide_False by done.
    rewrite <- app_assoc. set (x := print_weight w ++ r).
    assert (skipSpace (&";q=" ++ x) = &";q=" ++ x) as -> by done.
    assert (HasPrefix (&";q=" ++ x) &";" = true) as -> by apply (HasPrefix_app &";" (&"q=" ++ x)).
    assert (skipSpace (drop 1 (&";q=" ++ x)) = &"q=" ++ x) as -> by done.
    rewrite HasPrefix_app. cbn [negb].
    assert (drop 2 (&"q=" ++ x) = x) as -> by done. subst x.
    destruct (expectQuality_print w r) as [E Hn].
    { by destruct w as [? []]. }
    { destruct Hr as [->|(t & -> & _)]; done. }
    rewrite E, nonneg_not_lt0 by done. apply Hfin.
  - rewrite app_nil_l, span_exact; [|done|by destruct Hr as [->|(t & -> & _)]].
    rewrite decide_False by done.
    assert (HasPrefix (skipSpace r) &";" = false) as ->.
    { destruct Hr as [->|(t & -> & _)]; [done|].
      change (skipSpace (&", " ++ t)) with (&", " ++ t).
      apply bool_decide_eq_false. by intros [k Hk]. }
    rewrite skipSpace_idem. apply Hfin.
Qed.

Lemma parse_accept_items items : forall turns,
  items <> [] -> Forall item_ok items -> length items < turns ->
  parse_accept_value turns (print_accept items) = Some (item_spec <$> items).
Proof.
  induction items as [|it items IH]; intros turns Hne HF Ht; [done|].
  apply Forall_cons in HF as [Hit HF]. destruct turns as [|turns]; [simpl in Ht; lia|].
  destruct items as [|it' items].
  - change (print_accept [it]) with (print_item it).
    rewrite <- (app_nil_r (print_item it)), parse_accept_item by auto. done.
  - assert (print_accept (it :: it' :: items)
            = print_item it ++ &", " ++ print_accept (it' :: items)) as -> by done.
    rewrite parse_accept_item; [|done|right; eexists; split; [done|]].
    + rewrite decide_False by done.
      assert (drop 2 (&", " ++ print_accept (it' :: items)) = print_accept (it' :: items))
        as -> by done.
      rewrite IH; [done|done|done|simpl in *; lia].
    + apply Forall_cons in HF as [(Hv & Htok & _) _]. unfold print_accept.
      rewrite fmap_cons. destruct it' as [[|c v] w]; [done|].
      assert (Hc : isSpace c = false).
      { cbn in Htok. bools. clear -H.
        destruct c as [[] [] [] [] [] [] [] []]; try reflexivity; vm_compute in H; done. }
      destruct (print_item <$> items); exact Hc.
Qed.

Lemma print_accept_length items :
  Forall item_ok items -> length items <= length (print_accept items).
Proof.
  induction items as [|it items IH]; intros HF; [simpl; lia|].
  apply Forall_cons in HF as [(Hv & _) HF]. specialize (IH HF).
  assert (1 <= length (print_item it)).
  { unfold print_item. rewrite length_app. destruct (it_value it); simpl; [done|lia]. }
  unfold print_accept in *. rewrite fmap_cons.
  destruct items as [|it' items]; [simpl in *; lia|].
  rewrite Join_cons by done. rewrite !length_app. simpl length in *. lia.
Qed.

#[global] Arguments parse_accept_value : simpl never.

(** ** Quoted strings *)

Definition escape_byte (b : ascii) : str :=
  if decide (b = "\"%char) then ["\"%char; b]
  else if decide (b = dquote) then ["\"%char; b] else [b].
Definition quote (v : str) : str := dquote :: mjoin (escape_byte <$> v) ++ [dquote].

Lemma unescape_escape v : forall acc r,
  unescape acc false (mjoin (escape_byte <$> v) ++ dquote :: r) = (acc ++ v, r).
Proof.
  induction v as [|b v IH]; intros acc r; [by rewrite app_nil_r|].
  rewrite fmap_cons. cbn [mjoin list_join]. unfold escape_byte at 1.
  assert (acc ++ b :: v = (acc ++ [b]) ++ v) as -> by (by rewrite <- app_assoc).
  case_decide; [|case_decide]; cbn [app unescape];
    [by rewrite decide_True, IH by done..|by rewrite !decide_False, IH by done].
Qed.

Lemma scan_quoted_escape v : forall acc r,
  scan_quoted acc (mjoin (escape_byte <$> v) ++ dquote :: r) = (acc ++ v, r).
Proof.
  induction v as [|b v IH]; intros acc r; [by rewrite app_nil_r|].
  rewrite fmap_cons. cbn [mjoin list_join]. unfold escape_byte at 1.
  assert (Hacc : acc ++ b :: v = (acc ++ [b]) ++ v) by (by rewrite <- app_assoc).
  case_decide as H1; [|case_decide as H2]; cbn [app scan_quoted].
  - rewrite decide_False, decide_True by done. cbn [unescape].
    by rewrite unescape_escape, Hacc.
  - rewrite decide_False, decide_True by done. cbn [unescape].
    by rewrite unescape_escape, Hacc.
  - by rewrite !decide_False, IH, Hacc by done.
Qed.

(** ** Properties *)

(** A printed Accept header is parsed back to the values and weights it
    was printed from, in order, for any number of items, with and without
    weights, up to 18 fraction digits. *)
Theorem ParseAccept_print key items :
  items <> [] -> Forall item_ok items ->
  ParseAccept {[ key := [print_accept items] ]} key = item_spec <$> items.
Proof.
  intros Hne HF. unfold ParseAccept, header_values. rewrite lookup_singleton_eq.
  simpl. pose proof (print_accept_length items HF).
  rewrite parse_accept_items by (done || lia). apply app_nil_r.
Qed.

(** Parsing an Accept header ends on every header, and every
    specification it returns has a non-empty value made of token bytes and
    slashes and a quality that is not below zero. *)
Theorem ParseAccept_total_and_valid header key :
  Forall (fun s => is_Some (parse_accept_value (S (length s)) s)) (header_values header key)
  /\ Forall spec_ok (ParseAccept header key).
Proof.
  split.
  - apply Forall_forall. intros s _. apply parse_accept_value_total. lia.
  - unfold ParseAccept. apply Forall_join, Forall_fmap, Forall_forall. intros s _. simpl.
    destruct (parse_accept_value (S (length s)) s) as [l|] eqn:E; [|constructor].
    by eapply parse_accept_value_ok.
Qed.

(** The negotiated content encoding is the first offer of the highest
    quality: no offer has a specification of higher quality, no earlier offer
    one of equal quality; it is ["identity"] when no offer is mentioned at a
    quality above -1, and empty when the best quality is 0. *)
Theorem NegotiateContentEncoding_best header offers :
  let specs := ParseAccept header &"Accept-Encoding" in
  (no_choice specs offers (f64_of_Z (-1))
   /\ NegotiateContentEncoding header offers = &"identity")
  \/ exists o q, best_choice specs offers o q
     /\ NegotiateContentEncoding header offers
        = if f64_eq q (f64_of_Z 0) then [] else o.
Proof.
  apply NegotiateContentEncoding_cases.
Qed.

(** A wildcard overrides an explicit rejection: with
    [Accept-Encoding: gzip;q=0, *] the offered gzip encoding is chosen. *)
Theorem NegotiateContentEncoding_star_overrides_rejection :
  NegotiateContentEncoding {[ &"Accept-Encoding" := [&"gzip;q=0, *"] ]} [&"gzip"; &"identity"]
  = &"gzip".
Proof. run. Qed.

(** A quoted parameter value, with quotes and backslashes escaped, is
    read back to the original bytes, and the scanner stops right after the
    closing quote. *)
Theorem expectTokenOrQuoted_quote v rest :
  expectTokenOrQuoted (quote v ++ rest) = (v, rest).
Proof.
  unfold expectTokenOrQuoted, quote.
  assert (HasPrefix ((dquote :: mjoin (escape_byte <$> v) ++ [dquote]) ++ rest) [dquote] = true)
    as -> by apply (HasPrefix_app [dquote]).
  cbn [negb app drop]. rewrite <- app_assoc. apply scan_quoted_escape.
Qed.

Lemma ParseAccept_print_witness :
  ParseAccept {[ &"Accept-Encoding" := [print_accept
      [mkItem &"gzip" (Some (mkWeight false (Some &"5"))); mkItem &"br" None]] ]}
    &"Accept-Encoding"
  = item_spec <$> [mkItem &"gzip" (Some (mkWeight false (Some &"5"))); mkItem &"br" None].
Proof. apply ParseAccept_print; [done|decide_now]. Defined.
