(* ===== verification/GoUrl.v ===== *)
(** * Package net/url: the parts the daemon uses

    The [URL] record with [Parse], [ResolveReference], [String] and
    [EscapedPath], escaping and unescaping in every mode, and query strings,
    after Go 1.15. *)

From S2P Require Import Prelude GoStd.

Definition nonempty (s : str) : bool := negb (bool_decide (s = [])).

(** ** Escaping *)

Inductive encoding : Type :=
  | encodePath | encodePathSegment | encodeHost | encodeZone | encodeUserPassword
  | encodeQueryComponent | encodeFragment.

#[export] Instance encoding_eq_dec : EqDecision encoding.
Proof. solve_decision. Defined.

Definition is_alnum (c : ascii) : bool :=
  let n := nat_of_ascii c in
  ((97 <=? n) && (n <=? 122)) || ((65 <=? n) && (n <=? 90)) || ((48 <=? n) && (n <=? 57)).

Definition in_set (c : ascii) (set : string) : bool := bool_decide (c ∈ go set).

Definition host_mode (mode : encoding) : bool :=
  match mode with encodeHost | encodeZone => true | _ => false end.

(** [shouldEscape] *)
Definition shouldEscape (c : ascii) (mode : encoding) : bool :=
  if is_alnum c then false
  else if host_mode mode && (in_set c "!$&'()*+,;=:[]<>" || bool_decide (c = dquote)) then false
  else if in_set c "-_.~" then false
  else if in_set c "$&+,/:;=?@" then
    match mode with
    | encodePath => bool_decide (c = "?"%char)
    | encodePathSegment => in_set c "/;,?"
    | encodeUserPassword => in_set c "@/?:"
    | encodeFragment => false
    | _ => true
    end
  else negb (bool_decide (mode = encodeFragment) && in_set c "!()*").

Definition upper_hex (n : nat) : ascii :=
  ascii_of_nat (if n <? 10 then 48 + n else 55 + n).

Definition pct (c : ascii) : str :=
  let n := nat_of_ascii c in ["%"%char; upper_hex (n / 16); upper_hex (n mod 16)].

Definition url_escape_byte (mode : encoding) (c : ascii) : str :=
  if shouldEscape c mode then
    match mode with
    | encodeQueryComponent => if decide (c = " "%char) then &"+" else pct c
    | _ => pct c
    end
  else [c].

Definition escape (s : str) (mode : encoding) : str := mjoin (url_escape_byte mode <$> s).

Definition PathEscape (s : str) : str := escape s encodePathSegment.
Definition QueryEscape (s : str) : str := escape s encodeQueryComponent.

Definition unhex (c : ascii) : option nat :=
  let n := nat_of_ascii c in
  if (48 <=? n) && (n <=? 57) then Some (n - 48)
  else if (97 <=? n) && (n <=? 102) then Some (n - 87)
  else if (65 <=? n) && (n <=? 70) then Some (n - 55)
  else None.

(** The extra conditions on a [%xy] triple in a host or a zone. *)
Definition pct_allowed (mode : encoding) (x y : nat) : bool :=
  let is25 := (x =? 2) && (y =? 5) in
  match mode with
  | encodeHost => (8 <=? x) || is25
  | encodeZone =>
      let v := ascii_of_nat (16 * x + y) in
      is25 || bool_decide (v = " "%char) || negb (shouldEscape v encodeHost)
  | _ => true
  end.

(** [unescape]; [None] is the [EscapeError] or [InvalidHostError]. *)
Fixpoint url_unescape (mode : encoding) (s : str) : option str :=
  match s with
  | [] => Some []
  | c :: s' =>
      if decide (c = "%"%char) then
        match s' with
        | a :: b :: s'' =>
            match unhex a, unhex b with
            | Some x, Some y =>
                if pct_allowed mode x y
                then cons (ascii_of_nat (16 * x + y)) <$> url_unescape mode s'' else None
            | _, _ => None
            end
        | _ => None
        end
      else if decide (c = "+"%char) then
        cons (if decide (mode = encodeQueryComponent) then " "%char else c) <$> url_unescape mode s'
      else if host_mode mode && (nat_of_ascii c <? 128) && shouldEscape c mode then None
      else cons c <$> url_unescape mode s'
  end.

Definition PathUnescape (s : str) : option str := url_unescape encodePathSegment s.
Definition QueryUnescape (s : str) : option str := url_unescape encodeQueryComponent s.

(** ** URLs *)

Record Userinfo : Type := mkUserinfo { username : str; password : option str }.

Record URL : Type := mkURL {
  Scheme : str; Opaque : str; User : option Userinfo; Host : str; Path : str; RawPath : str;
  ForceQuery : bool; RawQuery : str; Fragment : str; RawFragment : str }.

#[export] Instance Userinfo_eq_dec : EqDecision Userinfo.
Proof. solve_decision. Defined.
#[export] Instance URL_eq_dec : EqDecision URL.
Proof. solve_decision. Defined.

Definition no_url : URL := mkURL [] [] None [] [] [] false [] [] [].

Definition set_Scheme (v : str) (u : URL) : URL :=
  mkURL v (Opaque u) (User u) (Host u) (Path u) (RawPath u) (ForceQuery u) (RawQuery u)
    (Fragment u) (RawFragment u).
Definition set_Host (v : str) (u : URL) : URL :=
  mkURL (Scheme u) (Opaque u) (User u) v (Path u) (RawPath u) (ForceQuery u) (RawQuery u)
    (Fragment u) (RawFragment u).
Definition set_Path (v : str) (u : URL) : URL :=
  mkURL (Scheme u) (Opaque u) (User u) (Host u) v (RawPath u) (ForceQuery u) (RawQuery u)
    (Fragment u) (RawFragment u).
Definition set_RawQuery (v : str) (u : URL) : URL :=
  mkURL (Scheme u) (Opaque u) (User u) (Host u) (Path u) (RawPath u) (ForceQuery u) v
    (Fragment u) (RawFragment u).
Definition set_Paths (v raw : str) (u : URL) : URL :=
  mkURL (Scheme u) (Opaque u) (User u) (Host u) v raw (ForceQuery u) (RawQuery u)
    (Fragment u) (RawFragment u).

Definition validEncoded (s : str) (mode : encoding) : bool :=
  forallb (fun c => in_set c "!$&'()*+,;=:@[]%" || negb (shouldEscape c mode)) s.

(** The raw form is kept when it is a valid encoding of the decoded one. *)
Definition raw_usable (raw decoded : str) (mode : encoding) : bool :=
  nonempty raw && validEncoded raw mode
  && bool_decide (url_unescape mode raw = Some decoded).

Definition EscapedFragment (u : URL) : str :=
  if raw_usable (RawFragment u) (Fragment u) encodeFragment then RawFragment u
  else escape (Fragment u) encodeFragment.

Definition EscapedPath (u : URL) : str :=
  if raw_usable (RawPath u) (Path u) encodePath then RawPath u
  else if decide (Path u = &"*") then &"*"
  else escape (Path u) encodePath.

Definition starts_slash (p : str) : bool := HasPrefix p &"/".

Definition Userinfo_String (ui : Userinfo) : str :=
  escape (username ui) encodeUserPassword
  ++ match password ui with
     | Some p => &":" ++ escape p encodeUserPassword
     | None => []
     end.

(** [URL.String] *)
Definition url_String (u : URL) : str :=
  let has_user := match User u with Some _ => true | None => false end in
  let scheme := if nonempty (Scheme u) then Scheme u ++ &":" else [] in
  let hier :=
    if nonempty (Opaque u) then Opaque u
    else
      let auth :=
        if nonempty (Scheme u) || nonempty (Host u) || has_user then
          (if nonempty (Host u) || nonempty (Path u) || has_user then &"//" else [])
          ++ (match User u with Some ui => Userinfo_String ui ++ &"@" | None => [] end)
          ++ escape (Host u) encodeHost
        else [] in
      let path := EscapedPath u in
      let sep := if nonempty path && negb (starts_slash path) && nonempty (Host u)
                 then &"/" else [] in
      let dot :=
        if nonempty (scheme ++ auth ++ sep) then []
        else match IndexByte path ":" with
             | Some i => if ContainsByte (take i path) "/" then [] else &"./"
             | None => []
             end in
      auth ++ sep ++ dot ++ path in
  scheme ++ hier
  ++ (if ForceQuery u || nonempty (RawQuery u) then &"?" ++ RawQuery u else [])
  ++ (if nonempty (Fragment u)
      then &"#" ++ EscapedFragment u else []).

(** ** Parsing *)

Definition cut (s : str) (sep : ascii) (cutc : bool) : str * str :=
  match IndexByte s sep with
  | Some i => (take i s, drop (if cutc then S i else i) s)
  | None => (s, [])
  end.

Definition is_letter (c : ascii) : bool :=
  let n := nat_of_ascii c in ((97 <=? n) && (n <=? 122)) || ((65 <=? n) && (n <=? 90)).

(** [getscheme], scanning with the bytes [acc] already read. *)
Fixpoint getscheme_loop (rawurl acc rest : str) : option (str * str) :=
  match rest with
  | [] => Some ([], rawurl)
  | c :: rest' =>
      if is_letter c then getscheme_loop rawurl (acc ++ [c]) rest'
      else if is_alnum c || in_set c "+-." then
        (if bool_decide (acc = []) then Some ([], rawurl)
         else getscheme_loop rawurl (acc ++ [c]) rest')
      else if decide (c = ":"%char) then
        (if bool_decide (acc = []) then None else Some (acc, rest'))
      else Some ([], rawurl)
  end.

Definition getscheme (rawurl : str) : option (str * str) := getscheme_loop rawurl [] rawurl.

Definition validOptionalPort (port : str) : bool :=
  match port with
  | [] => true
  | c :: ds => bool_decide (c = ":"%char)
               && forallb (fun d => let n := nat_of_ascii d in (48 <=? n) && (n <=? 57)) ds
  end.

(** The index of the first occurrence of [sub]. *)
Fixpoint Index (s sub : str) : option nat :=
  if HasPrefix s sub then Some 0
  else match s with [] => None | _ :: s' => S <$> Index s' sub end.

Definition parseHost (host : str) : option str :=
  if HasPrefix host &"[" then
    match LastIndexByte host "]" with
    | None => None
    | Some i =>
        if negb (validOptionalPort (drop (S i) host)) then None
        else match Index (take i host) &"%25" with
             | Some zone =>
                 match url_unescape encodeHost (take zone host),
                       url_unescape encodeZone (drop zone (take i host)),
                       url_unescape encodeHost (drop i host) with
                 | Some h1, Some h2, Some h3 => Some (h1 ++ h2 ++ h3)
                 | _, _, _ => None
                 end
             | None => url_unescape encodeHost host
             end
    end
  else
    match LastIndexByte host ":" with
    | Some i => if validOptionalPort (drop i host) then url_unescape encodeHost host else None
    | None => url_unescape encodeHost host
    end.

Definition validUserinfo (s : str) : bool :=
  forallb (fun c => is_alnum c || in_set c "-._:~!$&'()*+,;=%@") s.

Definition parseAuthority (authority : str) : option (option Userinfo * str) :=
  match LastIndexByte authority "@" with
  | None => pair None <$> parseHost authority
  | Some i =>
      match parseHost (drop (S i) authority) with
      | None => None
      | Some host =>
          let userinfo := take i authority in
          if negb (validUserinfo userinfo) then None
          else if ContainsByte userinfo ":" then
            let '(u, p) := cut userinfo ":" true in
            match url_unescape encodeUserPassword u, url_unescape encodeUserPassword p with
            | Some u', Some p' => Some (Some (mkUserinfo u' (Some p')), host)
            | _, _ => None
            end
          else match url_unescape encodeUserPassword userinfo with
               | Some u' => Some (Some (mkUserinfo u' None), host)
               | None => None
               end
      end
  end.

Definition raw_of (p decoded : str) (mode : encoding) : str :=
  if decide (p = escape decoded mode) then [] else p.

Definition setPath (u : URL) (p : str) : option URL :=
  match url_unescape encodePath p with
  | Some path => Some (set_Paths path (raw_of p path encodePath) u)
  | None => None
  end.

Definition setFragment (u : URL) (f : str) : option URL :=
  match url_unescape encodeFragment f with
  | Some frag =>
      Some (mkURL (Scheme u) (Opaque u) (User u) (Host u) (Path u) (RawPath u) (ForceQuery u)
              (RawQuery u) frag (raw_of f frag encodeFragment))
  | None => None
  end.

Definition is_ctl (b : ascii) : bool :=
  let n := nat_of_ascii b in (n <? 32) || (n =? 127).

Definition Count (s : str) (c : ascii) : nat := length (filter (fun b => b = c) s).

(** [parse] without [viaRequest]. *)
Definition parse_nofrag (rawurl : str) : option URL :=
  if existsb is_ctl rawurl then None
  else if decide (rawurl = &"*") then Some (set_Path &"*" no_url)
  else
    match getscheme rawurl with
    | None => None
    | Some (sch, rest0) =>
        let scheme := ToLower sch in
        let force := HasSuffix rest0 &"?" && (Count rest0 "?" =? 1) in
        let '(rest, query) := if force then (take (length rest0 - 1) rest0, [])
                              else cut rest0 "?" true in
        let base := mkURL scheme [] None [] [] [] force query [] [] in
        if negb (HasPrefix rest &"/") && nonempty scheme then
          Some (mkURL scheme rest None [] [] [] force query [] [])
        else if negb (HasPrefix rest &"/")
                && match IndexByte rest ":", IndexByte rest "/" with
                   | Some c, Some s => c <? s
                   | Some _, None => true
                   | None, _ => false
                   end
        then None
        else if (nonempty scheme || negb (HasPrefix rest &"///")) && HasPrefix rest &"//" then
          let '(authority, rest') := cut (drop 2 rest) "/" false in
          match parseAuthority authority with
          | None => None
          | Some (user, host) =>
              setPath (mkURL scheme [] user host [] [] force query [] []) rest'
          end
        else setPath base rest
    end.

(** [url.Parse]; [None] is the parse error. *)
Definition Parse (rawurl : str) : option URL :=
  let '(u, frag) := cut rawurl "#" true in
  match parse_nofrag u with
  | None => None
  | Some url => if decide (frag = []) then Some url else setFragment url frag
  end.

(** [resolvePath] of net/url: dot segments removed. *)
Definition resolve_dots (full : str) : str :=
  if decide (full = []) then []
  else
    let src := Split full "/" in
    let dst := foldl (fun dst elem =>
                        if decide (elem = &".") then dst
                        else if decide (elem = &"..") then take (length dst - 1) dst
                        else dst ++ [elem]) [] src in
    let dst' := match list.last src with
                | Some l => if bool_decide (l = &".") || bool_decide (l = &"..")
                            then dst ++ [[]] else dst
                | None => dst
                end in
    &"/" ++ TrimPrefix (Join dst' &"/") &"/".

Definition url_resolvePath (base ref : str) : str :=
  resolve_dots
    (match ref with
     | [] => base
     | c :: _ => if decide (c = "/"%char) then ref
                 else match LastIndexByte base "/" with
                      | Some i => take (S i) base ++ ref
                      | None => ref
                      end
     end).

(** [u.ResolveReference]; [setPath]'s error is ignored there. *)
Definition ResolveReference (u ref : URL) : URL :=
  let url := if nonempty (Scheme ref) then ref else set_Scheme (Scheme u) ref in
  let has_user := match User ref with Some _ => true | None => false end in
  if nonempty (Scheme ref) || nonempty (Host ref) || has_user then
    default url (setPath url (url_resolvePath (EscapedPath ref) []))
  else if nonempty (Opaque ref) then
    mkURL (Scheme url) (Opaque url) None [] [] (RawPath url) (ForceQuery url) (RawQuery url)
      (Fragment url) (RawFragment url)
  else
    let inherit := negb (nonempty (Path ref)) && negb (nonempty (RawQuery ref)) in
    let inherit_frag := inherit && negb (nonempty (Fragment ref)) in
    let url' := mkURL (Scheme url) (Opaque url) (User u) (Host u) (Path url) (RawPath url)
                  (ForceQuery url) (if inherit then RawQuery u else RawQuery url)
                  (if inherit_frag then Fragment u else Fragment url)
                  (if inherit_frag then RawFragment u else RawFragment url) in
    default url' (setPath url' (url_resolvePath (EscapedPath u) (EscapedPath ref))).

(** The method [u.Parse]. *)
Definition url_Parse_ref (u : URL) (ref : str) : option URL :=
  ResolveReference u <$> Parse ref.

(** ** Query strings *)

Abbreviation Values := (gmap str (list str)).

Definition Values_Get (m : Values) (key : str) : str :=
  match default [] (m !! key) with v :: _ => v | [] => [] end.
Definition Values_Set (m : Values) (key value : str) : Values := <[key := [value]]> m.
Definition Values_Del (m : Values) (key : str) : Values := delete key m.

(** Split at every byte that satisfies [p]. *)
Fixpoint split_by (p : ascii -> bool) (s : str) : list str :=
  match s with
  | [] => [[]]
  | x :: s' => if p x then [] :: split_by p s' else cons_field x (split_by p s')
  end.

Definition add_query_field (m : Values) (field : str) : Values :=
  if decide (field = []) then m
  else
    let '(k, v) := match IndexByte field "=" with
                   | Some i => (take i field, drop (S i) field)
                   | None => (field, [])
                   end in
    match QueryUnescape k, QueryUnescape v with
    | Some k', Some v' => <[k' := default [] (m !! k') ++ [v']]> m
    | _, _ => m
    end.

(** [url.ParseQuery] without the error; [URL.Query]. *)
Definition ParseQuery (q : str) : Values :=
  foldl add_query_field ∅ (split_by (fun c => in_set c "&;") q).

Definition Query (u : URL) : Values := ParseQuery (RawQuery u).

(** Go's byte-wise order on strings. *)
Fixpoint str_leb (a b : str) : bool :=
  match a, b with
  | [], _ => true
  | _ :: _, [] => false
  | x :: a', y :: b' =>
      (nat_of_ascii x <? nat_of_ascii y)
      || ((nat_of_ascii x =? nat_of_ascii y) && str_leb a' b')
  end.

Fixpoint insert_key (k : str) (l : list str) : list str :=
  match l with
  | [] => [k]
  | y :: l' => if str_leb k y then k :: l else y :: insert_key k l'
  end.

(** [Values.Encode]: keys in increasing order. *)
Definition Encode (m : Values) : str :=
  let keys := foldr insert_key [] ((map_to_list m).*1) in
  Join (mjoin ((fun k => (fun v => QueryEscape k ++ &"=" ++ QueryEscape v)
                           <$> default [] (m !! k)) <$> keys)) &"&".

(** ** Round trips *)

Lemma unhex_upper_hex n : n < 16 -> unhex (upper_hex n) = Some n.
Proof.
  intros H. do 16 (destruct n as [|n]; [reflexivity|]). lia.
Qed.

Lemma unescape_pct mode c s :
  host_mode mode = false -> url_unescape mode (pct c ++ s) = cons c <$> url_unescape mode s.
Proof.
  intros Hm. pose proof (nat_ascii_bounded c) as Hb.
  pose proof (Nat.div_mod_eq (nat_of_ascii c) 16) as Hd.
  assert (nat_of_ascii c / 16 < 16) by (apply Nat.Div0.div_lt_upper_bound; lia).
  assert (nat_of_ascii c mod 16 < 16) by (apply Nat.mod_upper_bound; lia).
  unfold pct. cbn [app url_unescape]. rewrite decide_True by done.
  rewrite !unhex_upper_hex by done. rewrite <- Hd, ascii_nat_embedding.
  by destruct mode.
Qed.

Lemma escaped_not_special c mode :
  shouldEscape c mode = false -> host_mode mode = false ->
  c <> "%"%char /\ (mode = encodeQueryComponent -> c <> "+"%char).
Proof.
  intros H Hm. split; [intros ->|intros -> ->].
  - destruct mode; vm_compute in H; done.
  - vm_compute in H. done.
Qed.

Lemma url_unescape_escape_byte mode c s :
  host_mode mode = false ->
  url_unescape mode (url_escape_byte mode c ++ s) = cons c <$> url_unescape mode s.
Proof.
  intros Hm. unfold url_escape_byte. destruct (shouldEscape c mode) eqn:E.
  - destruct mode; try by apply unescape_pct.
    case_decide as Hc; [|by apply unescape_pct]. subst c. reflexivity.
  - destruct (escaped_not_special _ _ E Hm) as [H1 H2].
    cbn [app url_unescape]. rewrite decide_False by done. rewrite Hm. simpl.
    case_decide as Hp; [|done]. rewrite decide_False; [done|]. intros ->. by apply H2.
Qed.

(** Unescaping undoes escaping. *)
Lemma url_unescape_escape mode s :
  host_mode mode = false -> url_unescape mode (escape s mode) = Some s.
Proof.
  intros Hm. unfold escape. induction s as [|c s IH]; [done|].
  rewrite fmap_cons. change (mjoin (?a :: ?b)) with (a ++ mjoin b).
  rewrite url_unescape_escape_byte by done. by rewrite IH.
Qed.

(** An escaped path segment holds no slash. *)
Lemma escape_byte_no_slash c : "/"%char ∉ url_escape_byte encodePathSegment c.
Proof.
  apply (bool_decide_unpack _). destruct c as [[] [] [] [] [] [] [] []]; vm_compute; exact I.
Qed.

Lemma PathEscape_no_slash s : "/"%char ∉ PathEscape s.
Proof.
  unfold PathEscape, escape. intros Hin.
  apply list_elem_of_join in Hin as (l & Hc & Hl).
  apply list_elem_of_fmap in Hl as (x & -> & _).
  by apply escape_byte_no_slash in Hc.
Qed.

(** ** Shape of a printed URL *)

Lemma nonempty_nil s : nonempty s = false <-> s = [].
Proof. unfold nonempty. rewrite negb_false_iff. apply bool_decide_eq_true. Qed.

Lemma nonempty_true s : s <> [] -> nonempty s = true.
Proof. intros H. unfold nonempty. by rewrite bool_decide_eq_false_2. Qed.

Lemma escape_nonempty s mode : s <> [] -> escape s mode <> [].
Proof.
  destruct s as [|c s]; [done|]. intros _. unfold escape, url_escape_byte, pct.
  rewrite fmap_cons. simpl. repeat case_match; done.
Qed.

Lemma EscapedPath_nonempty u : Path u <> [] -> EscapedPath u <> [].
Proof.
  intros H. unfold EscapedPath. destruct (raw_usable _ _ _) eqn:E.
  - unfold raw_usable, nonempty in E. by bools.
  - case_decide; [done|]. by apply escape_nonempty.
Qed.

(** A URL with a host, no scheme and a path prints as [//host/...]. *)
Lemma url_String_host u :
  Scheme u = [] -> Opaque u = [] -> User u = None -> Host u <> [] -> Path u <> [] ->
  exists t, url_String u = &"//" ++ escape (Host u) encodeHost ++ &"/" ++ t.
Proof.
  intros Hs Ho Hu Hh Hp. unfold url_String. rewrite Hs, Ho, Hu.
  change (nonempty []) with false. rewrite (nonempty_true (Host u)) by done.
  cbn [orb app]. pose proof (EscapedPath_nonempty u Hp) as Hn.
  rewrite (nonempty_true (EscapedPath u)) by done. cbn [andb]. unfold starts_slash.
  set (tl := (if _ || _ then _ else []) ++ (if nonempty _ then _ else [])).
  destruct (HasPrefix (EscapedPath u) &"/") eqn:E; cbn [negb andb].
  - apply HasPrefix_spec in E as [t ->]. exists (t ++ tl).
    rewrite app_nil_r. change (nonempty (&"//" ++ ?x)) with true.
    cbn [app]. by rewrite <- !app_assoc.
  - exists (EscapedPath u ++ tl). change (nonempty ((&"//" ++ ?x) ++ ?y)) with true.
    cbn [app]. by rewrite <- !app_assoc.
Qed.
