(* ===== verification/HeaderTime.v ===== *)
(** * HTTP dates in headers

    [ParseTime] of internal/httputil/header/header.go with what it uses of
    [time.Parse] (Go 1.13 to 1.16): the layout elements of [timeLayouts] and
    the zone abbreviations.  A [time.Time] in UTC is its seconds since 1970
    and its nanoseconds.  The zones of the machine ([time.Local]) are a
    parameter. *)

From S2P Require Import Prelude GoStd Header GoUrl.

(** ** Layouts *)

Inductive std_chunk : Type :=
| stdWeekDay | stdLongWeekDay | stdMonth | stdZeroDay | stdUnderDay | stdLongYear | stdYear
| stdHour | stdZeroMinute | stdZeroSecond | stdTZ.

#[export] Instance std_chunk_eq_dec : EqDecision std_chunk.
Proof. solve_decision. Defined.

(** The elements in the order [nextStdChunk] tries them at a position. *)
Definition std_elements : list (str * std_chunk) :=
  [(&"Jan", stdMonth); (&"Monday", stdLongWeekDay); (&"Mon", stdWeekDay); (&"MST", stdTZ); (&"02", stdZeroDay);
   (&"04", stdZeroMinute); (&"05", stdZeroSecond); (&"06", stdYear); (&"15", stdHour); (&"2006", stdLongYear);
   (&"_2", stdUnderDay)].

Definition element_at (layout : str) : option (str * std_chunk) :=
  head (filter (fun e => HasPrefix layout e.1 = true) std_elements).

(** The literal text before each element, and after the last one. *)
Fixpoint layout_chunks (fuel : nat) (prefix layout : str) : list (str * std_chunk) * str :=
  match fuel, layout with
  | 0, _ | _, [] => ([], prefix ++ layout)
  | S fuel', c :: layout' =>
      match element_at layout with
      | Some (text, std) =>
          let '(chunks, last) := layout_chunks fuel' [] (drop (length text) layout) in ((prefix, std) :: chunks, last)
      | None => layout_chunks fuel' (prefix ++ [c]) layout'
      end
  end.

Definition timeLayouts : list str :=
  [&"Mon, 02 Jan 2006 15:04:05 GMT"; &"Monday, 02-Jan-06 15:04:05 MST"; &"Mon Jan _2 15:04:05 2006"].

(** ** Scanning values *)

Definition shortDayNames : list str := [&"Sun"; &"Mon"; &"Tue"; &"Wed"; &"Thu"; &"Fri"; &"Sat"].
Definition longDayNames : list str :=
  [&"Sunday"; &"Monday"; &"Tuesday"; &"Wednesday"; &"Thursday"; &"Friday"; &"Saturday"].
Definition shortMonthNames : list str :=
  [&"Jan"; &"Feb"; &"Mar"; &"Apr"; &"May"; &"Jun"; &"Jul"; &"Aug"; &"Sep"; &"Oct"; &"Nov"; &"Dec"].

(** [lookup]: the first name of the table that the value starts with, in any
    case. *)
Fixpoint lookup_name (i : Z) (tab : list str) (val : str) : option (Z * str) :=
  match tab with
  | [] => None
  | v :: tab' =>
      if bool_decide (length v <= length val) && bool_decide (ToLower (take (length v) val) = ToLower v)
      then Some (i, drop (length v) val) else lookup_name (i + 1) tab' val
  end.

Definition is_space (c : ascii) : bool := bool_decide (c = " "%char).
Definition cutspace (s : str) : str := (span is_space s).2.

(** [skip]: a space of the prefix matches any number of spaces. *)
Fixpoint skip (fuel : nat) (value prefix : str) : option str :=
  match fuel, prefix with
  | _, [] => Some value
  | 0, _ => None
  | S fuel', c :: prefix' =>
      if is_space c then
        match value with
        | v :: _ => if is_space v then skip fuel' (cutspace value) (cutspace prefix) else None
        | [] => skip fuel' [] (cutspace prefix)
        end
      else
        match value with
        | v :: value' => if decide (v = c) then skip fuel' value' prefix' else None
        | [] => None
        end
  end.

Definition digit_value (c : ascii) : Z := Z.of_nat (nat_of_ascii c) - 48.

Definition getnum (s : str) (fixed : bool) : option (Z * str) :=
  match s with
  | a :: s1 =>
      if negb (isDigit a) then None
      else
        match s1 with
        | b :: s2 =>
            if isDigit b then Some (digit_value a * 10 + digit_value b, s2)%Z
            else if fixed then None else Some (digit_value a, s1)
        | [] => if fixed then None else Some (digit_value a, s1)
        end
  | [] => None
  end.

(** [atoi] of a text short enough for an [int]: an optional sign, and digits
    (none of them is 0). *)
Definition digits_value (s : str) : option Z :=
  if forallb isDigit s then Some (foldl (fun x c => x * 10 + digit_value c)%Z 0%Z s) else None.
Definition atoi (s : str) : option Z :=
  match s with
  | "-"%char :: s' => Z.opp <$> digits_value s'
  | "+"%char :: s' => digits_value s'
  | _ => digits_value s
  end.

(** A fraction after the seconds is read although the layout has none. *)
Definition fraction (value : str) : option (Z * str) :=
  match value with
  | "."%char :: d :: _ =>
      if isDigit d then
        let '(digits, rest) := span isDigit (drop 1 value) in
        if length digits <=? 9 then
          (fun ns => (ns * 10 ^ (9 - Z.of_nat (length digits)), rest)%Z) <$> digits_value digits
        else None
      else Some (0%Z, value)
  | _ => Some (0%Z, value)
  end.

(** *** Zone abbreviations *)

(** The length of a signed offset of up to 23 hours, or 0. *)
Definition parseSignedOffset (value : str) : nat :=
  match value with
  | sign :: rest =>
      if bool_decide (sign = "-"%char) || bool_decide (sign = "+"%char) then
        let digits := (span isDigit rest).1 in
        match digits_value digits with
        | Some x => if bool_decide (digits = []) || (23 <? x)%Z then 0 else S (length digits)
        | None => 0
        end
      else 0
  | [] => 0
  end.

Definition isUpper (c : ascii) : bool := let n := nat_of_ascii c in (65 <=? n) && (n <=? 90).

Definition parseTimeZone (value : str) : option nat :=
  if length value <? 3 then None
  else if bool_decide (take 4 value = &"ChST") || bool_decide (take 4 value = &"MeST") then Some 4
  else if bool_decide (take 3 value = &"GMT") then Some (3 + parseSignedOffset (drop 3 value))
  else if HasPrefix value &"+" || HasPrefix value &"-" then
    match parseSignedOffset value with 0 => None | n => Some n end
  else
    match length (span isUpper (take 6 value)).1 with
    | 3 => Some 3
    | 4 => if bool_decide (take 1 (drop 3 value) = &"T") || bool_decide (take 4 value = &"WITA") then Some 4 else None
    | 5 => if bool_decide (take 1 (drop 4 value) = &"T") then Some 5 else None
    | _ => None
    end.

(** ** The calendar *)

Definition isLeap (year : Z) : bool :=
  ((year mod 4 =? 0) && (negb (year mod 100 =? 0) || (year mod 400 =? 0)))%Z.

(** The days before each month of a common year. *)
Definition daysBefore : list Z := [0; 31; 59; 90; 120; 151; 181; 212; 243; 273; 304; 334; 365]%Z.
Definition days_before (month : Z) : Z := default 0%Z (daysBefore !! Z.to_nat (month - 1)).

Definition daysIn (month year : Z) : Z :=
  if (month =? 2)%Z && isLeap year then 29%Z else (days_before (month + 1) - days_before month)%Z.

Record fields : Type := mkFields {
  f_year : Z; f_month : Z; f_day : Z; f_hour : Z; f_min : Z; f_sec : Z; f_nsec : Z;
  f_utc : bool; f_zone : str }.

Definition no_fields : fields := mkFields 0 (-1) (-1) 0 0 0 0 false [].

(** [Date] in UTC, for fields in their ranges and years from 0 on: the days
    from 0000-01-01, of which 719528 are before 1970. *)
Definition days_before_year (y : Z) : Z := (365 * y + (y + 3) / 4 - (y + 99) / 100 + (y + 399) / 400)%Z.
Definition Date (f : fields) : Z :=
  let days := (days_before_year (f_year f) + days_before (f_month f)
               + (if (2 <? f_month f)%Z && isLeap (f_year f) then 1 else 0) + f_day f - 1 - 719528)%Z in
  (days * 86400 + f_hour f * 3600 + f_min f * 60 + f_sec f)%Z.

(** ** time.Parse *)

Definition in_range (lo hi x : Z) : bool := ((lo <=? x) && (x <? hi))%Z.

Definition set_date (y m d : Z) (f : fields) : fields :=
  mkFields y m d (f_hour f) (f_min f) (f_sec f) (f_nsec f) (f_utc f) (f_zone f).
Definition set_clock (h m s ns : Z) (f : fields) : fields :=
  mkFields (f_year f) (f_month f) (f_day f) h m s ns (f_utc f) (f_zone f).
Definition set_zone (utc : bool) (zone : str) (f : fields) : fields :=
  mkFields (f_year f) (f_month f) (f_day f) (f_hour f) (f_min f) (f_sec f) (f_nsec f) utc zone.

Definition parse_chunk (std : std_chunk) (value : str) (f : fields) : option (str * fields) :=
  match std with
  | stdYear =>
      if length value <? 2 then None
      else (fun y => (drop 2 value, set_date (if (69 <=? y)%Z then y + 1900 else y + 2000) (f_month f) (f_day f) f)%Z)
             <$> atoi (take 2 value)
  | stdLongYear =>
      if (length value <? 4) || negb (forallb isDigit (take 1 value)) then None
      else (fun y => (drop 4 value, set_date y (f_month f) (f_day f) f)) <$> atoi (take 4 value)
  | stdMonth =>
      (fun p => (p.2, set_date (f_year f) (p.1 + 1) (f_day f) f)%Z) <$> lookup_name 0 shortMonthNames value
  | stdWeekDay => (fun p => (p.2, f)) <$> lookup_name 0 shortDayNames value
  | stdLongWeekDay => (fun p => (p.2, f)) <$> lookup_name 0 longDayNames value
  | stdZeroDay => (fun p => (p.2, set_date (f_year f) (f_month f) p.1 f)) <$> getnum value true
  | stdUnderDay =>
      let value := match value with c :: value' => if is_space c then value' else value | [] => [] end in
      (fun p => (p.2, set_date (f_year f) (f_month f) p.1 f)) <$> getnum value false
  | stdHour =>
      match getnum value false with
      | Some (h, rest) => if in_range 0 24 h then Some (rest, set_clock h (f_min f) (f_sec f) (f_nsec f) f) else None
      | None => None
      end
  | stdZeroMinute =>
      match getnum value true with
      | Some (m, rest) => if in_range 0 60 m then Some (rest, set_clock (f_hour f) m (f_sec f) (f_nsec f) f) else None
      | None => None
      end
  | stdZeroSecond =>
      match getnum value true with
      | Some (s, rest) =>
          if in_range 0 60 s
          then (fun p => (p.2, set_clock (f_hour f) (f_min f) s p.1 f)) <$> fraction rest else None
      | None => None
      end
  | stdTZ =>
      if HasPrefix value &"UTC" then Some (drop 3 value, set_zone true (f_zone f) f)
      else (fun n => (drop n value, set_zone (f_utc f) (take n value) f)) <$> parseTimeZone value
  end.

Definition skip_text (value prefix : str) : option str := skip (length prefix) value prefix.

Fixpoint parse_chunks (chunks : list (str * std_chunk)) (last value : str) (f : fields) : option fields :=
  match chunks with
  | [] =>
      match skip_text value last with Some [] => Some f | _ => None end
  | (prefix, std) :: chunks' =>
      match skip_text value prefix with
      | Some value =>
          match parse_chunk std value f with
          | Some (value, f) => parse_chunks chunks' last value f
          | None => None
          end
      | None => None
      end
  end.

Section Zones.

(** [time.Local.lookupName]: the offset of an abbreviation at a time. *)
Context (lookupName : str -> Z -> option Z).

(** The instant in UTC.  An abbreviation that the machine's zone does not know
    changes nothing: the time is taken as it stands. *)
Definition time_Parse (layout value : str) : option (Z * Z) :=
  let '(chunks, last) := layout_chunks (length layout) [] layout in
  match parse_chunks chunks last value no_fields with
  | None => None
  | Some f =>
      if in_range 1 (daysIn (f_month f) (f_year f) + 1) (f_day f) then
        if f_utc f || negb (nonempty (f_zone f)) then Some (Date f, f_nsec f)
        else Some (Date f - default 0 (lookupName (f_zone f) (Date f)), f_nsec f)%Z
      else None
  end.

(** [time.Time{}]: the first day of the year 1. *)
Definition zero_time : Z * Z := (-62135596800, 0)%Z.

Fixpoint first_parse (layouts : list str) (s : str) : Z * Z :=
  match layouts with
  | [] => zero_time
  | layout :: layouts' => match time_Parse layout s with Some t => t | None => first_parse layouts' s end
  end.

Definition ParseTime (header : Header) (key : str) : Z * Z :=
  let s := Header_Get header key in
  if nonempty s then first_parse timeLayouts s else zero_time.

End Zones.

(** ** Printing *)

Definition digit_char (z : Z) : ascii := ascii_of_nat (Z.to_nat (48 + z)).
Definition two (z : Z) : str := [digit_char (z / 10); digit_char (z mod 10)].
Definition four (z : Z) : str := two (z / 100) ++ two (z mod 100).
Definition month_name (m : Z) : str := default [] (shortMonthNames !! Z.to_nat (m - 1)).
Definition clock_text (f : fields) : str := two (f_hour f) ++ &":" ++ two (f_min f) ++ &":" ++ two (f_sec f).

(** The three date formats of HTTP. *)
Definition fixdate (day : str) (f : fields) : str :=
  day ++ &", " ++ two (f_day f) ++ &" " ++ month_name (f_month f) ++ &" " ++ four (f_year f) ++ &" "
    ++ clock_text f ++ &" GMT".
Definition rfc850_date (day : str) (f : fields) : str :=
  day ++ &", " ++ two (f_day f) ++ &"-" ++ month_name (f_month f) ++ &"-" ++ two (f_year f mod 100) ++ &" "
    ++ clock_text f ++ &" GMT".
Definition asctime_date (day : str) (f : fields) : str :=
  day ++ &" " ++ month_name (f_month f) ++ &" "
    ++ (if (f_day f <? 10)%Z then &" " ++ [digit_char (f_day f)] else two (f_day f)) ++ &" "
    ++ clock_text f ++ &" " ++ four (f_year f).

Record valid_date (f : fields) : Prop := {
  vd_year : (0 <= f_year f <= 9999)%Z;
  vd_month : (1 <= f_month f <= 12)%Z;
  vd_day : (1 <= f_day f <= daysIn (f_month f) (f_year f))%Z;
  vd_hour : (0 <= f_hour f < 24)%Z; vd_min : (0 <= f_min f < 60)%Z; vd_sec : (0 <= f_sec f < 60)%Z }.

(** ** Lemmas *)

Lemma ten_cases z : (0 <= z < 10)%Z -> z ∈ [0; 1; 2; 3; 4; 5; 6; 7; 8; 9]%Z.
Proof. intros H. rewrite !elem_of_cons. lia. Qed.

Lemma digit_char_digit z : (0 <= z < 10)%Z ->
  isDigit (digit_char z) = true /\ digit_value (digit_char z) = z /\ is_space (digit_char z) = false
  /\ digit_char z <> "-"%char /\ digit_char z <> "+"%char.
Proof.
  intros Hz%ten_cases. revert z Hz. apply Forall_forall. repeat constructor; discriminate.
Qed.

Lemma two_split z : (0 <= z < 100)%Z ->
  exists a b, (0 <= a < 10)%Z /\ (0 <= b < 10)%Z /\ z = (a * 10 + b)%Z /\ two z = [digit_char a; digit_char b].
Proof. intros Hz. exists (z / 10)%Z, (z mod 10)%Z. repeat split; Z.to_euclidean_division_equations; lia. Qed.

Lemma getnum_two z rest fixed : (0 <= z < 100)%Z -> getnum (two z ++ rest) fixed = Some (z, rest).
Proof.
  intros (a & b & (Ha & Ha' & _)%digit_char_digit & (Hb & Hb' & _)%digit_char_digit & -> & ->)%two_split.
  cbn [app getnum]. by rewrite Ha, Hb, Ha', Hb'.
Qed.

Lemma getnum_one z c rest :
  (0 <= z < 10)%Z -> isDigit c = false -> getnum (digit_char z :: c :: rest) false = Some (z, c :: rest).
Proof. intros (H1 & H2 & _)%digit_char_digit Hc. cbn [getnum]. by rewrite H1, H2, Hc. Qed.

Lemma atoi_digits c s : c <> "-"%char -> c <> "+"%char -> atoi (c :: s) = digits_value (c :: s).
Proof.
  intros H1 H2. destruct c as [[] [] [] [] [] [] [] []]; try done; try (by destruct H1); by destruct H2.
Qed.

Lemma atoi_two z : (0 <= z < 100)%Z -> atoi (two z) = Some z.
Proof.
  intros (a & b & (Ha & Ha' & _ & Hm & Hp)%digit_char_digit & (Hb & Hb' & _)%digit_char_digit & -> & ->)%two_split.
  rewrite atoi_digits by done. unfold digits_value. cbn [forallb foldl]. by rewrite Ha, Hb, Ha', Hb'.
Qed.

Lemma atoi_four z : (0 <= z < 10000)%Z -> atoi (four z) = Some z.
Proof.
  intros Hz. unfold four.
  destruct (two_split (z / 100)) as (a & b & (Ha & Ha' & _ & Hm & Hp)%digit_char_digit & (Hb & Hb' & _)%digit_char_digit & E1 & ->);
    [Z.to_euclidean_division_equations; lia|].
  destruct (two_split (z mod 100)) as (c & d & (Hc & Hc' & _)%digit_char_digit & (Hd & Hd' & _)%digit_char_digit & E2 & ->);
    [Z.to_euclidean_division_equations; lia|].
  cbn [app]. rewrite atoi_digits by done. unfold digits_value. cbn [forallb foldl].
  rewrite Ha, Hb, Hc, Hd, Ha', Hb', Hc', Hd'. cbn [andb]. f_equal. Z.to_euclidean_division_equations; lia.
Qed.

(** A text that starts with a character other than a space. *)
Definition starts (v : str) : Prop := match v with c :: _ => is_space c = false | [] => False end.

Lemma starts_two z rest : (0 <= z < 100)%Z -> starts (two z ++ rest).
Proof. intros (a & b & (_ & _ & Ha & _)%digit_char_digit & _ & _ & ->)%two_split. done. Qed.

Lemma starts_four z rest : (0 <= z < 10000)%Z -> starts (four z ++ rest).
Proof.
  intros Hz. unfold four. rewrite <- app_assoc. apply starts_two. Z.to_euclidean_division_equations; lia.
Qed.

Lemma cutspace_starts v : starts v -> cutspace v = v.
Proof. destruct v as [|c v]; [done|]. unfold starts, cutspace. cbn [span]. by intros ->. Qed.

Lemma cutspace_space v : cutspace (" "%char :: v) = cutspace v.
Proof. unfold cutspace. cbn. by destruct (span is_space v). Qed.

Lemma skip_colon v : skip_text (&":" ++ v) &":" = Some v.
Proof. reflexivity. Qed.

Lemma skip_hyphen v : skip_text (&"-" ++ v) &"-" = Some v.
Proof. reflexivity. Qed.

Lemma skip_space v : starts v -> skip_text (&" " ++ v) &" " = Some v.
Proof.
  intros Hv. change (skip_text (&" " ++ v) &" ") with (Some (cutspace (" "%char :: v))).
  by rewrite cutspace_space, cutspace_starts.
Qed.

Lemma skip_spaces v : starts v -> skip_text (&" " ++ &" " ++ v) &" " = Some v.
Proof.
  intros Hv. change (skip_text (&" " ++ &" " ++ v) &" ") with (Some (cutspace (" "%char :: " "%char :: v))).
  by rewrite !cutspace_space, cutspace_starts.
Qed.

Lemma skip_comma v : starts v -> skip_text (&", " ++ v) &", " = Some v.
Proof.
  intros Hv. change (skip_text (&", " ++ v) &", ") with (Some (cutspace (" "%char :: v))).
  by rewrite cutspace_space, cutspace_starts.
Qed.

Lemma lookup_day_short day rest : day ∈ shortDayNames -> exists i, lookup_name 0 shortDayNames (day ++ rest) = Some (i, rest).
Proof. revert day. apply Forall_forall. repeat (apply Forall_cons_2; [eexists; reflexivity|]). done. Qed.

Lemma lookup_day_long day a b c rest : day ∈ longDayNames ->
  exists i, lookup_name 0 longDayNames (day ++ a :: b :: c :: rest) = Some (i, a :: b :: c :: rest).
Proof. revert day. apply Forall_forall. repeat (apply Forall_cons_2; [eexists; reflexivity|]). done. Qed.

Lemma month_cases m : (1 <= m <= 12)%Z -> m ∈ [1; 2; 3; 4; 5; 6; 7; 8; 9; 10; 11; 12]%Z.
Proof. intros H. rewrite !elem_of_cons. lia. Qed.

Lemma lookup_month m rest : (1 <= m <= 12)%Z ->
  lookup_name 0 shortMonthNames (month_name m ++ rest) = Some ((m - 1)%Z, rest) /\ starts (month_name m ++ rest).
Proof. intros Hm%month_cases. revert m Hm. apply Forall_forall. repeat constructor. Qed.

(** *** The parts of a date *)

Lemma parse_long_year y rest f : (0 <= y < 10000)%Z ->
  parse_chunk stdLongYear (four y ++ rest) f = Some (rest, set_date y (f_month f) (f_day f) f).
Proof.
  intros Hy. unfold parse_chunk. rewrite length_app, (take_app_length' _ _ 4), (drop_app_length' _ _ 4), atoi_four by done.
  assert (forallb isDigit (take 1 (four y ++ rest)) = true) as ->.
  { unfold four. destruct (two_split (y / 100)) as (a & b & (Ha & _)%digit_char_digit & _ & _ & ->);
      [Z.to_euclidean_division_equations; lia|]. cbn. by rewrite Ha. }
  done.
Qed.

Lemma parse_year y rest f : (1969 <= y <= 2068)%Z ->
  parse_chunk stdYear (two (y mod 100) ++ rest) f = Some (rest, set_date y (f_month f) (f_day f) f).
Proof.
  intros Hy. unfold parse_chunk. rewrite length_app, (take_app_length' _ _ 2), (drop_app_length' _ _ 2) by done.
  rewrite atoi_two by (Z.to_euclidean_division_equations; lia). cbn [length two Nat.add Nat.ltb Nat.leb fmap option_fmap option_map].
  do 3 f_equal. destruct (69 <=? y mod 100)%Z eqn:E; bools; Z.to_euclidean_division_equations; lia.
Qed.

Lemma parse_short_day day rest f : day ∈ shortDayNames -> parse_chunk stdWeekDay (day ++ rest) f = Some (rest, f).
Proof. intros H. cbn [parse_chunk]. by destruct (lookup_day_short day rest H) as [i ->]. Qed.

Lemma parse_month m rest f : (1 <= m <= 12)%Z ->
  parse_chunk stdMonth (month_name m ++ rest) f = Some (rest, set_date (f_year f) m (f_day f) f).
Proof.
  intros H. cbn [parse_chunk]. destruct (lookup_month m rest H) as [-> _]. cbn [fmap option_fmap option_map fst snd].
  do 3 f_equal. lia.
Qed.

Lemma parse_day d rest f : (0 <= d < 100)%Z ->
  parse_chunk stdZeroDay (two d ++ rest) f = Some (rest, set_date (f_year f) (f_month f) d f).
Proof. intros H. cbn [parse_chunk]. by rewrite getnum_two. Qed.

Lemma parse_padded_day d rest f : (0 <= d < 100)%Z ->
  parse_chunk stdUnderDay (two d ++ rest) f = Some (rest, set_date (f_year f) (f_month f) d f).
Proof.
  intros H. pose proof (getnum_two d rest false H) as Hg.
  apply two_split in H as (a & b & (_ & _ & Ha & _)%digit_char_digit & _ & _ & E). rewrite E in *.
  cbn [app parse_chunk] in *. by rewrite Ha, Hg.
Qed.

Lemma parse_single_day d rest f : (0 <= d < 10)%Z ->
  parse_chunk stdUnderDay (digit_char d :: &" " ++ rest) f
  = Some (&" " ++ rest, set_date (f_year f) (f_month f) d f).
Proof.
  intros H. pose proof (getnum_one d " "%char rest H eq_refl) as Hg.
  apply digit_char_digit in H as (_ & _ & Hs & _). cbn [parse_chunk]. rewrite Hs.
  change (&" " ++ rest) with (" "%char :: rest). by rewrite Hg.
Qed.

(** One element of the layout. *)
Lemma parse_step v v' f' prefix std chunks last value f :
  skip_text value prefix = Some v -> parse_chunk std v f = Some (v', f') ->
  parse_chunks ((prefix, std) :: chunks) last value f = parse_chunks chunks last v' f'.
Proof. intros H1 H2. cbn [parse_chunks]. by rewrite H1, H2. Qed.

(** The time of day, up to a text that is no fraction. *)
Lemma parse_clock f0 f chunks last rest :
  (0 <= f_hour f < 24)%Z -> (0 <= f_min f < 60)%Z -> (0 <= f_sec f < 60)%Z ->
  match rest with "."%char :: _ => False | _ => True end ->
  parse_chunks ((&" ", stdHour) :: (&":", stdZeroMinute) :: (&":", stdZeroSecond) :: chunks) last
    (&" " ++ clock_text f ++ rest) f0
  = parse_chunks chunks last rest (set_clock (f_hour f) (f_min f) (f_sec f) 0 f0).
Proof.
  intros Hh Hm Hs Hr. unfold clock_text. rewrite <- !app_assoc.
  erewrite parse_step; [|apply skip_space, starts_two; lia|cbn [parse_chunk]; rewrite getnum_two by lia;
    unfold in_range; by assert ((0 <=? f_hour f) && (f_hour f <? 24) = true)%Z as -> by lia].
  erewrite parse_step; [|apply skip_colon|cbn [parse_chunk]; rewrite getnum_two by lia;
    unfold in_range; by assert ((0 <=? f_min f) && (f_min f <? 60) = true)%Z as -> by lia].
  assert (Hf : fraction rest = Some (0%Z, rest)) by (destruct rest as [|[[] [] [] [] [] [] [] []] rest]; done).
  erewrite parse_step; [|apply skip_colon|cbn [parse_chunk]; rewrite getnum_two, Hf by lia;
    unfold in_range; by assert ((0 <=? f_sec f) && (f_sec f <? 60) = true)%Z as -> by lia].
  done.
Qed.

(** ** The three formats *)

(** The fields read from a date. *)
Definition read_fields (f : fields) (zone : str) : fields :=
  mkFields (f_year f) (f_month f) (f_day f) (f_hour f) (f_min f) (f_sec f) 0 false zone.

Lemma Date_read f zone : Date (read_fields f zone) = Date f.
Proof. unfold Date. cbn [read_fields f_year f_month f_day f_hour f_min f_sec]. reflexivity. Qed.

Lemma two_digit_day f : valid_date f -> (1 <= f_day f < 100)%Z.
Proof.
  intros [Hy Hm%month_cases Hd _ _ _]. split; [lia|].
  assert (H : forall m, m ∈ [1; 2; 3; 4; 5; 6; 7; 8; 9; 10; 11; 12]%Z -> (daysIn m (f_year f) < 100)%Z).
  { apply Forall_forall. unfold daysIn. repeat (apply Forall_cons_2; [destruct (isLeap _); reflexivity|]). done. }
  specialize (H _ Hm). lia.
Qed.

(** Reads an element: [skip] proves what comes before it, [H] reads it. *)
Tactic Notation "chunk" tactic(skip) "then" uconstr(H) :=
  erewrite parse_step; [|solve [skip]|apply H; solve [done | lia]].

Lemma parse_fixdate day f : valid_date f -> day ∈ shortDayNames ->
  parse_chunks [([], stdWeekDay); (&", ", stdZeroDay); (&" ", stdMonth); (&" ", stdLongYear); (&" ", stdHour);
    (&":", stdZeroMinute); (&":", stdZeroSecond)] &" GMT" (fixdate day f) no_fields = Some (read_fields f []).
Proof.
  intros Hv Hday. pose proof (two_digit_day f Hv) as Hd2. destruct Hv. unfold fixdate.
  chunk (reflexivity) then parse_short_day.
  chunk (apply skip_comma, starts_two; lia) then parse_day.
  chunk (by apply skip_space, lookup_month) then parse_month.
  chunk (apply skip_space, starts_four; lia) then parse_long_year.
  rewrite parse_clock by done. reflexivity.
Qed.

Lemma parse_rfc850 day f : valid_date f -> (1969 <= f_year f <= 2068)%Z -> day ∈ longDayNames ->
  parse_chunks [([], stdLongWeekDay); (&", ", stdZeroDay); (&"-", stdMonth); (&"-", stdYear); (&" ", stdHour);
    (&":", stdZeroMinute); (&":", stdZeroSecond); (&" ", stdTZ)] [] (rfc850_date day f) no_fields
  = Some (read_fields f &"GMT").
Proof.
  intros Hv Hy Hday. pose proof (two_digit_day f Hv) as Hd2. destruct Hv. unfold rfc850_date.
  destruct (lookup_day_long day ","%char " "%char (digit_char (f_day f / 10)) (digit_char (f_day f mod 10)
    :: &"-" ++ month_name (f_month f) ++ &"-" ++ two (f_year f mod 100) ++ &" " ++ clock_text f ++ &" GMT") Hday) as [i Hi].
  erewrite parse_step; [|reflexivity|cbn [parse_chunk]; etransitivity; [exact (f_equal _ Hi)|reflexivity]].
  chunk (apply skip_comma, starts_two; lia) then parse_day.
  chunk (apply skip_hyphen) then parse_month.
  chunk (apply skip_hyphen) then parse_year.
  rewrite parse_clock by done. reflexivity.
Qed.

Lemma parse_asctime day f : valid_date f -> day ∈ shortDayNames ->
  parse_chunks [([], stdWeekDay); (&" ", stdMonth); (&" ", stdUnderDay); (&" ", stdHour);
    (&":", stdZeroMinute); (&":", stdZeroSecond); (&" ", stdLongYear)] [] (asctime_date day f) no_fields
  = Some (read_fields f []).
Proof.
  intros Hv Hday. pose proof (two_digit_day f Hv) as Hd2. destruct Hv. unfold asctime_date.
  chunk (reflexivity) then parse_short_day.
  chunk (by apply skip_space, lookup_month) then parse_month.
  destruct (f_day f <? 10)%Z eqn:E.
  - destruct (digit_char_digit (f_day f)) as (_ & _ & Hsp & _); [lia|].
    erewrite parse_step; [|by apply (skip_spaces (digit_char (f_day f) :: _))|apply parse_single_day; lia].
    rewrite (parse_clock _ f _ _ (&" " ++ four (f_year f))) by done.
    rewrite <- (app_nil_r (four (f_year f))). chunk (apply skip_space, starts_four; lia) then parse_long_year.
    reflexivity.
  - erewrite parse_step; [|apply skip_space, starts_two; lia|apply parse_padded_day; lia].
    rewrite (parse_clock _ f _ _ (&" " ++ four (f_year f))) by done.
    rewrite <- (app_nil_r (four (f_year f))). chunk (apply skip_space, starts_four; lia) then parse_long_year.
    reflexivity.
Qed.

(** A text whose first four letters begin no name of the table. *)
Lemma lookup_name_none tab val : forall i,
  Forall (fun v => ToLower (take 4 val) <> ToLower (take 4 v) /\ 4 <= length v) tab -> lookup_name i tab val = None.
Proof.
  induction tab as [|v tab IH]; intros i HF; [done|]. apply Forall_cons in HF as [[Hne Hlen] HF].
  cbn [lookup_name]. rewrite IH by done. case_match eqn:E; [|done]. bools. destruct Hne.
  apply (f_equal (take 4)) in H0. unfold ToLower in *. rewrite <- !fmap_take in H0.
  by rewrite take_take, Nat.min_l in H0 by done.
Qed.

Lemma day_text_nonempty day rest : day ∈ shortDayNames ++ longDayNames -> nonempty (day ++ rest) = true.
Proof. revert day. apply Forall_forall. repeat (apply Forall_cons_2; [reflexivity|]). done. Qed.

(** *** The other layouts do not match *)

Lemma rfc850_not_fixdate day f chunks last : day ∈ longDayNames ->
  parse_chunks (([], stdWeekDay) :: (&", ", stdZeroDay) :: chunks) last (rfc850_date day f) no_fields = None.
Proof. revert day. apply Forall_forall. repeat (apply Forall_cons_2; [reflexivity|]). done. Qed.

Lemma asctime_not_fixdate day f chunks last : day ∈ shortDayNames ->
  parse_chunks (([], stdWeekDay) :: (&", ", stdZeroDay) :: chunks) last (asctime_date day f) no_fields = None.
Proof. revert day. apply Forall_forall. repeat (apply Forall_cons_2; [reflexivity|]). done. Qed.

Lemma asctime_not_rfc850 day f chunks last : day ∈ shortDayNames ->
  parse_chunks (([], stdLongWeekDay) :: chunks) last (asctime_date day f) no_fields = None.
Proof.
  intros Hday. cbn [parse_chunks]. change (skip_text ?v []) with (Some v). cbn [parse_chunk].
  rewrite lookup_name_none; [done|]. revert day Hday. apply Forall_forall.
  repeat (apply Forall_cons_2; [repeat (apply Forall_cons_2; [split; [vm_compute; discriminate|by apply Nat.leb_le]|]); constructor|]). done.
Qed.

(** ** Properties *)

Section Properties.

Context (lookupName : str -> Z -> option Z).

Lemma time_Parse_read layout chunks last s f zone :
  layout_chunks (length layout) [] layout = (chunks, last) ->
  parse_chunks chunks last s no_fields = Some (read_fields f zone) -> valid_date f ->
  (nonempty zone = true -> default 0%Z (lookupName zone (Date f)) = 0%Z) -> time_Parse lookupName layout s = Some (Date f, 0%Z).
Proof.
  intros Hc Hp [Hy Hm Hd Hh Hmi Hs] Hz. unfold time_Parse. rewrite Hc, Hp. cbn [read_fields f_month f_year f_day f_utc f_zone f_nsec].
  unfold in_range. assert ((1 <=? f_day f) && (f_day f <? daysIn (f_month f) (f_year f) + 1) = true)%Z as -> by lia.
  rewrite Date_read. case_match eqn:E; [done|].
  cbn [orb] in E. rewrite Hz by (by destruct (nonempty zone)). do 2 f_equal. lia.
Qed.

Lemma time_Parse_fails layout chunks last s :
  layout_chunks (length layout) [] layout = (chunks, last) -> parse_chunks chunks last s no_fields = None ->
  time_Parse lookupName layout s = None.
Proof. intros Hc Hp. unfold time_Parse. by rewrite Hc, Hp. Qed.

(** The zone of the machine does not give GMT another meaning. *)
Definition gmt_is_gmt : Prop := forall t, default 0%Z (lookupName &"GMT" t) = 0%Z.

(** Dates in headers are read in each of the three formats of HTTP: for
    every valid date of the years 0 to 9999 the text [Sun, 06 Nov 1994
    08:49:37 GMT] and the text [Sun Nov  6 08:49:37 1994], and for the years
    1969 to 2068 the text [Sunday, 06-Nov-94 08:49:37 GMT], give exactly the
    instant of the date, whichever layouts are tried before. *)
Theorem ParseTime_reads_HTTP_dates h key day f :
  valid_date f -> gmt_is_gmt ->
  day ∈ shortDayNames /\ (Header_Get h key = fixdate day f \/ Header_Get h key = asctime_date day f)
  \/ day ∈ longDayNames /\ (1969 <= f_year f <= 2068)%Z /\ Header_Get h key = rfc850_date day f ->
  ParseTime lookupName h key = (Date f, 0%Z).
Proof.
  intros Hv Hgmt Hcases. assert (Hf : first_parse lookupName timeLayouts (Header_Get h key) = (Date f, 0%Z)).
  { cbn [first_parse timeLayouts]. destruct Hcases as [[Hday [->| ->]]|(Hday & Hy & ->)].
    - by erewrite time_Parse_read; [|reflexivity|by apply parse_fixdate|done|].
    - erewrite time_Parse_fails; [|reflexivity|by apply asctime_not_fixdate].
      erewrite time_Parse_fails; [|reflexivity|by apply asctime_not_rfc850].
      by erewrite time_Parse_read; [|reflexivity|by apply parse_asctime|done|].
    - erewrite time_Parse_fails; [|reflexivity|by apply rfc850_not_fixdate].
      by erewrite time_Parse_read; [|reflexivity|by apply parse_rfc850|done|]. }
  unfold ParseTime. assert (nonempty (Header_Get h key) = true) as ->; [|done].
  destruct Hcases as [[Hday [->| ->]]|(Hday & _ & ->)]; apply day_text_nonempty, elem_of_app; first [by left|by right].
Qed.

End Properties.

(** ** A date *)

Definition example_date : fields := mkFields 1994 11 6 8 49 37 0 false [].

Lemma ParseTime_reads_HTTP_dates_witness :
  ParseTime (fun _ _ => None) {[ &"Date" := [&"Sunday, 06-Nov-94 08:49:37 GMT"] ]} &"date" = (784111777, 0)%Z.
Proof.
  apply (ParseTime_reads_HTTP_dates (fun _ _ => None) {[ &"Date" := [&"Sunday, 06-Nov-94 08:49:37 GMT"] ]} &"date"
    &"Sunday" example_date).
  - split; vm_compute; split; (reflexivity || discriminate).
  - intros t. reflexivity.
  - right. split; [apply elem_of_cons; left; reflexivity|]. split; [unfold example_date; cbn; lia|].
    vm_compute. reflexivity.
Defined.
