(* ===== verification/GoQuery.v ===== *)
(** * Query strings

    The round trip of net/url's [Values.Encode] and [ParseQuery] (GoUrl.v),
    which the API client, the artifact proxy and the authentication rely on,
    and how a query string that was put together by hand is read. *)

From S2P Require Import Prelude GoStd GoUrl.

(** ** Escaped components *)

(** A query component holds no separator. *)
Lemma query_byte_plain c :
  Forall (fun b => in_set b "&;=#?" = false) (url_escape_byte encodeQueryComponent c).
Proof.
  apply (bool_decide_unpack _). destruct c as [[] [] [] [] [] [] [] []]; vm_compute; exact I.
Qed.

Lemma QueryEscape_plain s : Forall (fun b => in_set b "&;=#?" = false) (QueryEscape s).
Proof.
  unfold QueryEscape, escape. induction s as [|c s IH]; [constructor|].
  rewrite fmap_cons. change (mjoin (?a :: ?b)) with (a ++ mjoin b).
  apply Forall_app. split; [apply query_byte_plain|done].
Qed.

Abbreviation is_sep := (fun c => in_set c "&;").

Lemma Forall_plain_amp s :
  Forall (fun b => in_set b "&;=#?" = false) s -> Forall (fun b => is_sep b = false) s.
Proof.
  intros HF. eapply Forall_impl; [exact HF|]. intros b. unfold in_set. rewrite !bool_decide_eq_false.
  intros H Hin. apply H. revert Hin. change (go "&;") with [ "&"; ";"]%char.
  change (go "&;=#?") with ["&"; ";"; "="; "#"; "?"]%char. set_solver.
Qed.

Lemma QueryEscape_no_eq s : "="%char ∉ QueryEscape s.
Proof.
  intros Hin. pose proof (QueryEscape_plain s) as HF. rewrite Forall_forall in HF.
  by specialize (HF _ Hin).
Qed.

(** ** Fields *)

Lemma split_by_none p s : Forall (fun b => p b = false) s -> split_by p s = [s].
Proof.
  induction 1 as [|b s Hb _ IH]; [done|]. cbn [split_by]. by rewrite Hb, IH.
Qed.

Lemma split_by_app p s c t :
  Forall (fun b => p b = false) s -> p c = true -> split_by p (s ++ c :: t) = s :: split_by p t.
Proof.
  intros HF Hc. induction HF as [|b s Hb _ IH]; cbn [app split_by]; [by rewrite Hc|]. by rewrite Hb, IH.
Qed.

Lemma split_by_Join fields :
  fields <> [] -> Forall (Forall (fun b => is_sep b = false)) fields -> split_by is_sep (Join fields &"&") = fields.
Proof.
  intros Hne HF. induction HF as [|f fields Hf HF IH]; [done|]. destruct fields as [|f' fields].
  - cbn [Join]. by apply split_by_none.
  - change (Join (f :: f' :: fields) &"&") with (f ++ "&"%char :: Join (f' :: fields) &"&").
    rewrite split_by_app by done. by rewrite IH.
Qed.

(** A field [k=v], escaped, and what reading it does. *)
Definition query_field (k v : str) : str := QueryEscape k ++ &"=" ++ QueryEscape v.

Lemma query_field_plain k v : Forall (fun b => is_sep b = false) (query_field k v).
Proof.
  unfold query_field. rewrite !Forall_app. split; [apply Forall_plain_amp, QueryEscape_plain|].
  split; [by repeat constructor|apply Forall_plain_amp, QueryEscape_plain].
Qed.

(** The name and the value of a field are read back as they unescape. *)
Lemma add_query_field_eq m k v k' v' :
  "="%char ∉ k -> QueryUnescape k = Some k' -> QueryUnescape v = Some v' ->
  add_query_field m (k ++ "="%char :: v) = <[k' := default [] (m !! k') ++ [v']]> m.
Proof.
  intros Heq Hk Hv. unfold add_query_field. rewrite decide_False by (by destruct k).
  rewrite IndexByte_app_absent by done. cbn [IndexByte]. rewrite decide_True by done.
  cbn [fmap option_fmap option_map]. rewrite Nat.add_0_r, take_app_length.
  assert (drop (S (length k)) (k ++ "="%char :: v) = v) as ->.
  { change (S (length k)) with (1 + length k). rewrite Nat.add_comm, <- drop_drop, drop_app_length. done. }
  by rewrite Hk, Hv.
Qed.

Lemma add_query_field_escaped m k v :
  add_query_field m (query_field k v) = <[k := default [] (m !! k) ++ [v]]> m.
Proof.
  unfold query_field. apply add_query_field_eq; [apply QueryEscape_no_eq|..];
    unfold QueryUnescape, QueryEscape; by rewrite url_unescape_escape.
Qed.

(** ** Encode and ParseQuery *)

Lemma insert_key_perm k l : insert_key k l ≡ₚ k :: l.
Proof.
  induction l as [|x l IH]; [done|]. cbn [insert_key]. destruct (str_leb k x); [done|].
  rewrite IH. apply Permutation_swap.
Qed.

Lemma sort_keys_perm l : foldr insert_key [] l ≡ₚ l.
Proof. induction l as [|x l IH]; [done|]. cbn [foldr]. by rewrite insert_key_perm, IH. Qed.

(** The values of one key. *)
Lemma fold_values k vs : forall m : Values,
  vs <> [] -> foldl add_query_field m (query_field k <$> vs) = <[k := default [] (m !! k) ++ vs]> m.
Proof.
  induction vs as [|v vs IH]; intros m Hne; [done|]. rewrite fmap_cons. cbn [foldl].
  rewrite add_query_field_escaped. destruct vs as [|v' vs]; [done|].
  rewrite IH, lookup_insert_eq, insert_insert_eq by done. cbn [default from_option id].
  by rewrite <- app_assoc.
Qed.

(** The values of several keys, none of which is there yet. *)
Lemma fold_keys (m : Values) ks : forall m0 : Values,
  NoDup ks -> (forall k, k ∈ ks -> exists vs, m !! k = Some vs /\ vs <> [] /\ m0 !! k = None) ->
  forall k, foldl add_query_field m0 (mjoin ((fun k => query_field k <$> default [] (m !! k)) <$> ks)) !! k
            = if decide (k ∈ ks) then m !! k else m0 !! k.
Proof.
  induction ks as [|x ks IH]; intros m0 Hnd Hks k.
  - by rewrite decide_False by apply not_elem_of_nil.
  - apply NoDup_cons in Hnd as [Hx Hnd]. rewrite fmap_cons. change (mjoin (?a :: ?b)) with (a ++ mjoin b).
    rewrite foldl_app. destruct (Hks x) as (vs & Hvs & Hne & Hm0); [apply elem_of_cons; by left|].
    rewrite Hvs. cbn [default from_option id]. rewrite fold_values by done. rewrite Hm0. cbn [default from_option id app].
    rewrite IH; [|done|].
    + destruct (decide (k ∈ ks)) as [Hk|Hk]; [by rewrite decide_True by (apply elem_of_cons; by right)|].
      destruct (decide (k = x)) as [->|Hkx].
      * rewrite lookup_insert_eq. by rewrite decide_True by (apply elem_of_cons; by left).
      * rewrite lookup_insert_ne by done. by rewrite decide_False by (intros [->|?]%elem_of_cons; done).
    + intros y Hy. destruct (Hks y) as (vs' & H1 & H2 & H3); [apply elem_of_cons; by right|].
      exists vs'. split; [done|]. split; [done|]. rewrite lookup_insert_ne; [done|]. by intros ->.
Qed.

(** What was encoded is read back, whatever bytes the names and the values are
    made of. *)
Lemma ParseQuery_Encode (m : Values) : map_Forall (fun _ vs => vs <> []) m -> ParseQuery (Encode m) = m.
Proof.
  intros Hm. unfold ParseQuery, Encode. set (ks := foldr insert_key [] _).
  assert (Hks : ks ≡ₚ (map_to_list m).*1) by apply sort_keys_perm.
  change (fun k => (fun v => QueryEscape k ++ &"=" ++ QueryEscape v) <$> default [] (m !! k))
    with (fun k => query_field k <$> default [] (m !! k)).
  set (fields := mjoin _).
  assert (Hsplit : foldl add_query_field ∅ (split_by is_sep (Join fields &"&")) = foldl add_query_field ∅ fields).
  { destruct fields as [|f fs] eqn:E; [done|]. rewrite split_by_Join; [done|done|]. rewrite <- E.
    apply Forall_forall. intros f' (l & Hf & Hl)%list_elem_of_join. apply list_elem_of_fmap in Hl as (k & -> & _).
    apply list_elem_of_fmap in Hf as (v & -> & _). apply query_field_plain. }
  rewrite Hsplit. apply map_eq. intros k. unfold fields. rewrite (fold_keys m ks ∅).
  - case_decide as Hk; [done|]. rewrite lookup_empty. symmetry. apply eq_None_not_Some. intros [vs Hvs].
    apply Hk. rewrite Hks. apply list_elem_of_fmap. exists (k, vs). split; [done|]. by apply elem_of_map_to_list.
  - rewrite Hks. apply NoDup_fst_map_to_list.
  - intros y Hy. rewrite Hks in Hy. apply list_elem_of_fmap in Hy as ([k' vs] & -> & Hin).
    apply elem_of_map_to_list in Hin. exists vs. split; [done|]. split; [by apply (Hm k')|apply lookup_empty].
Qed.

(** ** Queries put together by hand *)

(** A value that means itself in a query. *)
Definition plain_query (s : str) : Prop := Forall (fun c => in_set c "&;%+" = false) s.

Lemma plain_query_sep s : plain_query s -> Forall (fun b => is_sep b = false) s.
Proof.
  intros HF. eapply Forall_impl; [exact HF|]. intros b. unfold in_set. rewrite !bool_decide_eq_false.
  intros H Hin. apply H. revert Hin. change (go "&;") with [ "&"; ";"]%char.
  change (go "&;%+") with ["&"; ";"; "%"; "+"]%char. set_solver.
Qed.

Lemma plain_query_unescape s : plain_query s -> QueryUnescape s = Some s.
Proof.
  unfold QueryUnescape. induction 1 as [|c s Hc HF IH]; [done|]. cbn [url_unescape host_mode andb].
  assert (c <> "%"%char /\ c <> "+"%char) as [H1 H2] by (split; intros ->; done).
  rewrite !decide_False by done. by rewrite IH.
Qed.

(** Two parameters joined by hand. *)
Lemma ParseQuery_two k1 v1 k2 v2 :
  k1 <> k2 -> plain_query k1 -> plain_query v1 -> plain_query k2 -> plain_query v2 ->
  "="%char ∉ k1 -> "="%char ∉ k2 ->
  ParseQuery (k1 ++ &"=" ++ v1 ++ &"&" ++ k2 ++ &"=" ++ v2) = <[k2 := [v2]]> {[ k1 := [v1] ]}.
Proof.
  intros Hk P1 P2 P3 P4 E1 E2. unfold ParseQuery.
  assert (Hs : forall k v, plain_query k -> plain_query v -> Forall (fun b => is_sep b = false) (k ++ "="%char :: v)).
  { intros k v Pk Pv. apply Forall_app. split; [by apply plain_query_sep|]. constructor; [done|by apply plain_query_sep]. }
  replace (k1 ++ &"=" ++ v1 ++ &"&" ++ k2 ++ &"=" ++ v2)
    with ((k1 ++ "="%char :: v1) ++ "&"%char :: (k2 ++ "="%char :: v2)) by (rewrite <- app_assoc; done).
  rewrite split_by_app, split_by_none by (done || by apply Hs). cbn [foldl].
  rewrite !(add_query_field_eq _ _ _ _ _ E1 (plain_query_unescape _ P1) (plain_query_unescape _ P2)).
  rewrite (add_query_field_eq _ _ _ _ _ E2 (plain_query_unescape _ P3) (plain_query_unescape _ P4)).
  rewrite lookup_empty. cbn [default from_option app]. by rewrite lookup_insert_ne, lookup_empty by done.
Qed.
