(* ===== verification/Tls.v ===== *)
(** * TLS settings and the check of command line arguments

    internal/config/tls/tls.go and internal/validateargs/validateargs.go.
    Certificates are opaque: [tls.X509KeyPair] and the certificate callback
    are parameters. *)

From S2P Require Import Prelude GoStd GoUrl.

(** ** Versions *)

Definition VersionSSL30 : Z := 0x0300.
Definition VersionTLS10 : Z := 0x0301.
Definition VersionTLS11 : Z := 0x0302.
Definition VersionTLS12 : Z := 0x0303.
Definition VersionTLS13 : Z := 0x0304.

Definition AllTLSVersions : gmap str Z :=
  list_to_map [ (&"", 0%Z); (&"ssl3", VersionSSL30); (&"tls1.0", VersionTLS10);
                (&"tls1.1", VersionTLS11); (&"tls1.2", VersionTLS12); (&"tls1.3", VersionTLS13) ].

(** Reading a map without the second result gives the zero value. *)
Definition tls_version (name : str) : Z := default 0%Z (AllTLSVersions !! name).

(** [fmt.Sprintf] with [%q] on a name without special characters. *)
Definition quote_name (s : str) : str := dquote :: s ++ [dquote].

(** [order] is the order in which Go visits the map. *)
Definition FlagUsage (order : list str) (minOrMax : str) : str :=
  let versions := quote_name <$> filter (fun v => v <> []) order in
  &"Specifies the " ++ minOrMax ++ &"imum SSL/TLS version, supported values are "
  ++ Join (foldr insert_key [] versions) &", ".

Definition ValidateTLSVersions (min max : str) : option error :=
  match AllTLSVersions !! min with
  | None => Some (ErrMsg (&"invalid minimum TLS version: " ++ min))
  | Some tlsMin =>
      match AllTLSVersions !! max with
      | None => Some (ErrMsg (&"invalid maximum TLS version: " ++ max))
      | Some tlsMax =>
          if (tlsMax <? tlsMin)%Z && (0 <? tlsMax)%Z
          then Some (ErrMsg (&"invalid maximum TLS version: " ++ max ++ &"; should be at least " ++ min))
          else None
      end
  end.

(** ** The server configuration *)

Definition TLS_ECDHE_RSA_WITH_CHACHA20_POLY1305 : Z := 0xcca8.
Definition TLS_ECDHE_ECDSA_WITH_CHACHA20_POLY1305 : Z := 0xcca9.
Definition TLS_ECDHE_RSA_WITH_AES_128_GCM_SHA256 : Z := 0xc02f.
Definition TLS_ECDHE_ECDSA_WITH_AES_128_GCM_SHA256 : Z := 0xc02b.
Definition TLS_ECDHE_RSA_WITH_AES_256_GCM_SHA384 : Z := 0xc030.
Definition TLS_ECDHE_ECDSA_WITH_AES_256_GCM_SHA384 : Z := 0xc02c.
Definition TLS_AES_128_GCM_SHA256 : Z := 0x1301.
Definition TLS_AES_256_GCM_SHA384 : Z := 0x1302.
Definition TLS_CHACHA20_POLY1305_SHA256 : Z := 0x1303.

Definition preferredCipherSuites : list Z :=
  [ TLS_ECDHE_RSA_WITH_CHACHA20_POLY1305; TLS_ECDHE_ECDSA_WITH_CHACHA20_POLY1305;
    TLS_ECDHE_RSA_WITH_AES_128_GCM_SHA256; TLS_ECDHE_ECDSA_WITH_AES_128_GCM_SHA256;
    TLS_ECDHE_RSA_WITH_AES_256_GCM_SHA384; TLS_ECDHE_ECDSA_WITH_AES_256_GCM_SHA384;
    TLS_AES_128_GCM_SHA256; TLS_AES_256_GCM_SHA384; TLS_CHACHA20_POLY1305_SHA256 ].

Section Create.

Context {Certificate GetCertificateFunc : Type} (X509KeyPair : str -> str -> result Certificate).

(** The fields of [tls.Config] the package sets; a nil slice is [[]]. *)
Record tlsConfig : Type := mkTlsConfig {
  GetCertificate : GetCertificateFunc; Certificates : list Certificate;
  PreferServerCipherSuites : bool; CipherSuites : list Z; MinVersion : Z; MaxVersion : Z }.

Definition configureCertificate (cert key : str) (c : tlsConfig) : result tlsConfig :=
  let? certificate := X509KeyPair cert key in
  Ok (mkTlsConfig (GetCertificate c) [certificate] (PreferServerCipherSuites c) (CipherSuites c)
        (MinVersion c) (MaxVersion c)).

Definition configureTLSCiphers (c : tlsConfig) : tlsConfig :=
  mkTlsConfig (GetCertificate c) (Certificates c) true preferredCipherSuites (MinVersion c) (MaxVersion c).

Definition tls_Create (cert key : str) (getCertificate : GetCertificateFunc) (insecureCiphers : bool)
    (tlsMinVersion tlsMaxVersion : Z) : result tlsConfig :=
  let c := mkTlsConfig getCertificate [] false [] 0 0 in
  let? c := configureCertificate cert key c in
  let c := if negb insecureCiphers then configureTLSCiphers c else c in
  Ok (mkTlsConfig (GetCertificate c) (Certificates c) (PreferServerCipherSuites c) (CipherSuites c)
        tlsMinVersion tlsMaxVersion).

End Create.
Arguments tlsConfig : clear implicits.

(** ** validateargs *)

Definition deprecatedMessage : str := &"command line options have been deprecated:".
Definition notAllowedMsg : str := &"invalid command line arguments:".
Definition deprecatedArgs : list str := [&"-sentry-dsn"].
Definition notAllowedArgs : list str :=
  [&"-auth-client-id"; &"-auth-client-secret"; &"-auth-secret"; &"-auth-scope"].

Definition validate (args invalidArgs : list str) (errMsg : str) : option error :=
  let argsStr := Join args &" " in
  let foundInvalidArgs := filter (fun invalidArg => Contains argsStr invalidArg = true) invalidArgs in
  if 0 <? length foundInvalidArgs
  then Some (ErrMsg (errMsg ++ &" " ++ Join foundInvalidArgs &", ")) else None.

Definition Deprecated (args : list str) : option error := validate args deprecatedArgs deprecatedMessage.
Definition NotAllowed (args : list str) : option error := validate args notAllowedArgs notAllowedMsg.

(** ** Lemmas *)

Lemma Contains_spec s sub : Contains s sub = true <-> exists a b, s = a ++ sub ++ b.
Proof.
  induction s as [|c s IH]; simpl; rewrite orb_true_iff, HasPrefix_spec.
  - split.
    + intros [[k H]|H]; [by exists [], k|done].
    + intros (a & b & H). left. symmetry in H. apply app_eq_nil in H as [-> H]. by exists b.
  - rewrite IH. split.
    + intros [[k H]|(a & b & ->)]; [by exists [], k|by exists (c :: a), b].
    + intros ([|x a] & b & H); [left; by exists b|]. injection H as -> ->. right. by exists a, b.
Qed.

(** A text without the separator lies in a joined list exactly when it lies
    in one of its elements. *)
Lemma Contains_app_sep s t p c :
  c ∉ p -> Contains (s ++ c :: t) p = true -> Contains s p = true \/ Contains t p = true.
Proof.
  intros Hc (a & b & H)%Contains_spec.
  assert (Hcase : length (a ++ p) <= length s \/ length s < length a \/ (length a <= length s < length (a ++ p)))
    by (rewrite length_app; lia).
  rewrite app_assoc in H. destruct Hcase as [Hle|[Hlt|[H1 H2]]].
  - left. apply Contains_spec. apply (f_equal (take (length s))) in H. rewrite take_app_length in H.
    rewrite take_app, (take_ge (a ++ p)) in H by lia. rewrite <- app_assoc in H. by eauto.
  - right. apply Contains_spec. apply (f_equal (drop (S (length s)))) in H.
    assert (E : drop (S (length s)) (s ++ c :: t) = t)
      by (rewrite (drop_app_ge s), Nat.sub_succ_l, Nat.sub_diag by lia; done).
    rewrite E, <- app_assoc, drop_app_le in H by lia. by eauto.
  - destruct Hc. apply list_elem_of_lookup. exists (length s - length a).
    apply (f_equal (.!! length s)) in H. rewrite list_lookup_middle in H by done.
    rewrite lookup_app_l in H by done. by rewrite lookup_app_r in H by lia.
Qed.

Lemma Contains_mono s p a b : Contains s p = true -> Contains (a ++ s ++ b) p = true.
Proof.
  intros (x & y & ->)%Contains_spec. apply Contains_spec. exists (a ++ x), (y ++ b).
  by rewrite <- !app_assoc.
Qed.

Lemma Contains_Join args p c :
  p <> [] -> c ∉ p -> Contains (Join args [c]) p = true <-> exists a, a ∈ args /\ Contains a p = true.
Proof.
  intros Hp Hc. induction args as [|x l IH].
  - split; [|by intros (a & H%not_elem_of_nil & _)]. intros (a & b & H)%Contains_spec.
    destruct Hp. simpl in H. symmetry in H. apply app_eq_nil in H as [_ H]. by apply app_eq_nil in H as [-> _].
  - destruct (decide (l = [])) as [->|Hl].
    + simpl. split; [intros H; exists x; split; [by left|done]|].
      by intros (a & ->%list_elem_of_singleton & H).
    + rewrite Join_cons by done. split.
      * intros [H|H]%Contains_app_sep; [exists x; split; [by left|done]| |done].
        apply IH in H as (a & Ha & H). exists a. split; [by right|done].
      * intros (a & [->|Ha]%elem_of_cons & H).
        -- by apply (Contains_mono _ _ []).
        -- rewrite app_assoc.
           rewrite <- (app_nil_r (Join l [c])). apply Contains_mono, IH. by exists a.
Qed.

Lemma filter_length_zero {A} (P : A -> Prop) `{Pd : !forall x, Decision (P x)} l :
  (0 <? length (filter P l)) = false <-> forall x, x ∈ l -> ~ P x.
Proof.
  rewrite Nat.ltb_ge. split.
  - intros H x Hx HP. assert (Hf : x ∈ filter P l) by (by apply list_elem_of_filter).
    destruct (filter P l); [by apply elem_of_nil in Hf|simpl in H; lia].
  - intros H. destruct (filter P l) as [|x l'] eqn:E; [done|].
    assert (Hf : x ∈ filter P l) by (rewrite E; by left). apply list_elem_of_filter in Hf as [HP Hx].
    by destruct (H x Hx).
Qed.

Lemma AllTLSVersions_values name v :
  AllTLSVersions !! name = Some v -> v = 0%Z \/ (VersionSSL30 <= v <= VersionTLS13)%Z.
Proof.
  intros H. apply elem_of_list_to_map_2 in H. unfold VersionSSL30, VersionTLS13.
  rewrite list_elem_of_In in H.
  repeat (destruct H as [H|H]; [apply (f_equal snd) in H; simpl in H; subst v; cbv; intuition discriminate|]). done.
Qed.

(** ** Theorems *)

(** The daemon refuses its command line exactly when some argument
    contains the name of an option that carries a secret: joining the
    arguments with blanks makes no false match across two arguments. *)
Theorem NotAllowed_spec args :
  NotAllowed args = None <->
  forall a p, a ∈ args -> p ∈ notAllowedArgs -> Contains a p = false.
Proof.
  unfold NotAllowed, validate.
  assert (Hp : forall p, p ∈ notAllowedArgs -> p <> [] /\ " "%char ∉ p).
  { intros p Hp. unfold notAllowedArgs in Hp.
    repeat (apply elem_of_cons in Hp as [->|Hp]; [split; [done|decide_now]|]). by apply elem_of_nil in Hp. }
  pose proof (filter_length_zero (fun p => Contains (Join args &" ") p = true) notAllowedArgs) as Hf.
  destruct (0 <? _) eqn:E.
  - split; [done|]. intros H. exfalso. enough (true = false) by done. apply Hf. intros p Hin Hc.
    destruct (Hp p Hin) as [Hn Hs]. apply (Contains_Join args p " " Hn Hs) in Hc as (a & Ha & Hc).
    by rewrite (H a p Ha Hin) in Hc.
  - split; [|done]. intros _ a p Ha Hin. destruct Hf as [Hf _]. specialize (Hf eq_refl p Hin).
    destruct (Contains a p) eqn:Hc; [|done]. destruct Hf. destruct (Hp p Hin) as [Hn Hs].
    apply (Contains_Join args p " " Hn Hs). by exists a.
Qed.
