(* ===== verification/Config.v ===== *)
(** * Configuration

    internal/config: config.go, flags.go, multi_string_flag.go and
    validate.go.  [Flags] holds the values of the command line flags after
    parsing (namsral/flag is a library: it stores the parsed values and calls
    [Set] of a multi string flag once per occurrence).  [log.Fatal], which
    ends the process, is [Err].  Durations are nanoseconds. *)

From S2P Require Import Prelude GoStd GoUrl Tls.

(** ** Library functions *)

(** [strings.Split] with a separator that is not empty; [skip] bytes of a
    separator are still to be passed. *)
Fixpoint SplitSep (sep s : str) (skip : nat) : list str :=
  match s with
  | [] => [[]]
  | c :: s' =>
      match skip with
      | S k => SplitSep sep s' k
      | 0 => if HasPrefix s sep then [] :: SplitSep sep s' (length sep - 1)
             else cons_field c (SplitSep sep s' 0)
      end
  end.

(** [base64.StdEncoding] *)
Definition b64_value (c : ascii) : option nat :=
  let n := nat_of_ascii c in
  if (65 <=? n) && (n <=? 90) then Some (n - 65)
  else if (97 <=? n) && (n <=? 122) then Some (n - 71)
  else if (48 <=? n) && (n <=? 57) then Some (n + 4)
  else if n =? 43 then Some 62 else if n =? 47 then Some 63 else None.

Definition b64_char (n : nat) : ascii :=
  ascii_of_nat (if n <? 26 then 65 + n else if n <? 52 then 71 + n else if n <? 62 then n - 4
                else if n =? 62 then 43 else 47).

Definition pad : ascii := "="%char.

Definition b64_byte1 (x y : nat) : ascii := ascii_of_nat (x * 4 + y / 16).
Definition b64_byte2 (y z : nat) : ascii := ascii_of_nat (y mod 16 * 16 + z / 4).
Definition b64_byte3 (z w : nat) : ascii := ascii_of_nat (z mod 4 * 64 + w).

Fixpoint b64_quanta (s : str) : option str :=
  match s with
  | [] => Some []
  | a :: b :: c :: d :: s' =>
      match b64_value a, b64_value b with
      | Some x, Some y =>
          if decide (d = pad) then
            if decide (s' = []) then
              if decide (c = pad) then Some [b64_byte1 x y]
              else z ← b64_value c; Some [b64_byte1 x y; b64_byte2 y z]
            else None
          else
            z ← b64_value c; w ← b64_value d; rest ← b64_quanta s';
            Some (b64_byte1 x y :: b64_byte2 y z :: b64_byte3 z w :: rest)
      | _, _ => None
      end
  | _ => None
  end.

(** Line breaks are skipped anywhere. *)
Definition b64_Decode (s : str) : option str :=
  b64_quanta (filter (fun c => c <> ascii_of_nat 10 /\ c <> ascii_of_nat 13) s).

Definition b64_DecodedLen (n : nat) : nat := n / 4 * 3.

(** ** multi_string_flag.go *)

Definition errMultiStringSetEmptyValue : error := ErrSentinel &"value cannot be empty".
Definition defaultSeparator : str := &",".

Record MultiStringFlag : Type := mkMultiStringFlag { msf_value : list str; msf_separator : str }.

Definition msf_sep (s : MultiStringFlag) : str :=
  if decide (msf_separator s = []) then defaultSeparator else msf_separator s.

Definition msf_String (s : MultiStringFlag) : str := Join (msf_value s) (msf_sep s).

Definition msf_Set (value : str) (s : MultiStringFlag) : result MultiStringFlag :=
  if decide (value = []) then Err errMultiStringSetEmptyValue
  else Ok (mkMultiStringFlag (msf_value s ++ [value]) (msf_separator s)).

Definition msf_Split (s : MultiStringFlag) : list str :=
  mjoin ((fun str => SplitSep (msf_sep s) str 0) <$> msf_value s).

(** ** flags.go *)

Definition second : Z := 1000000000.
Definition minute : Z := 60 * second.

Record Flags : Type := mkFlags {
  f_pagesRootCert : str; f_pagesRootKey : str; f_redirectHTTP : bool; f_useHTTP2 : bool;
  f_pagesRoot : str; f_pagesDomain : str; f_artifactsServer : str; f_artifactsServerTimeout : Z;
  f_pagesStatus : str; f_metricsAddress : str; f_sentryDSN : str; f_sentryEnvironment : str;
  f_daemonUID : Z; f_daemonGID : Z; f_daemonInplaceChroot : bool; f_propagateCorrelationID : bool;
  f_logFormat : str; f_logVerbose : bool; f_secret : str; f_gitLabAuthServer : str;
  f_gitLabServer : str; f_internalGitLabServer : str; f_gitLabAPISecretKey : str;
  f_gitlabClientHTTPTimeout : Z; f_gitlabClientJWTExpiry : Z; f_gitlabCacheExpiry : Z;
  f_gitlabCacheRefresh : Z; f_gitlabCacheCleanup : Z; f_gitlabRetrievalTimeout : Z;
  f_gitlabRetrievalInterval : Z; f_gitlabRetrievalRetries : Z; f_domainConfigSource : str;
  f_useLegacyStorage : bool; f_clientID : str; f_clientSecret : str; f_redirectURI : str;
  f_authScope : str; f_maxConns : Z; f_insecureCiphers : bool; f_tlsMinVersion : str;
  f_tlsMaxVersion : str; f_zipCacheExpiration : Z; f_zipCacheCleanup : Z; f_zipCacheRefresh : Z;
  f_zipOpenTimeout : Z; f_disableCrossOriginRequests : bool; f_showVersion : bool;
  f_listenHTTP : MultiStringFlag; f_listenHTTPS : MultiStringFlag; f_listenProxy : MultiStringFlag;
  f_listenHTTPSProxyv2 : MultiStringFlag; f_header : MultiStringFlag }.

(** The values before parsing. *)
Definition default_flags : Flags := {|
  f_pagesRootCert := []; f_pagesRootKey := []; f_redirectHTTP := false; f_useHTTP2 := true;
  f_pagesRoot := &"shared/pages"; f_pagesDomain := &"gitlab-example.com"; f_artifactsServer := [];
  f_artifactsServerTimeout := 10; f_pagesStatus := []; f_metricsAddress := []; f_sentryDSN := [];
  f_sentryEnvironment := []; f_daemonUID := 0; f_daemonGID := 0; f_daemonInplaceChroot := false;
  f_propagateCorrelationID := false; f_logFormat := &"text"; f_logVerbose := false; f_secret := [];
  f_gitLabAuthServer := []; f_gitLabServer := []; f_internalGitLabServer := []; f_gitLabAPISecretKey := [];
  f_gitlabClientHTTPTimeout := 10 * second; f_gitlabClientJWTExpiry := 30 * second;
  f_gitlabCacheExpiry := 10 * minute; f_gitlabCacheRefresh := minute; f_gitlabCacheCleanup := minute;
  f_gitlabRetrievalTimeout := 30 * second; f_gitlabRetrievalInterval := second;
  f_gitlabRetrievalRetries := 3; f_domainConfigSource := &"auto"; f_useLegacyStorage := false;
  f_clientID := []; f_clientSecret := []; f_redirectURI := []; f_authScope := &"api"; f_maxConns := 0;
  f_insecureCiphers := false; f_tlsMinVersion := &"tls1.2"; f_tlsMaxVersion := [];
  f_zipCacheExpiration := 60 * second; f_zipCacheCleanup := 30 * second; f_zipCacheRefresh := 30 * second;
  f_zipOpenTimeout := 30 * second; f_disableCrossOriginRequests := false; f_showVersion := false;
  f_listenHTTP := mkMultiStringFlag [] &","; f_listenHTTPS := mkMultiStringFlag [] &",";
  f_listenProxy := mkMultiStringFlag [] &","; f_listenHTTPSProxyv2 := mkMultiStringFlag [] &",";
  f_header := mkMultiStringFlag [] &";;" |}.

(** ** The configuration *)

Record GeneralConfig : Type := mkGeneral {
  g_Domain : str; g_DomainConfigurationSource : str; g_UseLegacyStorage : bool; g_HTTP2 : bool;
  g_MaxConns : Z; g_MetricsAddress : str; g_RedirectHTTP : bool; g_RootCertificate : str;
  g_RootDir : str; g_RootKey : str; g_StatusPath : str; g_DisableCrossOriginRequests : bool;
  g_InsecureCiphers : bool; g_PropagateCorrelationID : bool; g_ShowVersion : bool;
  g_CustomHeaders : list str }.

Record ArtifactsServerConfig : Type := mkArtifactsServer { as_URL : str; as_TimeoutSeconds : Z }.

Record AuthenticationConfig : Type := mkAuthentication {
  au_Secret : str; au_ClientID : str; au_ClientSecret : str; au_RedirectURI : str; au_Scope : str }.

Record DaemonConfig : Type := mkDaemon { d_UID : Z; d_GID : Z; d_InplaceChroot : bool }.

Record CacheConfig : Type := mkCacheConfig {
  c_CacheExpiry : Z; c_CacheCleanupInterval : Z; c_EntryRefreshTimeout : Z; c_RetrievalTimeout : Z;
  c_MaxRetrievalInterval : Z; c_MaxRetrievalRetries : Z }.

Record GitLabConfig : Type := mkGitLab {
  gl_Server : str; gl_InternalServer : str; gl_APISecretKey : str; gl_ClientHTTPTimeout : Z;
  gl_JWTTokenExpiration : Z; gl_Cache : CacheConfig }.

Record ListenersConfig : Type := mkListeners {
  l_HTTP : list Z; l_HTTPS : list Z; l_Proxy : list Z; l_HTTPSProxyv2 : list Z }.

Record LogSettings : Type := mkLog { log_Format : str; log_Verbose : bool }.
Record SentryConfig : Type := mkSentry { sentry_DSN : str; sentry_Environment : str }.
Record TLSConfigVersions : Type := mkTLS { tls_MinVersion : Z; tls_MaxVersion : Z }.

Record ZipServing : Type := mkZipServing {
  z_ExpirationInterval : Z; z_CleanupInterval : Z; z_RefreshInterval : Z; z_OpenTimeout : Z;
  z_AllowedPaths : list str }.

Record Config : Type := mkConfig {
  General : GeneralConfig; ArtifactsServer : ArtifactsServerConfig; Authentication : AuthenticationConfig;
  Daemon : DaemonConfig; GitLab : GitLabConfig; Listeners : ListenersConfig; Log : LogSettings;
  Sentry : SentryConfig; TLS : TLSConfigVersions; Zip : ZipServing; ListenMetrics : Z;
  ListenHTTPStrings : MultiStringFlag; ListenHTTPSStrings : MultiStringFlag;
  ListenProxyStrings : MultiStringFlag; ListenHTTPSProxyv2Strings : MultiStringFlag }.

Definition set_General (v : GeneralConfig) (c : Config) : Config :=
  mkConfig v (ArtifactsServer c) (Authentication c) (Daemon c) (GitLab c) (Listeners c) (Log c) (Sentry c)
    (TLS c) (Zip c) (ListenMetrics c) (ListenHTTPStrings c) (ListenHTTPSStrings c) (ListenProxyStrings c)
    (ListenHTTPSProxyv2Strings c).
Definition set_GitLab (v : GitLabConfig) (c : Config) : Config :=
  mkConfig (General c) (ArtifactsServer c) (Authentication c) (Daemon c) v (Listeners c) (Log c) (Sentry c)
    (TLS c) (Zip c) (ListenMetrics c) (ListenHTTPStrings c) (ListenHTTPSStrings c) (ListenProxyStrings c)
    (ListenHTTPSProxyv2Strings c).
Definition set_Listeners (v : ListenersConfig) (c : Config) : Config :=
  mkConfig (General c) (ArtifactsServer c) (Authentication c) (Daemon c) (GitLab c) v (Log c) (Sentry c)
    (TLS c) (Zip c) (ListenMetrics c) (ListenHTTPStrings c) (ListenHTTPSStrings c) (ListenProxyStrings c)
    (ListenHTTPSProxyv2Strings c).
Definition set_ListenMetrics (v : Z) (c : Config) : Config :=
  mkConfig (General c) (ArtifactsServer c) (Authentication c) (Daemon c) (GitLab c) (Listeners c) (Log c)
    (Sentry c) (TLS c) (Zip c) v (ListenHTTPStrings c) (ListenHTTPSStrings c) (ListenProxyStrings c)
    (ListenHTTPSProxyv2Strings c).

(** *** Accessors *)

Definition InternalGitLabServerURL (config : Config) : str := gl_InternalServer (GitLab config).
Definition GitlabAPISecret (config : Config) : str := gl_APISecretKey (GitLab config).
Definition GitlabClientConnectionTimeout (config : Config) : Z := gl_ClientHTTPTimeout (GitLab config).
Definition GitlabJWTTokenExpiry (config : Config) : Z := gl_JWTTokenExpiration (GitLab config).
Definition DomainConfigSource (config : Config) : str :=
  if g_UseLegacyStorage (General config) then &"disk"
  else g_DomainConfigurationSource (General config).
Definition Config_Cache (config : Config) : CacheConfig := gl_Cache (GitLab config).

(** ** validate.go *)

Definition validateAuthConfig (config : Config) : option error :=
  let a := Authentication config in
  if negb (nonempty (au_Secret a)) && negb (nonempty (au_ClientID a))
     && negb (nonempty (au_ClientSecret a)) && negb (nonempty (au_RedirectURI a)) then None
  else if negb (nonempty (au_Secret a))
  then Some (ErrMsg &"auth-secret must be defined if authentication is supported")
  else if negb (nonempty (au_ClientID a))
  then Some (ErrMsg &"auth-client-id must be defined if authentication is supported")
  else if negb (nonempty (au_ClientSecret a))
  then Some (ErrMsg &"auth-client-secret must be defined if authentication is supported")
  else if negb (nonempty (gl_Server (GitLab config)))
  then Some (ErrMsg &"gitlab-server must be defined if authentication is supported")
  else if negb (nonempty (au_RedirectURI a))
  then Some (ErrMsg &"auth-redirect-uri must be defined if authentication is supported")
  else None.

Definition validateArtifactsServerConfig (config : Config) : option error :=
  if negb (nonempty (as_URL (ArtifactsServer config))) then None
  else
    match Parse (as_URL (ArtifactsServer config)) with
    | None => Some (ErrMsg &"parse")
    | Some u =>
        if negb (bool_decide (Scheme u = &"http")) && negb (bool_decide (Scheme u = &"https"))
        then Some (ErrMsg &"artifacts-server scheme must be either http:// or https://")
        else if (as_TimeoutSeconds (ArtifactsServer config) <? 1)%Z
        then Some (ErrMsg &"artifacts-server-timeout must be greater than or equal to 1")
        else None
    end.

Definition validateTLSConfig (f : Flags) : option error :=
  match ValidateTLSVersions (f_tlsMinVersion f) (f_tlsMaxVersion f) with
  | Some err => Some (ErrWrap &"invalid TLS version" err)
  | None => None
  end.

Definition validateConfig (f : Flags) (config : Config) : option error :=
  match validateAuthConfig config with
  | Some e => Some e
  | None =>
      match validateArtifactsServerConfig config with
      | Some e => Some e
      | None => validateTLSConfig f
      end
  end.

(** ** config.go *)

Definition gitlabServerFromFlags (f : Flags) : str :=
  if nonempty (f_gitLabServer f) then f_gitLabServer f
  else if nonempty (f_gitLabAuthServer f) then f_gitLabAuthServer f
  else
    match Parse (f_artifactsServer f) with
    | None => []
    | Some u => url_String (set_Path [] u)
    end.

Definition internalGitlabServerFromFlags (f : Flags) : str :=
  if nonempty (f_internalGitLabServer f) then f_internalGitLabServer f else gitlabServerFromFlags f.

Section Load.

(** [ioutil.ReadFile] *)
Context (ReadFile : str -> result str).

Definition readFile (file : str) : result str :=
  match ReadFile file with
  | Ok content => Ok content
  | Err err => Err (ErrWrap &"could not read file" err)
  end.

Definition secret_decode_failed : str := &"Failed to decode GitLab API secret".

(** The buffer [Decode] writes to has [DecodedLen] bytes and is kept whole. *)
Definition setGitLabAPISecretKey (secretFile : str) (config : Config) : result Config :=
  let? encoded := readFile secretFile in
  match b64_Decode encoded with
  | None => Err (ErrWrap secret_decode_failed (ErrMsg &"illegal base64 data"))
  | Some secret =>
      if negb (length secret =? 32)
      then Err (ErrWrap secret_decode_failed (ErrMsg &"expected 32 bytes GitLab API secret"))
      else
        let decoded := secret ++ replicate (b64_DecodedLen (length encoded) - length secret) (ascii_of_nat 0) in
        let g := GitLab config in
        Ok (set_GitLab (mkGitLab (gl_Server g) (gl_InternalServer g) decoded (gl_ClientHTTPTimeout g)
                          (gl_JWTTokenExpiration g) (gl_Cache g)) config)
  end.

(** The struct literal of [loadConfig]. *)
Definition config_from_flags (f : Flags) : Config := {|
  General := mkGeneral (ToLower (f_pagesDomain f)) (f_domainConfigSource f) (f_useLegacyStorage f)
    (f_useHTTP2 f) (f_maxConns f) (f_metricsAddress f) (f_redirectHTTP f) [] (f_pagesRoot f) []
    (f_pagesStatus f) (f_disableCrossOriginRequests f) (f_insecureCiphers f) (f_propagateCorrelationID f)
    (f_showVersion f) (msf_Split (f_header f));
  GitLab := mkGitLab [] [] [] (f_gitlabClientHTTPTimeout f) (f_gitlabClientJWTExpiry f)
    (mkCacheConfig (f_gitlabCacheExpiry f) (f_gitlabCacheCleanup f) (f_gitlabCacheRefresh f)
       (f_gitlabRetrievalTimeout f) (f_gitlabRetrievalInterval f) (f_gitlabRetrievalRetries f));
  ArtifactsServer := mkArtifactsServer (f_artifactsServer f) (f_artifactsServerTimeout f);
  Authentication := mkAuthentication (f_secret f) (f_clientID f) (f_clientSecret f) (f_redirectURI f)
    (f_authScope f);
  Daemon := mkDaemon (f_daemonUID f) (f_daemonGID f) (f_daemonInplaceChroot f);
  Log := mkLog (f_logFormat f) (f_logVerbose f);
  Sentry := mkSentry (f_sentryDSN f) (f_sentryEnvironment f);
  TLS := mkTLS (tls_version (f_tlsMinVersion f)) (tls_version (f_tlsMaxVersion f));
  Zip := mkZipServing (f_zipCacheExpiration f) (f_zipCacheCleanup f) (f_zipCacheRefresh f)
    (f_zipOpenTimeout f) [f_pagesRoot f];
  ListenHTTPStrings := f_listenHTTP f; ListenHTTPSStrings := f_listenHTTPS f;
  ListenProxyStrings := f_listenProxy f; ListenHTTPSProxyv2Strings := f_listenHTTPSProxyv2 f;
  Listeners := mkListeners [] [] [] []; ListenMetrics := 0 |}.

Definition read_optional (path : str) : result str :=
  if nonempty path then readFile path else Ok [].

Definition loadConfig (f : Flags) : result Config :=
  let config := config_from_flags f in
  let? cert := read_optional (f_pagesRootCert f) in
  let? key := read_optional (f_pagesRootKey f) in
  let g := General config in
  let config := set_General (mkGeneral (g_Domain g) (g_DomainConfigurationSource g) (g_UseLegacyStorage g)
    (g_HTTP2 g) (g_MaxConns g) (g_MetricsAddress g) (g_RedirectHTTP g) cert (g_RootDir g) key
    (g_StatusPath g) (g_DisableCrossOriginRequests g) (g_InsecureCiphers g) (g_PropagateCorrelationID g)
    (g_ShowVersion g) (g_CustomHeaders g)) config in
  let l := GitLab config in
  let config := set_GitLab (mkGitLab (gitlabServerFromFlags f) (internalGitlabServerFromFlags f)
    (gl_APISecretKey l) (gl_ClientHTTPTimeout l) (gl_JWTTokenExpiration l) (gl_Cache l)) config in
  let? config := if nonempty (f_gitLabAPISecretKey f)
                 then setGitLabAPISecretKey (f_gitLabAPISecretKey f) config else Ok config in
  match validateConfig f config with
  | Some e => Err e
  | None => Ok config
  end.

(** [initFlags] parses, which is the library's work. *)
Definition LoadConfig (flag_Parse : Flags -> result Flags) : result Config :=
  let? f := flag_Parse default_flags in
  loadConfig f.

End Load.

(** ** The log line of the configuration *)

Inductive LogValue : Type :=
  | LStr (s : str) | LInt (z : Z) | LBool (b : bool) | LFlag (m : MultiStringFlag).

(** [DefaultConfigFlagname] is a constant of the flag library. *)
Definition LogConfig (DefaultConfigFlagname : str) (f : Flags) (config : Config) : list (str * LogValue) :=
  [ (&"artifacts-server", LStr (f_artifactsServer f));
    (&"artifacts-server-timeout", LInt (f_artifactsServerTimeout f));
    (&"daemon-gid", LInt (f_daemonGID f)); (&"daemon-uid", LInt (f_daemonUID f));
    (&"daemon-inplace-chroot", LBool (f_daemonInplaceChroot f));
    (&"default-config-filename", LStr DefaultConfigFlagname);
    (&"disable-cross-origin-requests", LBool (f_disableCrossOriginRequests f));
    (&"domain", LStr (g_Domain (General config)));
    (&"insecure-ciphers", LBool (g_InsecureCiphers (General config)));
    (&"listen-http", LFlag (f_listenHTTP f)); (&"listen-https", LFlag (f_listenHTTPS f));
    (&"listen-proxy", LFlag (f_listenProxy f)); (&"listen-https-proxyv2", LFlag (f_listenHTTPSProxyv2 f));
    (&"log-format", LStr (f_logFormat f)); (&"metrics-address", LStr (f_metricsAddress f));
    (&"pages-domain", LStr (f_pagesDomain f)); (&"pages-root", LStr (f_pagesRoot f));
    (&"pages-status", LStr (f_pagesStatus f));
    (&"propagate-correlation-id", LBool (f_propagateCorrelationID f));
    (&"redirect-http", LBool (g_RedirectHTTP (General config)));
    (&"root-cert", LStr (f_pagesRootKey f)); (&"root-key", LStr (f_pagesRootCert f));
    (&"status_path", LStr (g_StatusPath (General config)));
    (&"tls-min-version", LStr (f_tlsMinVersion f)); (&"tls-max-version", LStr (f_tlsMaxVersion f));
    (&"use-http-2", LBool (g_HTTP2 (General config)));
    (&"gitlab-server", LStr (gl_Server (GitLab config)));
    (&"internal-gitlab-server", LStr (gl_InternalServer (GitLab config)));
    (&"api-secret-key", LStr (f_gitLabAPISecretKey f));
    (&"domain-config-source", LStr (g_DomainConfigurationSource (General config)));
    (&"use-legacy-storage", LBool (g_UseLegacyStorage (General config)));
    (&"auth-redirect-uri", LStr (au_RedirectURI (Authentication config)));
    (&"auth-scope", LStr (au_Scope (Authentication config)));
    (&"zip-cache-expiration", LInt (z_ExpirationInterval (Zip config)));
    (&"zip-cache-cleanup", LInt (z_CleanupInterval (Zip config)));
    (&"zip-cache-refresh", LInt (z_RefreshInterval (Zip config)));
    (&"zip-open-timeout", LInt (z_OpenTimeout (Zip config))) ].

(** ** Lemmas *)

(** *** Fields *)

Lemma SplitSep_byte c s : SplitSep [c] s 0 = Split s c.
Proof.
  induction s as [|x s IH]; [done|]. simpl. rewrite IH.
  destruct (HasPrefix (x :: s) [c]) eqn:E.
  - apply HasPrefix_spec in E as [k [= -> ->]]. by rewrite decide_True.
  - rewrite decide_False; [done|]. intros ->.
    enough (HasPrefix (c :: s) [c] = true) by congruence. apply HasPrefix_spec. by exists s.
Qed.

Lemma Split_Join_concat l c : l <> [] -> Split (Join l [c]) c = mjoin ((fun s => Split s c) <$> l).
Proof.
  induction l as [|x l IH]; [done|]. intros _. destruct (decide (l = [])) as [->|Hl].
  - simpl. by rewrite app_nil_r.
  - rewrite Join_cons by done. simpl. rewrite Split_app. by rewrite IH.
Qed.

(** *** base64 *)

(** The encoder, as a reference. *)
Fixpoint b64_Encode (s : str) : str :=
  match s with
  | [] => []
  | [a] => let a := nat_of_ascii a in [b64_char (a / 4); b64_char (a mod 4 * 16); pad; pad]
  | [a; b] =>
      let a := nat_of_ascii a in let b := nat_of_ascii b in
      [b64_char (a / 4); b64_char (a mod 4 * 16 + b / 16); b64_char (b mod 16 * 4); pad]
  | a :: b :: c :: s' =>
      let a := nat_of_ascii a in let b := nat_of_ascii b in let c := nat_of_ascii c in
      b64_char (a / 4) :: b64_char (a mod 4 * 16 + b / 16) :: b64_char (b mod 16 * 4 + c / 64)
      :: b64_char (c mod 64) :: b64_Encode s'
  end.

Definition b64_digit_ok (n : nat) : bool :=
  bool_decide (b64_value (b64_char n) = Some n) && bool_decide (b64_char n <> pad)
  && bool_decide (b64_char n <> ascii_of_nat 10) && bool_decide (b64_char n <> ascii_of_nat 13).

Lemma b64_char_value n : n < 64 ->
  b64_value (b64_char n) = Some n /\ b64_char n <> pad
  /\ b64_char n <> ascii_of_nat 10 /\ b64_char n <> ascii_of_nat 13.
Proof.
  intros H. assert (Hall : forallb b64_digit_ok (seq 0 64) = true) by run.
  rewrite forallb_forall in Hall. assert (Hn : b64_digit_ok n = true) by (apply Hall, in_seq; lia).
  unfold b64_digit_ok in Hn. by bools.
Qed.

Lemma digit_split k q r : r < k -> (q * k + r) / k = q /\ (q * k + r) mod k = r.
Proof.
  intros H. split.
  - rewrite Nat.div_add_l, Nat.div_small by lia. lia.
  - rewrite Nat.add_comm, Nat.Div0.mod_add. by apply Nat.mod_small.
Qed.

(** The three bytes of a group are put together from its four digits. *)
Lemma b64_group a b c : a < 256 -> b < 256 -> c < 256 ->
  a / 4 * 4 + (a mod 4 * 16 + b / 16) / 16 = a
  /\ (a mod 4 * 16 + b / 16) mod 16 * 16 + (b mod 16 * 4 + c / 64) / 4 = b
  /\ (b mod 16 * 4 + c / 64) mod 4 * 64 + c mod 64 = c.
Proof.
  intros Ha Hb Hc.
  destruct (digit_split 16 (a mod 4) (b / 16)) as [-> ->]; [divmod|].
  destruct (digit_split 4 (b mod 16) (c / 64)) as [-> ->]; [divmod|].
  repeat split; divmod.
Qed.

Lemma nat_of_ascii_lt a : nat_of_ascii a < 256.
Proof. apply nat_ascii_bounded. Qed.

(** The digits the encoder prints. *)
Lemma b64_digits a b c : a < 256 -> b < 256 -> c < 256 ->
  a / 4 < 64 /\ a mod 4 * 16 < 64 /\ a mod 4 * 16 + b / 16 < 64 /\ b mod 16 * 4 < 64
  /\ b mod 16 * 4 + c / 64 < 64 /\ c mod 64 < 64.
Proof. intros Ha Hb Hc. repeat split; divmod. Qed.

Definition not_break (c : ascii) : Prop := c <> ascii_of_nat 10 /\ c <> ascii_of_nat 13.

Lemma b64_Encode_no_break s : Forall not_break (b64_Encode s).
Proof.
  assert (Hd : forall n, n < 64 -> not_break (b64_char n)) by (intros n Hn; apply b64_char_value in Hn; by split; apply Hn).
  assert (Hp : not_break pad) by (split; done).
  induction s as [s IH] using (induction_ltof1 _ length). unfold ltof in IH.
  destruct s as [|a [|b [|c s]]]; [constructor| | |]; cbn [b64_Encode].
  - destruct (b64_digits (nat_of_ascii a) 0 0) as (H1 & H2 & _); [apply nat_of_ascii_lt|lia|lia|].
    repeat (constructor; [by auto|]). constructor.
  - destruct (b64_digits (nat_of_ascii a) (nat_of_ascii b) 0) as (H1 & _ & H3 & H4 & _);
      [apply nat_of_ascii_lt|apply nat_of_ascii_lt|lia|].
    repeat (constructor; [by auto|]). constructor.
  - destruct (b64_digits (nat_of_ascii a) (nat_of_ascii b) (nat_of_ascii c)) as (H1 & _ & H3 & _ & H5 & H6);
      [apply nat_of_ascii_lt|apply nat_of_ascii_lt|apply nat_of_ascii_lt|].
    repeat (constructor; [by auto|]). apply IH. simpl. lia.
Qed.

Lemma b64_quanta_Encode s : b64_quanta (b64_Encode s) = Some s.
Proof.
  induction s as [s IH] using (induction_ltof1 _ length). unfold ltof in IH.
  destruct s as [|a [|b [|c s]]]; [done| | |]; cbn [b64_Encode b64_quanta].
  - destruct (b64_digits (nat_of_ascii a) 0 0) as (H1 & H2 & _); [apply nat_of_ascii_lt|lia|lia|].
    destruct (b64_char_value _ H1) as [-> _]. destruct (b64_char_value _ H2) as [-> _].
    rewrite !decide_True by done. unfold b64_byte1.
    destruct (b64_group (nat_of_ascii a) 0 0) as (E & _); [apply nat_of_ascii_lt|lia|lia|].
    change (0 / 16) with 0 in E. rewrite Nat.add_0_r in E. by rewrite E, ascii_nat_embedding.
  - destruct (b64_digits (nat_of_ascii a) (nat_of_ascii b) 0) as (H1 & _ & H3 & H4 & _);
      [apply nat_of_ascii_lt|apply nat_of_ascii_lt|lia|].
    destruct (b64_char_value _ H1) as [-> _]. destruct (b64_char_value _ H3) as [-> _].
    destruct (b64_char_value _ H4) as (-> & Hp & _). rewrite !decide_True by done. rewrite decide_False by done.
    unfold b64_byte1, b64_byte2. destruct (b64_group (nat_of_ascii a) (nat_of_ascii b) 0) as (E1 & E2 & _);
      [apply nat_of_ascii_lt|apply nat_of_ascii_lt|lia|].
    change (0 / 64) with 0 in E2. rewrite Nat.add_0_r in E2. cbn [mbind option_bind]. by rewrite E1, E2, !ascii_nat_embedding.
  - destruct (b64_digits (nat_of_ascii a) (nat_of_ascii b) (nat_of_ascii c)) as (H1 & _ & H3 & _ & H5 & H6);
      [apply nat_of_ascii_lt|apply nat_of_ascii_lt|apply nat_of_ascii_lt|].
    destruct (b64_char_value _ H1) as [-> _]. destruct (b64_char_value _ H3) as [-> _].
    destruct (b64_char_value _ H5) as (-> & _). destruct (b64_char_value _ H6) as (-> & Hp & _).
    rewrite decide_False by done. rewrite IH by (simpl; lia). unfold b64_byte1, b64_byte2, b64_byte3.
    destruct (b64_group (nat_of_ascii a) (nat_of_ascii b) (nat_of_ascii c)) as (E1 & E2 & E3);
      [apply nat_of_ascii_lt|apply nat_of_ascii_lt|apply nat_of_ascii_lt|].
    cbn [mbind option_bind]. by rewrite E1, E2, E3, !ascii_nat_embedding.
Qed.

(** Decoding inverts encoding, with line breaks after the text. *)
Lemma b64_Decode_Encode s n : b64_Decode (b64_Encode s ++ replicate n (ascii_of_nat 10)) = Some s.
Proof.
  unfold b64_Decode. rewrite filter_app.
  assert (Hb : forall l, Forall not_break l -> filter (fun c => c <> ascii_of_nat 10 /\ c <> ascii_of_nat 13) l = l).
  { induction 1 as [|c l Hc _ IH]; [done|]. rewrite filter_cons_True by done. by rewrite IH. }
  rewrite Hb by apply b64_Encode_no_break.
  assert (Hn : filter (fun c => c <> ascii_of_nat 10 /\ c <> ascii_of_nat 13) (replicate n (ascii_of_nat 10)) = []).
  { induction n as [|n IH]; [done|]. simpl. by rewrite filter_cons_False by tauto. }
  by rewrite Hn, app_nil_r, b64_quanta_Encode.
Qed.

Lemma length_b64_Encode s : length (b64_Encode s) = (length s + 2) / 3 * 4.
Proof.
  induction s as [s IH] using (induction_ltof1 _ length). unfold ltof in IH.
  destruct s as [|a [|b [|c s]]]; [done|done|done|]. cbn [b64_Encode length]. rewrite IH by (simpl; lia).
  replace (S (S (S (length s))) + 2) with (1 * 3 + (length s + 2)) by lia. rewrite Nat.div_add_l by lia. lia.
Qed.

(** What decodes has at least four bytes of text for every three. *)
Lemma b64_quanta_length s t : b64_quanta s = Some t -> length t <= length s / 4 * 3 /\ (4 * length t <= 3 * length s).
Proof.
  revert t. induction s as [s IH] using (induction_ltof1 _ length). unfold ltof in IH. intros t.
  destruct s as [|a [|b [|c [|d s]]]]; cbn [b64_quanta]; [intros [= <-]; simpl; lia|done|done|done|].
  destruct (b64_value a) as [x|]; [|done]. destruct (b64_value b) as [y|]; [|done].
  assert (Hdiv : length (a :: b :: c :: d :: s) / 4 = S (length s / 4)).
  { cbn [length]. replace (S (S (S (S (length s))))) with (1 * 4 + length s) by lia.
    rewrite Nat.div_add_l by lia. lia. }
  rewrite Hdiv. cbn [length]. case_decide; [case_decide as Hs|].
  - subst s. case_decide; [intros [= <-]; cbn [length]; lia|].
    destruct (b64_value c); [|done]. cbn [mbind option_bind]. intros [= <-]; cbn [length]; lia.
  - done.
  - destruct (b64_value c); [|done]. destruct (b64_value d); [|done]. cbn [mbind option_bind].
    destruct (b64_quanta s) as [r|] eqn:E; [|done]. cbn [mbind option_bind]. intros [= <-].
    apply IH in E as [E1 E2]; [|simpl; lia]. cbn [length]. lia.
Qed.

Lemma b64_Decode_length s t : b64_Decode s = Some t -> length t <= b64_DecodedLen (length s).
Proof.
  unfold b64_Decode, b64_DecodedLen. intros [H _]%b64_quanta_length.
  etrans; [exact H|]. apply Nat.mul_le_mono_r, Nat.Div0.div_le_mono, length_filter.
Qed.

(** *** Validation *)

Lemma nonempty_false_iff s : negb (nonempty s) = true <-> s = [].
Proof. rewrite negb_true_iff. apply nonempty_nil. Qed.

Lemma nonempty_iff s : nonempty s = true <-> s <> [].
Proof. unfold nonempty. rewrite negb_true_iff. apply bool_decide_eq_false. Qed.

(** Authentication is configured completely or not at all. *)
Definition auth_settings_ok (server : str) (a : AuthenticationConfig) : Prop :=
  (au_Secret a = [] /\ au_ClientID a = [] /\ au_ClientSecret a = [] /\ au_RedirectURI a = [])
  \/ (au_Secret a <> [] /\ au_ClientID a <> [] /\ au_ClientSecret a <> [] /\ au_RedirectURI a <> []
      /\ server <> []).

Definition artifacts_settings_ok (a : ArtifactsServerConfig) : Prop :=
  as_URL a = []
  \/ exists u, Parse (as_URL a) = Some u /\ (Scheme u = &"http" \/ Scheme u = &"https")
     /\ (1 <= as_TimeoutSeconds a)%Z.

Lemma validateAuthConfig_spec c :
  validateAuthConfig c = None <-> auth_settings_ok (gl_Server (GitLab c)) (Authentication c).
Proof.
  unfold validateAuthConfig, auth_settings_ok, nonempty. repeat case_bool_decide; simpl; naive_solver.
Qed.

Lemma validateArtifactsServerConfig_spec c :
  validateArtifactsServerConfig c = None <-> artifacts_settings_ok (ArtifactsServer c).
Proof.
  unfold validateArtifactsServerConfig, artifacts_settings_ok. destruct (nonempty _) eqn:E; cbn [negb].
  - apply nonempty_iff in E. destruct (Parse _) as [u|]; [|naive_solver].
    destruct (as_TimeoutSeconds (ArtifactsServer c) <? 1)%Z eqn:Et; bools;
      repeat case_bool_decide; simpl; naive_solver lia.
  - apply nonempty_nil in E. naive_solver.
Qed.

(** Both versions are known names, and the maximum is not below the minimum
    unless it is left open. *)
Definition tls_settings_ok (min max : str) : Prop :=
  exists v w, AllTLSVersions !! min = Some v /\ AllTLSVersions !! max = Some w
    /\ (w = 0%Z \/ (v <= w)%Z).

Lemma validateTLSConfig_spec f :
  validateTLSConfig f = None <-> tls_settings_ok (f_tlsMinVersion f) (f_tlsMaxVersion f).
Proof.
  unfold validateTLSConfig, ValidateTLSVersions, tls_settings_ok.
  destruct (AllTLSVersions !! f_tlsMinVersion f) as [v|]; [|naive_solver].
  destruct (AllTLSVersions !! f_tlsMaxVersion f) as [w|] eqn:E; [|naive_solver].
  apply AllTLSVersions_values in E as Hw. unfold VersionSSL30, VersionTLS13 in Hw.
  destruct (w <? v)%Z eqn:E1, (0 <? w)%Z eqn:E2; simpl; bools; naive_solver lia.
Qed.

Lemma validateConfig_spec f c :
  validateConfig f c = None <->
  auth_settings_ok (gl_Server (GitLab c)) (Authentication c)
  /\ artifacts_settings_ok (ArtifactsServer c) /\ tls_settings_ok (f_tlsMinVersion f) (f_tlsMaxVersion f).
Proof.
  rewrite <- validateAuthConfig_spec, <- validateArtifactsServerConfig_spec, <- validateTLSConfig_spec.
  unfold validateConfig. destruct (validateAuthConfig c), (validateArtifactsServerConfig c); naive_solver.
Qed.

(** *** Loading *)

(** The content of an API secret file and the key made of it. *)
Definition secret_of (content key : str) : Prop :=
  exists secret, b64_Decode content = Some secret /\ length secret = 32
    /\ key = secret ++ replicate (b64_DecodedLen (length content) - 32) (ascii_of_nat 0).

(** A configuration with the files filled in, before it is validated. *)
Definition loaded_config (f : Flags) (cert key api : str) : Config :=
  let c := config_from_flags f in
  let g := General c in
  let l := GitLab c in
  set_GitLab (mkGitLab (gitlabServerFromFlags f) (internalGitlabServerFromFlags f) api
                (gl_ClientHTTPTimeout l) (gl_JWTTokenExpiration l) (gl_Cache l))
    (set_General (mkGeneral (g_Domain g) (g_DomainConfigurationSource g) (g_UseLegacyStorage g)
      (g_HTTP2 g) (g_MaxConns g) (g_MetricsAddress g) (g_RedirectHTTP g) cert (g_RootDir g) key
      (g_StatusPath g) (g_DisableCrossOriginRequests g) (g_InsecureCiphers g) (g_PropagateCorrelationID g)
      (g_ShowVersion g) (g_CustomHeaders g)) c).

Lemma read_optional_ok ReadFile path content :
  read_optional ReadFile path = Ok content <->
  (path = [] /\ content = []) \/ (path <> [] /\ ReadFile path = Ok content).
Proof.
  unfold read_optional, readFile, nonempty. case_bool_decide; simpl; [naive_solver|].
  destruct (ReadFile path); naive_solver.
Qed.

Lemma setGitLabAPISecretKey_ok ReadFile file c c' :
  setGitLabAPISecretKey ReadFile file c = Ok c' <->
  exists content key, ReadFile file = Ok content /\ secret_of content key
    /\ c' = set_GitLab (mkGitLab (gl_Server (GitLab c)) (gl_InternalServer (GitLab c)) key
              (gl_ClientHTTPTimeout (GitLab c)) (gl_JWTTokenExpiration (GitLab c)) (gl_Cache (GitLab c))) c.
Proof.
  unfold setGitLabAPISecretKey, readFile, secret_of. destruct (ReadFile file) as [content|];
    cbn [result_bind]; [|split; [done|by intros (? & ? & [=] & _)]].
  destruct (b64_Decode content) as [secret|] eqn:Ed;
    [|split; [done|intros (? & ? & [= <-] & (? & H & _) & _); congruence]].
  destruct (length secret =? 32) eqn:E; cbn [negb].
  - apply Nat.eqb_eq in E. rewrite E. split.
    + intros [= <-]. by eauto 10.
    + intros (? & key & [= <-] & (s' & Hs & _ & ->) & ->). rewrite Ed in Hs. by injection Hs as <-.
  - apply Nat.eqb_neq in E. split; [done|].
    intros (? & key & [= <-] & (s' & Hs & Hl & _) & _). rewrite Ed in Hs. injection Hs as <-. done.
Qed.

Lemma loadConfig_ok ReadFile f c :
  loadConfig ReadFile f = Ok c <->
  exists cert key api,
    read_optional ReadFile (f_pagesRootCert f) = Ok cert /\ read_optional ReadFile (f_pagesRootKey f) = Ok key
    /\ ((f_gitLabAPISecretKey f = [] /\ api = [])
        \/ (f_gitLabAPISecretKey f <> []
            /\ exists content, ReadFile (f_gitLabAPISecretKey f) = Ok content /\ secret_of content api))
    /\ c = loaded_config f cert key api /\ validateConfig f c = None.
Proof.
  unfold loadConfig. destruct (read_optional ReadFile (f_pagesRootCert f)) as [cert|];
    cbn [result_bind]; [|split; [done|by intros (? & ? & ? & [=] & _)]].
  destruct (read_optional ReadFile (f_pagesRootKey f)) as [key|];
    cbn [result_bind]; [|split; [done|by intros (? & ? & ? & _ & [=] & _)]].
  destruct (nonempty (f_gitLabAPISecretKey f)) eqn:E.
  - apply nonempty_iff in E. rewrite result_bind_ok. setoid_rewrite setGitLabAPISecretKey_ok. split.
    + intros (c' & (content & api & Hr & Hs & ->) & Hv). exists cert, key, api.
      destruct (validateConfig _ _) eqn:Hv' in Hv; [done|]. injection Hv as <-. by eauto 10.
    + intros (cert' & key' & api & [= <-] & [= <-] & [[? _]|(_ & content & Hr & Hs)] & -> & Hv); [done|].
      eexists. split; [exists content, api; split; [done|]; by split|].
      match goal with |- context [validateConfig f ?x] => change x with (loaded_config f cert key api) end.
      by rewrite Hv.
  - apply nonempty_nil in E. cbn [result_bind]. split.
    + intros H. exists cert, key, []. destruct (validateConfig _ _) eqn:Hv in H; [done|]. injection H as <-.
      by eauto 10.
    + intros (cert' & key' & api & [= <-] & [= <-] & [[_ ->]|[? _]] & -> & Hv); [|done].
      match goal with |- context [validateConfig f ?x] => change x with (loaded_config f cert key []) end.
      by rewrite Hv.
Qed.

(** ** Theorems *)

(** What holds of every configuration the daemon starts with. *)
Record config_wf (c : Config) : Prop := {
  wf_domain : ToLower (g_Domain (General c)) = g_Domain (General c);
  wf_auth : auth_settings_ok (gl_Server (GitLab c)) (Authentication c);
  wf_artifacts : artifacts_settings_ok (ArtifactsServer c);
  wf_tls : (tls_MinVersion (TLS c) = 0 \/ VersionSSL30 <= tls_MinVersion (TLS c) <= VersionTLS13)%Z
    /\ (tls_MaxVersion (TLS c) = 0
        \/ tls_MinVersion (TLS c) <= tls_MaxVersion (TLS c) <= VersionTLS13)%Z;
  wf_secret : gl_APISecretKey (GitLab c) = []
    \/ exists secret n, length secret = 32
       /\ gl_APISecretKey (GitLab c) = secret ++ replicate (S n) (ascii_of_nat 0);
  wf_paths : z_AllowedPaths (Zip c) = [g_RootDir (General c)];
  wf_listeners : Listeners c = mkListeners [] [] [] [] }.

Lemma secret_of_padded content key :
  secret_of content key -> exists secret n, length secret = 32 /\ key = secret ++ replicate (S n) (ascii_of_nat 0).
Proof.
  intros (secret & Hd & Hl & ->). exists secret. apply b64_Decode_length in Hd. rewrite Hl in Hd.
  unfold b64_DecodedLen in *.
  exists (length content / 4 * 3 - 33). split; [done|]. do 2 f_equal. lia.
Qed.

(** [C17] Every configuration [loadConfig] returns is well formed: the pages
    domain is in lower case; the authentication settings are complete (with a
    GitLab server) or all empty; the artifacts server is empty or an http(s)
    URL with a timeout of at least a second; the TLS versions are known and
    in order; an API secret is 32 bytes followed by zero bytes; local
    archives are allowed below the pages root only; and no listener is open
    yet. *)
Theorem loadConfig_wf ReadFile f c : loadConfig ReadFile f = Ok c -> config_wf c.
Proof.
  intros (cert & key & api & _ & _ & Hapi & -> & Hv)%loadConfig_ok.
  apply validateConfig_spec in Hv as (Ha & Hs & (v & w & Hmin & Hmax & Hle)).
  split; try done.
  - apply ToLower_idem.
  - cbn. unfold tls_version. rewrite Hmin, Hmax. cbn [default].
    pose proof (AllTLSVersions_values _ _ Hmin). pose proof (AllTLSVersions_values _ _ Hmax).
    unfold VersionSSL30, VersionTLS13, id in *. lia.
  - destruct Hapi as [[_ ->]|(_ & content & _ & Hk)]; [by left|right]. by apply secret_of_padded in Hk.
Qed.

(** The conditions on the flags and the files they name. *)
Record flags_ok (ReadFile : str -> result str) (f : Flags) : Prop := {
  ok_cert : f_pagesRootCert f <> [] -> is_ok (ReadFile (f_pagesRootCert f)) = true;
  ok_key : f_pagesRootKey f <> [] -> is_ok (ReadFile (f_pagesRootKey f)) = true;
  ok_secret : f_gitLabAPISecretKey f <> [] ->
    exists content secret, ReadFile (f_gitLabAPISecretKey f) = Ok content
      /\ b64_Decode content = Some secret /\ length secret = 32;
  ok_auth : auth_settings_ok (gitlabServerFromFlags f)
    (mkAuthentication (f_secret f) (f_clientID f) (f_clientSecret f) (f_redirectURI f) (f_authScope f));
  ok_artifacts : artifacts_settings_ok (mkArtifactsServer (f_artifactsServer f) (f_artifactsServerTimeout f));
  ok_tls : tls_settings_ok (f_tlsMinVersion f) (f_tlsMaxVersion f) }.

Lemma read_optional_is_ok ReadFile path :
  (path <> [] -> is_ok (ReadFile path) = true) <-> exists content, read_optional ReadFile path = Ok content.
Proof.
  setoid_rewrite read_optional_ok. destruct (decide (path = [])) as [->|Hp].
  - split; [eauto|done].
  - split.
    + intros H. specialize (H Hp). destruct (ReadFile path) as [content|]; [|done]. by eauto.
    + intros (content & [[? _]|[_ H]]) _; [done|]. by rewrite H.
Qed.

(** [C39] The daemon starts exactly with valid settings: [loadConfig] returns a
    configuration if the named certificate, key and secret files can be read,
    the secret decodes to 32 bytes, and the authentication, artifacts and TLS
    flags are consistent, and it ends the process otherwise. *)
Theorem loadConfig_accepts ReadFile f :
  is_ok (loadConfig ReadFile f) = true <-> flags_ok ReadFile f.
Proof.
  assert (Hex : is_ok (loadConfig ReadFile f) = true <-> exists c, loadConfig ReadFile f = Ok c)
    by (destruct (loadConfig ReadFile f); naive_solver).
  rewrite Hex. setoid_rewrite loadConfig_ok. setoid_rewrite validateConfig_spec. split.
  - intros (c & cert & key & api & Hc & Hk & Hapi & -> & Ha & Hs & Ht). split; try done.
    + apply read_optional_is_ok. by eauto.
    + apply read_optional_is_ok. by eauto.
    + intros Hn. destruct Hapi as [[? _]|(_ & content & Hr & secret & Hd & Hl & _)]; [done|]. by eauto.
  - intros [Hc Hk Hs Ha Har Ht]. apply read_optional_is_ok in Hc as [cert Hc], Hk as [key Hk].
    destruct (decide (f_gitLabAPISecretKey f = [])) as [E|E].
    + exists (loaded_config f cert key []), cert, key, []. by eauto 10.
    + destruct (Hs E) as (content & secret & Hr & Hd & Hl).
      set (api := secret ++ replicate (b64_DecodedLen (length content) - 32) (ascii_of_nat 0)).
      assert (Hapi : secret_of content api) by (by exists secret).
      exists (loaded_config f cert key api), cert, key, api.
      do 2 (split; [done|]). split; [right; split; [done|by exists content]|]. by repeat split.
Qed.

(** A secret file written by encoding 32 bytes in base64, with or without
    line breaks at the end, is accepted, and the key the API client signs with
    is these 32 bytes, followed by zero bytes. *)
Theorem secret_file_roundtrip ReadFile file secret n c :
  length secret = 32 ->
  ReadFile file = Ok (b64_Encode secret ++ replicate n (ascii_of_nat 10)) ->
  exists c' zeros, setGitLabAPISecretKey ReadFile file c = Ok c'
    /\ GitlabAPISecret c' = secret ++ replicate (S zeros) (ascii_of_nat 0).
Proof.
  intros Hl Hr. set (content := b64_Encode secret ++ _) in *.
  set (key := secret ++ replicate (b64_DecodedLen (length content) - 32) (ascii_of_nat 0)).
  assert (Hs : secret_of content key) by (exists secret; split; [apply b64_Decode_Encode|done]).
  eexists. exists (b64_DecodedLen (length content) - 33). split.
  - apply setGitLabAPISecretKey_ok. exists content, key. by repeat split.
  - change (key = secret ++ replicate (S (b64_DecodedLen (length content) - 33)) (ascii_of_nat 0)).
    unfold key. do 2 f_equal. destruct (secret_of_padded _ _ Hs) as (s & z & Hz & Hk). apply (f_equal length) in Hk. unfold key in Hk.
    rewrite !length_app, !length_replicate in Hk. lia.
Qed.

(** The accepted key is never 32 bytes long, although the check and its
    message ask for 32 bytes: the decoding buffer is kept with its padding. *)
Theorem api_secret_key_is_padded ReadFile f c :
  loadConfig ReadFile f = Ok c -> f_gitLabAPISecretKey f <> [] -> 33 <= length (GitlabAPISecret c).
Proof.
  intros (cert & key & api & _ & _ & [[? _]|(_ & content & _ & Hs)] & -> & _)%loadConfig_ok Hn; [done|].
  apply secret_of_padded in Hs as (secret & n & Hl & ->). unfold GitlabAPISecret. cbn.
  rewrite length_app. simpl. rewrite length_replicate. lia.
Qed.

(** The flags without the secrets: the OAuth application's identifier and
    secret, the cookie secret and the Sentry address. *)
Definition public_flags (f : Flags) : Flags :=
  mkFlags (f_pagesRootCert f) (f_pagesRootKey f) (f_redirectHTTP f) (f_useHTTP2 f)
    (f_pagesRoot f) (f_pagesDomain f) (f_artifactsServer f) (f_artifactsServerTimeout f)
    (f_pagesStatus f) (f_metricsAddress f) [] (f_sentryEnvironment f)
    (f_daemonUID f) (f_daemonGID f) (f_daemonInplaceChroot f) (f_propagateCorrelationID f)
    (f_logFormat f) (f_logVerbose f) [] (f_gitLabAuthServer f)
    (f_gitLabServer f) (f_internalGitLabServer f) (f_gitLabAPISecretKey f)
    (f_gitlabClientHTTPTimeout f) (f_gitlabClientJWTExpiry f) (f_gitlabCacheExpiry f)
    (f_gitlabCacheRefresh f) (f_gitlabCacheCleanup f) (f_gitlabRetrievalTimeout f)
    (f_gitlabRetrievalInterval f) (f_gitlabRetrievalRetries f) (f_domainConfigSource f)
    (f_useLegacyStorage f) [] [] (f_redirectURI f) (f_authScope f) (f_maxConns f) (f_insecureCiphers f)
    (f_tlsMinVersion f) (f_tlsMaxVersion f) (f_zipCacheExpiration f) (f_zipCacheCleanup f)
    (f_zipCacheRefresh f) (f_zipOpenTimeout f) (f_disableCrossOriginRequests f) (f_showVersion f)
    (f_listenHTTP f) (f_listenHTTPS f) (f_listenProxy f) (f_listenHTTPSProxyv2 f) (f_header f).

Lemma LogConfig_public name f cert key api :
  LogConfig name f (loaded_config f cert key api)
  = LogConfig name (public_flags f) (loaded_config (public_flags f) [] [] []).
Proof. reflexivity. Qed.

(** The log line of the configuration carries no secret: two starts that
    differ in the OAuth application, the cookie secret, the Sentry address
    and the contents of the certificate, key and API secret files only write
    the same line. *)
Theorem LogConfig_hides_secrets name ReadFile1 ReadFile2 f1 f2 c1 c2 :
  loadConfig ReadFile1 f1 = Ok c1 -> loadConfig ReadFile2 f2 = Ok c2 ->
  public_flags f1 = public_flags f2 -> LogConfig name f1 c1 = LogConfig name f2 c2.
Proof.
  intros (? & ? & ? & _ & _ & _ & -> & _)%loadConfig_ok (? & ? & ? & _ & _ & _ & -> & _)%loadConfig_ok E.
  rewrite (LogConfig_public name f1), (LogConfig_public name f2). by rewrite E.
Qed.

(** The two file names are logged under each other's name. *)
Theorem LogConfig_swaps_cert_and_key name f c :
  (&"root-cert", LStr (f_pagesRootKey f)) ∈ LogConfig name f c
  /\ (&"root-key", LStr (f_pagesRootCert f)) ∈ LogConfig name f c.
Proof. unfold LogConfig. rewrite !list_elem_of_In. simpl. tauto. Qed.

(** [Set] for each value in turn. *)
Fixpoint set_all (values : list str) (m : MultiStringFlag) : result MultiStringFlag :=
  match values with
  | [] => Ok m
  | v :: rest => let? m' := msf_Set v m in set_all rest m'
  end.

Lemma set_all_ok values m : Forall (fun v => v <> []) values ->
  set_all values m = Ok (mkMultiStringFlag (msf_value m ++ values) (msf_separator m)).
Proof.
  revert m. induction values as [|v vs IH]; intros m Hv; simpl.
  - rewrite app_nil_r. by destruct m.
  - inversion_clear Hv. unfold msf_Set. rewrite decide_False by done. cbn [result_bind]. rewrite IH by done.
    cbn [msf_value msf_separator]. by rewrite <- app_assoc.
Qed.

(** Giving a listener flag several times and giving it once with the
    addresses separated by commas open the same listeners: splitting yields
    the concatenation of the fields of all values, in order; and an empty
    value is refused. *)
Theorem repeated_flag_is_list values :
  values <> [] -> Forall (fun v => v <> []) values ->
  let m := mkMultiStringFlag [] &"," in
  exists m1 m2, set_all values m = Ok m1 /\ msf_Set (Join values &",") m = Ok m2
    /\ msf_Split m1 = msf_Split m2 /\ msf_Split m1 = mjoin ((fun v => Split v ",") <$> values)
    /\ msf_Set [] m1 = Err errMultiStringSetEmptyValue.
Proof.
  intros Hn Hv m. exists (mkMultiStringFlag values &","), (mkMultiStringFlag [Join values &","] &",").
  assert (Hj : Join values &"," <> []).
  { destruct values as [|v [|w l]]; [done|by inversion_clear Hv|]. inversion_clear Hv. simpl. by destruct v. }
  rewrite set_all_ok by done. unfold msf_Set. rewrite decide_False by done. split; [done|]. split; [done|].
  unfold msf_Split, msf_sep. cbn [msf_value msf_separator]. rewrite decide_False by done.
  assert (E : forall l, mjoin ((fun s => SplitSep &"," s 0) <$> l) = mjoin ((fun v => Split v ",") <$> l)).
  { intros l. f_equal. apply list_fmap_ext. intros i x _. apply (SplitSep_byte ","). }
  rewrite !E. cbn [fmap list_fmap]. pose proof (Split_Join_concat values "," Hn) as Hs.
  change [","%char] with &"," in Hs. rewrite Hs. simpl. by rewrite app_nil_r.
Qed.

(** ** Witnesses *)

Definition demo_secret : str := replicate 32 "k"%char.

(** A file system with one secret file. *)
Definition demo_files (file : str) : result str :=
  if decide (file = &"/secret") then Ok (b64_Encode demo_secret ++ [ascii_of_nat 10])
  else Err (ErrMsg &"no such file").

(** The default flags with the API secret file and an application secret. *)
Definition demo_flags (client : str) : Flags :=
  mkFlags [] [] false true &"shared/pages" &"Pages.Example.COM" &"https://gitlab.com/api/v4" 10 [] [] [] []
    0 0 false false &"text" false &"cookie" [] [] [] &"/secret"
    (10 * second) (30 * second) (10 * minute) minute minute (30 * second) second 3 &"auto" false
    client &"client-secret" &"https://projects.pages.example.com/auth" &"api" 0 false &"tls1.2" []
    (60 * second) (30 * second) (30 * second) (30 * second) false false
    (mkMultiStringFlag [&"127.0.0.1:80,[::1]:80"] &",") (mkMultiStringFlag [] &",")
    (mkMultiStringFlag [] &",") (mkMultiStringFlag [] &",") (mkMultiStringFlag [&"X: a;;Y: b"] &";;").

Definition demo_config (client : str) : Config :=
  loaded_config (demo_flags client) [] [] (demo_secret ++ [ascii_of_nat 0]).

Lemma demo_config_loaded client : client <> [] -> loadConfig demo_files (demo_flags client) = Ok (demo_config client).
Proof.
  intros Hc. apply loadConfig_ok. exists [], [], (demo_secret ++ [ascii_of_nat 0]).
  split; [done|]. split; [done|]. split; [|split; [done|]].
  - right. split; [done|]. eexists. split; [reflexivity|]. exists demo_secret. by vm_compute.
  - apply validateConfig_spec. split; [right; by repeat split|]. split.
    + right. eexists. split; [vm_compute; reflexivity|]. split; [by right|done].
    + exists VersionTLS12, 0%Z. split; [run|]. split; [run|by left].
Qed.

Lemma loadConfig_wf_witness :
  config_wf (demo_config &"id") /\ g_Domain (General (demo_config &"id")) = &"pages.example.com"
  /\ gl_Server (GitLab (demo_config &"id")) = &"https://gitlab.com"
  /\ g_CustomHeaders (General (demo_config &"id")) = [&"X: a"; &"Y: b"].
Proof.
  split; [|split; [|split]; run]. apply (loadConfig_wf demo_files (demo_flags &"id")).
  by apply demo_config_loaded.
Defined.

Lemma secret_file_roundtrip_witness :
  exists c' zeros, setGitLabAPISecretKey demo_files &"/secret" (config_from_flags default_flags) = Ok c'
    /\ GitlabAPISecret c' = demo_secret ++ replicate (S zeros) (ascii_of_nat 0).
Proof. apply (secret_file_roundtrip demo_files &"/secret" demo_secret 1); reflexivity. Defined.

Lemma LogConfig_hides_secrets_witness :
  LogConfig &"config" (demo_flags &"id") (demo_config &"id")
  = LogConfig &"config" (demo_flags &"other") (demo_config &"other").
Proof.
  apply (LogConfig_hides_secrets &"config" demo_files demo_files);
    [by apply demo_config_loaded|by apply demo_config_loaded|reflexivity].
Defined.

Lemma api_secret_key_is_padded_witness : 33 <= length (GitlabAPISecret (demo_config &"id")).
Proof.
  apply (api_secret_key_is_padded demo_files (demo_flags &"id")); [by apply demo_config_loaded|done].
Defined.

Lemma repeated_flag_is_list_witness :
  exists m1 m2, set_all [&":80"; &"[::1]:80,:81"] (mkMultiStringFlag [] &",") = Ok m1
    /\ msf_Set &":80,[::1]:80,:81" (mkMultiStringFlag [] &",") = Ok m2
    /\ msf_Split m1 = [&":80"; &"[::1]:80"; &":81"] /\ msf_Split m1 = msf_Split m2.
Proof.
  destruct (repeated_flag_is_list [&":80"; &"[::1]:80,:81"]) as (m1 & m2 & H1 & H2 & H3 & H4 & _);
    [done|by repeat constructor|].
  exists m1, m2. split; [exact H1|]. split; [exact H2|]. split; [rewrite H4; reflexivity|exact H3].
Defined.
