(* ===== verification/Http.v ===== *)
(** * HTTP requests, the response writer, error pages, host names

    The slice of net/http the handlers use: requests, a [ResponseWriter] as
    explicit state, [http.Redirect] and [http.Error]; and on top of it
    internal/httperrors/httperrors.go, internal/host/host.go and the
    functions of internal/request/request.go that need only the request. *)

From stdpp Require Import pretty.
From S2P Require Import Prelude GoStd GoPath Header GoUrl.

(** ** Requests *)

Record Request : Type := mkRequest {
  req_Method : str; req_URL : URL; req_Host : str; req_RequestURI : str;
  req_Header : Header; req_TLS : bool; req_RemoteAddr : str }.

(** ** The response writer

    [w_header] is the map [w.Header()] returns; [w_committed] is the status
    and the snapshot of the headers taken by the first [WriteHeader];
    [w_body] is what was handed to [Write] so far. *)

Record Response : Type := mkResponse {
  w_header : Header; w_committed : option (Z * Header); w_body : str }.

Definition new_response : Response := mkResponse ∅ None [].

Definition Header_Set (h : Header) (key value : str) : Header :=
  <[CanonicalHeaderKey key := [value]]> h.
Definition Header_Add (h : Header) (key value : str) : Header :=
  <[CanonicalHeaderKey key := header_values h (CanonicalHeaderKey key) ++ [value]]> h.
Definition Header_Del (h : Header) (key : str) : Header := delete (CanonicalHeaderKey key) h.

Definition w_Set (key value : str) (w : Response) : Response :=
  mkResponse (Header_Set (w_header w) key value) (w_committed w) (w_body w).
Definition w_Add (key value : str) (w : Response) : Response :=
  mkResponse (Header_Add (w_header w) key value) (w_committed w) (w_body w).
Definition w_Del (key : str) (w : Response) : Response :=
  mkResponse (Header_Del (w_header w) key) (w_committed w) (w_body w).

(** Only the first [WriteHeader] counts. *)
Definition WriteHeader (code : Z) (w : Response) : Response :=
  match w_committed w with
  | Some _ => w
  | None => mkResponse (w_header w) (Some (code, w_header w)) (w_body w)
  end.

(** [Write] sends a 200 header when none was sent. *)
Definition Write (data : str) (w : Response) : Response :=
  let w' := WriteHeader 200 w in
  mkResponse (w_header w') (w_committed w') (w_body w' ++ data).

Definition newline : str := [ascii_of_nat 10].
Definition Fprintln (s : str) (w : Response) : Response := Write (s ++ newline) w.

Definition w_status (w : Response) : option Z := fst <$> w_committed w.
(** A header of the response as it was sent. *)
Definition sent_header (w : Response) (key : str) : str :=
  match w_committed w with Some (_, h) => Header_Get h key | None => [] end.

(** [strconv.FormatInt(n, 10)] and the [%d] verb. *)
Definition FormatInt (n : Z) : str := go (pretty n).

Definition http_Error (msg : str) (code : Z) (w : Response) : Response :=
  Fprintln msg
    (WriteHeader code
      (w_Set &"X-Content-Type-Options" &"nosniff"
        (w_Set &"Content-Type" &"text/plain; charset=utf-8" w))).

Definition StatusText (code : Z) : str :=
  if (code =? 301)%Z then &"Moved Permanently"
  else if (code =? 302)%Z then &"Found"
  else if (code =? 307)%Z then &"Temporary Redirect"
  else if (code =? 405)%Z then &"Method Not Allowed"
  else if (code =? 414)%Z then &"Request URI Too Long"
  else [].

Definition lower_hex (n : nat) : ascii := ascii_of_nat (if n <? 10 then 48 + n else 87 + n).

Definition hexEscapeNonASCII (s : str) : str :=
  mjoin ((fun c => let n := nat_of_ascii c in
                   if 128 <=? n then ["%"%char; lower_hex (n / 16); lower_hex (n mod 16)]
                   else [c]) <$> s).

Definition htmlEscape (s : str) : str :=
  mjoin ((fun c => if decide (c = "&"%char) then &"&amp;"
                   else if decide (c = "<"%char) then &"&lt;"
                   else if decide (c = ">"%char) then &"&gt;"
                   else if decide (c = dquote) then &"&#34;"
                   else if decide (c = "'"%char) then &"&#39;"
                   else [c]) <$> s).

(** The target [http.Redirect] puts in [Location] for [url]: one without a
    scheme and a host is made absolute and cleaned. *)
Definition redirect_location (r : Request) (url : str) : str :=
  match Parse url with
  | Some u =>
      if nonempty (Scheme u) || nonempty (Host u) then url
      else
        let oldpath := if nonempty (Path (req_URL r)) then Path (req_URL r) else &"/" in
        let abs := if HasPrefix url &"/" then url
                   else (path_Split oldpath).1 ++ url in
        let '(p, query) := match IndexByte abs "?" with
                           | Some i => (take i abs, drop i abs)
                           | None => (abs, [])
                           end in
        let cleaned := Clean p in
        (if HasSuffix p &"/" && negb (HasSuffix cleaned &"/")
         then cleaned ++ &"/" else cleaned) ++ query
  | None => url
  end.

Definition http_Redirect (r : Request) (url : str) (code : Z) (w : Response) : Response :=
  let location := redirect_location r url in
  let hadCT := bool_decide (is_Some (w_header w !! CanonicalHeaderKey &"Content-Type")) in
  let isGET := bool_decide (req_Method r = &"GET") in
  let isHEAD := bool_decide (req_Method r = &"HEAD") in
  let w1 := w_Set &"Location" (hexEscapeNonASCII location) w in
  let w2 := if negb hadCT && (isGET || isHEAD)
            then w_Set &"Content-Type" &"text/html; charset=utf-8" w1 else w1 in
  let w3 := WriteHeader code w2 in
  if negb hadCT && isGET then
    Fprintln (&"<a href=" ++ [dquote] ++ htmlEscape location ++ [dquote] ++ &">"
              ++ StatusText code ++ &"</a>." ++ newline) w3
  else w3.

(** ** Package httperrors *)

Record content : Type := mkContent {
  status : Z; title : str; statusString : str; header : str; subHeader : str }.

Definition content401 : content := mkContent 401 &"Unauthorized (401)" &"401"
  &"You don't have permission to access the resource."
  &"<p>The resource that you are attempting to access is protected and you don't have the necessary permissions to view it.</p>".

Definition content404 : content := mkContent 404
  &"The page you're looking for could not be found (404)" &"404"
  &"The page you're looking for could not be found."
  &"<p>The resource that you are attempting to access does not exist or you don't have the necessary permissions to view it.</p>
     <p>Make sure the address is correct and that the page hasn't moved.</p>
     <p>Please contact your GitLab administrator if you think this is a mistake.</p>".

Definition try_refreshing : str :=
  &"<p>Try refreshing the page, or going back and attempting the action again.</p>
     <p>Please contact your GitLab administrator if this problem persists.</p>".

Definition content500 : content := mkContent 500 &"Something went wrong (500)" &"500"
  &"Whoops, something went wrong on our end." try_refreshing.
Definition content502 : content := mkContent 502 &"Something went wrong (502)" &"502"
  &"Whoops, something went wrong on our end." try_refreshing.
Definition content503 : content := mkContent 503 &"Service Unavailable (503)" &"503"
  &"Whoops, something went wrong on our end." try_refreshing.

(** [predefinedErrorPage], cut at its four [%v] verbs; a caret stands for a
    double quote (the page has no caret). *)
Definition quoted (s : string) : str :=
  (fun c => if decide (c = "^"%char) then dquote else c) <$> go s.

Definition page_0 : str := quoted "
<!DOCTYPE html>
<html>
<head>
  <meta content=^width=device-width, initial-scale=1, maximum-scale=1^ name=^viewport^>
  <title>".
Definition page_1 : str := quoted "</title>
  <style>
    body {
      color: #666;
      text-align: center;
      font-family: ^Helvetica Neue^, Helvetica, Arial, sans-serif;
      margin: auto;
      font-size: 14px;
    }

    h1 {
      font-size: 56px;
      line-height: 100px;
      font-weight: 400;
      color: #456;
    }

    h2 {
      font-size: 24px;
      color: #666;
      line-height: 1.5em;
    }

    h3 {
      color: #456;
      font-size: 20px;
      font-weight: 400;
      line-height: 28px;
    }

    hr {
      max-width: 800px;
      margin: 18px auto;
      border: 0;
      border-top: 1px solid #EEE;
      border-bottom: 1px solid white;
    }

    img {
      max-width: 40vw;
      display: block;
      margin: 40px auto;
    }

    a {
      line-height: 100px;
      font-weight: 400;
      color: #4A8BEE;
      font-size: 18px;
      text-decoration: none;
    }

    .container {
      margin: auto 20px;
    }

    .go-back {
      display: none;
    }

  </style>
</head>

<body>
  <img src=^data:image/svg+xml;base64,PHN2ZyB3aWR0aD0iMjEwIiBoZWlnaHQ9IjIxMCIgdmlld0JveD0iMCAwIDIxMCAyMTAiIHhtbG5zPSJodHRwOi8vd3d3LnczLm9yZy8yMDAwL3N2ZyI+CiAgPHBhdGggZD0iTTEwNS4wNjE0IDIwMy42NTVsMzguNjQtMTE4LjkyMWgtNzcuMjhsMzguNjQgMTE4LjkyMXoiIGZpbGw9IiNlMjQzMjkiLz4KICA8cGF0aCBkPSJNMTA1LjA2MTQgMjAzLjY1NDhsLTM4LjY0LTExOC45MjFoLTU0LjE1M2w5Mi43OTMgMTE4LjkyMXoiIGZpbGw9IiNmYzZkMjYiLz4KICA8cGF0aCBkPSJNMTIuMjY4NSA4NC43MzQxbC0xMS43NDIgMzYuMTM5Yy0xLjA3MSAzLjI5Ni4xMDIgNi45MDcgMi45MDYgOC45NDRsMTAxLjYyOSA3My44MzgtOTIuNzkzLTExOC45MjF6IiBmaWxsPSIjZmNhMzI2Ii8+CiAgPHBhdGggZD0iTTEyLjI2ODUgODQuNzM0Mmg1NC4xNTNsLTIzLjI3My03MS42MjVjLTEuMTk3LTMuNjg2LTYuNDExLTMuNjg1LTcuNjA4IDBsLTIzLjI3MiA3MS42MjV6IiBmaWxsPSIjZTI0MzI5Ii8+CiAgPHBhdGggZD0iTTEwNS4wNjE0IDIwMy42NTQ4bDM4LjY0LTExOC45MjFoNTQuMTUzbC05Mi43OTMgMTE4LjkyMXoiIGZpbGw9IiNmYzZkMjYiLz4KICA8cGF0aCBkPSJNMTk3Ljg1NDQgODQuNzM0MWwxMS43NDIgMzYuMTM5YzEuMDcxIDMuMjk2LS4xMDIgNi45MDctMi45MDYgOC45NDRsLTEwMS42MjkgNzMuODM4IDkyLjc5My0xMTguOTIxeiIgZmlsbD0iI2ZjYTMyNiIvPgogIDxwYXRoIGQ9Ik0xOTcuODU0NCA4NC43MzQyaC01NC4xNTNsMjMuMjczLTcxLjYyNWMxLjE5Ny0zLjY4NiA2LjQxMS0zLjY4NSA3LjYwOCAwbDIzLjI3MiA3MS42MjV6IiBmaWxsPSIjZTI0MzI5Ii8+Cjwvc3ZnPgo=^
       alt=^GitLab Logo^ />
  <h1>
    ".
Definition page_2 : str := quoted "
  </h1>
  <div class=^container^>
    <h3>".
Definition page_3 : str := quoted "</h3>
    <hr />
    ".
Definition page_4 : str := quoted "
    <a href=^javascript:history.back()^ class=^js-go-back go-back^>Go back</a>
  </div>
  <script>
    (function () {
      var goBack = document.querySelector('.js-go-back');

      if (history.length > 1) {
        goBack.style.display = 'inline';
      }
    })();
  </script>
</body>
</html>
".

Definition generateErrorHTML (c : content) : str :=
  page_0 ++ title c ++ page_1 ++ statusString c ++ page_2 ++ header c
  ++ page_3 ++ subHeader c ++ page_4.
#[global] Arguments generateErrorHTML : simpl never.

Definition serveErrorPage (c : content) (w : Response) : Response :=
  Fprintln (generateErrorHTML c)
    (WriteHeader (status c)
      (w_Set &"X-Content-Type-Options" &"nosniff"
        (w_Set &"Content-Type" &"text/html; charset=utf-8" w))).

Definition Serve401 (w : Response) : Response := serveErrorPage content401 w.
Definition Serve404 (w : Response) : Response := serveErrorPage content404 w.
Definition Serve500 (w : Response) : Response := serveErrorPage content500 w.
(** The log line and the error report are not part of the response. *)
Definition Serve500WithRequest (r : Request) (reason : str) (err : error) (w : Response)
  : Response := serveErrorPage content500 w.
Definition Serve502 (w : Response) : Response := serveErrorPage content502 w.
Definition Serve503 (w : Response) : Response := serveErrorPage content503 w.

(** ** Packages host and request *)

Definition host_FromString (s : str) : str :=
  let host := ToLower s in
  match SplitHostPort host with Some splitHost => splitHost | None => host end.

Definition host_FromRequest (r : Request) : str := host_FromString (req_Host r).

Definition SchemeHTTP : str := &"http".
Definition SchemeHTTPS : str := &"https".

Definition IsHTTPS (r : Request) : bool := bool_decide (Scheme (req_URL r) = SchemeHTTPS).

Definition GetHostWithoutPort (r : Request) : str :=
  match SplitHostPort (req_Host r) with Some host => host | None => req_Host r end.

(** ** Lemmas on the writer

    [extends w w']: [w'] comes from [w] by writing more.  A committed status and
    its headers stay, bytes are only appended. *)

Definition replied (w : Response) : Prop := is_Some (w_committed w).

Definition extends (w w' : Response) : Prop :=
  (forall c, w_committed w = Some c -> w_committed w' = Some c)
  /\ w_body w `prefix_of` w_body w'.

#[export] Instance extends_preorder : PreOrder extends.
Proof.
  split.
  - intros w. by split.
  - intros w1 w2 w3 [H1 P1] [H2 P2]. split; [auto|]. by etrans.
Qed.

Lemma extends_trans w1 w2 w3 : extends w1 w2 -> extends w2 w3 -> extends w1 w3.
Proof. intros H1 H2. by etrans. Qed.

Lemma extends_Set k v w : extends w (w_Set k v w).
Proof. by split. Qed.

Lemma extends_Del k w : extends w (w_Del k w).
Proof. by split. Qed.

Lemma extends_Add k v w : extends w (w_Add k v w).
Proof. by split. Qed.

Lemma extends_WriteHeader code w : extends w (WriteHeader code w).
Proof. unfold WriteHeader. destruct w as [h [c|] b]; by split. Qed.

Lemma extends_Write data w : extends w (Write data w).
Proof.
  destruct (extends_WriteHeader 200 w) as [H1 H2]. split; [done|].
  etrans; [done|]. by eexists.
Qed.

Lemma replied_WriteHeader code w : replied (WriteHeader code w).
Proof. unfold replied, WriteHeader. destruct (w_committed w) eqn:E; simpl; eauto. Qed.

Lemma replied_Write data w : replied (Write data w).
Proof. apply replied_WriteHeader. Qed.

Lemma replied_extends w w' : extends w w' -> replied w -> replied w'.
Proof. intros [H _] [c Hc]. exists c. auto. Qed.

Lemma status_replied w c : w_status w = Some c -> replied w.
Proof. unfold w_status, replied. destruct (w_committed w); [by eexists|done]. Qed.

Lemma status_extends w w' c : extends w w' -> w_status w = Some c -> w_status w' = Some c.
Proof.
  intros [H _]. unfold w_status. destruct (w_committed w) as [x|] eqn:E; [|done].
  by rewrite (H x eq_refl).
Qed.

#[export] Hint Resolve extends_Set extends_Del extends_Add extends_WriteHeader extends_Write
  replied_WriteHeader replied_Write replied_extends : pages.
#[export] Hint Extern 5 (extends ?w ?w) => reflexivity : pages.

(** Peel the writer operations off an [extends] goal. *)
Ltac peel_writer :=
  repeat lazymatch goal with
  | |- extends ?w ?w => reflexivity
  | |- extends _ (w_Set _ _ _) => eapply extends_trans; [|apply extends_Set]
  | |- extends _ (w_Del _ _) => eapply extends_trans; [|apply extends_Del]
  | |- extends _ (w_Add _ _ _) => eapply extends_trans; [|apply extends_Add]
  | |- extends _ (WriteHeader _ _) => eapply extends_trans; [|apply extends_WriteHeader]
  | |- extends _ (Write _ _) => eapply extends_trans; [|apply extends_Write]
  | |- extends _ (Fprintln _ _) => eapply extends_trans; [|apply extends_Write]
  | |- extends _ (if ?b then _ else _) => destruct b
  end.

Lemma extends_Error msg code w : extends w (http_Error msg code w).
Proof. unfold http_Error. by peel_writer. Qed.

Lemma extends_serveErrorPage c w : extends w (serveErrorPage c w).
Proof. unfold serveErrorPage. by peel_writer. Qed.

Lemma extends_Redirect r url code w : extends w (http_Redirect r url code w).
Proof. unfold http_Redirect. by peel_writer. Qed.

(** Two header keys differ. *)
Ltac hdr_ne := let H := fresh in intros H; vm_compute in H; discriminate.

Lemma Header_Get_Set_eq h k v : Header_Get (Header_Set h k v) k = v.
Proof. unfold Header_Get, header_values, Header_Set. by rewrite lookup_insert_eq. Qed.

Lemma Header_Get_Set_ne h k k' v :
  CanonicalHeaderKey k <> CanonicalHeaderKey k' -> Header_Get (Header_Set h k v) k' = Header_Get h k'.
Proof. intros Hk. unfold Header_Get, header_values, Header_Set. by rewrite lookup_insert_ne. Qed.

(** On a fresh writer the first reply decides the status. *)
Lemma WriteHeader_fresh code w :
  w_committed w = None ->
  WriteHeader code w = mkResponse (w_header w) (Some (code, w_header w)) (w_body w).
Proof. intros H. unfold WriteHeader. by rewrite H. Qed.

Lemma serveErrorPage_committed c w :
  w_committed w = None ->
  w_committed (serveErrorPage c w)
  = Some (status c, Header_Set (Header_Set (w_header w) &"Content-Type" &"text/html; charset=utf-8")
                      &"X-Content-Type-Options" &"nosniff").
Proof.
  intros H. unfold serveErrorPage, Fprintln, Write.
  rewrite (WriteHeader_fresh (status c)) by done. done.
Qed.

Lemma serveErrorPage_status c w : w_committed w = None -> w_status (serveErrorPage c w) = Some (status c).
Proof. intros H. unfold w_status. by rewrite serveErrorPage_committed. Qed.

Lemma replied_serveErrorPage c w : replied (serveErrorPage c w).
Proof. apply replied_Write. Qed.

Lemma replied_Error msg code w : replied (http_Error msg code w).
Proof. apply replied_Write. Qed.

Lemma replied_Redirect r url code w : replied (http_Redirect r url code w).
Proof. unfold http_Redirect. split_match; [apply replied_Write|apply replied_WriteHeader]. Qed.

Lemma Redirect_committed r url code w :
  w_committed w = None ->
  exists h, w_committed (http_Redirect r url code w) = Some (code, h)
            /\ Header_Get h &"Location" = hexEscapeNonASCII (redirect_location r url).
Proof.
  intros Hw. unfold http_Redirect, Fprintln, Write.
  repeat split_match; rewrite (WriteHeader_fresh code) by done; eexists; (split; [done|]);
    simpl; rewrite ?Header_Get_Set_eq, ?Header_Get_Set_ne, ?Header_Get_Set_eq by (vm_compute; congruence); done.
Qed.

#[export] Hint Resolve extends_Error extends_serveErrorPage extends_Redirect
  replied_serveErrorPage replied_Error replied_Redirect : pages.

