(* ===== verification/Redirects.v ===== *)
(** * Package redirects

    internal/redirects/redirects.go: validation of Netlify style rules,
    matching and rewriting, the status report and the reading of the
    [_redirects] file.  The parser of github.com/tj/go-redirects is a
    parameter ([netlify_Parse]); [Rule] has the fields the package reads. *)

From S2P Require Import Prelude GoStd GoUrl Vfs Header Http.

Record Rule : Type := mkRule {
  From : str; To : str; rule_Status : Z; Force : bool;
  has_Params : bool  (* [Params != nil] *) }.

Definition ConfigFile : str := &"_redirects".
Definition maxConfigSize : Z := 64 * 1024.

(** The package's error values, identified by their distinct messages. *)
Definition ErrNoRedirect : error := ErrSentinel &"no redirect found".
Definition errConfigNotFound : error := ErrSentinel &"_redirects file not found".
Definition errNeedRegularFile : error :=
  ErrSentinel &"_redirects needs to be a regular file (not a directory)".
Definition errFileTooLarge : error := ErrSentinel &"_redirects file too large".
Definition errFailedToOpenConfig : error := ErrSentinel &"unable to open _redirects file".
Definition errFailedToParseConfig : error := ErrSentinel &"failed to parse _redirects file".
Definition errFailedToParseURL : error := ErrSentinel &"unable to parse URL".
Definition errNoDomainLevelRedirects : error :=
  ErrSentinel &"no domain-level redirects to outside sites".
Definition errNoStartingForwardSlashInURLPath : error :=
  ErrSentinel &"url path must start with forward slash /".
Definition errNoSplats : error := ErrSentinel &"splats are not supported".
Definition errNoPlaceholders : error := ErrSentinel &"placeholders are not supported".
Definition errNoParams : error := ErrSentinel &"params not supported".
Definition errUnsupportedStatus : error := ErrSentinel &"status not supported".
Definition errNoForce : error := ErrSentinel &"force! not supported".

(** [err.Error()] on the errors above. *)
Definition sentinel_message (e : error) : str :=
  match e with ErrSentinel m => m | _ => [] end.

(** The regular expression [(?i)/:[a-z]+] finds a match.  Case folding makes
    [[a-z]] match U+017F and U+212A too. *)
Definition placeholder_here (s : str) : bool :=
  match s with
  | a :: b :: t =>
      bool_decide (a = "/"%char) && bool_decide (b = ":"%char)
      && (match t with c :: _ => is_letter c | [] => false end
          || HasPrefix t (ascii_of_nat <$> [197; 191])
          || HasPrefix t (ascii_of_nat <$> [226; 132; 170]))
  | _ => false
  end.

Fixpoint regexpPlaceholder (s : str) : bool :=
  placeholder_here s || match s with [] => false | _ :: s' => regexpPlaceholder s' end.

Definition validateURL (urlText : str) : option error :=
  match Parse urlText with
  | None => Some errFailedToParseURL
  | Some url =>
      if nonempty (Host url) || nonempty (Scheme url) then Some errNoDomainLevelRedirects
      else if negb (HasPrefix (Path url) &"/") then Some errNoStartingForwardSlashInURLPath
      else if Contains (Path url) &"*" then Some errNoSplats
      else if regexpPlaceholder (Path url) then Some errNoPlaceholders
      else None
  end.

Definition validateRule (r : Rule) : option error :=
  match validateURL (From r) with
  | Some err => Some err
  | None =>
      match validateURL (To r) with
      | Some err => Some err
      | None =>
          if has_Params r then Some errNoParams
          else if negb ((rule_Status r =? 301)%Z || (rule_Status r =? 302)%Z)
          then Some errUnsupportedStatus
          else if Force r then Some errNoForce
          else None
      end
  end.

Definition normalizePath (path : str) : str := TrimSuffix path &"/" ++ &"/".

Record Redirects : Type := mkRedirects { rules : list Rule; redirects_error : option error }.

Definition rule_applies (url : URL) (rule : Rule) : bool :=
  bool_decide (normalizePath (From rule) = normalizePath (Path url))
  && bool_decide (validateRule rule = None).

Fixpoint match_rules (rs : list Rule) (url : URL) : option Rule :=
  match rs with
  | [] => None
  | rule :: rs' => if rule_applies url rule then Some rule else match_rules rs' url
  end.

Definition redirects_match (r : Redirects) (url : URL) : option Rule := match_rules (rules r) url.

(** [url.Parse] in [Rewrite] is the method: the target is resolved against
    the request's URL. *)
Definition Rewrite (r : Redirects) (url : URL) : result (URL * Z) :=
  match redirects_match r url with
  | None => Err ErrNoRedirect
  | Some rule =>
      match url_Parse_ref url (To rule) with
      | Some newURL => Ok (newURL, rule_Status rule)
      | None => Err (ErrMsg &"parse")
      end
  end.

Fixpoint rule_messages (i : Z) (rs : list Rule) : list str :=
  match rs with
  | [] => []
  | rule :: rs' =>
      (&"rule " ++ FormatInt (i + 1)
       ++ match validateRule rule with
          | Some err => &": error: " ++ sentinel_message err
          | None => &": valid"
          end) :: rule_messages (i + 1) rs'
  end.

Definition redirects_Status (r : Redirects) : str :=
  match redirects_error r with
  | Some err => &"parse error: " ++ sentinel_message err
  | None =>
      Join ((FormatInt (Z.of_nat (length (rules r))) ++ &" rules") :: rule_messages 0 (rules r)) newline
  end.

Section Parsing.

Context (netlify_Parse : str -> result (list Rule)).

Definition ParseRedirects (root : Root) : Redirects :=
  match Lstat root ConfigFile with
  | Err _ => mkRedirects [] (Some errConfigNotFound)
  | Ok fi =>
      if negb (IsRegular (Mode fi)) then mkRedirects [] (Some errNeedRegularFile)
      else if (maxConfigSize <? Size fi)%Z then mkRedirects [] (Some errFileTooLarge)
      else
        match Open root ConfigFile with
        | Err _ => mkRedirects [] (Some errFailedToOpenConfig)
        | Ok reader =>
            match netlify_Parse (file_data reader) with
            | Err _ => mkRedirects [] (Some errFailedToParseConfig)
            | Ok redirectRules => mkRedirects redirectRules None
            end
        end
  end.

End Parsing.

(** ** Lemmas *)

Lemma match_rules_first rs url rule :
  match_rules rs url = Some rule <->
  exists pre post, rs = pre ++ rule :: post /\ rule_applies url rule = true
                   /\ Forall (fun x => rule_applies url x = false) pre.
Proof.
  induction rs as [|x rs IH]; simpl.
  - split; [done|]. intros (pre & post & H & _). by destruct pre.
  - destruct (rule_applies url x) eqn:E.
    + split.
      * intros [= ->]. by exists [], rs.
      * intros (pre & post & H & Hr & Hp). destruct pre as [|y pre]; simplify_eq/=; [done|].
        inversion Hp. congruence.
    + rewrite IH. split.
      * intros (pre & post & -> & Hr & Hp). exists (x :: pre), post. auto.
      * intros (pre & post & H & Hr & Hp). destruct pre as [|y pre]; simplify_eq/=; [congruence|].
        inversion Hp. eauto.
Qed.

Lemma match_rules_none rs url :
  match_rules rs url = None <-> Forall (fun x => rule_applies url x = false) rs.
Proof.
  induction rs as [|x rs IH]; simpl; [done|]. rewrite Forall_cons.
  destruct (rule_applies url x) eqn:E; [|naive_solver]. split; [done|]. by intros [? _].
Qed.

(** A valid target has no host and no scheme and an absolute path without a
    splat. *)
Lemma validateURL_ok s :
  validateURL s = None ->
  exists u, Parse s = Some u /\ Host u = [] /\ Scheme u = []
            /\ HasPrefix (Path u) &"/" = true /\ Contains (Path u) &"*" = false
            /\ regexpPlaceholder (Path u) = false.
Proof.
  unfold validateURL. destruct (Parse s) as [u|]; [|done]. intros H. exists u.
  repeat split_match_in H; try done. bools. unfold nonempty in *. bools. done.
Qed.

Lemma validateRule_ok r :
  validateRule r = None ->
  validateURL (From r) = None /\ validateURL (To r) = None /\ has_Params r = false
  /\ (rule_Status r = 301 \/ rule_Status r = 302)%Z /\ Force r = false.
Proof.
  unfold validateRule.
  destruct (validateURL (From r)); [done|]. destruct (validateURL (To r)); [done|].
  destruct (has_Params r); [done|].
  destruct (rule_Status r =? 301)%Z eqn:E1, (rule_Status r =? 302)%Z eqn:E2; simpl; try done;
    destruct (Force r); try done; bools; intros _; naive_solver.
Qed.

(** The scheme of a reference without one is the base's; the host is the
    base's or empty. *)
Lemma setPath_fields u p u' :
  setPath u p = Some u' -> Host u' = Host u /\ Scheme u' = Scheme u /\ url_unescape encodePath p = Some (Path u').
Proof. unfold setPath. destruct (url_unescape _ _) eqn:E; [|done]. by intros [= <-]. Qed.

Lemma ResolveReference_host u ref :
  Scheme ref = [] -> Host ref = [] ->
  Scheme (ResolveReference u ref) = Scheme u
  /\ (Host (ResolveReference u ref) = [] \/ Host (ResolveReference u ref) = Host u).
Proof.
  intros H1 H2. unfold ResolveReference. rewrite H1, H2.
  change (nonempty []) with false. cbn [orb].
  repeat case_match; try (split; [done|]; by left);
    match goal with |- context [setPath ?a ?b] =>
      destruct (setPath a b) as [u'|] eqn:E; [apply setPath_fields in E as (E1 & E2 & _)|] end;
    cbn [default from_option id]; rewrite ?E1, ?E2; simpl; auto.
Qed.

(** A reference with a non-empty path resolves to an absolute path, unless
    the reference's own path is kept. *)
Lemma unescape_slash mode t p :
  host_mode mode = false -> url_unescape mode (&"/" ++ t) = Some p -> HasPrefix p &"/" = true.
Proof.
  intros Hm. change (&"/" ++ t) with ("/"%char :: t). cbn [url_unescape].
  rewrite decide_False by done. rewrite decide_False by done. rewrite Hm. simpl.
  destruct (url_unescape mode t); [|done]. by intros [= <-].
Qed.

Lemma resolve_dots_abs full p :
  full <> [] -> url_unescape encodePath (resolve_dots full) = Some p -> HasPrefix p &"/" = true.
Proof.
  intros Hf. unfold resolve_dots. rewrite decide_False by done. by apply unescape_slash.
Qed.

Lemma url_resolvePath_abs base ref p :
  ref <> [] -> url_unescape encodePath (url_resolvePath base ref) = Some p ->
  HasPrefix p &"/" = true.
Proof.
  intros Hr. apply resolve_dots_abs. destruct ref as [|c ref]; [done|].
  case_decide; [done|]. case_match; [|done]. by destruct (take _ _).
Qed.

Lemma url_resolvePath_base_abs base p :
  base <> [] -> url_unescape encodePath (url_resolvePath base []) = Some p ->
  HasPrefix p &"/" = true.
Proof. apply resolve_dots_abs. Qed.

Lemma ResolveReference_abs u ref :
  Scheme ref = [] -> Host ref = [] -> Opaque ref = [] -> HasPrefix (Path ref) &"/" = true ->
  HasPrefix (Path (ResolveReference u ref)) &"/" = true.
Proof.
  intros H1 H2 H3 Hp. assert (Hn : Path ref <> []) by (by intros Hn; rewrite Hn in Hp).
  unfold ResolveReference. rewrite H1, H2, H3.
  change (nonempty []) with false. cbn [orb].
  destruct (User ref);
    match goal with |- context [setPath ?a ?b] =>
      destruct (setPath a b) as [u'|] eqn:E;
      [apply setPath_fields in E as (_ & _ & E); simpl|done] end.
  - by eapply url_resolvePath_base_abs, E; apply EscapedPath_nonempty.
  - by eapply url_resolvePath_abs, E; apply EscapedPath_nonempty.
Qed.

Lemma Parse_opaque s u : Parse s = Some u -> Scheme u = [] -> Opaque u = [].
Proof.
  unfold Parse. destruct (cut s "#" true) as [u0 frag].
  assert (Hp : forall v, parse_nofrag u0 = Some v -> Scheme v = [] -> Opaque v = []).
  { intros v. unfold parse_nofrag, setPath. intros H. repeat split_match_in H; simplify_eq/=; try done.
    all: bools; intros Hs;
      match goal with H : nonempty _ = true |- _ => rewrite Hs in H end; done. }
  destruct (parse_nofrag u0) as [v|]; [|done]. case_decide; [naive_solver|].
  unfold setFragment. destruct (url_unescape _ _); [|done]. intros [= <-]. simpl. auto.
Qed.

(** A rule that applies always rewrites. *)
Lemma Rewrite_rule url rule :
  validateRule rule = None ->
  exists ref, Parse (To rule) = Some ref /\ url_Parse_ref url (To rule) = Some (ResolveReference url ref)
    /\ Host ref = [] /\ Scheme ref = [] /\ HasPrefix (Path ref) &"/" = true.
Proof.
  intros H. apply validateRule_ok in H as (_ & H & _).
  apply validateURL_ok in H as (ref & Hp & Hh & Hs & Hr & _).
  exists ref. unfold url_Parse_ref. rewrite Hp. done.
Qed.

Lemma rule_applies_valid url rule : rule_applies url rule = true -> validateRule rule = None.
Proof. unfold rule_applies. intros H. by bools. Qed.

(** ** Properties *)

(** Rewriting applies the first rule of the file that is valid and
    matches the request path up to a trailing slash; its status is 301 or
    302 and the new URL has an absolute path, the request's scheme and the
    request's host or none.  It fails exactly when no rule applies, with
    [ErrNoRedirect] and with no other error. *)
Theorem Rewrite_first_valid_rule r url :
  match Rewrite r url with
  | Ok (newURL, st) =>
      exists pre rule post,
        rules r = pre ++ rule :: post
        /\ normalizePath (From rule) = normalizePath (Path url) /\ validateRule rule = None
        /\ Forall (fun x => rule_applies url x = false) pre
        /\ st = rule_Status rule /\ (st = 301 \/ st = 302)%Z
        /\ HasPrefix (Path newURL) &"/" = true /\ Scheme newURL = Scheme url
        /\ (Host newURL = [] \/ Host newURL = Host url)
  | Err e => e = ErrNoRedirect /\ Forall (fun x => rule_applies url x = false) (rules r)
  end.
Proof.
  unfold Rewrite, redirects_match. destruct (match_rules (rules r) url) as [rule|] eqn:E.
  - apply match_rules_first in E as (pre & post & Hr & Ha & Hp).
    pose proof (rule_applies_valid _ _ Ha) as Hv.
    destruct (Rewrite_rule url rule Hv) as (ref & Href & -> & Hh & Hs & Hpath).
    exists pre, rule, post.
    destruct (ResolveReference_host url ref Hs Hh) as [Hsch Hhost].
    pose proof (validateRule_ok _ Hv) as (_ & _ & _ & Hst & _).
    pose proof (ResolveReference_abs url ref Hs Hh (Parse_opaque _ _ Href Hs) Hpath).
    unfold rule_applies in Ha. bools. done.
  - split; [done|]. by apply match_rules_none.
Qed.

Definition outside_rule : Rule := mkRule &"/old" &"/%2Fevil.example" 302 false false.
Definition old_request : Request :=
  mkRequest &"GET" (set_Path &"/old" no_url) &"site.example" &"/old" ∅ false [].

(** A target whose path starts with an escaped slash passes the check
    against redirects to outside sites, and the redirect built from the
    decoded path sends the client to another host. *)
Theorem escaped_slash_target_leaves_site :
  validateRule outside_rule = None
  /\ exists u, Rewrite (mkRedirects [outside_rule] None) (req_URL old_request) = Ok (u, 302%Z)
     /\ sent_header (http_Redirect old_request (Path u) 302 new_response) &"Location"
        = &"//evil.example".
Proof.
  split; [run|]. eexists. split; [run|]. run.
Qed.
