(* ===== verification/Serving.v ===== *)
(** * Package serving: the interface of the serving drivers

    internal/serving/{serving,handler,lookup_path,request}.go.  The response
    writer of a [Handler] is threaded as state.  [ServingLaws] is what a
    driver promises to its clients (the domain and the handlers of app.go). *)

From S2P Require Import Prelude GoStd GoUrl Header Http.

Record LookupPath : Type := mkLookupPath {
  lp_ServingType : str; lp_Prefix : str; lp_Path : str; lp_IsNamespaceProject : bool;
  lp_IsHTTPSOnly : bool; lp_HasAccessControl : bool; lp_ProjectID : Z }.

#[export] Instance LookupPath_eq_dec : EqDecision LookupPath.
Proof. solve_decision. Defined.

(** [serving.Handler] without its writer. *)
Record Handler : Type := mkHandler {
  h_Request : Request; h_LookupPath : LookupPath; h_SubPath : str }.

(** [serving.Serving]; [Reconfigure] is in the models of the drivers. *)
Record Serving : Type := mkServing {
  ServeFileHTTP : Handler -> Response -> bool * Response;
  ServeNotFoundHTTP : Handler -> Response -> Response }.

(** What a driver promises: it only adds to the response, reports [false]
    only when it left the writer alone, and always has an answer to a
    not-found request. *)
Class ServingLaws (s : Serving) : Prop := {
  serve_extends h w : extends w (ServeFileHTTP s h w).2;
  serve_false_untouched h w w' : ServeFileHTTP s h w = (false, w') -> w' = w;
  not_found_extends h w : extends w (ServeNotFoundHTTP s h w);
  not_found_replies h w : replied (ServeNotFoundHTTP s h w) }.

#[export] Hint Resolve serve_extends not_found_extends not_found_replies : pages.

(** [serving.Request] *)
Record ServingRequest : Type := mkServingRequest {
  sr_Serving : Serving; sr_LookupPath : LookupPath; sr_SubPath : str }.

Definition Request_ServeFileHTTP (s : ServingRequest) (r : Request) (w : Response)
  : bool * Response :=
  ServeFileHTTP (sr_Serving s) (mkHandler r (sr_LookupPath s) (sr_SubPath s)) w.

Definition Request_ServeNotFoundHTTP (s : ServingRequest) (r : Request) (w : Response)
  : Response :=
  ServeNotFoundHTTP (sr_Serving s) (mkHandler r (sr_LookupPath s) (sr_SubPath s)) w.
