(* ===== verification/DiskServing.v ===== *)
(** * The disk serving

    internal/serving/disk/{reader,helpers,serving,errors}.go on an arbitrary
    [VFS].  [http.ServeContent], [mime.TypeByExtension],
    [http.DetectContentType] and the formatting of times are gathered in the
    record [ContentLib]; what the serving relies on is [ContentLaws]. *)

From S2P Require Import Prelude GoStd GoPath GoUrl Header Vfs Symlink Http Redirects Serving.

Record ContentLib : Type := mkContentLib {
  ServeContent : Request -> str -> Z -> File -> Response -> Response;
  TypeByExtension : str -> str;
  DetectContentType : str -> str;
  FormatRFC1123 : Z -> str }.

(** A request that asks for the whole file. *)
Definition unconditional (r : Request) : Prop :=
  Forall (fun k => Header_Get (req_Header r) k = [])
    [&"Range"; &"If-Match"; &"If-None-Match"; &"If-Modified-Since"; &"If-Unmodified-Since"; &"If-Range"].

(** The headers [http.ServeContent] sets itself; a content type it guesses
    when none was set. *)
Definition content_headers : list str := [&"Content-Length"; &"Accept-Ranges"; &"Last-Modified"].
Definition headers_kept (k : str) (h : Header) : Prop :=
  k ∉ content_headers /\ (k = &"Content-Type" -> is_Some (h !! k)).

(** The documented behaviour of [http.ServeContent]: it replies to the
    request, and without a range or a condition with the contents and, but for
    the above, with the headers as they were. *)
Class ContentLaws (lib : ContentLib) : Prop := {
  content_extends r name mt f w : extends w (ServeContent lib r name mt f w);
  content_replies r name mt f w : replied (ServeContent lib r name mt f w);
  content_whole r name mt f w :
    w_committed w = None -> unconditional r -> req_Method r = &"GET" ->
    w_status (ServeContent lib r name mt f w) = Some 200%Z
    /\ w_body (ServeContent lib r name mt f w) = w_body w ++ file_data f
    /\ forall k, headers_kept k (w_header w) ->
         (snd <$> w_committed (ServeContent lib r name mt f w)) ≫= lookup k = w_header w !! k }.

#[export] Hint Resolve content_extends content_replies : pages.

Section Disk.

#[local] Set Default Proof Using "Type".

Context (lib : ContentLib) (netlify_Parse : str -> result (list Rule)).
(** [os.Getenv("FF_ENABLE_REDIRECTS")], [time.Now()] in nanoseconds. *)
Context (FF_ENABLE_REDIRECTS : str) (now : Z).
Context (reader_vfs : VFS).

(** ** helpers.go *)

Definition compressedEncodings : list (str * str) := [(&"br", &".br"); (&"gzip", &".gz")].
Definition compressedEncodingsPriority : list str := [&"br"; &"gzip"].

Definition endsWithSlash (path : str) : bool := HasSuffix path &"/".
Definition endsWithoutHTMLExtension (path : str) : bool := negb (HasSuffix path &".html").

Definition detectContentType (root : Root) (path : str) : result str :=
  let contentType := TypeByExtension lib (Ext path) in
  if nonempty contentType then Ok contentType
  else
    match Open root path with
    | Err err => Err err
    | Ok file => Ok (DetectContentType lib (take 512 (file_data file)))
    end.

(** The compressed siblings of [fullPath] that are regular files. *)
Definition compressed_file (root : Root) (fullPath : str) (files : gmap str FileInfo)
    (entry : str * str) : gmap str FileInfo :=
  let '(encoding, extension) := entry in
  match Lstat root (fullPath ++ extension) with
  | Ok fi => if IsRegular (Mode fi) then <[encoding := fi]> files else files
  | Err _ => files
  end.

Definition compressed_files (root : Root) (fullPath : str) : gmap str FileInfo :=
  foldl (compressed_file root fullPath) ∅ compressedEncodings.

Definition encoding_offers (files : gmap str FileInfo) : list str :=
  filter (fun e => is_Some (files !! e)) compressedEncodingsPriority ++ [&"identity"].

Definition encoding_extension (encoding : str) : str :=
  default [] ((list_to_map compressedEncodings : gmap str str) !! encoding).

Definition handleContentEncoding (r : Request) (root : Root) (fullPath : str) (w : Response)
  : str * Response :=
  if nonempty (Header_Get (req_Header r) &"Range") then (fullPath, w)
  else
    let files := compressed_files root fullPath in
    let acceptedEncoding := NegotiateContentEncoding (req_Header r) (encoding_offers files) in
    match files !! acceptedEncoding with
    | Some fi =>
        (fullPath ++ encoding_extension acceptedEncoding,
         w_Set &"Content-Length" (FormatInt (Size fi))
           (w_Set &"Content-Encoding" acceptedEncoding w))
    | None => (fullPath, w)
    end.

(** ** reader.go *)

(** [io.Copy] and [io.CopyN] from an open file. *)
Definition io_Copy (data : str) (w : Response) : Response :=
  match data with [] => w | _ => Write data w end.

Definition io_CopyN (file : File) (n : Z) (w : Response) : option error * Response :=
  let data := take (Z.to_nat n) (file_data file) in
  (if (Z.of_nat (length data) <? n)%Z then Some (ErrSentinel &"io.EOF") else None,
   io_Copy data w).

Definition serveRedirectsStatus (r : Redirects) (w : Response) : Response :=
  Fprintln (redirects_Status r)
    (WriteHeader 200
      (w_Set &"X-Content-Type-Options" &"nosniff"
        (w_Set &"Content-Type" &"text/plain; charset=utf-8" w))).

Definition tryRedirects (h : Handler) (w : Response) : bool * Response :=
  match vfs_Root reader_vfs (lp_Path (h_LookupPath h)) with
  | Err err =>
      if IsNotExist err then (false, w)
      else (true, Serve500WithRequest (h_Request h) &"vfs.Root" err w)
  | Ok root =>
      let r := ParseRedirects netlify_Parse root in
      match Rewrite r (req_URL (h_Request h)) with
      | Err _ => (false, w)
      | Ok (rewrittenURL, st) =>
          (true, http_Redirect (h_Request h) (Path rewrittenURL) st w)
      end
  end.

Definition redirectPath (r : Request) : str :=
  let url := req_URL r in
  let url' := set_Path (TrimPrefix (Path url) &"/" ++ &"/") (set_Host (req_Host r) (set_Scheme [] url)) in
  TrimSuffix (url_String url') &"?".

Definition resolvePath (root : Root) (subPath : list str) : result str :=
  let testPath := Join subPath &"/" in
  match EvalSymlinks root testPath with
  | Err err =>
      if endsWithoutHTMLExtension testPath then Err (LocationFileNoExtensionError [])
      else Err err
  | Ok fullPath =>
      match Lstat root fullPath with
      | Err err => Err err
      | Ok fi =>
          if IsDir (Mode fi) then Err (LocationDirectoryError fullPath testPath)
          else if negb (IsRegular (Mode fi))
          then Err (ErrMsg (fullPath ++ &": is not a regular file"))
          else Ok fullPath
      end
  end.

Definition serveFile (r : Request) (root : Root) (origPath : str) (accessControl : bool)
    (w : Response) : bool * Response :=
  let '(fullPath, w) := handleContentEncoding r root origPath w in
  match Open root fullPath with
  | Err err => (true, Serve500WithRequest r &"root.Open" err w)
  | Ok file =>
      match Lstat root fullPath with
      | Err err => (true, Serve500WithRequest r &"root.Lstat" err w)
      | Ok fi =>
          let w := if accessControl then w
                   else w_Set &"Expires" (FormatRFC1123 lib (now + 10 * 60 * 1000000000))
                          (w_Set &"Cache-Control" &"max-age=600" w) in
          match detectContentType root origPath with
          | Err err => (true, Serve500WithRequest r &"detectContentType" err w)
          | Ok contentType =>
              let w := w_Set &"Content-Type" contentType w in
              if seekable file then (true, ServeContent lib r origPath (ModTime fi) file w)
              else
                (true, io_Copy (file_data file)
                         (w_Set &"Content-Length" (FormatInt (Size fi)) w))
          end
      end
  end.

Definition serveCustomFile (r : Request) (code : Z) (root : Root) (origPath : str)
    (w : Response) : option error * Response :=
  let '(fullPath, w) := handleContentEncoding r root origPath w in
  match Open root fullPath with
  | Err err => (Some err, w)
  | Ok file =>
      match Lstat root fullPath with
      | Err err => (Some err, w)
      | Ok fi =>
          match detectContentType root origPath with
          | Err err => (Some err, w)
          | Ok contentType =>
              let w := WriteHeader code
                         (w_Set &"Content-Length" (FormatInt (Size fi))
                           (w_Set &"Content-Type" contentType w)) in
              if decide (req_Method r = &"HEAD") then (None, w)
              else io_CopyN file (Size fi) w
          end
      end
  end.

(** The path [tryFile] serves: the resolved one, with the detours over
    [index.html] and the [.html] extension; [inl] is the early redirect of a
    directory. *)
Definition locate (root : Root) (h : Handler) : unit + result str :=
  let r0 := resolvePath root [h_SubPath h] in
  let r1 :=
    match r0 with
    | Err (LocationDirectoryError _ _) =>
        if endsWithSlash (Path (req_URL (h_Request h)))
        then inr (resolvePath root [h_SubPath h; &"index.html"])
        else inl tt
    | _ => inr r0
    end in
  match r1 with
  | inr (Err (LocationFileNoExtensionError _)) =>
      inr (resolvePath root [TrimSuffix (h_SubPath h) &"/" ++ &".html"])
  | _ => r1
  end.

Definition tryFile (h : Handler) (w : Response) : bool * Response :=
  match vfs_Root reader_vfs (lp_Path (h_LookupPath h)) with
  | Err err =>
      if IsNotExist err then (false, w)
      else (true, Serve500WithRequest (h_Request h) &"vfs.Root" err w)
  | Ok root =>
      match locate root h with
      | inl _ => (true, http_Redirect (h_Request h) (redirectPath (h_Request h)) 302 w)
      | inr (Err _) => (false, w)
      | inr (Ok fullPath) =>
          if decide (fullPath = ConfigFile) then
            if decide (FF_ENABLE_REDIRECTS <> &"false") then
              (true, serveRedirectsStatus (ParseRedirects netlify_Parse root) w)
            else (true, WriteHeader 403 w)
          else serveFile (h_Request h) root fullPath (lp_HasAccessControl (h_LookupPath h)) w
      end
  end.

Definition tryNotFound (h : Handler) (w : Response) : bool * Response :=
  match vfs_Root reader_vfs (lp_Path (h_LookupPath h)) with
  | Err err =>
      if IsNotExist err then (false, w)
      else (true, Serve500WithRequest (h_Request h) &"vfs.Root" err w)
  | Ok root =>
      match resolvePath root [&"404.html"] with
      | Err _ => (false, w)
      | Ok page404 =>
          match serveCustomFile (h_Request h) 404 root page404 w with
          | (Some err, w') => (true, Serve500WithRequest (h_Request h) &"serveCustomFile" err w')
          | (None, w') => (true, w')
          end
      end
  end.

(** ** serving.go *)

Definition Disk_ServeFileHTTP (h : Handler) (w : Response) : bool * Response :=
  match tryFile h w with
  | (true, w') => (true, w')
  | (false, w') =>
      if decide (FF_ENABLE_REDIRECTS <> &"false") then tryRedirects h w' else (false, w')
  end.

Definition Disk_ServeNotFoundHTTP (h : Handler) (w : Response) : Response :=
  match tryNotFound h w with
  | (true, w') => w'
  | (false, w') => Serve404 w'
  end.

Definition disk_New : Serving := mkServing Disk_ServeFileHTTP Disk_ServeNotFoundHTTP.

(** ** Lemmas *)

Lemma handleContentEncoding_committed r root p w :
  w_committed (handleContentEncoding r root p w).2 = w_committed w
  /\ w_body (handleContentEncoding r root p w).2 = w_body w.
Proof. unfold handleContentEncoding. repeat case_match; done. Qed.

Lemma handleContentEncoding_headers r root p w k :
  CanonicalHeaderKey k <> &"Content-Length" /\ CanonicalHeaderKey k <> &"Content-Encoding" ->
  Header_Get (w_header (handleContentEncoding r root p w).2) k = Header_Get (w_header w) k.
Proof.
  intros [H1 H2]. unfold handleContentEncoding. repeat case_match; [done| |done]. cbn [w_Set w_header snd].
  by rewrite !Header_Get_Set_ne by (by apply not_eq_sym).
Qed.

Lemma handleContentEncoding_extends r root p w :
  extends w (handleContentEncoding r root p w).2.
Proof.
  destruct (handleContentEncoding_committed r root p w) as [H1 H2].
  split; [by rewrite H1|by rewrite H2].
Qed.

Lemma io_Copy_extends data w : extends w (io_Copy data w).
Proof. destruct data; simpl; auto with pages. Qed.

Lemma Serve500WithRequest_extends r reason err w : extends w (Serve500WithRequest r reason err w).
Proof. apply extends_serveErrorPage. Qed.

#[local] Hint Resolve handleContentEncoding_extends io_Copy_extends Serve500WithRequest_extends : pages.

Lemma serveFile_true r root p ac w : (serveFile r root p ac w).1 = true.
Proof. unfold serveFile. repeat case_match; done. Qed.

Lemma serveFile_extends `{!ContentLaws lib} r root p ac w : extends w (serveFile r root p ac w).2.
Proof.
  unfold serveFile. pose proof (handleContentEncoding_extends r root p w) as H1.
  destruct (handleContentEncoding r root p w) as [fp w1]. cbn [snd] in H1.
  destruct (Open root fp) as [file|]; [|eapply extends_trans; eauto with pages].
  destruct (Lstat root fp) as [fi|]; [|eapply extends_trans; eauto with pages].
  match goal with |- context [if ac then ?a else ?b] =>
    assert (H2 : extends w (if ac then a else b)) by (destruct ac; [done|by peel_writer]);
    generalize dependent (if ac then a else b) end.
  intros w2 H2. destruct (detectContentType root p) as [ct|]; [|eapply extends_trans; eauto with pages].
  destruct (seekable file); cbn [snd].
  - eapply extends_trans; [|apply content_extends]. by peel_writer.
  - eapply extends_trans; [|apply io_Copy_extends]. by peel_writer.
Qed.

Lemma serveCustomFile_extends r code root p w : extends w (serveCustomFile r code root p w).2.
Proof.
  unfold serveCustomFile. pose proof (handleContentEncoding_extends r root p w) as H1.
  destruct (handleContentEncoding r root p w) as [fp w1]. cbn [snd] in H1.
  repeat case_match; cbn [snd io_CopyN]; try done; (eapply extends_trans; [exact H1|]).
  - by peel_writer.
  - eapply extends_trans; [|apply io_Copy_extends]. by peel_writer.
Qed.

(** The custom page is served with its code, or the writer is not committed. *)
Lemma serveCustomFile_cases r code root p w :
  w_committed w = None ->
  match serveCustomFile r code root p w with
  | (None, w') => w_status w' = Some code
  | (Some _, w') => w_committed w' = None \/ w_status w' = Some code
  end.
Proof.
  intros Hw. unfold serveCustomFile.
  destruct (handleContentEncoding_committed r root p w) as [H1 _].
  destruct (handleContentEncoding r root p w) as [fp w1]; simpl in H1.
  destruct (Open root fp) as [file|]; [|left; congruence].
  destruct (Lstat root fp) as [fi|]; [|left; congruence].
  destruct (detectContentType root p) as [ct|]; [|left; congruence].
  rewrite (WriteHeader_fresh code) by (simpl; congruence).
  case_decide; [done|]. unfold io_CopyN, io_Copy.
  destruct (take _ (file_data file)); destruct (_ <? _)%Z; try done; by right.
Qed.

Lemma tryFile_extends `{!ContentLaws lib} h w : extends w (tryFile h w).2.
Proof.
  unfold tryFile. repeat case_match; cbn [snd]; auto with pages.
  - unfold serveRedirectsStatus. by peel_writer.
  - apply serveFile_extends.
Qed.

(** When [tryFile] gives up, and what it leaves behind. *)
Lemma tryFile_false h w w' :
  tryFile h w = (false, w') ->
  w' = w /\ ((exists e, vfs_Root reader_vfs (lp_Path (h_LookupPath h)) = Err e /\ IsNotExist e = true)
            \/ exists root e, vfs_Root reader_vfs (lp_Path (h_LookupPath h)) = Ok root
                              /\ locate root h = inr (Err e)).
Proof.
  unfold tryFile. intros H. repeat case_match; simplify_eq; try (split; [done|]; naive_solver).
  pose proof (f_equal fst H) as Hf. by rewrite serveFile_true in Hf.
Qed.

Lemma tryRedirects_false h w w' :
  tryRedirects h w = (false, w') ->
  w' = w /\ ((exists e, vfs_Root reader_vfs (lp_Path (h_LookupPath h)) = Err e /\ IsNotExist e = true)
            \/ exists root, vfs_Root reader_vfs (lp_Path (h_LookupPath h)) = Ok root
                 /\ Forall (fun rule => rule_applies (req_URL (h_Request h)) rule = false)
                      (rules (ParseRedirects netlify_Parse root))).
Proof.
  unfold tryRedirects. intros H. repeat case_match; simplify_eq; (split; [done|]).
  - right. eexists. split; [done|].
    match goal with E : Rewrite _ _ = Err _ |- _ => rename E into HR; unfold Rewrite in HR end.
    destruct (redirects_match _ _) as [rule|] eqn:Em.
    + apply match_rules_first in Em as (? & ? & _ & Ha & _).
      destruct (Rewrite_rule (req_URL (h_Request h)) rule (rule_applies_valid _ _ Ha))
        as (ref & _ & Hp & _). by rewrite Hp in HR.
    + by apply match_rules_none.
  - left. eexists. split; [done|]. by destruct (IsNotExist _).
Qed.

Lemma tryRedirects_extends h w : extends w (tryRedirects h w).2.
Proof. unfold tryRedirects. repeat case_match; cbn [snd]; auto with pages. Qed.

Lemma tryNotFound_extends h w : extends w (tryNotFound h w).2.
Proof.
  unfold tryNotFound. repeat case_match; cbn [snd]; auto with pages;
    match goal with E : serveCustomFile ?r ?c ?ro ?p ?w = _ |- _ =>
      pose proof (serveCustomFile_extends r c ro p w) as Hx; rewrite E in Hx; simpl in Hx end;
    [|done].
  eapply extends_trans; [done|auto with pages].
Qed.

Lemma tryNotFound_replies h w : (tryNotFound h w).1 = true -> replied (tryNotFound h w).2.
Proof.
  unfold tryNotFound. repeat case_match; cbn [fst snd]; try done; intros _;
    try apply replied_serveErrorPage.
  destruct (w_committed w) as [c|] eqn:Ew.
  - match goal with E : serveCustomFile ?r ?c ?ro ?p ?w = _ |- _ =>
      pose proof (serveCustomFile_extends r c ro p w) as Hx; rewrite E in Hx; simpl in Hx end.
    eapply replied_extends; [exact Hx|by eexists].
  - match goal with E : serveCustomFile ?r ?c ?ro ?p ?w = _ |- _ =>
      pose proof (serveCustomFile_cases r c ro p w Ew) as Hx; rewrite E in Hx; simpl in Hx end.
    by eapply status_replied.
Qed.

(** The disk serving keeps the promises of a driver. *)
#[global] Instance disk_serving_laws `{!ContentLaws lib} : ServingLaws disk_New.
Proof.
  split.
  - intros h w. simpl. unfold Disk_ServeFileHTTP.
    pose proof (tryFile_extends h w) as H1.
    destruct (tryFile h w) as [[] w1]; simpl in H1; [done|].
    case_decide; [|done]. eapply extends_trans; [done|]. apply tryRedirects_extends.
  - intros h w w'. simpl. unfold Disk_ServeFileHTTP. intros H.
    destruct (tryFile h w) as [[] w1] eqn:E; [done|].
    apply tryFile_false in E as [-> _]. case_decide; [|by simplify_eq].
    by apply tryRedirects_false in H as [-> _].
  - intros h w. simpl. unfold Disk_ServeNotFoundHTTP.
    pose proof (tryNotFound_extends h w) as H1.
    destruct (tryNotFound h w) as [[] w1]; simpl in H1; [done|].
    eapply extends_trans; [done|]. apply extends_serveErrorPage.
  - intros h w. simpl. unfold Disk_ServeNotFoundHTTP.
    pose proof (tryNotFound_replies h w) as H1.
    destruct (tryNotFound h w) as [[] w1]; simpl in H1; [by apply H1|].
    apply replied_serveErrorPage.
Qed.

(** A resolved path leads to a regular file through no link. *)
Definition servable (root : Root) (p : str) : Prop :=
  (exists d b, p = Clean d /\ resolved root d b)
  /\ exists fi, Lstat root p = Ok fi /\ Mode fi = ModeRegular.

Lemma resolvePath_servable root sub p : resolvePath root sub = Ok p -> servable root p.
Proof.
  unfold resolvePath. destruct (EvalSymlinks root _) as [fp|] eqn:E; [|by case_match].
  apply EvalSymlinks_resolved_dest in E. destruct (Lstat root fp) as [fi|] eqn:El; [|done].
  unfold IsRegular. repeat case_match; intros; simplify_eq. bools. split; [done|eauto].
Qed.

Lemma locate_servable root h p : locate root h = inr (Ok p) -> servable root p.
Proof.
  unfold locate. intros H. repeat case_match; simplify_eq; by eapply resolvePath_servable.
Qed.

End Disk.

(** The slash redirect names the requested host before the path. *)
Lemma trim_question_keeps p t : HasSuffix p &"/" = true -> HasPrefix (TrimSuffix (p ++ t) &"?") p = true.
Proof.
  intros [k ->]%HasSuffix_spec. unfold TrimSuffix.
  destruct (HasSuffix ((k ++ &"/") ++ t) &"?") eqn:E; [|auto with pages].
  apply HasSuffix_spec in E as [k' E]. rewrite E, length_app.
  change (length &"?") with 1. rewrite Nat.add_sub, take_app_length.
  destruct t as [|x t _] using rev_ind.
  - rewrite app_nil_r in E. change (&"/") with ["/"%char] in E. change (&"?") with ["?"%char] in E.
    apply app_inj_tail in E as [_ E]. done.
  - rewrite app_assoc in E. change (&"?") with ["?"%char] in E.
    apply app_inj_tail in E as [<- _]. auto with pages.
Qed.

Lemma redirectPath_host r :
  User (req_URL r) = None -> Opaque (req_URL r) = [] -> req_Host r <> [] ->
  HasPrefix (redirectPath r) (&"//" ++ escape (req_Host r) encodeHost ++ &"/") = true.
Proof.
  intros Hu Ho Hh. unfold redirectPath.
  match goal with |- context [url_String ?x] => set (u := x) end.
  destruct (url_String_host u) as [t Ht]; try done.
  { subst u. simpl. by destruct (TrimPrefix _ _). }
  rewrite Ht. change (Host u) with (req_Host r).
  replace (&"//" ++ escape (req_Host r) encodeHost ++ &"/" ++ t)
    with ((&"//" ++ escape (req_Host r) encodeHost ++ &"/") ++ t) by (by rewrite <- !app_assoc).
  apply trim_question_keeps. rewrite app_assoc. auto with pages.
Qed.

(** ** Properties *)

(** A regular compressed sibling is in the table exactly under its encoding. *)
Lemma compressed_files_lookup root p e fi :
  compressed_files root p !! e = Some fi ->
  exists ext, (e, ext) ∈ compressedEncodings /\ encoding_extension e = ext
              /\ Lstat root (p ++ ext) = Ok fi /\ Mode fi = ModeRegular.
Proof.
  unfold compressed_files, compressedEncodings. cbn [foldl compressed_file].
  assert (Hins : forall (m : gmap str FileInfo) k ext,
    match Lstat root (p ++ ext) with
    | Ok fi => if IsRegular (Mode fi) then <[k := fi]> m else m
    | Err _ => m end !! e = Some fi ->
    m !! e = Some fi \/ e = k /\ Lstat root (p ++ ext) = Ok fi /\ Mode fi = ModeRegular).
  { intros m k ext H. destruct (Lstat root (p ++ ext)) as [fi'|]; [|by left].
    unfold IsRegular in H. case_bool_decide; [|by left].
    apply lookup_insert_Some in H as [[-> ->]|[_ H]]; [by right|by left]. }
  intros [[H|(-> & H1 & H2)]%Hins|(-> & H1 & H2)]%Hins.
  - by rewrite lookup_empty in H.
  - exists &".br". split; [set_solver|]. done.
  - exists &".gz". split; [set_solver|]. done.
Qed.

(** Choosing a precompressed file is sound: a range request always gets
    the original file; otherwise, when a compressed sibling is taken, it is
    a regular file next to the original with the extension of an encoding
    the client accepts at a quality other than zero, and the response
    announces this encoding and the size of this file. *)
Theorem handleContentEncoding_sound r root p w :
  let '(p', w') := handleContentEncoding r root p w in
  (p' = p /\ w' = w)
  \/ (Header_Get (req_Header r) &"Range" = []
      /\ exists enc ext fi,
           (enc, ext) ∈ compressedEncodings /\ p' = p ++ ext
           /\ Lstat root p' = Ok fi /\ Mode fi = ModeRegular
           /\ (exists sp, sp ∈ ParseAccept (req_Header r) &"Accept-Encoding"
                 /\ spec_matches enc sp = true /\ f64_eq (Q sp) (f64_of_Z 0) = false)
           /\ w' = w_Set &"Content-Length" (FormatInt (Size fi)) (w_Set &"Content-Encoding" enc w)).
Proof.
  unfold handleContentEncoding. destruct (nonempty _) eqn:Er; [by left|].
  apply nonempty_nil in Er.
  destruct (compressed_files root p !! _) as [fi|] eqn:E; [|by left]. right. split; [done|].
  apply compressed_files_lookup in E as (ext & Hin & Hext & Hl & Hm). rewrite Hext.
  set (enc := NegotiateContentEncoding _ _) in *.
  exists enc, ext, fi. repeat split; try done.
  unfold compressedEncodings in Hin.
  apply (NegotiateContentEncoding_accepted _ (encoding_offers (compressed_files root p))); [done|..];
    intros Henc; rewrite Henc in Hin; set_solver.
Qed.

Section Properties.

Context (lib : ContentLib) {laws : ContentLaws lib} (netlify_Parse : str -> result (list Rule)).
Context (ff : str) (now : Z) (fs : VFS).

Abbreviation serve := (Disk_ServeFileHTTP lib netlify_Parse ff now fs).

Lemma Disk_declines_only h w w' :
  serve h w = (false, w') ->
  w' = w
  /\ match vfs_Root fs (lp_Path (h_LookupPath h)) with
     | Err e => IsNotExist e = true
     | Ok root =>
         (exists e, locate root h = inr (Err e))
         /\ (ff = &"false"
             \/ Forall (fun rule => rule_applies (req_URL (h_Request h)) rule = false)
                  (rules (ParseRedirects netlify_Parse root)))
     end.
Proof.
  unfold Disk_ServeFileHTTP. destruct (tryFile _ _ _ _ _ h w) as [[] w1] eqn:E; [done|].
  apply tryFile_false in E as [-> Hf]. intros H.
  assert (Hr : w' = w /\ (ff = &"false" \/ forall root, vfs_Root fs (lp_Path (h_LookupPath h)) = Ok root ->
     Forall (fun rule => rule_applies (req_URL (h_Request h)) rule = false)
                  (rules (ParseRedirects netlify_Parse root)))).
  { destruct (decide (ff = &"false")) as [Hff|Hff].
    { rewrite decide_False in H by auto. simplify_eq. auto. }
    rewrite decide_True in H by done. apply tryRedirects_false in H as [-> Hr]. split; [done|right].
    intros root Hroot. destruct Hr as [(e & He & _)|(root' & Hr & HF)]; [congruence|].
    rewrite Hr in Hroot. by simplify_eq. }
  destruct Hr as [-> Hr]. split; [done|].
  destruct Hf as [(e & Hv & He)|(root & e & Hv & He)]; rewrite Hv; [done|]. split; [eauto|].
  destruct Hr as [Hr|Hr]; [by left|right; by apply Hr].
Qed.

(** The serving declines a request exactly when there is nothing for
    it: the site does not exist, or no file is found at the path and the
    redirects are disabled or have no rule for it.  The writer is then as it
    was. *)
Theorem Disk_ServeFileHTTP_declines h w w' :
  serve h w = (false, w') <->
  w' = w
  /\ match vfs_Root fs (lp_Path (h_LookupPath h)) with
     | Err e => IsNotExist e = true
     | Ok root =>
         (exists e, locate root h = inr (Err e))
         /\ (ff = &"false"
             \/ Forall (fun rule => rule_applies (req_URL (h_Request h)) rule = false)
                  (rules (ParseRedirects netlify_Parse root)))
     end.
Proof.
  split; [apply Disk_declines_only|]. intros [-> H].
  unfold Disk_ServeFileHTTP, tryFile, tryRedirects.
  destruct (vfs_Root fs _) as [root|e]; [|rewrite H; by case_decide].
  destruct H as [[e ->] H]. case_decide as Hff; [|done].
  destruct H as [H|H]; [done|]. unfold Rewrite, redirects_match.
  by apply match_rules_none in H as ->.
Qed.

(** [C12] Only regular files reached through no symbolic link are served: the
    path [tryFile] settles on, directly, as an [index.html] or with the
    [.html] extension added, is the cleaned form of a path whose components
    other than a kept [".."] were looked up, are no links and, but for the
    last, are directories; and its own entry is a regular file. *)
Theorem served_path_is_regular_and_resolved root h p :
  locate root h = inr (Ok p) ->
  (exists d b, p = Clean d /\ resolved root d b)
  /\ exists fi, Lstat root p = Ok fi /\ Mode fi = ModeRegular.
Proof. apply locate_servable. Qed.

(** A header that [ServeContent] leaves alone. *)
Ltac not_listed := let H := fresh in intros H; apply (bool_decide_eq_true_2 _) in H; vm_compute in H; discriminate H.
Ltac kept := first [run | split; [not_listed|let H := fresh in intros H; vm_compute in H; discriminate H]].

(** The headers that tell how long a page may be kept. *)
Definition caching_headers : list str := [&"Cache-Control"; &"Expires"].

(** A request for [h] finds the regular file [p], and [file] is what the
    chosen encoding delivers. *)
Record finds_file (h : Handler) (w : Response) (root : Root) (p : str) (file : File) : Prop := {
  ff_root : vfs_Root fs (lp_Path (h_LookupPath h)) = Ok root;
  ff_eval : EvalSymlinks root (h_SubPath h) = Ok p;
  ff_regular : exists fi, Lstat root p = Ok fi /\ Mode fi = ModeRegular;
  ff_not_config : p <> ConfigFile;
  ff_type : TypeByExtension lib (Ext p) <> [];
  ff_open : Open root (handleContentEncoding (h_Request h) root p w).1 = Ok file;
  ff_stat : exists fi, Lstat root (handleContentEncoding (h_Request h) root p w).1 = Ok fi;
  ff_sendable : seekable file = true \/ file_data file <> [] }.

(** What [serveFile] sends in the end: a seekable file with [ServeContent],
    a decompressed one as a whole. *)
Definition send_content (r : Request) (name : str) (fi : FileInfo) (file : File) (w : Response) : Response :=
  if seekable file then ServeContent lib r name (ModTime fi) file w
  else io_Copy (file_data file) (w_Set &"Content-Length" (FormatInt (Size fi)) w).

Lemma send_content_whole r name fi file w :
  w_committed w = None -> unconditional r -> req_Method r = &"GET" -> seekable file = true \/ file_data file <> [] ->
  w_status (send_content r name fi file w) = Some 200%Z
  /\ w_body (send_content r name fi file w) = w_body w ++ file_data file
  /\ forall k, CanonicalHeaderKey k = k -> headers_kept k (w_header w) ->
       sent_header (send_content r name fi file w) k = Header_Get (w_header w) k.
Proof using laws.
  intros Hw Hu Hg Hsend. unfold send_content. destruct (seekable file).
  - destruct (content_whole r name (ModTime fi) file w Hw Hu Hg) as (Hs & Hbody & Hhdr). split; [done|]. split; [done|].
    intros k Hk Hkept. specialize (Hhdr k Hkept). unfold sent_header. unfold w_status in Hs.
    destruct (w_committed (ServeContent _ _ _ _ _ _)) as [[c hd]|]; [|done].
    simpl in Hhdr. unfold Header_Get, header_values. rewrite Hk, Hhdr. done.
  - destruct Hsend as [|Hd]; [done|]. unfold io_Copy. destruct (file_data file) as [|x data] eqn:Ed; [done|].
    unfold Write. rewrite (WriteHeader_fresh 200) by done. split; [done|]. split; [done|]. intros k Hk [Hne _].
    unfold sent_header, Header_Get, header_values, w_Set, Header_Set. cbn [w_committed w_header].
    rewrite Hk, lookup_insert_ne; [done|]. change (CanonicalHeaderKey &"Content-Length") with &"Content-Length". intros <-.
    apply Hne. constructor.
Qed.

Lemma finds_file_tryFile h w root p file :
  finds_file h w root p file ->
  serve h w = serveFile lib now (h_Request h) root p (lp_HasAccessControl (h_LookupPath h)) w.
Proof.
  intros []. destruct ff_regular0 as (fi & Hl & Hm).
  assert (Hres : resolvePath root [h_SubPath h] = Ok p).
  { unfold resolvePath. change (Join [h_SubPath h] &"/") with (h_SubPath h).
    rewrite ff_eval0, Hl. unfold IsDir, IsRegular. by rewrite Hm. }
  unfold Disk_ServeFileHTTP, tryFile, locate. rewrite ff_root0, Hres.
  rewrite decide_False by done.
  pose proof (serveFile_true lib now (h_Request h) root p (lp_HasAccessControl (h_LookupPath h)) w) as Ht.
  destruct (serveFile _ _ _ _ _ _ w) as [[] w1]; done.
Qed.

(** An unconditional GET for a regular file (a decompressed one must not be
    empty) is answered with status 200 and exactly the bytes of the file (or
    of the compressed sibling that was chosen), with the content type of the
    original path's extension and the content encoding that was announced,
    and, for a project without access control, with the caching header; for
    one with access control the caching headers are left as they are. *)
Theorem Disk_ServeFileHTTP_serves_file h w root p file :
  finds_file h w root p file ->
  unconditional (h_Request h) -> req_Method (h_Request h) = &"GET" ->
  w_committed w = None ->
  let enc := handleContentEncoding (h_Request h) root p w in
  exists w', serve h w = (true, w')
    /\ w_status w' = Some 200%Z
    /\ w_body w' = w_body w ++ file_data file
    /\ sent_header w' &"Content-Type" = TypeByExtension lib (Ext p)
    /\ (forall v, w_header enc.2 !! &"Content-Encoding" = Some [v] ->
          sent_header w' &"Content-Encoding" = v)
    /\ (lp_HasAccessControl (h_LookupPath h) = false ->
          sent_header w' &"Cache-Control" = &"max-age=600")
    /\ (lp_HasAccessControl (h_LookupPath h) = true ->
          forall k, k ∈ caching_headers -> sent_header w' k = Header_Get (w_header w) k).
Proof.
  intros Hf Hu Hg Hw enc. rewrite (finds_file_tryFile _ _ _ _ _ Hf). destruct Hf. clear ff_eval0.
  unfold serveFile. subst enc.
  destruct (handleContentEncoding_committed (h_Request h) root p w) as [Hc Hb].
  pose proof (handleContentEncoding_headers (h_Request h) root p w) as Hcaching.
  destruct (handleContentEncoding (h_Request h) root p w) as [fp w1]. cbn [fst snd] in *.
  destruct ff_stat0 as [fi Hfi]. rewrite ff_open0, Hfi. unfold detectContentType.
  assert (nonempty (TypeByExtension lib (Ext p)) = true) as -> by (unfold nonempty; by rewrite bool_decide_eq_false_2).
  match goal with |- context [if seekable file then (true, ServeContent lib _ _ _ _ ?x) else _] => set (w2 := x) end.
  exists (send_content (h_Request h) p fi file w2). split; [unfold send_content; by destruct (seekable file)|].
  assert (H2 : w_committed w2 = None /\ w_body w2 = w_body w).
  { subst w2. destruct (lp_HasAccessControl _); simpl; split; congruence. }
  destruct H2 as [H2c H2b].
  destruct (send_content_whole (h_Request h) p fi file w2 H2c Hu Hg ff_sendable0) as (Hs & Hbody & Hsent).
  rewrite Hs, Hbody, H2b. repeat split; try done.
  - rewrite Hsent; [apply Header_Get_Set_eq|run|]. split; [not_listed|]. intros _. subst w2. simpl. unfold Header_Set.
    by rewrite lookup_insert_eq.
  - intros v Hv. rewrite Hsent by kept. subst w2. cbn [w_Set w_header]. rewrite Header_Get_Set_ne by hdr_ne.
    assert (Hv' : Header_Get (w_header w1) &"Content-Encoding" = v)
      by (unfold Header_Get, header_values; change (CanonicalHeaderKey &"Content-Encoding") with &"Content-Encoding"; by rewrite Hv).
    destruct (lp_HasAccessControl _); cbn [w_Set w_header]; rewrite ?Header_Get_Set_ne by hdr_ne; done.
  - intros Hac. rewrite Hsent by kept. subst w2. rewrite Hac. cbn [w_Set w_header].
    rewrite !Header_Get_Set_ne by hdr_ne. apply Header_Get_Set_eq.
  - intros Hac k Hk. assert (Hcase : k = &"Cache-Control" \/ k = &"Expires") by (unfold caching_headers in Hk; set_solver).
    assert (Hkept : CanonicalHeaderKey k = k /\ headers_kept k (w_header w2)) by (destruct Hcase as [-> | ->]; split; kept).
    rewrite Hsent by apply Hkept. subst w2. rewrite Hac. cbn [w_Set w_header].
    rewrite Header_Get_Set_ne by (destruct Hcase as [-> | ->]; hdr_ne). apply Hcaching. destruct Hcase as [-> | ->]; split; hdr_ne.
Qed.

(** The not-found handler always answers, with status 404 or, when the
    site's root cannot be opened or its 404.html cannot be served, 500.
    Without a 404.html in the site the answer is the generic 404 page; with a
    readable one, a GET gets exactly its bytes with status 404. *)
Theorem Disk_ServeNotFoundHTTP_status h w :
  w_committed w = None ->
  let w' := Disk_ServeNotFoundHTTP lib fs h w in
  (w_status w' = Some 404%Z \/ w_status w' = Some 500%Z)
  /\ (forall root e, vfs_Root fs (lp_Path (h_LookupPath h)) = Ok root ->
        resolvePath root [&"404.html"] = Err e -> w' = Serve404 w)
  /\ (forall root p file fi, vfs_Root fs (lp_Path (h_LookupPath h)) = Ok root ->
        resolvePath root [&"404.html"] = Ok p ->
        let fp := (handleContentEncoding (h_Request h) root p w).1 in
        Open root fp = Ok file -> Lstat root fp = Ok fi ->
        Size fi = Z.of_nat (length (file_data file)) -> TypeByExtension lib (Ext p) <> [] ->
        req_Method (h_Request h) = &"GET" ->
        w_status w' = Some 404%Z /\ w_body w' = w_body w ++ file_data file).
Proof.
  intros Hw w'. subst w'. unfold Disk_ServeNotFoundHTTP, tryNotFound. split; [|split].
  - destruct (vfs_Root fs _) as [root|e].
    + destruct (resolvePath root _) as [p|]; [|left; by apply serveErrorPage_status].
      pose proof (serveCustomFile_cases lib (h_Request h) 404 root p w Hw) as Hc.
      destruct (serveCustomFile _ _ _ _ _ w) as [[e|] w1]; [|by left].
      destruct Hc as [Hc|Hc]; [right; by apply serveErrorPage_status|left].
      by apply (status_extends w1); [apply extends_serveErrorPage|].
    + destruct (IsNotExist e); [left|right]; by apply serveErrorPage_status.
  - intros root e -> ->. done.
  - intros root p file fi Hr1 Hr2 Hopen Hstat Hsize Hty Hget. rewrite Hr1, Hr2.
    unfold serveCustomFile, detectContentType.
    destruct (handleContentEncoding_committed (h_Request h) root p w) as [Hc Hb].
    destruct (handleContentEncoding (h_Request h) root p w) as [fp w1]. cbn [fst snd] in *.
    rewrite Hopen, Hstat.
    assert (nonempty (TypeByExtension lib (Ext p)) = true) as ->
      by (unfold nonempty; by rewrite bool_decide_eq_false_2).
    rewrite (WriteHeader_fresh 404) by (simpl; congruence).
    rewrite decide_False by (rewrite Hget; done). unfold io_CopyN.
    rewrite Hsize, Nat2Z.id, firstn_all, Z.ltb_irrefl. unfold io_Copy.
    destruct (file_data file); simpl; rewrite Hb, ?app_nil_r; done.
Qed.

(** A directory requested without a trailing slash is answered with a
    302 to a location on the requested host; requested with the slash it is
    served from its [index.html]. *)
Theorem Disk_directory_request h w root dir fi :
  vfs_Root fs (lp_Path (h_LookupPath h)) = Ok root ->
  EvalSymlinks root (h_SubPath h) = Ok dir -> Lstat root dir = Ok fi -> Mode fi = ModeDir ->
  w_committed w = None ->
  if endsWithSlash (Path (req_URL (h_Request h))) then
    forall p, resolvePath root [h_SubPath h; &"index.html"] = Ok p -> locate root h = inr (Ok p)
  else
    exists hd, serve h w = (true, http_Redirect (h_Request h) (redirectPath (h_Request h)) 302 w)
      /\ w_committed (http_Redirect (h_Request h) (redirectPath (h_Request h)) 302 w) = Some (302%Z, hd)
      /\ Header_Get hd &"Location"
         = hexEscapeNonASCII (redirect_location (h_Request h) (redirectPath (h_Request h)))
      /\ (User (req_URL (h_Request h)) = None -> Opaque (req_URL (h_Request h)) = [] ->
          req_Host (h_Request h) <> [] ->
          HasPrefix (redirectPath (h_Request h))
            (&"//" ++ escape (req_Host (h_Request h)) encodeHost ++ &"/") = true).
Proof.
  intros Hroot He Hl Hd Hw.
  assert (Hres : resolvePath root [h_SubPath h] = Err (LocationDirectoryError dir (h_SubPath h))).
  { unfold resolvePath. change (Join [h_SubPath h] &"/") with (h_SubPath h).
    rewrite He, Hl. unfold IsDir. by rewrite Hd. }
  destruct (endsWithSlash _) eqn:Es.
  - intros p Hp. unfold locate. by rewrite Hres, Es, Hp.
  - destruct (Redirect_committed (h_Request h) (redirectPath (h_Request h)) 302 w Hw) as (hd & H1 & H2).
    exists hd. split; [|split; [done|split; [done|apply redirectPath_host]]].
    unfold Disk_ServeFileHTTP, tryFile, locate. by rewrite Hroot, Hres, Es.
Qed.

End Properties.

(** ** A concrete site *)

(** A content library that knows two extensions and always sends the whole
    file. *)
Definition plain_lib : ContentLib := {|
  ServeContent r name mt f w :=
    if decide (req_Method r = &"HEAD") then WriteHeader 200 w
    else Write (file_data f) (WriteHeader 200 (w_Set &"Accept-Ranges" &"bytes" (w_Set &"Last-Modified" (FormatInt mt) w)));
  TypeByExtension ext :=
    if decide (ext = &".html") then &"text/html; charset=utf-8"
    else if decide (ext = &".css") then &"text/css; charset=utf-8" else [];
  DetectContentType data := &"application/octet-stream";
  FormatRFC1123 t := FormatInt t |}.

#[export] Instance plain_lib_laws : ContentLaws plain_lib.
Proof.
  split; intros r name mt f w; simpl.
  - case_decide; [auto with pages|by peel_writer].
  - case_decide; auto with pages.
  - intros Hw _ Hm. rewrite decide_False by (by rewrite Hm).
    rewrite (WriteHeader_fresh 200) by done. split; [done|]. split; [done|]. intros k [Hk _].
    cbn [Write WriteHeader w_Set w_header w_committed]. unfold Write. simpl. unfold Header_Set.
    rewrite !lookup_insert_ne; [done|..]; intros <-; apply Hk, (bool_decide_eq_true_1 _); run.
Qed.

Definition demo_root : Root := mem_root
  [(&"index.html", file_entry &"<h1>home</h1>");
   (&"docs", dir_entry); (&"docs/index.html", file_entry &"docs");
   (&"app.css", file_entry &"body{}"); (&"app.css.gz", file_entry &"GZ");
   (&"404.html", file_entry &"lost");
   (&"link.html", link_entry &"index.html")].

(** The same site, but opening the compressed file fails. *)
Definition broken_root : Root :=
  mkRoot (Lstat demo_root) (Readlink demo_root)
    (fun p => if decide (p = &"app.css.gz") then Err (ErrMsg &"io") else Open demo_root p).

Definition demo_vfs (root : Root) : VFS := mkVFS (fun _ => Ok root) &"local".

Definition demo_get (path : str) : Request :=
  mkRequest &"GET" (set_Path path no_url) &"group.example.io" path ∅ false [].
Definition demo_gzip (path : str) : Request :=
  mkRequest &"GET" (set_Path path no_url) &"group.example.io" path
    {[ &"Accept-Encoding" := [&"gzip"] ]} false [].
Definition demo_lookup : LookupPath := mkLookupPath &"file" &"/" &"group/project/public" true false false 1.
Definition no_rules : str -> result (list Rule) := fun _ => Ok [].
Definition demo_handler (r : Request) (sub : str) : Handler := mkHandler r demo_lookup sub.
Definition demo_serve (root : Root) := Disk_ServeFileHTTP plain_lib no_rules [] 0 (demo_vfs root).

(** An error page sent after a compressed file was chosen keeps the
    headers of the file: when opening it fails, the client gets a 500 whose
    HTML body is announced as gzip and with the length of the compressed
    file. *)
Theorem error_page_keeps_encoding_headers :
  let w := (demo_serve broken_root (demo_handler (demo_gzip &"/app.css") &"app.css") new_response).2 in
  w_status w = Some 500%Z
  /\ w_body w = generateErrorHTML content500 ++ newline
  /\ sent_header w &"Content-Encoding" = &"gzip"
  /\ sent_header w &"Content-Length" = &"2".
Proof. vm_compute. done. Qed.

Lemma Disk_ServeFileHTTP_serves_file_witness :
  exists w', demo_serve demo_root (demo_handler (demo_gzip &"/app.css") &"app.css") new_response = (true, w')
    /\ w_status w' = Some 200%Z /\ w_body w' = &"GZ"
    /\ sent_header w' &"Content-Encoding" = &"gzip".
Proof.
  destruct (Disk_ServeFileHTTP_serves_file plain_lib no_rules [] 0 (demo_vfs demo_root)
    (demo_handler (demo_gzip &"/app.css") &"app.css") new_response demo_root &"app.css" (mkFile &"GZ" true))
    as (w' & H1 & H2 & H3 & _ & H4 & _).
  - split; try (run || done); try (eexists; split; [run|done]); [eexists; run|by left].
  - repeat constructor.
  - run.
  - run.
  - exists w'. split; [exact H1|]. split; [exact H2|]. split; [exact H3|]. apply H4. run.
Defined.

Lemma served_path_is_regular_and_resolved_witness :
  exists fi, Lstat demo_root &"index.html" = Ok fi /\ Mode fi = ModeRegular.
Proof.
  apply (served_path_is_regular_and_resolved demo_root (demo_handler (demo_get &"/link.html") &"link.html")).
  run.
Defined.

Lemma Disk_ServeNotFoundHTTP_status_witness :
  w_status (Disk_ServeNotFoundHTTP plain_lib (demo_vfs demo_root) (demo_handler (demo_get &"/x") &"x") new_response)
    = Some 404%Z
  /\ w_body (Disk_ServeNotFoundHTTP plain_lib (demo_vfs demo_root) (demo_handler (demo_get &"/x") &"x") new_response)
    = &"lost".
Proof.
  destruct (Disk_ServeNotFoundHTTP_status plain_lib (demo_vfs demo_root) (demo_handler (demo_get &"/x") &"x")
    new_response eq_refl) as (_ & _ & H).
  apply (H demo_root &"404.html" (mkFile &"lost" true) (mkFileInfo ModeRegular 4 0)); try run. done.
Defined.

Lemma Disk_directory_request_witness :
  exists hd, w_committed (demo_serve demo_root (demo_handler (demo_get &"/docs") &"docs") new_response).2
    = Some (302%Z, hd)
  /\ Header_Get hd &"Location" = &"//group.example.io/docs/".
Proof.
  destruct (Disk_directory_request plain_lib no_rules [] 0 (demo_vfs demo_root)
    (demo_handler (demo_get &"/docs") &"docs") new_response demo_root &"docs" (mkFileInfo ModeDir 0 0)
    eq_refl ltac:(run) ltac:(run) eq_refl eq_refl) as (hd & H1 & H2 & H3 & _).
  exists hd. unfold demo_serve. rewrite H1. split; [exact H2|]. rewrite H3. run.
Defined.
