(* ===== verification/Domain.v ===== *)
(** * Package domain

    internal/domain/{domain,resolver}.go.  A [*Domain] is an [option Domain]
    ([None] is nil).  A resolver is the function it computes at the time of
    the request. *)

From S2P Require Import Prelude GoStd GoUrl Header Http Serving DiskServing.

Definition ErrDomainDoesNotExist : error := ErrSentinel &"domain does not exist".

Definition Resolver : Type := Request -> result ServingRequest.

(** What a resolver promises: the servings it hands out keep their laws. *)
Class ResolverLaws (res : Resolver) : Prop :=
  resolver_serving r sr : res r = Ok sr -> ServingLaws (sr_Serving sr).

Section Certificates.

Context {Certificate : Type} (X509KeyPair : str -> str -> result Certificate).

(** [Once] is the [sync.Once] of the certificate: [None] before the first
    call, then the outcome. *)
Record Domain : Type := mkDomain {
  d_Name : str; CertificateCert : str; CertificateKey : str;
  d_Resolver : Resolver; certificateOnce : option (result Certificate) }.

Definition Domain_New (name cert key : str) (resolver : Resolver) : Domain :=
  mkDomain name cert key resolver None.

Definition Domain_String (d : Domain) : str := d_Name d.

Definition errNoCertificate : error :=
  ErrMsg &"tls certificates can be loaded only for pages with configuration".

(** The result and the domain afterwards. *)
Definition EnsureCertificate (d : option Domain) : result Certificate * option Domain :=
  match d with
  | None => (Err errNoCertificate, None)
  | Some dom =>
      if negb (nonempty (CertificateKey dom)) || negb (nonempty (CertificateCert dom))
      then (Err errNoCertificate, d)
      else
        match certificateOnce dom with
        | Some outcome => (outcome, d)
        | None =>
            let outcome := X509KeyPair (CertificateCert dom) (CertificateKey dom) in
            (outcome, Some (mkDomain (d_Name dom) (CertificateCert dom) (CertificateKey dom)
                              (d_Resolver dom) (Some outcome)))
        end
  end.

Definition resolve (d : option Domain) (r : Request) : result ServingRequest :=
  match d with
  | None => Err ErrDomainDoesNotExist
  | Some dom => d_Resolver dom r
  end.

Definition GetLookupPath (d : option Domain) (r : Request) : result LookupPath :=
  let? servingReq := resolve d r in Ok (sr_LookupPath servingReq).

(** A field of the lookup path, or the zero value. *)
Definition lookup_field {A} (f : LookupPath -> A) (zero : A) (d : option Domain) (r : Request) : A :=
  match GetLookupPath d r with Ok lp => f lp | Err _ => zero end.

Definition IsHTTPSOnly (d : option Domain) (r : Request) : bool := lookup_field lp_IsHTTPSOnly false d r.
Definition IsAccessControlEnabled (d : option Domain) (r : Request) : bool :=
  lookup_field lp_HasAccessControl false d r.
Definition IsNamespaceProject (d : option Domain) (r : Request) : bool :=
  lookup_field lp_IsNamespaceProject false d r.
Definition GetProjectID (d : option Domain) (r : Request) : Z := lookup_field lp_ProjectID 0%Z d r.

Definition HasLookupPath (d : option Domain) (r : Request) : bool :=
  match d with None => false | Some _ => is_ok (GetLookupPath d r) end.

(** The answer to a failed resolution. *)
Definition serve_resolve_error (err : error) (w : Response) : Response :=
  if errors_Is err ErrDomainDoesNotExist then Serve404 w else Serve503 w.

Definition Domain_ServeFileHTTP (d : option Domain) (r : Request) (w : Response) : bool * Response :=
  match resolve d r with
  | Err err => (true, serve_resolve_error err w)
  | Ok request => Request_ServeFileHTTP request r w
  end.

Definition Domain_ServeNotFoundHTTP (d : option Domain) (r : Request) (w : Response) : Response :=
  match resolve d r with
  | Err err => serve_resolve_error err w
  | Ok request => Request_ServeNotFoundHTTP request r w
  end.

(** [r.Clone] with the path overridden. *)
Definition with_path (path : str) (r : Request) : Request :=
  mkRequest (req_Method r) (set_Path path (req_URL r)) (req_Host r) (req_RequestURI r)
    (req_Header r) (req_TLS r) (req_RemoteAddr r).

Definition serveNamespaceNotFound (d : Domain) (r : Request) (w : Response) : Response :=
  match d_Resolver d (with_path &"/" r) with
  | Err err => serve_resolve_error err w
  | Ok namespaceDomain =>
      if negb (lp_HasAccessControl (sr_LookupPath namespaceDomain))
      then Request_ServeNotFoundHTTP namespaceDomain r w
      else Serve404 w
  end.

(** On a nil domain the lookup fails first, so the last call has a domain. *)
Definition ServeNotFoundAuthFailed (d : option Domain) (r : Request) (w : Response) : Response :=
  match GetLookupPath d r with
  | Err _ => Serve404 w
  | Ok lookupPath =>
      if IsNamespaceProject d r && negb (lp_HasAccessControl lookupPath)
      then Domain_ServeNotFoundHTTP d r w
      else match d with
           | Some dom => serveNamespaceNotFound dom r w
           | None => w
           end
  end.

(** ** Lemmas *)

Lemma serve_resolve_error_extends err w : extends w (serve_resolve_error err w).
Proof. unfold serve_resolve_error. case_match; apply extends_serveErrorPage. Qed.

Lemma serve_resolve_error_replies err w : replied (serve_resolve_error err w).
Proof. unfold serve_resolve_error. case_match; apply replied_serveErrorPage. Qed.

Lemma serve_resolve_error_status err w :
  w_committed w = None ->
  w_status (serve_resolve_error err w)
  = Some (if errors_Is err ErrDomainDoesNotExist then 404%Z else 503%Z).
Proof. intros Hw. unfold serve_resolve_error. case_match; by apply serveErrorPage_status. Qed.

#[local] Hint Resolve serve_resolve_error_extends serve_resolve_error_replies : pages.

(** A domain whose resolver keeps its laws (nil included). *)
Definition domain_ok (d : option Domain) : Prop :=
  match d with Some dom => ResolverLaws (d_Resolver dom) | None => True end.

Lemma resolve_serving d r sr : domain_ok d -> resolve d r = Ok sr -> ServingLaws (sr_Serving sr).
Proof. destruct d as [dom|]; [|done]. intros Hd. apply Hd. Qed.

Lemma Domain_ServeFileHTTP_extends d r w :
  domain_ok d -> extends w (Domain_ServeFileHTTP d r w).2.
Proof.
  intros Hd. unfold Domain_ServeFileHTTP. destruct (resolve d r) as [sr|] eqn:E; simpl; auto with pages.
  apply (resolve_serving _ _ _ Hd) in E. apply serve_extends.
Qed.

Lemma Domain_ServeNotFoundHTTP_replies d r w :
  domain_ok d -> extends w (Domain_ServeNotFoundHTTP d r w) /\ replied (Domain_ServeNotFoundHTTP d r w).
Proof.
  intros Hd. unfold Domain_ServeNotFoundHTTP.
  destruct (resolve d r) as [sr|] eqn:E; [|auto with pages].
  apply (resolve_serving _ _ _ Hd) in E. split; apply E.
Qed.

(** ** Properties *)

(** Serving a file of a domain: a nil domain and a resolver error that
    is or wraps "domain does not exist" give the 404 page, any other error
    the 503 page, each counted as served; the call reports [false] only for
    a request that resolves to a project, and then leaves the writer as it
    was. *)
Theorem Domain_ServeFileHTTP_outcomes d r w :
  domain_ok d -> w_committed w = None ->
  match resolve d r with
  | Err err =>
      (Domain_ServeFileHTTP d r w).1 = true
      /\ w_status (Domain_ServeFileHTTP d r w).2
         = Some (if errors_Is err ErrDomainDoesNotExist then 404%Z else 503%Z)
  | Ok sr =>
      d <> None /\ forall w', Domain_ServeFileHTTP d r w = (false, w') -> w' = w
  end.
Proof.
  intros Hd Hw. unfold Domain_ServeFileHTTP. destruct (resolve d r) as [sr|err] eqn:E.
  - split; [by intros ->|]. intros w'. apply (resolve_serving _ _ _ Hd) in E. apply E.
  - split; [done|]. by apply serve_resolve_error_status.
Qed.

(** When authorisation fails, no private project answers: the response
    is a generic 404 or 503 page, or the not-found page of a project of the
    domain without access control. *)
Theorem ServeNotFoundAuthFailed_no_private_content d r w :
  ServeNotFoundAuthFailed d r w = Serve404 w
  \/ ServeNotFoundAuthFailed d r w = Serve503 w
  \/ exists sr r', resolve d r' = Ok sr /\ lp_HasAccessControl (sr_LookupPath sr) = false
       /\ ServeNotFoundAuthFailed d r w = Request_ServeNotFoundHTTP sr r w.
Proof.
  unfold ServeNotFoundAuthFailed, GetLookupPath.
  destruct (resolve d r) as [sr|] eqn:E; simpl; [|by left].
  destruct (IsNamespaceProject d r && _) eqn:Eb.
  - bools. right; right. exists sr, r. unfold Domain_ServeNotFoundHTTP. by rewrite E.
  - destruct d as [dom|]; [|done]. unfold serveNamespaceNotFound, serve_resolve_error.
    destruct (d_Resolver dom (with_path &"/" r)) as [ns|] eqn:En; [|case_match; auto].
    destruct (lp_HasAccessControl (sr_LookupPath ns)) eqn:Ea; simpl; [by left|].
    right; right. by exists ns, (with_path &"/" r).
Qed.

Lemma ServeNotFoundAuthFailed_replies d r w :
  domain_ok d -> replied (ServeNotFoundAuthFailed d r w) /\ extends w (ServeNotFoundAuthFailed d r w).
Proof.
  intros Hd. unfold ServeNotFoundAuthFailed.
  destruct (GetLookupPath d r) eqn:Eg; [|split; [apply replied_serveErrorPage|apply extends_serveErrorPage]].
  destruct (_ && _); [split; apply (Domain_ServeNotFoundHTTP_replies d r w Hd)|].
  destruct d as [dom|]; [|done]. unfold serveNamespaceNotFound.
  destruct (d_Resolver dom _) as [ns|] eqn:En; [|auto with pages].
  apply Hd in En. case_match; [split; apply En|].
  split; [apply replied_serveErrorPage|apply extends_serveErrorPage].
Qed.

(** The certificate of a domain is parsed at most once: after a first
    call every further call returns the same outcome and leaves the domain
    unchanged, and without a key and a certificate the answer is an error
    and nothing is remembered. *)
Theorem EnsureCertificate_once d :
  let '(c, d') := EnsureCertificate d in
  EnsureCertificate d' = (c, d')
  /\ (forall dom, d = Some dom -> certificateOnce dom = None ->
        if nonempty (CertificateKey dom) && nonempty (CertificateCert dom)
        then c = X509KeyPair (CertificateCert dom) (CertificateKey dom)
        else c = Err errNoCertificate /\ d' = d).
Proof.
  destruct d as [dom|]; [|done]. simpl.
  destruct (nonempty (CertificateKey dom)) eqn:Ek, (nonempty (CertificateCert dom)) eqn:Ec; simpl;
    try (rewrite ?Ek, ?Ec; split; [done|]; intros ? [= <-]; by rewrite Ek, Ec).
  destruct (certificateOnce dom) as [o|] eqn:Eo; simpl; rewrite Ek, Ec; simpl; rewrite ?Eo.
  - split; [done|]. intros ? [= <-] ?. congruence.
  - split; [done|]. intros ? [= <-] _. by rewrite Ek, Ec.
Qed.

End Certificates.

Arguments Domain : clear implicits.

(** ** A concrete domain *)

(** Everything below [/gone] does not exist, the rest is the demo site. *)
Definition demo_resolver : Resolver := fun r =>
  if HasPrefix (Path (req_URL r)) &"/gone"
  then Err (ErrWrap &"lookup" ErrDomainDoesNotExist)
  else Ok (mkServingRequest (disk_New plain_lib no_rules [] 0 (demo_vfs demo_root)) demo_lookup
             (TrimPrefix (Path (req_URL r)) &"/")).

#[export] Instance demo_resolver_laws : ResolverLaws demo_resolver.
Proof.
  intros r sr. unfold demo_resolver. case_match; [done|]. intros [= <-]. apply _.
Qed.

Definition demo_domain : Domain unit := Domain_New &"group.example.io" [] [] demo_resolver.

Lemma Domain_ServeFileHTTP_outcomes_witness :
  w_status (Domain_ServeFileHTTP (Some demo_domain) (demo_get &"/gone/x") new_response).2 = Some 404%Z
  /\ forall w', Domain_ServeFileHTTP (Some demo_domain) (demo_get &"/none") new_response = (false, w') ->
       w' = new_response.
Proof.
  split.
  - apply (Domain_ServeFileHTTP_outcomes (Some demo_domain) (demo_get &"/gone/x") new_response
             demo_resolver_laws eq_refl).
  - apply (Domain_ServeFileHTTP_outcomes (Some demo_domain) (demo_get &"/none") new_response
             demo_resolver_laws eq_refl).
Defined.
