(* ===== verification/GitlabClient.v ===== *)
(** * The client of the internal GitLab API

    internal/source/gitlab/client/client.go and the data types of
    internal/source/gitlab/api.  The HTTP transport, the JSON decoder and the
    JWT signer are parameters. *)

From S2P Require Import Prelude GoStd GoUrl GoQuery Header Http Domain.

(** ** api *)

Record Cluster : Type := mkCluster {
  cl_Address : str; cl_Port : str; cl_Hostname : str; cl_CertificateCert : str; cl_CertificateKey : str }.
Record Serverless : Type := mkServerless { sl_Service : str; sl_Cluster : Cluster }.
Record Source : Type := mkSource { src_Type : str; src_Path : str; src_Serverless : Serverless }.

(** [api.LookupPath] *)
Record ApiLookupPath : Type := mkApiLookupPath {
  ap_ProjectID : Z; ap_AccessControl : bool; ap_HTTPSOnly : bool; ap_Prefix : str; ap_Source : Source }.

Record VirtualDomain : Type := mkVirtualDomain {
  vd_Certificate : str; vd_Key : str; vd_LookupPaths : list ApiLookupPath }.

(** [api.Lookup]; [None] is a nil pointer or a nil error. *)
Record Lookup : Type := mkLookup {
  lk_Name : str; lk_Error : option error; lk_Domain : option VirtualDomain }.

#[export] Instance Cluster_eq_dec : EqDecision Cluster.
Proof. solve_decision. Defined.
#[export] Instance Serverless_eq_dec : EqDecision Serverless.
Proof. solve_decision. Defined.
#[export] Instance Source_eq_dec : EqDecision Source.
Proof. solve_decision. Defined.
#[export] Instance ApiLookupPath_eq_dec : EqDecision ApiLookupPath.
Proof. solve_decision. Defined.
#[export] Instance VirtualDomain_eq_dec : EqDecision VirtualDomain.
Proof. solve_decision. Defined.
#[export] Instance Lookup_eq_dec : EqDecision Lookup.
Proof. solve_decision. Defined.

(** ** client.go *)

Definition ConnectionErrorMsg : str := &"failed to connect to internal Pages API".
Definition ErrUnauthorizedAPI : error := ErrSentinel &"pages endpoint unauthorized".

Record Client : Type := mkClient {
  secretKey : str; baseURL : URL; httpTimeout : Z; jwtTokenExpiry : Z }.

Definition NewClient (base secret : str) (connectionTimeout tokenExpiry : Z) : result Client :=
  if negb (nonempty base) || negb (nonempty secret)
  then Err (ErrMsg &"GitLab API URL or API secret has not been provided")
  else
    match Parse base with
    | None => Err (ErrMsg &"parse")
    | Some parsedURL =>
        if (connectionTimeout =? 0)%Z
        then Err (ErrMsg &"GitLab HTTP client connection timeout has not been provided")
        else if (tokenExpiry =? 0)%Z
        then Err (ErrMsg &"GitLab JWT token expiry has not been provided")
        else Ok (mkClient secret parsedURL connectionTimeout tokenExpiry)
    end.

(** An API request as it goes to the transport. *)
Record ApiRequest : Type := mkApiRequest { ar_Method : str; ar_URL : URL; ar_Header : Header }.

Section Client.

(** The transport ([None] response is a nil pointer), the JSON decoder
    (domain pointer and error) and the token signer. *)
Context (Do : ApiRequest -> result (option (Z * str))).
Context (Decode : str -> option VirtualDomain * option error).
Context (SignedString : str -> str -> Z -> result str) (now : Z).

Definition token (gc : Client) : result str :=
  SignedString (secretKey gc) &"gitlab-pages" (now + jwtTokenExpiry gc).

Definition endpoint (gc : Client) (path : str) (params : Values) : result URL :=
  match url_Parse_ref (baseURL gc) path with
  | None => Err (ErrMsg &"parse")
  | Some e => Ok (set_RawQuery (Encode params) e)
  end.

(** [http.NewRequest] parses the printed URL again. *)
Definition client_request (gc : Client) (method : str) (e : URL) : result ApiRequest :=
  match Parse (url_String e) with
  | None => Err (ErrMsg &"parse")
  | Some u =>
      let? tok := token gc in
      Ok (mkApiRequest method u (Header_Set ∅ &"Gitlab-Pages-Api-Request" tok))
  end.

(** The status part of [get]: the body of a 200, nil for a 204, an error
    otherwise. *)
Definition api_response (resp : option (Z * str)) : result (option str) :=
  match resp with
  | None => Err (ErrMsg &"unknown response")
  | Some (code, body) =>
      if (code =? 200)%Z then Ok (Some body)
      else if (code =? 204)%Z then Ok None
      else if (code =? 401)%Z then Err ErrUnauthorizedAPI
      else Err (ErrMsg (&"HTTP status: " ++ FormatInt code))
  end.

Definition client_get (gc : Client) (path : str) (params : Values) : result (option str) :=
  let? e := endpoint gc path params in
  let? req := client_request gc &"GET" e in
  let? resp := Do req in
  api_response resp.

Definition pages_path : str := &"/api/v4/internal/pages".
Definition status_path : str := &"/api/v4/internal/pages/status".
Definition host_params (host : str) : Values := Values_Set ∅ &"host" host.

Definition GetLookup (gc : Client) (host : str) : Lookup :=
  match client_get gc pages_path (host_params host) with
  | Err err => mkLookup host (Some err) None
  | Ok None => mkLookup host (Some ErrDomainDoesNotExist) None
  | Ok (Some body) => let '(dom, err) := Decode body in mkLookup host err dom
  end.

Definition Client_Resolve (gc : Client) (host : str) : Lookup := GetLookup gc host.

(** [fmt.Errorf] with [%v]: the cause is not wrapped (its text, which follows
    the message, is left out). *)
Definition Client_Status (gc : Client) : option error :=
  match client_get gc status_path ∅ with
  | Err err => Some (ErrMsg ConnectionErrorMsg)
  | Ok _ => None
  end.

End Client.

(** ** Lemmas *)

Lemma url_resolvePath_abs_ref base ref :
  HasPrefix ref &"/" = true -> url_resolvePath base ref = resolve_dots ref.
Proof.
  intros [t ->]%HasPrefix_spec. change (&"/" ++ t) with ("/"%char :: t).
  unfold url_resolvePath. by rewrite decide_True.
Qed.

(** The endpoint of an absolute path keeps the base's scheme and host. *)
Lemma endpoint_ok gc path params ref :
  Parse path = Some ref -> Scheme ref = [] -> Host ref = [] ->
  User ref = None -> Opaque ref = [] ->
  HasPrefix (EscapedPath ref) &"/" = true -> resolve_dots (EscapedPath ref) = path ->
  url_unescape encodePath path = Some path ->
  exists e, endpoint gc path params = Ok e /\ Scheme e = Scheme (baseURL gc)
    /\ Host e = Host (baseURL gc) /\ Path e = path /\ RawQuery e = Encode params.
Proof.
  intros Hp Hs Hh Hu Ho Ha Hr Hun. unfold endpoint, url_Parse_ref. rewrite Hp. simpl.
  eexists. split; [done|]. unfold ResolveReference, setPath.
  rewrite Hs, Hh, Hu, Ho. change (nonempty []) with false. cbn [orb].
  rewrite (url_resolvePath_abs_ref _ _ Ha), Hr, Hun. done.
Qed.

(** ** Properties *)

(** The lookup request for a host goes to the pages endpoint of the
    configured server, and its query string carries exactly the host name,
    whatever bytes the host is made of. *)
Theorem GetLookup_endpoint gc host :
  exists e, endpoint gc pages_path (host_params host) = Ok e
    /\ Scheme e = Scheme (baseURL gc) /\ Host e = Host (baseURL gc)
    /\ Path e = pages_path /\ Query e = {[ &"host" := [host] ]}.
Proof.
  destruct (endpoint_ok gc pages_path (host_params host) (set_Path pages_path no_url))
    as (e & He & H1 & H2 & H3 & H4); [run|run|run|run|run|run|run|run|].
  exists e. split; [exact He|]. split; [exact H1|]. split; [exact H2|]. split; [exact H3|].
  unfold Query. rewrite H4.
  apply ParseQuery_Encode, map_Forall_singleton. done.
Qed.

(** The answer of the API decides the lookup: a 200 is decoded, a 204
    means the domain does not exist, a 401 is the unauthorized error, every
    other status and every transport failure is an error; the lookup always
    carries the host it was asked for, and a domain only after a 200. *)
Theorem GetLookup_outcomes Do Decode Sign now gc host e req resp :
  endpoint gc pages_path (host_params host) = Ok e ->
  client_request Sign now gc &"GET" e = Ok req ->
  Do req = resp ->
  let l := GetLookup Do Decode Sign now gc host in
  lk_Name l = host
  /\ match resp with
     | Err err => l = mkLookup host (Some err) None
     | Ok None => exists m, l = mkLookup host (Some (ErrMsg m)) None
     | Ok (Some (200%Z, body)) => l = mkLookup host (Decode body).2 (Decode body).1
     | Ok (Some (204%Z, _)) => l = mkLookup host (Some ErrDomainDoesNotExist) None
     | Ok (Some (401%Z, _)) => l = mkLookup host (Some ErrUnauthorizedAPI) None
     | Ok (Some (code, _)) => l = mkLookup host (Some (ErrMsg (&"HTTP status: " ++ FormatInt code))) None
     end.
Proof.
  intros He Hr Hd. cbn zeta. unfold GetLookup, client_get. rewrite He. cbn [result_bind].
  rewrite Hr. cbn [result_bind]. rewrite Hd.
  destruct resp as [[[code body]|]|err]; cbn [result_bind api_response]; [|by eauto|done].
  destruct (code =? 200)%Z eqn:E2; [bools; subst; by destruct (Decode body)|].
  destruct (code =? 204)%Z eqn:E4; [bools; subst; done|].
  destruct (code =? 401)%Z eqn:E1; [bools; subst; done|]. bools.
  split; [done|]. repeat case_match; try done; lia.
Qed.

(** ** A concrete client *)

Definition demo_client : Client :=
  mkClient &"secret" (mkURL &"https" [] None &"gitlab.example" [] [] false [] [] []) 10 30.
Definition demo_sign : str -> str -> Z -> result str := fun _ issuer _ => Ok issuer.
Definition no_decode : str -> option VirtualDomain * option error :=
  fun _ => (None, Some (ErrMsg &"json")).
Definition answer_204 : ApiRequest -> result (option (Z * str)) := fun _ => Ok (Some (204%Z, [])).

Definition demo_endpoint : URL :=
  Eval vm_compute in
    match endpoint demo_client pages_path (host_params &"group.example.io") with
    | Ok e => e | Err _ => no_url end.
Definition demo_request : ApiRequest :=
  Eval vm_compute in
    match client_request demo_sign 0 demo_client &"GET" demo_endpoint with
    | Ok r => r | Err _ => mkApiRequest [] no_url ∅ end.

Lemma GetLookup_outcomes_witness :
  GetLookup answer_204 no_decode demo_sign 0 demo_client &"group.example.io"
  = mkLookup &"group.example.io" (Some ErrDomainDoesNotExist) None.
Proof.
  apply (GetLookup_outcomes answer_204 no_decode demo_sign 0 demo_client &"group.example.io"
           demo_endpoint demo_request (Ok (Some (204%Z, [])))); run.
Defined.
