(* ===== verification/Cache.v ===== *)
(** * The domain cache of the GitLab source

    internal/source/gitlab/cache/{cache,entry,memstore,retriever}.go.  The
    entries live on a heap (a list, a pointer is an index): the store, the
    clients and the refresh goroutines share them.  Every critical section is
    one operation, a goroutine that waits is a job, and the clock moves
    between operations.  github.com/patrickmn/go-cache is a parameter. *)

From S2P Require Import Prelude GoStd Domain GitlabClient.

(** ** go-cache

    [Get] at a time; [SetDefault] at a time, with the default expiration. *)

Record GoCache (C : Type) : Type := mkGoCache {
  cache_Get : Z -> str -> C -> option nat;
  cache_SetDefault : Z -> str -> nat -> C -> C;
  cache_Delete : str -> C -> C;
  cache_New : C }.
Arguments cache_Get {C}.
Arguments cache_SetDefault {C}.
Arguments cache_Delete {C}.
Arguments cache_New {C}.

(** Its documented behaviour: a key reads what was last set, other keys are
    not touched, items vanish by deletion or by time and never come back. *)
Class GoCacheLaws {C} (gc : GoCache C) : Prop := {
  get_new t k : cache_Get gc t k (cache_New gc) = None;
  get_set_eq t k v c : cache_Get gc t k (cache_SetDefault gc t k v c) = Some v;
  get_set_ne t t' k k' v c : k <> k' ->
    cache_Get gc t' k' (cache_SetDefault gc t k v c) = cache_Get gc t' k' c;
  get_delete_eq t k c : cache_Get gc t k (cache_Delete gc k c) = None;
  get_delete_ne t k k' c : k <> k' ->
    cache_Get gc t k' (cache_Delete gc k c) = cache_Get gc t k' c;
  get_earlier t t' k c v : (t <= t')%Z ->
    cache_Get gc t' k c = Some v -> cache_Get gc t k c = Some v }.

(** ** Entries *)

Record Entry : Type := mkEntry {
  e_domain : str; created : Z; refreshedOriginalTimestamp : option Z;
  retrieve_once : bool; refresh_once : bool; response : option Lookup }.

Definition newCacheEntry (domain : str) (now : Z) : Entry :=
  mkEntry domain now None false false None.

Definition set_retrieve (e : Entry) : Entry :=
  mkEntry (e_domain e) (created e) (refreshedOriginalTimestamp e) true (refresh_once e) (response e).
Definition set_refresh (e : Entry) : Entry :=
  mkEntry (e_domain e) (created e) (refreshedOriginalTimestamp e) (retrieve_once e) true (response e).
Definition set_response (l : Lookup) (e : Entry) : Entry :=
  mkEntry (e_domain e) (created e) (refreshedOriginalTimestamp e) (retrieve_once e) (refresh_once e) (Some l).

Definition isResolved (e : Entry) : bool := match response e with Some _ => true | None => false end.

(** The time the timeouts are measured from. *)
Definition reference_time (e : Entry) : Z :=
  match refreshedOriginalTimestamp e with Some t => t | None => created e end.

Section Cache.

Context {C : Type} (gc : GoCache C).
Context (refreshTimeout expirationTimeout : Z).
(** [FF_DISABLE_REFRESH_TEMPORARY_ERROR] is ["true"]. *)
Context (ff_disabled : bool).

Definition isOutdated (now : Z) (e : Entry) : bool := (refreshTimeout <? now - reference_time e)%Z.
Definition isExpired (now : Z) (e : Entry) : bool := (expirationTimeout <? now - reference_time e)%Z.
Definition IsUpToDate (now : Z) (e : Entry) : bool := isResolved e && negb (isOutdated now e).
Definition NeedsRefresh (now : Z) (e : Entry) : bool := isResolved e && isOutdated now e.

Definition hasTemporaryError (e : Entry) : bool :=
  if ff_disabled then false
  else match response e with
       | Some l => match lk_Error l with
                   | Some err => negb (errors_Is err ErrDomainDoesNotExist)
                   | None => false
                   end
       | None => false
       end.

(** ** The shared state *)

Inductive job : Type :=
  | RefreshSpawned (e : nat)            (* [go e.refreshFunc] not yet running *)
  | RefreshWaiting (e entry : nat).     (* in [entry.Retrieve] *)

Record cache_state : Type := mkState {
  heap : list Entry; store : C; clock : Z; jobs : list job;
  history : list (str * Lookup)  (* what the retriever answered, per domain *) }.

Definition init_state : cache_state := mkState [] (cache_New gc) 0 [] [].

Definition with_heap (f : list Entry -> list Entry) (st : cache_state) : cache_state :=
  mkState (f (heap st)) (store st) (clock st) (jobs st) (history st).

(** ** memstore *)

Definition LoadOrCreate (domain : str) (st : cache_state) : nat * cache_state :=
  match cache_Get gc (clock st) domain (store st) with
  | Some id => (id, st)
  | None =>
      let id := length (heap st) in
      (id, mkState (heap st ++ [newCacheEntry domain (clock st)])
             (cache_SetDefault gc (clock st) domain id (store st)) (clock st) (jobs st) (history st))
  end.

Definition ReplaceOrCreate (domain : str) (id : nat) (st : cache_state) : cache_state :=
  mkState (heap st)
    (cache_SetDefault gc (clock st) domain id (cache_Delete gc domain (store st)))
    (clock st) (jobs st) (history st).

(** ** Entry operations on the heap *)

(** [Retrieve] up to the wait: the goroutine is started once. *)
Definition Retrieve (id : nat) (st : cache_state) : cache_state :=
  with_heap (alter set_retrieve id) st.

(** [Refresh]: the goroutine is started once. *)
Definition Refresh (id : nat) (st : cache_state) : cache_state :=
  match heap st !! id with
  | Some e =>
      if refresh_once e then st
      else mkState (alter set_refresh id (heap st)) (store st) (clock st)
             (jobs st ++ [RefreshSpawned id]) (history st)
  | None => st
  end.

(** The retrieval goroutine delivers: [setResponse]. *)
Definition setResponse (id : nat) (l : Lookup) (st : cache_state) : cache_state :=
  match heap st !! id with
  | Some e => mkState (alter (set_response l) id (heap st)) (store st) (clock st) (jobs st)
                (history st ++ [(e_domain e, l)])
  | None => st
  end.

Definition remove_job (n : nat) (st : cache_state) : list job := delete n (jobs st).

(** [refreshFunc] up to the wait in [entry.Retrieve]. *)
Definition refresh_begin (n : nat) (st : cache_state) : cache_state :=
  match jobs st !! n with
  | Some (RefreshSpawned id) =>
      match heap st !! id with
      | Some e =>
          let new := length (heap st) in
          mkState (heap st ++ [set_retrieve (newCacheEntry (e_domain e) (clock st))]) (store st)
            (clock st) (remove_job n st ++ [RefreshWaiting id new]) (history st)
      | None => st
      end
  | _ => st
  end.

(** The entry that [refreshFunc] puts in the store. *)
Definition refreshed_entry (now : Z) (e entry : Entry) : Entry :=
  if negb (isExpired now e) && hasTemporaryError entry then
    mkEntry (e_domain entry) (created entry) (Some (created e)) (retrieve_once entry)
      (refresh_once entry) (response e)
  else entry.

(** The rest of [refreshFunc], once the new entry has its response. *)
Definition refresh_end (n : nat) (st : cache_state) : cache_state :=
  match jobs st !! n with
  | Some (RefreshWaiting id new) =>
      match heap st !! id, heap st !! new with
      | Some e, Some entry =>
          if isResolved entry then
            ReplaceOrCreate (e_domain e) new
              (mkState (<[new := refreshed_entry (clock st) e entry]> (heap st)) (store st)
                 (clock st) (remove_job n st) (history st))
          else st
      | _, _ => st
      end
  | _ => st
  end.

(** ** Cache.Resolve *)

(** The lookup returned at once, or the entry the client waits for. *)
Inductive answer : Type :=
  | Hit (l : option Lookup)
  | Miss (id : nat).

Definition Cache_Resolve (domain : str) (st : cache_state) : answer * cache_state :=
  let '(id, st1) := LoadOrCreate domain st in
  match heap st1 !! id with
  | None => (Miss id, st1)
  | Some e =>
      if IsUpToDate (clock st1) e then (Hit (response e), st1)
      else if NeedsRefresh (clock st1) e then (Hit (response e), Refresh id st1)
      else (Miss id, Retrieve id st1)
  end.

(** The lookup a waiting client gets: a context that is done first wins. *)
Definition wait_result (ctx_done : bool) (id : nat) (st : cache_state) : option Lookup :=
  match heap st !! id with
  | None => None
  | Some e =>
      if ctx_done then Some (mkLookup (e_domain e) (Some (ErrMsg &"context done")) None)
      else response e
  end.

(** ** The retriever *)

(** [resolveWithBackoff]: [calls i] is the answer of the [i]-th call; the
    second component is the number of calls made. *)
Definition final_answer (l : Lookup) : bool :=
  match lk_Error l with
  | None => true
  | Some err => errors_Is err ErrDomainDoesNotExist || errors_Is err ErrUnauthorizedAPI
  end.

Definition zero_lookup : Lookup := mkLookup [] None None.

Fixpoint backoff_loop (calls : nat -> Lookup) (i left : nat) (lookup : Lookup) : Lookup * nat :=
  match left with
  | 0 => (lookup, i)
  | S left' =>
      let lookup := calls i in
      if final_answer lookup then (lookup, S i) else backoff_loop calls (S i) left' lookup
  end.

Definition resolveWithBackoff (calls : nat -> Lookup) (maxRetrievalRetries : Z) : Lookup * nat :=
  backoff_loop calls 0 (Z.to_nat maxRetrievalRetries) zero_lookup.

(** [Retriever.Retrieve]: the timeout may come first. *)
Definition Retriever_Retrieve (timed_out : bool) (calls : nat -> Lookup) (retries : Z) : Lookup :=
  if timed_out then mkLookup [] (Some (ErrMsg &"retrieval context done")) None
  else (resolveWithBackoff calls retries).1.

(** ** The interleavings

    [api d l]: the retriever may answer [l] when asked for [d]. *)

Context (api : str -> Lookup -> Prop).

Inductive cache_step : cache_state -> cache_state -> Prop :=
  | step_tick dt st :
      (0 <= dt)%Z ->
      cache_step st (mkState (heap st) (store st) (clock st + dt) (jobs st) (history st))
  | step_resolve d st : cache_step st (Cache_Resolve d st).2
  (* the critical sections of [Resolve] one by one *)
  | step_load d st : cache_step st (LoadOrCreate d st).2
  | step_refresh id e st : heap st !! id = Some e -> isResolved e = true -> cache_step st (Refresh id st)
  | step_retrieve id st : cache_step st (Retrieve id st)
  | step_retrieved id e l st :
      heap st !! id = Some e -> retrieve_once e = true -> response e = None ->
      api (e_domain e) l -> cache_step st (setResponse id l st)
  | step_refresh_begin n st : cache_step st (refresh_begin n st)
  | step_refresh_end n st : cache_step st (refresh_end n st).

Inductive reachable : cache_state -> Prop :=
  | reachable_init : reachable init_state
  | reachable_step st st' : reachable st -> cache_step st st' -> reachable st'.

(** ** The invariant

    The store and the jobs point to entries of the right domain, and every
    response was given by the retriever for the entry's own domain. *)

(** Entries keep their domain, and a retrieval that was started stays so. *)
Definition entry_le (e e' : Entry) : Prop :=
  e_domain e' = e_domain e /\ (retrieve_once e = true -> retrieve_once e' = true).

Definition heap_le (h h' : list Entry) : Prop :=
  forall id e, h !! id = Some e -> exists e', h' !! id = Some e' /\ entry_le e e'.

#[export] Instance heap_le_preorder : PreOrder heap_le.
Proof.
  split.
  - intros h id e H. exists e. by repeat split.
  - intros h1 h2 h3 H1 H2 id e H. apply H1 in H as (e' & H & Hd & Hr).
    apply H2 in H as (e'' & H & Hd' & Hr'). exists e''. split; [done|]. split; [congruence|auto].
Qed.

Lemma heap_le_app h es : heap_le h (h ++ es).
Proof. intros id e H. exists e. split; [|done]. by apply lookup_app_l_Some. Qed.

Lemma heap_le_alter f id h : (forall e, entry_le e (f e)) -> heap_le h (alter f id h).
Proof.
  intros Hf id' e H. destruct (decide (id = id')) as [->|Hne].
  - exists (f e). rewrite list_lookup_alter_eq, H. auto.
  - exists e. by rewrite list_lookup_alter_ne.
Qed.

Lemma heap_le_insert id e0 x h :
  h !! id = Some e0 -> entry_le e0 x -> heap_le h (<[id := x]> h).
Proof.
  intros H0 Hd id' e H. destruct (decide (id = id')) as [->|Hne].
  - exists x. split; [|congruence]. apply list_lookup_insert_eq. by eapply lookup_lt_Some.
  - exists e. by rewrite list_lookup_insert_ne.
Qed.

Definition points_to (h : list Entry) (d : str) (id : nat) : Prop :=
  exists e, h !! id = Some e /\ e_domain e = d.

Definition job_ok (h : list Entry) (j : job) : Prop :=
  match j with
  | RefreshSpawned id => exists d, points_to h d id
  | RefreshWaiting id new => exists d, points_to h d id /\ points_to h d new
  end.

Definition responses_known (h : list Entry) (hist : list (str * Lookup)) : Prop :=
  forall id e l, h !! id = Some e -> response e = Some l -> (e_domain e, l) ∈ hist.

Record cache_inv (st : cache_state) : Prop := {
  inv_store d id : cache_Get gc (clock st) d (store st) = Some id -> points_to (heap st) d id;
  inv_jobs : Forall (job_ok (heap st)) (jobs st);
  inv_responses : responses_known (heap st) (history st);
  inv_history d l : (d, l) ∈ history st -> api d l }.

Lemma points_to_le h h' d id : heap_le h h' -> points_to h d id -> points_to h' d id.
Proof. intros Hle (e & H & <-). by apply Hle in H as (e' & H & Hd & _); exists e'. Qed.

Lemma jobs_ok_le h h' js : heap_le h h' -> Forall (job_ok h) js -> Forall (job_ok h') js.
Proof.
  intros Hle HF. eapply Forall_impl; [exact HF|].
  intros [id|id new]; simpl; [intros [d H]|intros (d & H1 & H2)]; exists d;
    eauto using points_to_le.
Qed.

Lemma responses_alter f id h hist :
  (forall e, e_domain (f e) = e_domain e /\ response (f e) = response e) ->
  responses_known h hist -> responses_known (alter f id h) hist.
Proof.
  intros Hf HR id' e l H Hl. destruct (decide (id = id')) as [->|Hne].
  - rewrite list_lookup_alter_eq in H. destruct (h !! id') as [e0|] eqn:E; [|done].
    simplify_eq/=. destruct (Hf e0) as [Hd Hr]. rewrite Hd. rewrite Hr in Hl. eauto.
  - rewrite list_lookup_alter_ne in H by done. eauto.
Qed.

Lemma responses_app_empty h e hist :
  response e = None -> responses_known h hist -> responses_known (h ++ [e]) hist.
Proof.
  intros He HR id e' l [H|[_ H]]%lookup_app_Some Hl; [eauto|].
  apply list_lookup_singleton_Some in H as [_ <-]. congruence.
Qed.

Lemma points_to_new h e d : e_domain e = d -> points_to (h ++ [e]) d (length h).
Proof. intros <-. exists e. split; [|done]. by rewrite list_lookup_middle. Qed.

Lemma jobs_delete h js n : Forall (job_ok h) js -> Forall (job_ok h) (delete n js).
Proof. apply Forall_delete. Qed.

Context {laws : GoCacheLaws gc}.

Lemma inv_init : cache_inv init_state.
Proof using laws.
  split; simpl.
  - intros d id. by rewrite get_new.
  - constructor.
  - intros id e l H. done.
  - intros d l H. by apply not_elem_of_nil in H.
Qed.

Lemma get_set_cases t d d' id c id' :
  cache_Get gc t d' (cache_SetDefault gc t d id c) = Some id' ->
  (d' = d /\ id' = id) \/ cache_Get gc t d' c = Some id'.
Proof using laws.
  destruct (decide (d = d')) as [->|Hne].
  - rewrite get_set_eq. intros [= ->]. by left.
  - rewrite get_set_ne by done. by right.
Qed.

Lemma get_delete_cases t d d' c id :
  cache_Get gc t d' (cache_Delete gc d c) = Some id -> cache_Get gc t d' c = Some id.
Proof using laws.
  destruct (decide (d = d')) as [->|Hne]; [by rewrite get_delete_eq|by rewrite get_delete_ne].
Qed.

Lemma LoadOrCreate_inv d st :
  cache_inv st -> let '(id, st') := LoadOrCreate d st in
  cache_inv st' /\ points_to (heap st') d id /\ clock st' = clock st.
Proof using laws.
  intros [Hs Hj Hr Hh]. unfold LoadOrCreate.
  destruct (cache_Get gc (clock st) d (store st)) as [id|] eqn:E; [by eauto 10 using Build_cache_inv|].
  split; [|split; [by apply points_to_new|done]]. split; simpl; try done.
  - intros d' id' [[-> ->]|H]%get_set_cases; [by apply points_to_new|].
    eapply points_to_le; [apply heap_le_app|eauto].
  - eapply jobs_ok_le; [apply heap_le_app|done].
  - by apply responses_app_empty.
Qed.

Lemma alter_inv f id st :
  (forall e, entry_le e (f e) /\ response (f e) = response e) ->
  cache_inv st -> cache_inv (with_heap (alter f id) st).
Proof using laws.
  intros Hf [Hs Hj Hr Hh]. assert (heap_le (heap st) (alter f id (heap st)))
    by (apply heap_le_alter; intros e; apply (Hf e)).
  split; simpl; try done.
  - intros d' id' H'. eauto using points_to_le.
  - by eapply jobs_ok_le.
  - apply responses_alter; [|done]. intros e. destruct (Hf e) as [[Hd _] Hres]. done.
Qed.

Lemma add_job_inv j st :
  job_ok (heap st) j -> cache_inv st ->
  cache_inv (mkState (heap st) (store st) (clock st) (jobs st ++ [j]) (history st)).
Proof using laws.
  intros Hok [Hs Hj Hr Hh]. split; simpl; try done. apply Forall_app. by split; [|constructor].
Qed.

Lemma Refresh_inv id st : cache_inv st -> cache_inv (Refresh id st).
Proof using laws.
  intros Hinv. unfold Refresh. destruct (heap st !! id) as [e|] eqn:E; [|done].
  destruct (refresh_once e); [done|].
  refine (add_job_inv (RefreshSpawned id) (with_heap (alter set_refresh id) st) _ _); [|by apply alter_inv].
  exists (e_domain e). eapply points_to_le; [by apply heap_le_alter|]. by exists e.
Qed.

Lemma setResponse_inv id e l st :
  heap st !! id = Some e -> api (e_domain e) l -> cache_inv st -> cache_inv (setResponse id l st).
Proof using laws.
  intros He Ha [Hs Hj Hr Hh]. unfold setResponse. rewrite He.
  assert (heap_le (heap st) (alter (set_response l) id (heap st))) by (by apply heap_le_alter).
  split; simpl.
  - intros d' id' H'. eauto using points_to_le.
  - by eapply jobs_ok_le.
  - intros id' e' l' H' Hl. apply elem_of_app. destruct (decide (id = id')) as [->|Hne].
    + rewrite list_lookup_alter_eq, He in H'. simplify_eq/=. right. set_solver.
    + rewrite list_lookup_alter_ne in H' by done. left. eauto.
  - intros d' l' [H'|H']%elem_of_app; [eauto|]. apply list_elem_of_singleton in H'. by simplify_eq.
Qed.

Lemma refresh_begin_inv n st : cache_inv st -> cache_inv (refresh_begin n st).
Proof using laws.
  intros Hinv. unfold refresh_begin. destruct (jobs st !! n) as [[id|]|] eqn:Ej; try done.
  destruct (heap st !! id) as [e|] eqn:E; [|done]. destruct Hinv as [Hs Hj Hr Hh].
  split; simpl; try done.
  - intros d' id' H'. eapply points_to_le; [apply heap_le_app|eauto].
  - apply Forall_app. split.
    + apply jobs_delete. eapply jobs_ok_le; [apply heap_le_app|done].
    + constructor; [|done]. exists (e_domain e). split; [|by apply points_to_new].
      eapply points_to_le; [apply heap_le_app|]. by exists e.
  - by apply responses_app_empty.
Qed.

Lemma refresh_end_inv n st : cache_inv st -> cache_inv (refresh_end n st).
Proof using laws.
  intros Hinv. unfold refresh_end. destruct (jobs st !! n) as [[|id new]|] eqn:Ej; try done.
  destruct (heap st !! id) as [e|] eqn:Ee; [|done]. destruct (heap st !! new) as [entry|] eqn:En; [|done].
  destruct (isResolved entry); [|done]. destruct Hinv as [Hs Hj Hr Hh].
  assert (Hd : e_domain e = e_domain entry).
  { rewrite Forall_forall in Hj. destruct (Hj _ (list_elem_of_lookup_2 _ _ _ Ej)) as (d & (a & Ha & <-) & (b & Hb & Hab)).
    congruence. }
  set (x := refreshed_entry (clock st) e entry).
  assert (Hx : e_domain x = e_domain entry) by (subst x; unfold refreshed_entry; by case_match).
  assert (Hle : heap_le (heap st) (<[new := x]> (heap st)))
    by (eapply heap_le_insert; [done|]; subst x; unfold refreshed_entry; by case_match).
  split; simpl; try done.
  - intros d' id' [[-> ->]|H%get_delete_cases]%get_set_cases; [|eauto using points_to_le].
    exists x. split; [|congruence]. apply list_lookup_insert_eq. by eapply lookup_lt_Some.
  - apply jobs_delete. by eapply jobs_ok_le.
  - intros id' e' l H' Hl. destruct (decide (new = id')) as [->|Hne].
    + rewrite list_lookup_insert_eq in H' by (by eapply lookup_lt_Some).
      assert (e' = x) as -> by congruence. rewrite Hx. subst x. unfold refreshed_entry in Hl. case_match; simpl in Hl; [|by eauto].
      rewrite <- Hd. eauto.
    + rewrite list_lookup_insert_ne in H' by done. eauto.
Qed.

Lemma Cache_Resolve_inv d st : cache_inv st -> cache_inv (Cache_Resolve d st).2.
Proof using laws.
  intros Hinv. unfold Cache_Resolve. pose proof (LoadOrCreate_inv d st Hinv) as HL.
  destruct (LoadOrCreate d st) as [id st1]. destruct HL as (Hinv1 & _ & _).
  repeat case_match; simpl; try done; [by apply Refresh_inv|by apply alter_inv].
Qed.

Lemma tick_inv dt st :
  (0 <= dt)%Z -> cache_inv st ->
  cache_inv (mkState (heap st) (store st) (clock st + dt) (jobs st) (history st)).
Proof using laws.
  intros Hdt [Hs Hj Hr Hh]. split; simpl; try done.
  intros d id H. apply Hs. eapply get_earlier; [|exact H]. lia.
Qed.

Lemma cache_step_inv st st' : cache_inv st -> cache_step st st' -> cache_inv st'.
Proof using laws.
  intros IH Hstep.
  destruct Hstep as [|d st|d st| |id st| | |]; eauto using tick_inv, Cache_Resolve_inv, setResponse_inv, refresh_begin_inv,
    refresh_end_inv, Refresh_inv; [|by apply alter_inv].
  pose proof (LoadOrCreate_inv d st IH) as HL. destruct (LoadOrCreate d st). apply HL.
Qed.

Lemma reachable_inv st : reachable st -> cache_inv st.
Proof using laws.
  induction 1 as [|st st' _ IH Hstep]; [apply inv_init|]. by eapply cache_step_inv.
Qed.

End Cache.

Arguments mkState {C}.
Arguments heap {C}.
Arguments store {C}.
Arguments clock {C}.
Arguments jobs {C}.
Arguments history {C}.

(** ** Properties *)

Section Properties.

Context {C : Type} (gc : GoCache C) {laws : GoCacheLaws gc}.
Context (refreshTimeout expirationTimeout : Z) (ff_disabled : bool).
Context (api : str -> Lookup -> Prop).

(** What a finished refresh leaves in the store: the entry of the
    domain is the refreshed one; it carries the previous response when the
    new answer is a temporary error and the old entry has not expired, and
    the new answer in every other case, so that a success, a deleted domain
    and an expired entry take effect at once. *)
Theorem refresh_outcome st n id new e entry old lk :
  jobs st !! n = Some (RefreshWaiting id new) ->
  heap st !! id = Some e -> heap st !! new = Some entry -> id <> new ->
  response e = Some old -> response entry = Some lk ->
  let st' := refresh_end gc expirationTimeout ff_disabled n st in
  cache_Get gc (clock st') (e_domain e) (store st') = Some new
  /\ exists x, heap st' !! new = Some x
       /\ response x
          = Some (if negb (isExpired expirationTimeout (clock st) e) && negb ff_disabled
                     && match lk_Error lk with
                        | Some err => negb (errors_Is err ErrDomainDoesNotExist)
                        | None => false
                        end
                  then old else lk).
Proof using laws.
  intros Hj He Hen Hne Hold Hlk. unfold refresh_end, isResolved. rewrite Hj, He, Hen, Hlk. simpl.
  split; [apply get_set_eq|]. eexists. split.
  { apply list_lookup_insert_eq. by eapply lookup_lt_Some. }
  unfold refreshed_entry, hasTemporaryError. rewrite Hlk.
  destruct (isExpired _ _ e), ff_disabled; simpl; try done.
  destruct (lk_Error lk) as [err|]; simpl; [|done]. by destruct (errors_Is err _).
Qed.

End Properties.

(** The retriever asks at most as often as configured and at least once
    when that is positive; it returns the answer of its last call, stops at
    the first success, missing domain or authorisation error, and otherwise
    has used up its calls. *)
Theorem resolveWithBackoff_last_answer calls retries :
  let '(l, n) := resolveWithBackoff calls retries in
  (Z.of_nat n <= Z.max 0 retries)%Z
  /\ (if (0 <? retries)%Z
      then 0 < n /\ l = calls (n - 1)
           /\ (forall i, i < n - 1 -> final_answer (calls i) = false)
           /\ (final_answer l = true \/ Z.of_nat n = retries)
      else l = zero_lookup /\ n = 0).
Proof.
  unfold resolveWithBackoff.
  assert (Hloop : forall left i l0, let '(l, n) := backoff_loop calls i left l0 in
    i <= n <= i + left
    /\ (0 < left -> i < n /\ l = calls (n - 1)
         /\ (forall j, i <= j < n - 1 -> final_answer (calls j) = false)
         /\ (final_answer l = true \/ n = i + left))
    /\ (left = 0 -> l = l0 /\ n = i)).
  { induction left as [|left IH]; intros i l0; simpl; [split; [lia|]; split; [lia|done]|].
    destruct (final_answer (calls i)) eqn:E.
    - split; [lia|]. split; [|lia]. intros _. rewrite Nat.sub_succ, Nat.sub_0_r.
      split; [lia|]. split; [done|]. split; [lia|by left].
    - specialize (IH (S i) (calls i)). destruct (backoff_loop calls (S i) left (calls i)) as [l n].
      destruct IH as (H1 & H2 & H3). split; [lia|]. split; [|lia]. intros _.
      destruct left as [|left].
      + destruct (H3 eq_refl) as [-> ->]. rewrite Nat.sub_succ, Nat.sub_0_r.
        split; [lia|]. split; [done|]. split; [lia|right; lia].
      + destruct (H2 ltac:(lia)) as (Ha & Hb & Hc & Hd). split; [lia|]. split; [done|]. split.
        * intros j Hj. destruct (decide (j = i)) as [->|]; [done|]. apply Hc. lia.
        * destruct Hd; [by left|right; lia]. }
  specialize (Hloop (Z.to_nat retries) 0 zero_lookup).
  destruct (backoff_loop calls 0 (Z.to_nat retries) zero_lookup) as [l n].
  destruct Hloop as (H1 & H2 & H3). split; [lia|]. destruct (0 <? retries)%Z eqn:E; bools.
  - destruct (H2 ltac:(lia)) as (Ha & Hb & Hc & Hd). repeat split; try done.
    + intros i Hi. apply Hc. lia.
    + destruct Hd; [by left|right; lia].
  - apply H3. lia.
Qed.

(** ** Staleness

    A cache that keeps items for at least [ttl]. *)
Class GoCacheRetains {C} (gc : GoCache C) (ttl : Z) : Prop :=
  get_retained t t' k v c : (t <= t' <= t + ttl)%Z ->
    cache_Get gc t' k (cache_SetDefault gc t k v c) = Some v.

Section Stale.

Context {C : Type} (gc : GoCache C) {laws : GoCacheLaws gc} {retains : GoCacheRetains gc 600}.
Context (d : str) (good bad : Lookup).
Hypothesis bad_temporary :
  match lk_Error bad with
  | Some err => errors_Is err ErrDomainDoesNotExist = false
  | None => False
  end.

(** The API answers [good] or [bad]. *)
Definition flaky (_ : str) (l : Lookup) : Prop := l = good \/ l = bad.

Abbreviation reach60 := (reachable gc 60 600 false flaky).

(** The store holds an unrefreshed entry with [good], created 61 seconds ago
    and measured from at most 122 seconds ago, and no goroutine runs. *)
Definition stale_at (t : Z) (hist : list (str * Lookup)) (st : cache_state) : Prop :=
  reach60 st /\ clock st = t /\ jobs st = [] /\ history st = hist
  /\ exists k e, cache_Get gc t d (store st) = Some k /\ heap st !! k = Some e
       /\ e_domain e = d /\ refresh_once e = false /\ response e = Some good
       /\ created e = (t - 61)%Z /\ (t - 122 <= reference_time e <= t - 61)%Z.

Lemma stale_start : exists st, stale_at 61 [(d, good)] st.
Proof using laws retains.
  set (st0 := init_state gc).
  set (st1 := (Cache_Resolve gc 60 d st0).2).
  set (st2 := setResponse 0 good st1).
  set (st3 := mkState (heap st2) (store st2) (clock st2 + 61) (jobs st2) (history st2)).
  assert (Hst1 : st1 = mkState [mkEntry d 0 None true false None]
                         (cache_SetDefault gc 0 d 0 (cache_New gc)) 0 [] []).
  { subst st1 st0. unfold Cache_Resolve, LoadOrCreate. simpl. by rewrite get_new. }
  assert (Hst2 : st2 = mkState [mkEntry d 0 None true false (Some good)]
                         (cache_SetDefault gc 0 d 0 (cache_New gc)) 0 [] [(d, good)]).
  { subst st2. by rewrite Hst1. }
  exists st3. split.
  { eapply reachable_step; [|by apply step_tick]. eapply reachable_step.
    - eapply reachable_step; [apply reachable_init|apply step_resolve].
    - fold st0 st1. eapply (step_retrieved _ _ _ _ _ 0); [by rewrite Hst1|done|done|by left]. }
  subst st3. rewrite Hst2. simpl. repeat split; try done.
  exists 0, (mkEntry d 0 None true false (Some good)). split; [apply get_retained; lia|].
  repeat split; done.
Qed.

Lemma stale_refresh_entry t e :
  response e = Some good -> (t - 122 <= reference_time e)%Z ->
  refreshed_entry 600 false t e (mkEntry d t None true false (Some bad))
  = mkEntry d t (Some (created e)) true false (Some good).
Proof using bad_temporary.
  intros Hr Ht. unfold refreshed_entry, hasTemporaryError, isExpired. simpl.
  assert ((600 <? t - reference_time e)%Z = false) as -> by lia.
  destruct (lk_Error bad); [|done]. rewrite bad_temporary. simpl. by rewrite Hr.
Qed.

(** A client finds the entry outdated and starts the refresh. *)
Lemma stale_asked t hist h s k e :
  reach60 (mkState h s t [] hist) -> cache_Get gc t d s = Some k -> h !! k = Some e ->
  refresh_once e = false -> response e = Some good -> (reference_time e <= t - 61)%Z ->
  reach60 (mkState (alter set_refresh k h) s t [RefreshSpawned k] hist).
Proof using Type.
  intros Hreach Hget Hk Hro Hresp Href. eapply reachable_step; [exact Hreach|].
  assert (E : (Cache_Resolve gc 60 d (mkState h s t [] hist)).2
              = mkState (alter set_refresh k h) s t [RefreshSpawned k] hist).
  { unfold Cache_Resolve, LoadOrCreate. simpl. rewrite Hget. simpl. rewrite Hk.
    unfold IsUpToDate, NeedsRefresh, isResolved, isOutdated. rewrite Hresp.
    assert ((60 <? t - reference_time e)%Z = true) as -> by lia. simpl.
    unfold Refresh. simpl. by rewrite Hk, Hro. }
  rewrite <- E. apply step_resolve.
Qed.

(** The refresh runs, fails, and puts back the response it had. *)
Lemma stale_refreshed t hist h s k e :
  reach60 (mkState h s t [RefreshSpawned k] hist) -> h !! k = Some e ->
  e_domain e = d -> response e = Some good -> (t - 122 <= reference_time e)%Z ->
  reach60 (mkState (h ++ [mkEntry d t (Some (created e)) true false (Some good)])
             (cache_SetDefault gc t d (length h) (cache_Delete gc d s)) t [] (hist ++ [(d, bad)])).
Proof using bad_temporary.
  intros Hreach Hk Hd Hresp Href. set (n := length h).
  set (x := mkEntry d t None true false None). set (y := mkEntry d t None true false (Some bad)).
  assert (Hn : forall e', (h ++ [e']) !! n = Some e') by (intros e'; subst n; by rewrite list_lookup_middle).
  eapply (reachable_step _ _ _ _ _ (mkState (h ++ [y]) s t [RefreshWaiting k n] (hist ++ [(d, bad)]))).
  - eapply (reachable_step _ _ _ _ _ (mkState (h ++ [x]) s t [RefreshWaiting k n] hist)).
    + assert (E : refresh_begin 0 (mkState h s t [RefreshSpawned k] hist)
                  = mkState (h ++ [x]) s t [RefreshWaiting k n] hist).
      { unfold refresh_begin. simpl. rewrite Hk. subst x. simpl. by rewrite Hd. }
      rewrite <- E. eapply reachable_step; [exact Hreach|apply step_refresh_begin].
    + assert (E : setResponse n bad (mkState (h ++ [x]) s t [RefreshWaiting k n] hist)
                  = mkState (h ++ [y]) s t [RefreshWaiting k n] (hist ++ [(d, bad)])).
      { unfold setResponse. cbn [heap]. rewrite Hn. cbn [store clock jobs history e_domain].
        f_equal. subst n. by rewrite alter_app_r_alt, Nat.sub_diag by lia. }
      rewrite <- E. eapply step_retrieved; [apply Hn|done|done|by right].
  - match goal with |- cache_step _ _ _ _ _ ?st ?st' => assert (E : refresh_end gc 600 false 0 st = st') end.
    { unfold refresh_end. cbn [jobs heap]. cbn [lookup list_lookup].
      rewrite lookup_app_l by (by eapply lookup_lt_Some). rewrite Hk, Hn.
      cbn [isResolved response y]. unfold ReplaceOrCreate. cbn [heap store clock jobs history].
      subst y. rewrite stale_refresh_entry, Hd by done.
      f_equal. subst n. by rewrite insert_app_r_alt, Nat.sub_diag by lia. }
    rewrite <- E. apply step_refresh_end.
Qed.

Lemma stale_round t hist st :
  stale_at t hist st -> exists st', stale_at (t + 61) (hist ++ [(d, bad)]) st'.
Proof using laws retains bad_temporary.
  intros (Hreach & Hclk & Hjobs & Hhist & k & e & Hget & Hk & Hd & Hro & Hresp & Hcr & Href).
  destruct st as [h s c js hi]. simpl in *. subst c js hi.
  assert (Hk1 : alter set_refresh k h !! k = Some (set_refresh e)) by (by rewrite list_lookup_alter_eq, Hk).
  eapply (stale_asked _ _ _ _ k e) in Hreach; [|done..|lia].
  eapply (stale_refreshed _ _ _ _ k _) in Hreach; [|done..|]; [|change (t - 122 <= reference_time e)%Z; lia].
  set (h1 := alter set_refresh k h) in *. eexists. split; [eapply reachable_step; [exact Hreach|by apply (step_tick _ _ _ _ _ 61)]|].
  repeat split; try done. eexists (length h1), _. cbn [store heap].
  split; [apply get_retained; lia|]. split; [by rewrite list_lookup_middle|].
  repeat split; try done; cbn [created set_refresh reference_time refreshedOriginalTimestamp]; lia.
Qed.

(** A response can be served long after it expired: with a refresh
    timeout of 60 s and an expiration of 600 s there is, for every number of
    failed refreshes, a run in which every later API call failed with a
    temporary error, more than 61 s passed per call, and the first response
    is still given to the client. *)
Theorem stale_response_outlives_expiration n :
  exists st, reach60 st /\ clock st = (61 * (Z.of_nat n + 1))%Z
    /\ history st = (d, good) :: replicate n (d, bad)
    /\ (Cache_Resolve gc 60 d st).1 = Hit (Some good).
Proof using laws retains bad_temporary.
  assert (exists st, stale_at (61 * (Z.of_nat n + 1)) ((d, good) :: replicate n (d, bad)) st) as [st Hst].
  { induction n as [|n [st IH]]; [apply stale_start|].
    apply stale_round in IH as [st' IH]. exists st'.
    replace (61 * (Z.of_nat (S n) + 1))%Z with (61 * (Z.of_nat n + 1) + 61)%Z by lia.
    by rewrite replicate_S_end. }
  exists st. destruct Hst as (H1 & H2 & _ & H3 & k & e & Hget & Hk & _ & _ & Hresp & _ & Href).
  repeat split; try done. unfold Cache_Resolve, LoadOrCreate. rewrite H2, Hget, Hk.
  unfold IsUpToDate, NeedsRefresh, isResolved. rewrite Hresp. by destruct (isOutdated _ _ e).
Qed.

End Stale.

(** ** A concrete cache *)

(** Items with their expiration time. *)
Definition ttl_cache (ttl : Z) : GoCache (gmap str (nat * Z)) := {|
  cache_Get t k c := match c !! k with
                     | Some (v, exp) => if (t <=? exp)%Z then Some v else None
                     | None => None end;
  cache_SetDefault t k v c := <[k := (v, (t + ttl)%Z)]> c;
  cache_Delete k c := delete k c;
  cache_New := ∅ |}.

#[export] Instance ttl_cache_laws : GoCacheLaws (ttl_cache 600).
Proof.
  split; simpl; intros.
  - by rewrite lookup_empty.
  - rewrite lookup_insert_eq. by assert ((t <=? t + 600)%Z = true) as -> by lia.
  - by rewrite lookup_insert_ne.
  - by rewrite lookup_delete_eq.
  - by rewrite lookup_delete_ne.
  - destruct (c !! k) as [[v' exp]|]; [|done].
    destruct (t' <=? exp)%Z eqn:E; [|done]. bools. by assert ((t <=? exp)%Z = true) as -> by lia.
Qed.

#[export] Instance ttl_cache_retains : GoCacheRetains (ttl_cache 600) 600.
Proof.
  intros t t' k v c H. simpl. rewrite lookup_insert_eq. by assert ((t' <=? t + 600)%Z = true) as -> by lia.
Qed.

Definition demo_name : str := &"group.example.io".
Definition good_lookup : Lookup := mkLookup demo_name None (Some (mkVirtualDomain [] [] [])).
Definition bad_lookup : Lookup := mkLookup demo_name (Some (ErrMsg &"HTTP status: 500")) None.
Definition own_name : str -> Lookup -> Prop := fun d l => lk_Name l = d.

Definition refreshing_state : @cache_state (gmap str (nat * Z)) :=
  mkState [mkEntry demo_name 0 None true true (Some good_lookup);
           mkEntry demo_name 61 None true false (Some bad_lookup)]
    {[ demo_name := (0, 600%Z) ]} 61 [RefreshWaiting 0 1] [].

Lemma refresh_outcome_witness :
  exists x, heap (refresh_end (ttl_cache 600) 600 false 0 refreshing_state) !! 1 = Some x
            /\ response x = Some good_lookup.
Proof.
  destruct (refresh_outcome (ttl_cache 600) 600 false refreshing_state 0 0 1
    (mkEntry demo_name 0 None true true (Some good_lookup))
    (mkEntry demo_name 61 None true false (Some bad_lookup)) good_lookup bad_lookup
    eq_refl eq_refl eq_refl ltac:(done) eq_refl eq_refl) as [_ (x & Hx & Hr)].
  exists x. split; [exact Hx|exact Hr].
Defined.

Lemma stale_response_outlives_expiration_witness :
  exists st : @cache_state (gmap str (nat * Z)), clock st = 732%Z
    /\ (Cache_Resolve (ttl_cache 600) 60 demo_name st).1 = Hit (Some good_lookup).
Proof.
  destruct (stale_response_outlives_expiration (ttl_cache 600) demo_name good_lookup bad_lookup eq_refl 11)
    as (st & _ & Hc & _ & Hh).
  exists st. split; [exact Hc|exact Hh].
Defined.
