(* ===== verification/CacheLiveness.v ===== *)
(** * Progress of the domain cache

    Infinite runs of the transition system of Cache.v under a fair scheduler:
    a goroutine that can go on is not passed over for ever.  The generic part
    is the rule of progress for such runs; the theorems say that clients are
    answered and outdated entries replaced. *)

From S2P Require Import Prelude GoStd Domain GitlabClient Cache.

(** ** Fair runs *)

Section Fair.

#[local] Set Default Proof Using "Type".

Context {St : Type}.

(** An action that can be enabled and taken. *)
Record action : Type := mkAction { enabled : St -> Prop; taken : St -> St -> Prop }.

(** Weak fairness: again and again the action is disabled or taken, so that
    it cannot stay enabled without being taken. *)
Definition weakly_fair (act : action) (run : nat -> St) : Prop :=
  forall i, exists j, i <= j /\ (~ enabled act (run j) \/ taken act (run j) (run (S j))).

Definition run_of (step : St -> St -> Prop) (run : nat -> St) : Prop := forall i, step (run i) (run (S i)).

(** [P] holds up to a time, or [Q] is reached before. *)
Lemma waits (P Q : St -> Prop) run i n :
  (forall j, i <= j -> P (run j) -> P (run (S j)) \/ Q (run (S j))) ->
  P (run i) -> (exists j, i <= j /\ Q (run j)) \/ P (run (i + n)).
Proof.
  intros Hstep Hi. induction n as [|n IH]; [right; by rewrite Nat.add_0_r|].
  destruct IH as [IH|IH]; [by left|]. rewrite Nat.add_succ_r.
  destruct (Hstep (i + n)) as [HP|HQ]; [lia|done|by right|]. left. exists (S (i + n)). split; [lia|done].
Qed.

(** The rule of progress: a state with [P] keeps [P] or reaches [Q], [P]
    enables the action, and the action leads from [P] to [Q]. *)
Lemma leads_to act (P Q : St -> Prop) run i :
  weakly_fair act run ->
  (forall j, i <= j -> P (run j) -> P (run (S j)) \/ Q (run (S j))) ->
  (forall j, i <= j -> P (run j) -> enabled act (run j)) ->
  (forall j, i <= j -> P (run j) -> taken act (run j) (run (S j)) -> Q (run (S j))) ->
  P (run i) -> exists j, i <= j /\ Q (run j).
Proof.
  intros Hfair Hstep Hen Htake Hi. destruct (Hfair i) as (j & Hj & Hor).
  destruct (waits P Q run i (j - i) Hstep Hi) as [HQ|HP]; [done|].
  replace (i + (j - i)) with j in HP by lia.
  destruct Hor as [Hdis|Htaken]; [destruct Hdis; by apply Hen|].
  exists (S j). split; [lia|]. by apply Htake.
Qed.

End Fair.

(** ** The goroutines of the cache *)

#[export] Instance job_eq_dec : EqDecision job.
Proof. solve_decision. Defined.

Section Progress.

#[local] Set Default Proof Using "Type".

Context {C : Type} (gc : GoCache C) (refreshTimeout expirationTimeout : Z) (ff_disabled : bool).
Context (api : str -> Lookup -> Prop).

Abbreviation step := (cache_step gc refreshTimeout expirationTimeout ff_disabled api).
Abbreviation state := (cache_state (C := C)).

Definition started (st : state) (id : nat) : Prop := exists e, heap st !! id = Some e /\ retrieve_once e = true.
Definition resolved (st : state) (id : nat) : Prop := exists e, heap st !! id = Some e /\ is_Some (response e).
Definition unresolved (st : state) (id : nat) : Prop := exists e, heap st !! id = Some e /\ response e = None.

(** The goroutine of a retrieval, which returns because of its timeout, and
    the two parts of the goroutine of a refresh. *)
Definition retrieval (id : nat) : action := mkAction
  (fun st : state => started st id /\ unresolved st id)
  (fun st st' : state => exists e l, heap st !! id = Some e /\ api (e_domain e) l /\ st' = setResponse id l st).
Definition refresh_start (id : nat) : action := mkAction
  (fun st : state => RefreshSpawned id ∈ jobs st)
  (fun st st' : state => exists n, jobs st !! n = Some (RefreshSpawned id) /\ st' = refresh_begin n st).
Definition refresh_finish (id new : nat) : action := mkAction
  (fun st : state => RefreshWaiting id new ∈ jobs st /\ resolved st new)
  (fun st st' : state => exists n, jobs st !! n = Some (RefreshWaiting id new)
     /\ st' = refresh_end gc expirationTimeout ff_disabled n st).

Record fair_run (run : nat -> state) : Prop := {
  fr_init : run 0 = init_state gc;
  fr_steps : run_of step run;
  fr_retrieval id : weakly_fair (retrieval id) run;
  fr_start id : weakly_fair (refresh_start id) run;
  fr_finish id new : weakly_fair (refresh_finish id new) run }.

(** ** What a step keeps *)

Definition entry_le (e e' : Entry) : Prop :=
  e_domain e' = e_domain e /\ (retrieve_once e = true -> retrieve_once e' = true)
  /\ (is_Some (response e) -> is_Some (response e')).

Definition heap_mono (h h' : list Entry) : Prop :=
  forall id e, h !! id = Some e -> exists e', h' !! id = Some e' /\ entry_le e e'.

Lemma entry_le_refl e : entry_le e e.
Proof. by repeat split. Qed.

Lemma heap_mono_refl h : heap_mono h h.
Proof. intros id e H. exists e. split; [done|apply entry_le_refl]. Qed.

Lemma heap_mono_app h es : heap_mono h (h ++ es).
Proof. intros id e H. exists e. split; [by apply lookup_app_l_Some|apply entry_le_refl]. Qed.

Lemma heap_mono_alter f id h : (forall e, entry_le e (f e)) -> heap_mono h (alter f id h).
Proof.
  intros Hf id' e H. destruct (decide (id = id')) as [->|Hne].
  - exists (f e). rewrite list_lookup_alter_eq, H. split; [done|apply Hf].
  - exists e. rewrite list_lookup_alter_ne by done. split; [done|apply entry_le_refl].
Qed.

Lemma heap_mono_insert id e0 x h : h !! id = Some e0 -> entry_le e0 x -> heap_mono h (<[id := x]> h).
Proof.
  intros H0 Hx id' e H. destruct (decide (id = id')) as [->|Hne].
  - exists x. split; [apply list_lookup_insert_eq; by eapply lookup_lt_Some|congruence].
  - exists e. rewrite list_lookup_insert_ne by done. split; [done|apply entry_le_refl].
Qed.

Lemma heap_mono_trans h1 h2 h3 : heap_mono h1 h2 -> heap_mono h2 h3 -> heap_mono h1 h3.
Proof.
  intros H1 H2 id e H. apply H1 in H as (e' & H & Hd & Hr & Hs). apply H2 in H as (e'' & H & Hd' & Hr' & Hs').
  exists e''. split; [done|]. split; [congruence|]. split; auto.
Qed.

Lemma heap_mono_length h h' : heap_mono h h' -> length h <= length h'.
Proof.
  intros Hm. apply Nat.nlt_ge. intros Hlt. destruct (lookup_lt_is_Some_2 h (length h') Hlt) as [e He].
  apply Hm in He as (e' & He' & _). apply lookup_lt_Some in He'. lia.
Qed.

Lemma started_mono st st' id : heap_mono (heap st) (heap st') -> started st id -> started st' id.
Proof. intros Hm (e & H & Hr). apply Hm in H as (e' & H & _ & Hr' & _). exists e'. auto. Qed.
Lemma resolved_mono st st' id : heap_mono (heap st) (heap st') -> resolved st id -> resolved st' id.
Proof. intros Hm (e & H & Hr). apply Hm in H as (e' & H & _ & _ & Hr'). exists e'. auto. Qed.

(** The goroutines of refreshes work on resolved entries, and have started
    the retrieval they wait for. *)
Definition job_progress (st : state) (j : job) : Prop :=
  match j with
  | RefreshSpawned id => resolved st id
  | RefreshWaiting id new => resolved st id /\ started st new
  end.
Definition progress_inv (st : state) : Prop := forall j, j ∈ jobs st -> job_progress st j.

Lemma job_progress_mono st st' j : heap_mono (heap st) (heap st') -> job_progress st j -> job_progress st' j.
Proof. intros Hm. destruct j; cbn; [by apply resolved_mono|intros [H1 H2]; split; eauto using resolved_mono, started_mono]. Qed.

(** A goroutine other than the one that runs is left alone. *)
Lemma elem_of_delete_other {A} (l : list A) n x y : x ∈ l -> l !! n = Some y -> x <> y -> x ∈ delete n l.
Proof. intros Hx Hn Hne. rewrite (delete_Permutation _ _ _ Hn) in Hx. by apply elem_of_cons in Hx as [->|Hx]. Qed.

Lemma elem_of_delete_inv {A} (l : list A) n x : x ∈ delete n l -> x ∈ l.
Proof. intros Hx. eapply elem_of_submseteq; [exact Hx|]. apply sublist_submseteq, sublist_delete. Qed.

Lemma Retrieve_mono id (st : state) : heap_mono (heap st) (heap (Retrieve id st)).
Proof. apply heap_mono_alter. intros e. by repeat split. Qed.

Lemma Refresh_mono id (st : state) : heap_mono (heap st) (heap (Refresh id st)).
Proof.
  unfold Refresh. destruct (heap st !! id) as [e|]; [|apply heap_mono_refl].
  destruct (refresh_once e); [apply heap_mono_refl|]. apply heap_mono_alter. intros e'. by repeat split.
Qed.

Lemma LoadOrCreate_mono d (st : state) :
  heap_mono (heap st) (heap (LoadOrCreate gc d st).2) /\ jobs (LoadOrCreate gc d st).2 = jobs st.
Proof.
  unfold LoadOrCreate. destruct (cache_Get gc _ d _); cbn; split; try done; [apply heap_mono_refl|apply heap_mono_app].
Qed.

Lemma refreshed_entry_le now e entry :
  is_Some (response e) -> entry_le entry (refreshed_entry expirationTimeout ff_disabled now e entry).
Proof. intros He. unfold refreshed_entry. case_match; [by repeat split|apply entry_le_refl]. Qed.

Lemma refresh_end_mono n (st : state) :
  progress_inv st -> heap_mono (heap st) (heap (refresh_end gc expirationTimeout ff_disabled n st)).
Proof.
  intros Hinv. unfold refresh_end. destruct (jobs st !! n) as [[|id new]|] eqn:Ej; try apply heap_mono_refl.
  destruct (heap st !! id) as [e|] eqn:Ee; [|apply heap_mono_refl].
  destruct (heap st !! new) as [entry|] eqn:En; [|apply heap_mono_refl].
  destruct (isResolved entry); [|apply heap_mono_refl]. cbn. eapply heap_mono_insert; [done|].
  apply refreshed_entry_le. destruct (Hinv _ (list_elem_of_lookup_2 _ _ _ Ej)) as [(e' & He & Hr) _]. congruence.
Qed.

Lemma step_mono st st' : progress_inv st -> step st st' -> heap_mono (heap st) (heap st').
Proof.
  intros Hinv Hstep. destruct Hstep as [dt st _|d st|d st|id e st He Hr|id st|id e l st He _ _ _|n st|n st].
  - apply heap_mono_refl.
  - unfold Cache_Resolve. pose proof (LoadOrCreate_mono d st) as [Hm _].
    destruct (LoadOrCreate gc d st) as [id st1]. cbn in Hm.
    destruct (heap st1 !! id) as [e|]; [|done]. destruct (IsUpToDate _ _ e); [done|].
    destruct (NeedsRefresh _ _ e); (eapply heap_mono_trans; [exact Hm|]); [apply Refresh_mono|apply Retrieve_mono].
  - apply LoadOrCreate_mono.
  - apply Refresh_mono.
  - apply Retrieve_mono.
  - unfold setResponse. rewrite He. apply heap_mono_alter. intros e'. by repeat split.
  - unfold refresh_begin. repeat case_match; try apply heap_mono_refl. apply heap_mono_app.
  - by apply refresh_end_mono.
Qed.

(** The job of a refresh that is started. *)
Lemma Refresh_jobs id e (st : state) j :
  j ∈ jobs (Refresh id st) -> isResolved e = true -> heap st !! id = Some e ->
  j ∈ jobs st \/ exists id', j = RefreshSpawned id' /\ resolved (Refresh id st) id'.
Proof.
  intros Hj Hres He. unfold Refresh in *. rewrite He in *. destruct (refresh_once e); [by left|]. cbn in *.
  apply elem_of_app in Hj as [Hin|Hin]; [by left|].
  apply list_elem_of_singleton in Hin as ->. right. exists id. split; [done|].
  exists (set_refresh e). cbn. rewrite list_lookup_alter_eq, He. split; [done|].
  unfold isResolved in Hres. by destruct (response e).
Qed.

(** Starting a refresh keeps the jobs there are. *)
Lemma Refresh_keeps id (st : state) j : j ∈ jobs st -> j ∈ jobs (Refresh id st).
Proof. intros Hj. unfold Refresh. repeat case_match; cbn; try done. apply elem_of_app. by left. Qed.

(** A new job of a step, if any. *)
Lemma step_jobs st st' j :
  step st st' -> j ∈ jobs st' ->
  j ∈ jobs st \/ (exists id, j = RefreshSpawned id /\ resolved st' id)
  \/ (exists id new, j = RefreshWaiting id new /\ RefreshSpawned id ∈ jobs st /\ started st' new).
Proof.
  intros Hstep. destruct Hstep as [dt st _|d st|d st|id e st He Hr|id st|id e l st He _ _ _|n st|n st].
  - by left.
  - unfold Cache_Resolve. pose proof (LoadOrCreate_mono d st) as [_ Hj].
    destruct (LoadOrCreate gc d st) as [id st1]. cbn in Hj. rewrite <- Hj.
    destruct (heap st1 !! id) as [e|] eqn:Ee; [|by left]. destruct (IsUpToDate _ _ e); [by left|].
    destruct (NeedsRefresh _ _ e) eqn:En; [|by left]. cbn. intros [Hin|Hr]%(Refresh_jobs id e); [by left|by right; left| |done].
    unfold NeedsRefresh in En. by apply andb_true_iff in En as [-> _].
  - left. by rewrite <- (proj2 (LoadOrCreate_mono d st)).
  - intros [Hin|Hnew]%(Refresh_jobs id e); [by left|by right; left|done|done].
  - by left.
  - unfold setResponse. rewrite He. by left.
  - unfold refresh_begin. destruct (jobs st !! n) as [[id|]|] eqn:Ej; [|by left|by left].
    destruct (heap st !! id) as [e|] eqn:Ee; [|by left]. cbn.
    intros [Hin|Hin]%elem_of_app; [left; by eapply elem_of_delete_inv|].
    apply list_elem_of_singleton in Hin as ->. right; right. eexists _, _. split; [done|].
    split; [by eapply list_elem_of_lookup_2|]. eexists. cbn. by rewrite list_lookup_middle.
  - unfold refresh_end. repeat case_match; try by left. cbn. intros Hin. left. by eapply elem_of_delete_inv.
Qed.

Lemma progress_step st st' : progress_inv st -> step st st' -> progress_inv st'.
Proof.
  intros Hinv Hstep j Hj. pose proof (step_mono _ _ Hinv Hstep) as Hm.
  destruct (step_jobs _ _ _ Hstep Hj) as [Hin|[(id & -> & Hr)|(id & new & -> & Hin & Hs)]].
  - by eapply job_progress_mono, Hinv.
  - done.
  - split; [|done]. eapply resolved_mono; [done|]. exact (Hinv _ Hin).
Qed.

(** ** Runs *)

Context (run : nat -> state) (Hfair : fair_run run).

Lemma run_progress i : progress_inv (run i).
Proof using Hfair.
  induction i as [|i IH].
  - rewrite (fr_init _ Hfair). intros j Hj. by apply not_elem_of_nil in Hj.
  - eapply progress_step; [exact IH|apply Hfair].
Qed.

Lemma run_mono i j : i <= j -> heap_mono (heap (run i)) (heap (run j)).
Proof using Hfair.
  induction 1 as [|j _ IH]; [apply heap_mono_refl|]. eapply heap_mono_trans; [exact IH|].
  apply step_mono; [apply run_progress|apply Hfair].
Qed.

Lemma unresolved_or st id : started st id -> unresolved st id \/ resolved st id.
Proof. intros (e & He & _). destruct (response e) eqn:E; [right|left]; exists e; [by rewrite E|done]. Qed.

(** A retrieval that was started ends. *)
Lemma retrieval_ends i id : started (run i) id -> exists j, i <= j /\ resolved (run j) id.
Proof using Hfair.
  intros Hs. destruct (unresolved_or _ _ Hs) as [Hu|Hr]; [|by exists i].
  apply (leads_to (retrieval id) (fun st => started st id /\ unresolved st id)
    (fun st => resolved st id)); [apply Hfair| |done| |done].
  - intros j _ [Hj _]. eapply started_mono in Hj; [|exact (run_mono j (S j) (Nat.le_succ_diag_r j))].
    destruct (unresolved_or _ _ Hj); [left|right]; done.
  - intros j _ _ (e & l & He & _ & ->). unfold setResponse. rewrite He. exists (set_response l e). cbn.
    rewrite list_lookup_alter_eq, He. split; [done|by eexists].
Qed.

(** A goroutine is there until it runs. *)
Lemma spawned_until_started id i :
  RefreshSpawned id ∈ jobs (run i) ->
  RefreshSpawned id ∈ jobs (run (S i))
  \/ exists new, length (heap (run i)) <= new /\ RefreshWaiting id new ∈ jobs (run (S i)).
Proof using Hfair.
  intros Hin. pose proof (fr_steps _ Hfair i) as Hstep.
  pose proof (run_progress i _ Hin) as (e0 & He0 & _).
  destruct Hstep as [dt st _|d st|d st|id' e st He Hr|id' st|id' e l st He _ _ _|n st|n st].
  - by left.
  - left. unfold Cache_Resolve. pose proof (LoadOrCreate_mono d st) as [_ Hj].
    destruct (LoadOrCreate gc d st) as [id' st1]. cbn in Hj. rewrite <- Hj in Hin.
    repeat case_match; cbn; try done. by apply Refresh_keeps.
  - left. by rewrite (proj2 (LoadOrCreate_mono d st)).
  - left. by apply Refresh_keeps.
  - by left.
  - left. unfold setResponse. by rewrite He.
  - unfold refresh_begin. destruct (jobs st !! n) as [[id'|]|] eqn:Ej; [|by left|by left].
    destruct (heap st !! id') as [e|] eqn:Ee; [|by left]. cbn. destruct (decide (id' = id)) as [->|Hne].
    + right. exists (length (heap st)). split; [done|]. apply elem_of_app. right. by left.
    + left. apply elem_of_app. left. eapply elem_of_delete_other; [done..|]. by intros [= ->].
  - left. unfold refresh_end. repeat case_match; try done. cbn. by eapply elem_of_delete_other.
Qed.

Lemma refresh_begins i id :
  RefreshSpawned id ∈ jobs (run i) ->
  exists j new, i <= j /\ length (heap (run i)) <= new /\ RefreshWaiting id new ∈ jobs (run j).
Proof using Hfair.
  intros Hin.
  destruct (leads_to (refresh_start id) (fun st => RefreshSpawned id ∈ jobs st /\ length (heap (run i)) <= length (heap st))
    (fun st => exists new, length (heap (run i)) <= new /\ RefreshWaiting id new ∈ jobs st) run i)
    as (j & Hj & new & Hn & Hw).
  - apply Hfair.
  - intros j Hj [Hs Hl]. destruct (spawned_until_started id j Hs) as [H|(new & Hn & Hw)].
    + left. split; [done|]. pose proof (heap_mono_length _ _ (run_mono j (S j) ltac:(lia))). lia.
    + right. exists new. split; [lia|done].
  - by intros j _ [Hs _].
  - intros j _ [_ Hl] (n & Hn & ->). unfold refresh_begin. rewrite Hn.
    destruct (run_progress j _ (list_elem_of_lookup_2 _ _ _ Hn)) as (e & He & _). rewrite He. cbn.
    exists (length (heap (run j))). split; [done|]. apply elem_of_app. right. by left.
  - done.
  - by exists j, new.
Qed.

Context {laws : GoCacheLaws gc}.

Lemma run_reachable i : reachable gc refreshTimeout expirationTimeout ff_disabled api (run i).
Proof using Hfair.
  induction i as [|i IH]; [rewrite (fr_init _ Hfair); constructor|]. eapply reachable_step; [exact IH|apply Hfair].
Qed.

Lemma run_inv i : cache_inv gc api (run i).
Proof using Hfair laws. eapply reachable_inv; [apply _|apply run_reachable]. Qed.

Lemma points_to_mono (st st' : state) d id : heap_mono (heap st) (heap st') -> points_to (heap st) d id -> points_to (heap st') d id.
Proof. intros Hm (e & He & <-). apply Hm in He as (e' & He & Hd & _). by exists e'. Qed.

Definition holds_new (d : str) (new : nat) (st : state) : Prop :=
  cache_Get gc (clock st) d (store st) = Some new /\ resolved st new.

Lemma refresh_end_replaces d id new n (st : state) :
  points_to (heap st) d id -> jobs st !! n = Some (RefreshWaiting id new) -> resolved st new -> progress_inv st ->
  holds_new d new (refresh_end gc expirationTimeout ff_disabled n st).
Proof using laws.
  intros (e & He & <-) Hn Hres Hinv. split.
  - destruct Hres as (entry & Hen & Hr). unfold refresh_end, isResolved. rewrite Hn, He, Hen.
    destruct (response entry); [|by destruct Hr]. cbn. apply get_set_eq.
  - eapply resolved_mono; [by apply refresh_end_mono|done].
Qed.

Lemma waiting_until_replaced d id new i :
  points_to (heap (run i)) d id -> RefreshWaiting id new ∈ jobs (run i) ->
  RefreshWaiting id new ∈ jobs (run (S i)) \/ holds_new d new (run (S i)).
Proof using Hfair laws.
  intros Hd Hin. pose proof (fr_steps _ Hfair i) as Hstep. pose proof (run_progress i) as Hinv.
  destruct Hstep as [dt st _|d' st|d' st|id' e st He Hr|id' st|id' e l st He _ _ _|n st|n st].
  - by left.
  - left. unfold Cache_Resolve. pose proof (LoadOrCreate_mono d' st) as [_ Hj].
    destruct (LoadOrCreate gc d' st) as [id' st1]. cbn in Hj. rewrite <- Hj in Hin.
    repeat case_match; cbn; try done. by apply Refresh_keeps.
  - left. by rewrite (proj2 (LoadOrCreate_mono d' st)).
  - left. by apply Refresh_keeps.
  - by left.
  - left. unfold setResponse. by rewrite He.
  - left. unfold refresh_begin. repeat case_match; try done. cbn. apply elem_of_app. left.
    by eapply elem_of_delete_other.
  - destruct (jobs st !! n) as [j|] eqn:Ej.
    + destruct (decide (j = RefreshWaiting id new)) as [->|Hne].
      * destruct (Hinv _ Hin) as [_ Hs]. destruct (unresolved_or _ _ Hs) as [(e & He & Hr)|Hr].
        -- left. unfold refresh_end, isResolved. rewrite Ej, He, Hr. by destruct (heap st !! id).
        -- right. by apply (refresh_end_replaces d id).
      * left. unfold refresh_end. rewrite Ej. repeat case_match; try done. cbn.
        eapply elem_of_delete_other; [done..|congruence].
    + left. unfold refresh_end. by rewrite Ej.
Qed.

(** A refresh that has begun replaces the entry. *)
Lemma refresh_ends d id new i :
  points_to (heap (run i)) d id -> RefreshWaiting id new ∈ jobs (run i) ->
  exists j, i <= j /\ holds_new d new (run j).
Proof using Hfair laws.
  intros Hd Hin. destruct (run_progress i _ Hin) as [_ Hs]. destruct (retrieval_ends i new Hs) as (k & Hk & Hres).
  destruct (waits (fun st => points_to (heap st) d id /\ RefreshWaiting id new ∈ jobs st) (holds_new d new) run i (k - i))
    as [H|[Hd' Hw]]; [|done|done|].
  { intros j Hj [Hp Hw]. destruct (waiting_until_replaced d id new j Hp Hw) as [H|H]; [left|by right].
    split; [|done]. eapply points_to_mono; [|done]. apply run_mono. lia. }
  replace (i + (k - i)) with k in Hd', Hw by lia.
  destruct (leads_to (refresh_finish id new)
    (fun st => points_to (heap st) d id /\ RefreshWaiting id new ∈ jobs st /\ resolved st new) (holds_new d new) run k)
    as (j & Hj & HQ); [apply Hfair| | | |done|exists j; split; [lia|done]].
  - intros j Hj (Hp & Hw' & Hr). destruct (waiting_until_replaced d id new j Hp Hw') as [H|H]; [left|by right].
    pose proof (run_mono j (S j) ltac:(lia)) as Hm. split; [by eapply points_to_mono|]. split; [done|by eapply resolved_mono].
  - by intros j _ (_ & Hw' & Hr).
  - intros j _ (Hp & Hw' & Hr) (n & Hn & ->). by apply (refresh_end_replaces d id), run_progress.
Qed.

End Progress.

(** ** Theorems *)

(** [C15] Every waiting client is answered: in a run with a fair scheduler, a
    client that misses the cache is given a lookup of its domain after
    finitely many steps, whatever else happens; the answer then stays
    available. *)
Theorem waiting_client_is_answered {C} (gc : GoCache C) `{!GoCacheLaws gc} refreshTimeout expirationTimeout
    ff_disabled api run i d id :
  fair_run gc refreshTimeout expirationTimeout ff_disabled api run ->
  Cache_Resolve gc refreshTimeout d (run i) = (Miss id, run (S i)) ->
  exists j, i < j /\ forall k, j <= k -> exists lk, wait_result false id (run k) = Some lk /\ api d lk.
Proof.
  intros Hfair H. 
  assert (Hs : started (run (S i)) id /\ points_to (heap (run (S i))) d id).
  { revert H. unfold Cache_Resolve. pose proof (LoadOrCreate_inv gc api d (run i)) as HL.
    specialize (HL ltac:(by eapply run_inv)). destruct (LoadOrCreate gc d (run i)) as [id' st1].
    destruct HL as (_ & (e & He & Hd) & _). rewrite He. repeat case_match; intros [= -> <-].
    split; exists (set_retrieve e); cbn; by rewrite list_lookup_alter_eq, He. }
  destruct Hs as [Hs Hp]. destruct (retrieval_ends _ _ _ _ _ run Hfair (S i) id Hs) as (j & Hj & Hr).
  exists j. split; [lia|]. intros k Hk.
  pose proof (run_mono _ _ _ _ _ run Hfair j k Hk) as Hm.
  pose proof (run_mono _ _ _ _ _ run Hfair (S i) k ltac:(lia)) as Hm'.
  destruct (resolved_mono _ _ _ Hm Hr) as (e & He & lk & Hl).
  destruct (points_to_mono _ _ _ _ Hm' Hp) as (e' & He' & Hd).
  exists lk. unfold wait_result. rewrite He. split; [done|]. rewrite He in He'. injection He' as <-. subst d.
  pose proof (run_inv _ _ _ _ _ run Hfair k) as Hinv.
  by apply (inv_history gc api _ Hinv), (inv_responses gc api _ Hinv id).
Qed.

(** [C32] Outdated entries are replaced: in a run with a fair scheduler, when a
    client is the first to find the entry of its domain outdated, after
    finitely many steps the store holds a resolved entry for this domain that
    did not exist before. *)
Theorem outdated_entry_is_replaced {C} (gc : GoCache C) `{!GoCacheLaws gc} refreshTimeout expirationTimeout
    ff_disabled api run i d id e :
  fair_run gc refreshTimeout expirationTimeout ff_disabled api run ->
  cache_Get gc (clock (run i)) d (store (run i)) = Some id -> heap (run i) !! id = Some e ->
  NeedsRefresh refreshTimeout (clock (run i)) e = true -> refresh_once e = false ->
  run (S i) = (Cache_Resolve gc refreshTimeout d (run i)).2 ->
  exists j new, i < j /\ length (heap (run i)) <= new /\ holds_new gc d new (run j).
Proof.
  intros Hfair Hget He Hneeds Honce Hrun.
  assert (Hp : points_to (heap (run i)) d id) by (eapply inv_store; [by eapply run_inv|done]).
  assert (Hin : RefreshSpawned id ∈ jobs (run (S i))).
  { rewrite Hrun. unfold Cache_Resolve, LoadOrCreate. rewrite Hget, He.
    assert (IsUpToDate refreshTimeout (clock (run i)) e = false) as ->.
    { unfold NeedsRefresh in Hneeds. unfold IsUpToDate. apply andb_true_iff in Hneeds as [-> ->]. done. }
    rewrite Hneeds. unfold Refresh. cbn. rewrite He, Honce. apply elem_of_app. right. by left. }
  pose proof (heap_mono_length _ _ (run_mono _ _ _ _ _ run Hfair i (S i) ltac:(lia))) as Hlen.
  destruct (refresh_begins _ _ _ _ _ run Hfair (S i) id Hin) as (j & new & Hj & Hn & Hw).
  destruct (refresh_ends _ _ _ _ _ run Hfair d id new j) as (k & Hk & Hh); [|done|].
  - eapply points_to_mono; [|exact Hp]. eapply run_mono; [done|lia].
  - exists k, new. split; [lia|]. split; [lia|done].
Qed.

(** ** A concrete fair run

    A client misses, the answer arrives, a minute later a client finds the
    entry outdated, the refresh runs, and then nothing happens any more. *)

Definition good_lookup : Lookup := mkLookup demo_name None None.
Definition good_api (_ : str) (l : Lookup) : Prop := l = good_lookup.

Abbreviation demo_cache := (ttl_cache 600).
Definition live0 := init_state demo_cache.
Definition live1 := (Cache_Resolve demo_cache 60 demo_name live0).2.
Definition live2 := setResponse 0 good_lookup live1.
Definition live3 := mkState (heap live2) (store live2) (clock live2 + 61) (jobs live2) (history live2).
Definition live4 := (Cache_Resolve demo_cache 60 demo_name live3).2.
Definition live5 := refresh_begin 0 live4.
Definition live6 := setResponse 1 good_lookup live5.
Definition live7 := refresh_end demo_cache 600 false 0 live6.

Definition live_run (i : nat) : cache_state :=
  default live7 ([live0; live1; live2; live3; live4; live5; live6] !! i).

Lemma live_run_end i : 7 <= i -> live_run i = live7.
Proof. intros Hi. unfold live_run. by rewrite lookup_ge_None_2 by (cbn; lia). Qed.

Lemma live_run_fair_when (act : action) : ~ enabled act live7 -> weakly_fair act live_run.
Proof. intros H i. exists (max i 7). split; [lia|]. left. by rewrite live_run_end by lia. Qed.

Lemma live_run_fair : fair_run demo_cache 60 600 false good_api live_run.
Proof.
  split.
  - done.
  - intros i. destruct (decide (7 <= i)) as [Hi|Hi].
    + rewrite !live_run_end by lia. by apply (step_tick demo_cache 60 600 false good_api 0 live7).
    + destruct i as [|[|[|[|[|[|[|i]]]]]]]; [| | | | | | |lia].
      * apply (step_resolve demo_cache 60 600 false good_api demo_name live0).
      * by eapply (step_retrieved demo_cache 60 600 false good_api 0).
      * by apply (step_tick demo_cache 60 600 false good_api 61 live2).
      * apply (step_resolve demo_cache 60 600 false good_api demo_name live3).
      * apply (step_refresh_begin demo_cache 60 600 false good_api 0 live4).
      * by eapply (step_retrieved demo_cache 60 600 false good_api 1).
      * apply (step_refresh_end demo_cache 60 600 false good_api 0 live6).
  - intros id. apply live_run_fair_when. intros [_ (e & He & Hr)].
    destruct id as [|[|id]]; vm_compute in He; by simplify_eq.
  - intros id. apply live_run_fair_when. intros H. vm_compute in H. by apply not_elem_of_nil in H.
  - intros id new. apply live_run_fair_when. intros [H _]. vm_compute in H. by apply not_elem_of_nil in H.
Qed.

Lemma waiting_client_is_answered_witness :
  exists j, 0 < j /\ forall k, j <= k -> exists lk, wait_result false 0 (live_run k) = Some lk /\ good_api demo_name lk.
Proof.
  apply (waiting_client_is_answered demo_cache 60 600 false good_api live_run 0 demo_name 0);
    [exact live_run_fair|reflexivity].
Defined.

Lemma outdated_entry_is_replaced_witness :
  exists j new, 3 < j /\ 1 <= new /\ holds_new demo_cache demo_name new (live_run j).
Proof.
  eapply (outdated_entry_is_replaced demo_cache 60 600 false good_api live_run 3 demo_name 0);
    [exact live_run_fair|vm_compute; reflexivity..].
Defined.
