(* ===== verification/CacheClients.v ===== *)
(** * The clients of the domain cache, section by section

    [Cache.Resolve] of internal/source/gitlab/cache/cache.go takes the locks
    of the store and of the entry one after the other: between loading the
    entry, the two checks, the start of a refresh or of a retrieval, and
    reading the response, everything else may happen.  [Cache_Resolve] of
    Cache.v is the case in which nothing does. *)

From S2P Require Import Prelude GoStd Domain GitlabClient Cache CacheLiveness.

(** Where a client stands, with the entry it was given. *)
Inductive client : Type :=
  | Loaded (id : nat)       (* before [IsUpToDate] *)
  | Stale (id : nat)        (* before [NeedsRefresh] *)
  | Refreshing (id : nat)   (* before [Refresh] *)
  | Retrieving (id : nat)   (* before [Retrieve] *)
  | Reading (id : nat)      (* before [Lookup] *)
  | Awaiting (id : nat)     (* in the [select] of [Retrieve] *)
  | Got (l : option Lookup).

Section Clients.

#[local] Set Default Proof Using "Type".

Context {C : Type} (gc : GoCache C) (refreshTimeout expirationTimeout : Z) (ff_disabled : bool).
Context (api : str -> Lookup -> Prop).

Abbreviation state := (@cache_state C).
Abbreviation step := (cache_step gc refreshTimeout expirationTimeout ff_disabled api).

Definition entry_is (f : Z -> Entry -> bool) (id : nat) (st : state) : bool :=
  match heap st !! id with Some e => f (clock st) e | None => false end.

(** The next critical section of a client that stays; one that waits is still
    there as long as there is no response. *)
Definition client_next (c : client) (st : state) : client * state :=
  match c with
  | Loaded id => (if entry_is (IsUpToDate refreshTimeout) id st then Reading id else Stale id, st)
  | Stale id => (if entry_is (NeedsRefresh refreshTimeout) id st then Refreshing id else Retrieving id, st)
  | Refreshing id => (Reading id, Refresh id st)
  | Retrieving id => (Awaiting id, Retrieve id st)
  | Reading id => (Got (heap st !! id ≫= response), st)
  | Awaiting id => (match wait_result false id st with Some l => Got (Some l) | None => Awaiting id end, st)
  | Got l => (Got l, st)
  end.

(** A client among the other steps of the program. *)
Inductive among : client * state -> client * state -> Prop :=
  | among_own c st : among (c, st) (client_next c st)
  | among_others c st st' : step st st' -> among (c, st) (c, st').

(** ** Lemmas *)

Definition clients_inv (st : state) : Prop := cache_inv gc api st /\ progress_inv st.

Definition client_ok (d : str) (c : client) (st : state) : Prop :=
  match c with
  | Loaded id | Stale id | Retrieving id => points_to (heap st) d id
  | Refreshing id | Reading id => points_to (heap st) d id /\ resolved st id
  | Awaiting id => points_to (heap st) d id /\ started st id
  | Got l => exists lk, l = Some lk /\ api d lk
  end.

Lemma client_ok_mono d c st st' : heap_mono (heap st) (heap st') -> client_ok d c st -> client_ok d c st'.
Proof.
  intros Hm. destruct c; cbn [client_ok]; try done; try (by apply points_to_mono);
    intros [H1 H2]; (split; [by eapply points_to_mono|eauto using resolved_mono, started_mono]).
Qed.

Context {laws : GoCacheLaws gc}.

Lemma clients_inv_step st st' :
  clients_inv st -> step st st' -> clients_inv st' /\ heap_mono (heap st) (heap st').
Proof using laws.
  intros [H1 H2] Hs. split; [split; [by eapply cache_step_inv|by eapply progress_step]|by eapply step_mono].
Qed.

Lemma clients_inv_steps st st' :
  clients_inv st -> rtc step st st' -> clients_inv st' /\ heap_mono (heap st) (heap st').
Proof using laws.
  intros Hi Hs. induction Hs as [st|st1 st2 st3 Hstep _ IH]; [split; [done|apply heap_mono_refl]|].
  apply (clients_inv_step _ _ Hi) in Hstep as [Hi2 Hm]. destruct (IH Hi2) as [Hi3 Hm']. split; [done|].
  by eapply heap_mono_trans.
Qed.

Lemma clients_inv_init : clients_inv (init_state gc).
Proof using laws. split; [by apply inv_init|]. intros j Hj. by apply not_elem_of_nil in Hj. Qed.

Lemma clients_inv_reachable st :
  reachable gc refreshTimeout expirationTimeout ff_disabled api st -> clients_inv st.
Proof using laws.
  induction 1 as [|st st' _ IH Hstep]; [apply clients_inv_init|]. by apply (clients_inv_step _ _ IH).
Qed.

(** The entry a response is read from was given for the domain. *)
Lemma response_own d id (st : state) e lk :
  clients_inv st -> points_to (heap st) d id -> heap st !! id = Some e -> response e = Some lk -> api d lk.
Proof.
  intros [Hi _] (e' & He' & <-) He Hr. assert (e' = e) as -> by congruence.
  apply (inv_history gc api st Hi), (inv_responses gc api st Hi id e); done.
Qed.

Lemma load_ok d st id st1 :
  clients_inv st -> LoadOrCreate gc d st = (id, st1) -> clients_inv st1 /\ client_ok d (Loaded id) st1
    /\ heap_mono (heap st) (heap st1).
Proof using refreshTimeout expirationTimeout ff_disabled laws.
  intros Hi E. pose proof (step_load gc refreshTimeout expirationTimeout ff_disabled api d st) as Hs. rewrite E in Hs.
  destruct (clients_inv_step _ _ Hi Hs) as [Hi1 Hm]. split; [done|]. split; [|done].
  pose proof (LoadOrCreate_inv gc api d st (proj1 Hi)) as HL. rewrite E in HL. apply HL.
Qed.

(** A section is a step of the program, or changes nothing. *)
Lemma client_next_steps d c st : client_ok d c st -> rtc step st (client_next c st).2.
Proof.
  destruct c as [id|id|id|id|id|id|l]; cbn [client_next snd]; try done.
  - intros (_ & e & He & Hr). apply rtc_once. eapply step_refresh; [done|]. unfold isResolved. by destruct (response e).
  - intros _. apply rtc_once, step_retrieve.
Qed.

Lemma client_next_ok d c st :
  clients_inv st -> client_ok d c st -> client_ok d (client_next c st).1 (client_next c st).2.
Proof using expirationTimeout ff_disabled laws.
  intros Hi Hc. destruct (clients_inv_steps _ _ Hi (client_next_steps d c st Hc)) as [_ Hm].
  destruct c as [id|id|id|id|id|id|l]; cbn [client_next fst snd client_ok] in *; try done.
  - destruct Hc as (e & He & Hd). unfold entry_is. rewrite He. unfold IsUpToDate, isResolved.
    destruct (response e) as [lk|] eqn:Er; cbn [andb]; [|by exists e]. destruct (negb _); [|by exists e].
    split; [by exists e|]. exists e. by rewrite Er.
  - destruct Hc as (e & He & Hd). unfold entry_is. rewrite He. unfold NeedsRefresh, isResolved.
    destruct (response e) as [lk|] eqn:Er; cbn [andb]; [|by exists e]. destruct (isOutdated _ _ _); [|by exists e].
    split; [by exists e|]. exists e. by rewrite Er.
  - destruct Hc as [H1 H2]. split; [by eapply points_to_mono|by eapply resolved_mono].
  - split; [by eapply points_to_mono|]. destruct Hc as (e & He & _). exists (set_retrieve e).
    cbn. by rewrite list_lookup_alter_eq, He.
  - destruct Hc as [H1 (e & He & lk & Hlk)]. rewrite He. cbn. exists lk. split; [done|]. by eapply response_own.
  - destruct Hc as [H1 H2]. unfold wait_result. destruct H2 as (e & He & Hs). rewrite He.
    destruct (response e) as [lk|] eqn:Er; [|split; [done|by exists e]]. exists lk. split; [done|]. by eapply response_own.
Qed.

Lemma among_ok d p p' :
  among p p' -> clients_inv p.2 -> client_ok d p.1 p.2 -> clients_inv p'.2 /\ client_ok d p'.1 p'.2.
Proof using laws.
  intros [c st|c st st' Hs] Hi Hc; cbn [fst snd] in *.
  - split; [|by apply client_next_ok]. by apply (clients_inv_steps _ _ Hi (client_next_steps d c st Hc)).
  - destruct (clients_inv_step _ _ Hi Hs) as [Hi' Hm]. split; [done|]. by eapply client_ok_mono.
Qed.

Lemma amongs_ok d p p' :
  rtc among p p' -> clients_inv p.2 -> client_ok d p.1 p.2 -> clients_inv p'.2 /\ client_ok d p'.1 p'.2.
Proof using laws.
  intros Hs. induction Hs as [|p p1 p2 Hstep _ IH]; intros Hi Hc; [done|].
  destruct (among_ok d _ _ Hstep Hi Hc). by apply IH.
Qed.

Lemma among_others_steps c st st' : rtc step st st' -> rtc among (c, st) (c, st').
Proof. intros Hs. induction Hs as [|st st1 st2 Hstep _ IH]; [done|]. eapply rtc_l; [by apply among_others|done]. Qed.

(** How many sections are left, at most. *)
Definition sections_left (c : client) : nat :=
  match c with
  | Got _ => 0 | Awaiting _ | Reading _ => 1 | Refreshing _ | Retrieving _ => 2 | Stale _ => 3 | Loaded _ => 4
  end.

Lemma client_next_left c st :
  (exists id, c = Awaiting id) \/ (exists l, c = Got l) \/ sections_left (client_next c st).1 < sections_left c.
Proof.
  destruct c as [id|id|id|id|id|id|l]; cbn [client_next fst]; eauto; right; right; try (cbn; lia);
    destruct (entry_is _ _ _); cbn; lia.
Qed.

(** A client is given a lookup by its own sections and the retrieval of its
    own entry. *)
Lemma client_gets d c st :
  clients_inv st -> client_ok d c st -> (exists l, api d l) -> exists l st', rtc among (c, st) (Got (Some l), st').
Proof using laws.
  intros Hi Hc Hapi. remember (sections_left c) as k eqn:Hk. revert c st Hi Hc Hk.
  induction k as [k IH] using lt_wf_ind. intros c st Hi Hc ->.
  assert (Hnext : among (c, st) ((client_next c st).1, (client_next c st).2)) by (rewrite <- surjective_pairing; constructor).
  destruct (client_next_left c st) as [[id ->]|[[l ->]|Hlt]].
  - destruct Hc as [(e & He & Hd) (e' & He' & Ho)]. assert (e' = e) as -> by congruence. destruct Hapi as [l Hl].
    destruct (response e) as [lk|] eqn:Er.
    + exists lk, st. apply rtc_once. cbn [client_next wait_result fst snd] in Hnext. unfold wait_result in Hnext.
      by rewrite He, Er in Hnext.
    + exists l, (setResponse id l st). eapply rtc_l; [eapply among_others, step_retrieved; [done..|by rewrite Hd]|].
      apply rtc_once. pose proof (among_own (Awaiting id) (setResponse id l st)) as Ha. cbn [client_next] in Ha.
      unfold wait_result, setResponse in Ha. rewrite He in Ha. cbn [heap] in Ha. unfold setResponse. rewrite He.
      by rewrite list_lookup_alter_eq, He in Ha.
  - destruct Hc as (lk & -> & _). by exists lk, st.
  - destruct (among_ok d _ _ Hnext Hi Hc) as [Hi' Hc']. cbn [fst snd] in Hi', Hc'.
    destruct (IH _ Hlt _ _ Hi' Hc' eq_refl) as (l & st' & Hs). exists l, st'. by eapply rtc_l.
Qed.

Lemma alter_absent {A} (f : A -> A) i (l : list A) : l !! i = None -> alter f i l = l.
Proof.
  intros H. apply list_eq. intros j. destruct (decide (i = j)) as [->|Hne]; [by rewrite list_lookup_alter_eq, H|].
  by rewrite list_lookup_alter_ne.
Qed.

(** [Cache_Resolve] is a client that is not interrupted. *)
Lemma Cache_Resolve_among d st out st' id st1 :
  Cache_Resolve gc refreshTimeout d st = (out, st') -> LoadOrCreate gc d st = (id, st1) ->
  rtc among (Loaded id, st1) (match out with Hit l => Got l | Miss i => Awaiting i end, st').
Proof.
  unfold Cache_Resolve. intros H E. rewrite E in H.
  assert (Hown : forall c s, rtc among (c, s) (client_next c s)) by (intros; apply rtc_once, among_own).
  destruct (heap st1 !! id) as [e|] eqn:Ee.
  2: { injection H as <- <-. do 2 (etrans; [apply Hown|]; cbn [client_next]; unfold entry_is; rewrite Ee).
       etrans; [apply Hown|]. cbn. unfold Retrieve, with_heap. rewrite alter_absent by done. by destruct st1. }
  destruct (IsUpToDate refreshTimeout (clock st1) e) eqn:Eu; [|destruct (NeedsRefresh refreshTimeout (clock st1) e) eqn:En];
    injection H as <- <-; (etrans; [apply Hown|]); cbn [client_next]; unfold entry_is; rewrite Ee, Eu.
  - etrans; [apply Hown|]. cbn. by rewrite Ee.
  - etrans; [apply Hown|]. cbn [client_next]. unfold entry_is. rewrite Ee, En. etrans; [apply Hown|]. etrans; [apply Hown|].
    cbn. unfold Refresh. rewrite Ee. destruct (refresh_once e); cbn; [by rewrite Ee|]. by rewrite list_lookup_alter_eq, Ee.
  - etrans; [apply Hown|]. cbn [client_next]. unfold entry_is. rewrite Ee, En. etrans; [apply Hown|]. done.
Qed.

(** ** Properties *)

(** [C14] Clients get lookups of their own domain only: in every interleaving
    of the critical sections of clients, retrievals and refreshes, with time
    passing in between, a client that asks for a domain and stays is given a
    lookup, never a nil one, that the API gave for this domain; and while it
    waits, it waits for an entry of this domain whose retrieval has been
    started. *)
Theorem clients_get_own_domain st d id st1 c st2 :
  reachable gc refreshTimeout expirationTimeout ff_disabled api st ->
  LoadOrCreate gc d st = (id, st1) -> rtc among (Loaded id, st1) (c, st2) ->
  match c with
  | Got l => exists lk, l = Some lk /\ api d lk
  | Awaiting id' => exists e, heap st2 !! id' = Some e /\ e_domain e = d /\ retrieve_once e = true
  | _ => True
  end.
Proof using laws.
  intros Hr E Hs. destruct (load_ok d st id st1 (clients_inv_reachable st Hr) E) as (Hi & Hc & _).
  destruct (amongs_ok d _ _ Hs Hi Hc) as [_ H]. destruct c as [| | | | |i|l]; cbn [client_ok fst snd] in H; try done.
  destruct H as [(e & He & Hd) (e' & He' & Ho)]. exists e. assert (e' = e) as -> by congruence. done.
Qed.

End Clients.

(** ** A client that misses *)

Definition miss_loaded := LoadOrCreate (ttl_cache 600) demo_name (init_state (ttl_cache 600)).
Definition miss_waits : @cache_state (gmap str (nat * Z)) := Retrieve 0 miss_loaded.2.

Abbreviation miss_among := (among (ttl_cache 600) 60 600 false own_name).

Lemma miss_run :
  rtc miss_among (Loaded 0, miss_loaded.2) (Got (Some Cache.good_lookup), setResponse 0 Cache.good_lookup miss_waits).
Proof.
  do 3 (eapply rtc_l; [apply among_own|]). cbn [client_next fst snd].
  eapply rtc_l; [eapply among_others, (step_retrieved _ _ _ _ _ 0 _ Cache.good_lookup); reflexivity|].
  apply rtc_once. apply (among_own (ttl_cache 600) 60 600 false own_name (Awaiting 0)
    (setResponse 0 Cache.good_lookup miss_waits)).
Qed.

Lemma clients_get_own_domain_witness :
  exists st lk, rtc miss_among (Loaded 0, miss_loaded.2) (Got (Some lk), st) /\ own_name demo_name lk.
Proof.
  destruct (clients_get_own_domain (ttl_cache 600) 60 600 false own_name (init_state (ttl_cache 600)) demo_name 0
    miss_loaded.2 (Got (Some Cache.good_lookup)) (setResponse 0 Cache.good_lookup miss_waits)) as (lk & E & H).
  - constructor.
  - reflexivity.
  - exact miss_run.
  - injection E as <-. exists (setResponse 0 Cache.good_lookup miss_waits), Cache.good_lookup.
    split; [exact miss_run|exact H].
Defined.
