(* ===== verification/GitlabSource.v ===== *)
(** * The GitLab domain source

    internal/source/gitlab/{gitlab,gitlab_poll,factory}.go.  The (cached)
    client is the function from host names to lookups it computes at the time
    of the call.  A dereference of a nil [*VirtualDomain], which panics in
    Go, is the distinguished error [errPanic]. *)

From S2P Require Import Prelude GoStd GoPath GoUrl Header Vfs Http Serving DiskServing Domain.
From S2P Require Import GitlabClient Cache.

Definition errPanic : error := ErrSentinel &"panic: nil pointer dereference".
Definition errCacheNotConfigured : error := ErrSentinel &"cache not configured".

Section Gitlab.

(** [local.Instance()] and [zip.Instance()]. *)
Context (local_Instance zip_Instance : Serving).

(** ** factory.go *)

Definition fabricateLookupPath (size : nat) (lookup : ApiLookupPath) : LookupPath := {|
  lp_ServingType := src_Type (ap_Source lookup);
  lp_Prefix := ap_Prefix lookup;
  lp_Path := src_Path (ap_Source lookup);
  lp_IsNamespaceProject := bool_decide (ap_Prefix lookup = &"/") && (1 <? size);
  lp_IsHTTPSOnly := ap_HTTPSOnly lookup;
  lp_HasAccessControl := ap_AccessControl lookup;
  lp_ProjectID := wrapu64 (ap_ProjectID lookup) |}.

Definition defaultServing : Serving := local_Instance.

Definition fabricateServing (lookup : ApiLookupPath) : Serving :=
  let type := src_Type (ap_Source lookup) in
  if decide (type = &"file") then local_Instance
  else if decide (type = &"zip") then zip_Instance
  else defaultServing.

(** ** gitlab.go *)

Definition isSubPath (urlPath : str) (lookup : ApiLookupPath) : bool := HasPrefix urlPath (ap_Prefix lookup).
Definition isRootPath (urlPath : str) (lookup : ApiLookupPath) : bool :=
  bool_decide (urlPath = Clean (ap_Prefix lookup)).

Fixpoint find_lookup (size : nat) (urlPath : str) (lookups : list ApiLookupPath)
  : result ServingRequest :=
  match lookups with
  | [] => Err ErrDomainDoesNotExist
  | lookup :: lookups' =>
      if isSubPath urlPath lookup || isRootPath urlPath lookup then
        let subPath := if isSubPath urlPath lookup then TrimPrefix urlPath (ap_Prefix lookup) else [] in
        Ok (mkServingRequest (fabricateServing lookup) (fabricateLookupPath size lookup) subPath)
      else find_lookup size urlPath lookups'
  end.

Definition Gitlab_Resolve (client : str -> Lookup) (r : Request) : result ServingRequest :=
  let host := GetHostWithoutPort r in
  let response := client host in
  match lk_Error response with
  | Some err => Err err
  | None =>
      match lk_Domain response with
      | None => Err errPanic
      | Some dom =>
          find_lookup (length (vd_LookupPaths dom)) (Clean (Path (req_URL r))) (vd_LookupPaths dom)
      end
  end.

(** [isReady] and whether the goroutine of [poll] is still running. *)
Record Gitlab : Type := mkGitlab { isReady : bool; polling : bool }.

(** [New] after the client and the cache have been made. *)
Definition Gitlab_New (client : result Client) (cache_configured : bool) : result Gitlab :=
  let? _ := client in
  if cache_configured then Ok (mkGitlab false true) else Err errCacheNotConfigured.

Context {Certificate : Type}.

(** The domain's resolver is the source itself. *)
Definition Gitlab_GetDomain (client : str -> Lookup) (name : str) (g : Gitlab)
  : result (Domain Certificate) * Gitlab :=
  let lookup := client name in
  match lk_Error lookup with
  | Some err =>
      (Err err, if errors_Is err ErrUnauthorizedAPI then mkGitlab false (polling g) else g)
  | None =>
      match lk_Domain lookup with
      | None => (Err errPanic, g)
      | Some dom =>
          (Ok (Domain_New name (vd_Certificate dom) (vd_Key dom) (Gitlab_Resolve client)), g)
      end
  end.

Definition Gitlab_IsReady (g : Gitlab) : bool := isReady g.

(** [poll] ends: [backoff.Retry] succeeded or gave up. *)
Definition poll_end (err : option error) (g : Gitlab) : Gitlab :=
  match err with
  | Some _ => mkGitlab (isReady g) false
  | None => mkGitlab true false
  end.

(** Requests and the polling goroutine interleave. *)
Inductive gitlab_step : Gitlab -> Gitlab -> Prop :=
  | step_get_domain client name g : gitlab_step g (Gitlab_GetDomain client name g).2
  | step_poll_end err g : polling g = true -> gitlab_step g (poll_end err g).

Inductive gitlab_steps : Gitlab -> Gitlab -> Prop :=
  | steps_refl g : gitlab_steps g g
  | steps_next g1 g2 g3 : gitlab_step g1 g2 -> gitlab_steps g2 g3 -> gitlab_steps g1 g3.

(** ** Lemmas *)

Definition lookup_matches (urlPath : str) (lookup : ApiLookupPath) : bool :=
  isSubPath urlPath lookup || isRootPath urlPath lookup.

Lemma find_lookup_spec size urlPath ls :
  match find_lookup size urlPath ls with
  | Ok sr =>
      exists pre l post, ls = pre ++ l :: post
        /\ Forall (fun x => lookup_matches urlPath x = false) pre
        /\ lookup_matches urlPath l = true
        /\ sr_LookupPath sr = fabricateLookupPath size l
        /\ sr_Serving sr = fabricateServing l
        /\ (if isSubPath urlPath l then ap_Prefix l ++ sr_SubPath sr = urlPath
            else sr_SubPath sr = [] /\ urlPath = Clean (ap_Prefix l))
  | Err e => e = ErrDomainDoesNotExist /\ Forall (fun x => lookup_matches urlPath x = false) ls
  end.
Proof.
  induction ls as [|l ls IH]; simpl; [by split|]. fold (lookup_matches urlPath l).
  destruct (lookup_matches urlPath l) eqn:E.
  - exists [], l, ls. repeat split; try done. simpl.
    unfold lookup_matches in E. destruct (isSubPath urlPath l) eqn:Es.
    + by apply TrimPrefix_restore.
    + simpl in E. split; [done|]. by apply bool_decide_eq_true in E.
  - destruct (find_lookup size urlPath ls) as [sr|e].
    + destruct IH as (pre & l' & post & -> & HF & Hrest). exists (l :: pre), l', post. auto.
    + destruct IH as [-> HF]. auto.
Qed.

(** The servings the source hands out are the two instances. *)
#[export] Instance Gitlab_resolver_laws `{!ServingLaws local_Instance, !ServingLaws zip_Instance} client :
  ResolverLaws (Gitlab_Resolve client).
Proof.
  intros r sr H. unfold Gitlab_Resolve in H. repeat case_match; try done.
  pose proof (find_lookup_spec (length (vd_LookupPaths v)) (Clean (Path (req_URL r))) (vd_LookupPaths v)) as Hs.
  rewrite H in Hs. destruct Hs as (pre & l & post & _ & _ & _ & _ & -> & _).
  unfold fabricateServing, defaultServing. by repeat case_decide.
Qed.

(** A lookup with an error or a domain: nothing is dereferenced in vain. *)
Definition sound_lookup (l : Lookup) : Prop :=
  match lk_Error l with Some e => e <> errPanic | None => is_Some (lk_Domain l) end.

Lemma Gitlab_Resolve_no_panic client r :
  sound_lookup (client (GetHostWithoutPort r)) -> Gitlab_Resolve client r <> Err errPanic.
Proof.
  unfold sound_lookup, Gitlab_Resolve. destruct (lk_Error _) as [e|]; [congruence|]. intros [vd ->].
  pose proof (find_lookup_spec (length (vd_LookupPaths vd)) (Clean (Path (req_URL r))) (vd_LookupPaths vd)) as Hs.
  destruct (find_lookup _ _ _); [done|]. by destruct Hs as [-> _].
Qed.

Lemma Gitlab_GetDomain_no_panic client name g :
  sound_lookup (client name) ->
  match (Gitlab_GetDomain client name g).1 with
  | Ok d => d_Resolver d = Gitlab_Resolve client
  | Err e => e <> errPanic
  end.
Proof. unfold sound_lookup, Gitlab_GetDomain. destruct (lk_Error _) as [e|]; [done|]. by intros [vd ->]. Qed.

(** ** Properties *)

(** Resolving a request picks the first lookup path of the API's list
    whose prefix is a prefix of the cleaned URL path or cleans to it; prefix
    and sub-path together give back the cleaned path (the sub-path is empty
    when only the root of the prefix was asked for); the domain is reported
    missing exactly when no lookup path matches. *)
Theorem Gitlab_Resolve_first_match client r dom :
  lk_Error (client (GetHostWithoutPort r)) = None ->
  lk_Domain (client (GetHostWithoutPort r)) = Some dom ->
  let urlPath := Clean (Path (req_URL r)) in
  match Gitlab_Resolve client r with
  | Ok sr =>
      exists pre l post, vd_LookupPaths dom = pre ++ l :: post
        /\ Forall (fun x => lookup_matches urlPath x = false) pre
        /\ lookup_matches urlPath l = true
        /\ sr_LookupPath sr = fabricateLookupPath (length (vd_LookupPaths dom)) l
        /\ sr_Serving sr = fabricateServing l
        /\ (if isSubPath urlPath l then ap_Prefix l ++ sr_SubPath sr = urlPath
            else sr_SubPath sr = [] /\ urlPath = Clean (ap_Prefix l))
  | Err e =>
      e = ErrDomainDoesNotExist
      /\ Forall (fun x => lookup_matches urlPath x = false) (vd_LookupPaths dom)
  end.
Proof. intros He Hd. unfold Gitlab_Resolve. rewrite He, Hd. apply find_lookup_spec. Qed.

Lemma not_ready_stays g g' :
  gitlab_steps g g' -> polling g = false -> isReady g = false -> polling g' = false /\ isReady g' = false.
Proof.
  induction 1 as [g|g1 g2 g3 Hstep _ IH]; [done|]. intros Hp Hr. apply IH.
  - destruct Hstep; [|congruence]. unfold Gitlab_GetDomain. repeat case_match; done.
  - destruct Hstep; [|congruence]. unfold Gitlab_GetDomain. repeat case_match; done.
Qed.

(** Losing the API for good: when the start-up poll has ended, one
    lookup answered with an authorisation error makes the source not ready,
    and no later request or event makes it ready again. *)
Theorem unauthorized_after_poll_is_final client name g g' err :
  polling g = false -> lk_Error (client name) = Some err -> errors_Is err ErrUnauthorizedAPI = true ->
  gitlab_steps (Gitlab_GetDomain client name g).2 g' -> Gitlab_IsReady g' = false.
Proof.
  intros Hp He Hu Hs. apply not_ready_stays in Hs as [_ Hr]; [done|..];
    unfold Gitlab_GetDomain; rewrite He, Hu; done.
Qed.

(** A retriever configured with no retries never asks the API: its
    answer has neither an error nor a domain, and both uses of that answer
    dereference the nil domain. *)
Theorem zero_retries_dereferences_nil calls r name g retries :
  (retries <= 0)%Z ->
  let client := fun _ => Retriever_Retrieve false calls retries in
  Gitlab_Resolve client r = Err errPanic /\ (Gitlab_GetDomain client name g).1 = Err errPanic.
Proof.
  intros Hr. unfold Retriever_Retrieve, resolveWithBackoff.
  replace (Z.to_nat retries) with 0 by lia. done.
Qed.

End Gitlab.

(** ** A concrete source *)

Definition demo_disk : Serving := disk_New plain_lib no_rules [] 0 (demo_vfs demo_root).
Definition no_serverless : Serverless := mkServerless [] (mkCluster [] [] [] [] []).
Definition demo_path (prefix : str) : ApiLookupPath :=
  mkApiLookupPath 7 false false prefix (mkSource &"zip" &"https://store.example/a.zip" no_serverless).
Definition demo_virtual : VirtualDomain :=
  mkVirtualDomain [] [] [demo_path &"/project/"; demo_path &"/"].
Definition demo_lookup_client : str -> Lookup := fun host => mkLookup host None (Some demo_virtual).
Definition unauthorized_client : str -> Lookup := fun host => mkLookup host (Some ErrUnauthorizedAPI) None.

Lemma Gitlab_Resolve_first_match_witness :
  exists sr l, Gitlab_Resolve demo_disk demo_disk demo_lookup_client (demo_get &"/project/a/../b.html") = Ok sr
    /\ lookup_matches &"/project/b.html" l = true
    /\ sr_LookupPath sr = fabricateLookupPath 2 l.
Proof.
  pose proof (Gitlab_Resolve_first_match demo_disk demo_disk demo_lookup_client
    (demo_get &"/project/a/../b.html") demo_virtual eq_refl eq_refl) as H.
  cbv zeta in H. destruct (Gitlab_Resolve _ _ _ _) as [sr|e].
  - destruct H as (pre & l & post & _ & _ & Hm & Hl & _). exists sr, l.
    split; [reflexivity|]. split; [|exact Hl]. revert Hm. by vm_compute.
  - destruct H as [_ HF]. inversion HF as [|x xs Hx _ Heq]. vm_compute in Hx. discriminate Hx.
Defined.

Lemma unauthorized_after_poll_is_final_witness :
  Gitlab_IsReady (Gitlab_GetDomain demo_disk demo_disk (Certificate := unit) unauthorized_client
                    demo_name (mkGitlab true false)).2 = false.
Proof.
  apply (unauthorized_after_poll_is_final demo_disk demo_disk (Certificate := unit) unauthorized_client
    demo_name (mkGitlab true false) _ ErrUnauthorizedAPI eq_refl eq_refl eq_refl).
  apply steps_refl.
Defined.

Lemma zero_retries_dereferences_nil_witness :
  Gitlab_Resolve demo_disk demo_disk
    (fun _ => Retriever_Retrieve false (fun _ => good_lookup) 0) (demo_get &"/") = Err errPanic.
Proof.
  apply (zero_retries_dereferences_nil demo_disk demo_disk (Certificate := unit) (fun _ => good_lookup)
    (demo_get &"/") demo_name (mkGitlab true false) 0). lia.
Defined.
