(* ===== verification/Serverless.v ===== *)
(** * The serverless serving

    internal/serving/serverless: a serving that proxies requests to a Knative
    cluster.  The reverse proxy of net/http/httputil, the certificate
    parsers, the TCP dialer, the address of the client and the JSON encoder
    are parameters; metrics are left out.  (The GitLab source no longer
    creates this serving.) *)

From S2P Require Import Prelude GoStd GoUrl Header Http Serving GitlabClient.

Section Serverless.

#[local] Set Default Proof Using "Type".

Context {Certificate CertPool Conn : Type}.
Context (X509KeyPair : str -> str -> result Certificate).
(** [x509.NewCertPool] and [AppendCertsFromPEM], whose result is not used. *)
Context (NewCertPool : CertPool) (AppendCertsFromPEM : str -> CertPool -> CertPool).

(** ** certs.go and cluster.go *)

Record Certs : Type := mkCerts { RootCerts : CertPool; Certs_Certificate : Certificate }.

Definition NewClusterCerts (clientCert clientKey : str) : result Certs :=
  let? cert := X509KeyPair clientCert clientKey in
  Ok (mkCerts (AppendCertsFromPEM clientCert NewCertPool) cert).

Record ProxyCluster : Type := mkProxyCluster {
  pc_Address : str; pc_Port : str; pc_Name : str; pc_Certs : Certs }.

Definition Cluster_Host (c : ProxyCluster) : str := Join [pc_Address c; pc_Port c] &":".

Record ClientTLS : Type := mkClientTLS {
  tc_Certificates : list Certificate; tc_RootCAs : CertPool; tc_ServerName : str }.

Definition Cluster_TLSConfig (c : ProxyCluster) : ClientTLS :=
  mkClientTLS [Certs_Certificate (pc_Certs c)] (RootCerts (pc_Certs c)) (pc_Name c).

(** ** transport.go *)

(** [Dial] is the dialer (network and address); [roundTrip] is
    [http.Transport] with its dialing function and TLS settings. *)
Record ProxyResponse : Type := mkProxyResponse { pr_Status : Z; pr_Header : Header; pr_Body : str }.

Context (Dial : str -> str -> result Conn).
Context (roundTrip : (str -> str -> result Conn) -> ClientTLS -> Request -> result ProxyResponse).

Record Transport : Type := mkTransport {
  tr_cluster : ProxyCluster; tr_dialContext : str -> str -> result Conn; tr_TLSClientConfig : ClientTLS;
  tr_TLSHandshakeTimeout : Z }.

Definition NewTransport (cluster : ProxyCluster) : Transport :=
  let dialContext := fun network address => Dial network (Cluster_Host cluster) in
  mkTransport cluster dialContext (Cluster_TLSConfig cluster) 5.

Definition Transport_RoundTrip (t : Transport) (request : Request) : result ProxyResponse :=
  roundTrip (tr_dialContext t) (tr_TLSClientConfig t) request.

(** ** director.go and errors.go *)

Context (realip : Request -> str).

Definition set_req_Header (f : Header -> Header) (r : Request) : Request :=
  mkRequest (req_Method r) (req_URL r) (req_Host r) (req_RequestURI r) (f (req_Header r)) (req_TLS r) (req_RemoteAddr r).

(** The client address is taken after the host has been replaced. *)
Definition NewDirectorFunc (service : str) (request : Request) : Request :=
  let r := mkRequest (req_Method request) (set_Scheme &"https" (set_Host service (req_URL request))) service
             (req_RequestURI request) (req_Header request) (req_TLS request) (req_RemoteAddr request) in
  let r := set_req_Header (fun h => Header_Set h &"User-Agent" &"GitLab Pages Daemon") r in
  let r := set_req_Header (fun h => Header_Set h &"X-Forwarded-For" (realip r)) r in
  set_req_Header (fun h => Header_Set h &"X-Forwarded-Proto" &"https") r.

(** [err.Error()] and [json.Marshal] of the map with the key [error]. *)
Context (error_text : error -> str) (Marshal_error : str -> result str).

Definition NewErrorHandler (w : Response) (r : Request) (err : error) : Response :=
  let w := WriteHeader 500 w in
  let message := &"cluster error: " ++ error_text err in
  match Marshal_error message with
  | Err _ => Write message w
  | Ok json => Write json (w_Set &"Content-Type" &"application/json" w)
  end.

(** ** serverless.go *)

(** [httputil.ReverseProxy]: the fields the package sets. *)
Record ReverseProxy : Type := mkReverseProxy {
  rp_Director : Request -> Request; rp_Transport : Request -> result ProxyResponse;
  rp_ErrorHandler : Response -> Request -> error -> Response }.

(** [ServeHTTP] of the library. *)
Context (proxy_ServeHTTP : ReverseProxy -> Request -> Response -> Response).

Definition serverless_New (service : str) (cluster : ProxyCluster) : ReverseProxy :=
  mkReverseProxy (NewDirectorFunc service) (Transport_RoundTrip (NewTransport cluster)) NewErrorHandler.

Definition NewFromAPISource (config : Serverless) : result ReverseProxy :=
  if bool_decide (length (sl_Service config) = 0) then Err (ErrMsg &"incomplete serverless serving config")
  else
    let c := sl_Cluster config in
    let? certs := NewClusterCerts (cl_CertificateCert c) (cl_CertificateKey c) in
    Ok (serverless_New (sl_Service config) (mkProxyCluster (cl_Address c) (cl_Port c) (cl_Hostname c) certs)).

Definition Serverless_ServeFileHTTP (proxy : ReverseProxy) (h : Handler) (w : Response) : bool * Response :=
  (true, proxy_ServeHTTP proxy (h_Request h) w).

Definition Serverless_ServeNotFoundHTTP (proxy : ReverseProxy) (h : Handler) (w : Response) : Response := Serve404 w.

Definition Serverless_Reconfigure (proxy : ReverseProxy) : option error := None.

Definition serverless_Serving (proxy : ReverseProxy) : Serving :=
  mkServing (Serverless_ServeFileHTTP proxy) (Serverless_ServeNotFoundHTTP proxy).

(** The documented behaviour of the reverse proxy: the director's request,
    with the hop-by-hop headers taken out ([outgoing]), goes to the
    transport; an error is given to the error handler, a response is written
    to the client. *)
Context (outgoing : Request -> Request).

Class ReverseProxyLaws : Prop := {
  outgoing_target r : req_Host (outgoing r) = req_Host r /\ Host (req_URL (outgoing r)) = Host (req_URL r)
    /\ Scheme (req_URL (outgoing r)) = Scheme (req_URL r);
  proxy_error p r w e : rp_Transport p (outgoing (rp_Director p r)) = Err e ->
    proxy_ServeHTTP p r w = rp_ErrorHandler p w (outgoing (rp_Director p r)) e;
  proxy_answer p r w resp : rp_Transport p (outgoing (rp_Director p r)) = Ok resp ->
    replied (proxy_ServeHTTP p r w) /\ extends w (proxy_ServeHTTP p r w) }.

(** ** Properties *)

Lemma NewErrorHandler_replies w r err : replied (NewErrorHandler w r err).
Proof. unfold NewErrorHandler. destruct (Marshal_error _); apply replied_Write. Qed.

Lemma NewErrorHandler_extends w r err : extends w (NewErrorHandler w r err).
Proof.
  unfold NewErrorHandler. destruct (Marshal_error _).
  - eapply extends_trans; [apply extends_WriteHeader|]. eapply extends_trans; [apply extends_Set|apply extends_Write].
  - eapply extends_trans; [apply extends_WriteHeader|apply extends_Write].
Qed.

(** The proxy keeps the promises of a serving. *)
#[export] Instance serverless_Serving_laws service cluster :
  ReverseProxyLaws -> ServingLaws (serverless_Serving (serverless_New service cluster)).
Proof.
  intros L. split; cbn.
  - intros h w. set (p := serverless_New service cluster).
    destruct (rp_Transport p (outgoing (rp_Director p (h_Request h)))) as [resp|e] eqn:E.
    + by apply (proxy_answer p _ w resp).
    + rewrite (proxy_error p _ w e E). apply NewErrorHandler_extends.
  - done.
  - intros h w. apply extends_serveErrorPage.
  - intros h w. apply replied_serveErrorPage.
Qed.

(** Requests of a serverless project go to its cluster and nowhere else:
    a complete configuration gives a proxy whose request to the transport
    names the service as host, with scheme https and the daemon's user agent;
    whatever address the transport asks for, the connection is made to the
    cluster's address and port, with the project's client certificate and
    the cluster's name as the expected server name; and when the cluster
    fails, the client gets status 500. *)
Theorem serverless_reaches_cluster `{!ReverseProxyLaws} config p r w :
  NewFromAPISource config = Ok p ->
  let req := outgoing (rp_Director p r) in
  let c := sl_Cluster config in
  req_Host req = sl_Service config /\ Host (req_URL req) = sl_Service config /\ Scheme (req_URL req) = &"https"
  /\ (exists certificate roots, X509KeyPair (cl_CertificateCert c) (cl_CertificateKey c) = Ok certificate
        /\ rp_Transport p req
            = roundTrip (fun network _ => Dial network (cl_Address c ++ &":" ++ cl_Port c))
                (mkClientTLS [certificate] roots (cl_Hostname c)) req)
  /\ (forall e, rp_Transport p req = Err e -> w_committed w = None ->
        w_status (proxy_ServeHTTP p r w) = Some 500%Z).
Proof.
  unfold NewFromAPISource. case_bool_decide; [done|]. intros (certs & Hc & [= <-])%result_bind_ok. cbv zeta.
  unfold NewClusterCerts in Hc. apply result_bind_ok in Hc as (cert & Hk & [= <-]).
  set (p := serverless_New _ _). destruct (outgoing_target (rp_Director p r)) as (-> & -> & ->).
  split; [done|]. split; [done|]. split; [done|]. split.
  - exists cert, (AppendCertsFromPEM (cl_CertificateCert (sl_Cluster config)) NewCertPool). split; [exact Hk|reflexivity].
  - intros e He Hw. rewrite (proxy_error p r w e He). cbn [rp_ErrorHandler p serverless_New].
    unfold NewErrorHandler, WriteHeader. rewrite Hw. by destruct (Marshal_error _).
Qed.

(** The content type of a cluster error is never sent: the handler writes the
    status first, which fixes the headers, and sets the type afterwards. *)
Theorem serverless_error_type_not_sent w r err json :
  w_committed w = None -> Marshal_error (&"cluster error: " ++ error_text err) = Ok json ->
  w_body (NewErrorHandler w r err) = w_body w ++ json
  /\ sent_header (NewErrorHandler w r err) &"Content-Type" = Header_Get (w_header w) &"Content-Type".
Proof. intros Hw Hm. unfold NewErrorHandler. rewrite Hm. unfold WriteHeader. by rewrite Hw. Qed.

End Serverless.

(** ** Witnesses *)

(** A cluster that is down, behind a proxy that passes errors on. *)
Definition demo_cluster : Serverless :=
  mkServerless &"svc.example" (mkCluster &"10.0.0.1" &"443" &"knative" &"cert" &"key").
Definition down (dial : str -> str -> result unit) (tls : ClientTLS (Certificate := str) (CertPool := list str))
    (r : Request) : result ProxyResponse := Err (ErrMsg &"down").
Definition toy_proxy (p : ReverseProxy) (r : Request) (w : Response) : Response :=
  match rp_Transport p (rp_Director p r) with
  | Err e => rp_ErrorHandler p w (rp_Director p r) e
  | Ok resp => Write (pr_Body resp) w
  end.

#[export] Instance toy_proxy_laws : ReverseProxyLaws toy_proxy id.
Proof.
  split; unfold id, toy_proxy.
  - done.
  - intros p r w e ->. done.
  - intros p r w resp ->. split; [apply replied_Write|apply extends_Write].
Qed.

Definition dial_ok (network address : str) : result unit := Ok tt.
Definition pair_ok (cert key : str) : result str := Ok cert.
Definition keep_text (e : error) : str := match e with ErrMsg m => m | _ => [] end.
Definition quote_json (m : str) : result str := Ok m.

Lemma serverless_reaches_cluster_witness :
  exists p, NewFromAPISource pair_ok [] (fun c l => l ++ [c]) dial_ok down (fun _ => &"1.2.3.4") keep_text quote_json
              demo_cluster = Ok p
    /\ Host (req_URL (rp_Director p (mkRequest &"GET" no_url [] [] ∅ false []))) = &"svc.example"
    /\ w_status (toy_proxy p (mkRequest &"GET" no_url [] [] ∅ false []) new_response) = Some 500%Z.
Proof.
  eexists. split; [reflexivity|].
  destruct (serverless_reaches_cluster pair_ok [] (fun c l => l ++ [c]) dial_ok down (fun _ => &"1.2.3.4") keep_text
    quote_json toy_proxy id demo_cluster _ (mkRequest &"GET" no_url [] [] ∅ false []) new_response eq_refl)
    as (_ & H & _ & _ & He).
  split; [exact H|]. by eapply He.
Defined.

Lemma serverless_error_type_not_sent_witness :
  sent_header (NewErrorHandler keep_text quote_json new_response (mkRequest &"GET" no_url [] [] ∅ false []) (ErrMsg &"x"))
    &"Content-Type" = [].
Proof.
  destruct (serverless_error_type_not_sent keep_text quote_json new_response
    (mkRequest &"GET" no_url [] [] ∅ false []) (ErrMsg &"x") &"cluster error: x") as [_ H]; [done|done|].
  rewrite H. run.
Defined.
