(* ===== verification/DiskSource.v ===== *)
(** * The legacy disk domain source

    internal/source/disk/{config,custom,group,map,disk}.go.  The file system
    is a record of the calls the scan makes; reading and decoding a
    [config.json] is one of them.  A failed type assertion, which panics in
    Go, is [None]. *)

From S2P Require Import Prelude GoStd GoPath GoUrl Header Vfs Http Serving DiskServing Domain.

(** ** config.go *)

Record domainConfig : Type := mkDomainConfig {
  dc_Domain : str; dc_Certificate : str; dc_Key : str; dc_HTTPSOnly : bool; dc_ID : Z;
  dc_AccessControl : bool }.

Record multiDomainConfig : Type := mkMultiDomainConfig {
  mc_Domains : list domainConfig; mc_HTTPSOnly : bool; mc_ID : Z; mc_AccessControl : bool }.

Record projectConfig : Type := mkProjectConfig {
  pc_NamespaceProject : bool; pc_HTTPSOnly : bool; pc_AccessControl : bool; pc_ID : Z }.

Definition Valid (c : domainConfig) (rootDomain : str) : bool :=
  if decide (dc_Domain c = []) then false
  else negb (HasSuffix (ToLower (dc_Domain c)) (&"." ++ rootDomain)).

(** ** group.go *)

Definition subgroupScanLimit : nat := 21.
Definition maxProjectDepth : nat := subgroupScanLimit + 3.

Inductive Group : Type :=
  mkGroup (name : str) (projects : gmap str projectConfig) (subgroups : gmap str Group).

Definition g_name (g : Group) : str := let '(mkGroup n _ _) := g in n.
Definition g_projects (g : Group) : gmap str projectConfig := let '(mkGroup _ p _) := g in p.
Definition g_subgroups (g : Group) : gmap str Group := let '(mkGroup _ _ s) := g in s.

Definition new_group (name : str) : Group := mkGroup name ∅ ∅.

(** The project, its path as requested and the rest of the path. *)
Fixpoint digProjectWithSubpath (g : Group) (parentPath : str) (keys : list str)
  : option (projectConfig * str * str) :=
  match keys with
  | [] => None
  | head :: tail =>
      let currentPath := path_Join [parentPath; head] in
      let search := ToLower head in
      match g_projects g !! search with
      | Some project => Some (project, currentPath, path_Join tail)
      | None =>
          match g_subgroups g !! search with
          | Some subgroup => digProjectWithSubpath subgroup currentPath tail
          | None => None
          end
      end
  end.

(** Project, prefix, project path and sub-path. *)
Definition getProjectConfigWithSubpath (g : Group) (r : Request)
  : option (projectConfig * str * str * str) :=
  let split := SplitN (Path (req_URL r)) "/" maxProjectDepth in
  let dug := if 2 <=? length split then digProjectWithSubpath g [] (drop 1 split) else None in
  match dug with
  | Some (project, projectPath, urlPath) => Some (project, &"/" ++ projectPath, projectPath, urlPath)
  | None =>
      let host := host_FromRequest r in
      if nonempty host then
        match g_projects g !! host with
        | Some groupProject => Some (groupProject, &"/", host, Join (drop 1 split) &"/")
        | None => None
        end
      else None
  end.

Section Resolving.

Context (local_Instance : Serving).

Definition Group_Resolve (g : Group) (r : Request) : result ServingRequest :=
  match getProjectConfigWithSubpath g r with
  | None => Err ErrDomainDoesNotExist
  | Some (project, prefix, projectPath, subPath) =>
      Ok (mkServingRequest local_Instance
            {| lp_ServingType := &"file"; lp_Prefix := prefix;
               lp_Path := path_Join [g_name g; projectPath; &"public"] ++ &"/";
               lp_IsNamespaceProject := pc_NamespaceProject project;
               lp_IsHTTPSOnly := pc_HTTPSOnly project;
               lp_HasAccessControl := pc_AccessControl project;
               lp_ProjectID := pc_ID project |} subPath)
  end.

(** ** custom.go *)

Definition custom_Resolve (config : option domainConfig) (path : str) (r : Request)
  : result ServingRequest :=
  match config with
  | None => Err ErrDomainDoesNotExist
  | Some c =>
      Ok (mkServingRequest local_Instance
            {| lp_ServingType := &"file"; lp_Prefix := &"/"; lp_Path := path;
               lp_IsNamespaceProject := false; lp_IsHTTPSOnly := dc_HTTPSOnly c;
               lp_HasAccessControl := dc_AccessControl c; lp_ProjectID := dc_ID c |}
            (Path (req_URL r)))
  end.

(** ** map.go: the domains map *)

(** The resolver of a domain of this source. *)
Inductive disk_resolver : Type :=
  | GroupResolver (g : Group)
  | CustomResolver (config : option domainConfig) (path : str).

Record DiskDomain : Type := mkDiskDomain {
  dd_Name : str; dd_Cert : str; dd_Key : str; dd_Resolver : disk_resolver }.

Definition disk_resolve (dd : DiskDomain) : Resolver :=
  match dd_Resolver dd with
  | GroupResolver g => Group_Resolve g
  | CustomResolver config path => custom_Resolve config path
  end.

End Resolving.

Abbreviation Map := (gmap str DiskDomain).

(** The duplicate is logged and overwritten. *)
Definition updateDomainMap (dm : Map) (domainName : str) (d : DiskDomain) : Map :=
  <[domainName := d]> dm.

Definition addDomain (dm : Map) (groupName projectName : str) (config : domainConfig) : Map :=
  let newDomain := mkDiskDomain (ToLower (dc_Domain config)) (dc_Certificate config) (dc_Key config)
    (CustomResolver (Some config) (path_Join [groupName; projectName; &"public"])) in
  updateDomainMap dm (dd_Name newDomain) newDomain.

(** The walk down the subgroups, creating the missing ones, and the insertion
    of the project. *)
Fixpoint insert_project (split : list str) (project : projectConfig) (g : Group) : Group :=
  match split with
  | [] => g
  | [projectName] => mkGroup (g_name g) (<[projectName := project]> (g_projects g)) (g_subgroups g)
  | subgroupName :: split' =>
      let subgroup := default (new_group subgroupName) (g_subgroups g !! subgroupName) in
      mkGroup (g_name g) (g_projects g)
        (<[subgroupName := insert_project split' project subgroup]> (g_subgroups g))
  end.

Definition group_domain (rootDomain groupName : str) : str := ToLower (groupName ++ &"." ++ rootDomain).

Definition updateGroupDomain (rootDomain groupName projectPath : str) (httpsOnly accessControl : bool)
    (id : Z) (dm : Map) : option Map :=
  let domainName := group_domain rootDomain groupName in
  let groupDomain := default (mkDiskDomain domainName [] [] (GroupResolver (new_group groupName)))
                       (dm !! domainName) in
  let split := SplitN (ToLower projectPath) "/" maxProjectDepth in
  let projectName := default [] (list.last split) in
  match dd_Resolver groupDomain with
  | GroupResolver g =>
      let project := mkProjectConfig (bool_decide (domainName = projectName)) httpsOnly accessControl id in
      Some (<[domainName := mkDiskDomain (dd_Name groupDomain) (dd_Cert groupDomain) (dd_Key groupDomain)
                              (GroupResolver (insert_project split project g))]> dm)
  | CustomResolver _ _ => None
  end.

Definition add_custom (rootDomain group projectName : str) (dm : Map) (config : domainConfig) : Map :=
  if Valid config rootDomain then addDomain dm group projectName config else dm.

Definition readProjectConfig (rootDomain group projectName : str) (config : option multiDomainConfig)
    (dm : Map) : option Map :=
  match config with
  | None => updateGroupDomain rootDomain group projectName false false 0 dm
  | Some c =>
      match updateGroupDomain rootDomain group projectName (mc_HTTPSOnly c) (mc_AccessControl c) (mc_ID c) dm with
      | None => None
      | Some dm' => Some (foldl (add_custom rootDomain group projectName) dm' (mc_Domains c))
      end
  end.

(** ** map.go: the scan *)

Record jobResult : Type := mkJobResult {
  jr_group : str; jr_project : str; jr_config : option multiDomainConfig }.

(** Directory entries (name, is a directory), [os.Lstat] without its result,
    the contents of the file that [os.Open] opens, and the JSON decoder for
    [multiDomainConfig]. *)
Record DiskFS : Type := mkDiskFS {
  ReadDirents : str -> result (list (str * bool));
  lstat_ok : str -> bool;
  open_file : str -> result str;
  decode_config : str -> result multiDomainConfig }.

Definition Read_config (fs : DiskFS) (group project : str) : result multiDomainConfig :=
  let? configFile := open_file fs (path_Join [group; project; &"config.json"]) in decode_config fs configFile.

Section Scan.

Context (fs : DiskFS).

(** [readProject] with the recursive call passed in. *)
Definition readProject (recurse : str -> nat -> list jobResult) (group parent projectName : str)
    (level : nat) : list jobResult :=
  if HasPrefix projectName &"." then []
  else if HasSuffix projectName &".deleted" then []
  else
    let projectPath := path_Join [parent; projectName] in
    if negb (lstat_ok fs (path_Join [group; projectPath; &"public"])) then
      if level <=? subgroupScanLimit then recurse projectPath (level + 1) else []
    else
      [mkJobResult group projectPath
         (match Read_config fs group projectPath with Ok c => Some c | Err _ => None end)].

(** [fuel] bounds the nesting; [subgroupScanLimit + 2] is enough. *)
Fixpoint readProjects (fuel : nat) (group parent : str) (level : nat) : list jobResult :=
  match fuel with
  | 0 => []
  | S fuel' =>
      match ReadDirents fs (path_Join [group; parent]) with
      | Err _ => []
      | Ok fis =>
          mjoin ((fun fi => readProject (readProjects fuel' group) group parent fi.1 level)
                   <$> filter (fun fi => fi.2 = true) fis)
      end
  end.

Definition scan_fuel : nat := subgroupScanLimit + 2.
Definition skipHashedDir : str := &"@hashed".

Definition scanned_group (fi : str * bool) : bool :=
  fi.2 && negb (HasPrefix fi.1 &".") && negb (bool_decide (fi.1 = skipHashedDir)).

(** What the workers send for the groups of the root directory, group by
    group. *)
Definition scan_results (fis : list (str * bool)) : list (list jobResult) :=
  (fun fi => readProjects scan_fuel fi.1 [] 0) <$> filter (fun fi => scanned_group fi = true) fis.

(** The collector: results in the order they arrive. *)
Fixpoint collect (rootDomain : str) (results : list jobResult) (dm : Map) : option Map :=
  match results with
  | [] => Some dm
  | r :: results' =>
      match readProjectConfig rootDomain (jr_group r) (jr_project r) (jr_config r) dm with
      | Some dm' => collect rootDomain results' dm'
      | None => None
      end
  end.

(** The unbuffered channel the workers share: any of them may send next, each
    sends its own results in order. *)
Inductive interleaved {A} : list (list A) -> list A -> Prop :=
  | interleaved_done ls : Forall (fun l => l = []) ls -> interleaved ls []
  | interleaved_send l1 x l l2 o :
      interleaved (l1 ++ l :: l2) o -> interleaved (l1 ++ (x :: l) :: l2) (x :: o).

(** [ReadGroups]: the collector sees the results of the groups interleaved. *)
Definition ReadGroups (rootDomain : str) (fis : list (str * bool)) (dm : Map) (out : option Map) : Prop :=
  exists order, interleaved (scan_results fis) order /\ out = collect rootDomain order dm.

(** ** map.go: Watch *)

(** One turn of the loop: [update] is the result of reading [.update],
    [dirents] of listing the directory, [scan] the map the scan makes. *)
Definition Watch_step (lastUpdate : str) (update : result str) (dirents : result (list (str * bool)))
    (scan : list (str * bool) -> Map) : str * option Map :=
  let update' := match update with
                 | Ok u => Some u
                 | Err e => if os_IsNotExist e then Some [] else None
                 end in
  match update' with
  | None => (lastUpdate, None)
  | Some u =>
      if decide (lastUpdate = u) then (lastUpdate, None)
      else
        match dirents with
        | Err _ => (u, None)
        | Ok fis => (u, Some (scan fis))
        end
  end.

Definition no_update : str := &"no-update".

End Scan.

(** ** disk.go *)

(** [None] is the nil map before the first scan. *)
Record Disk : Type := mkDisk { disk_dm : option Map }.

Definition Disk_New : Disk := mkDisk None.
Definition Disk_updateDomains (dm : Map) (d : Disk) : Disk := mkDisk (Some dm).
Definition Disk_GetDomain (host : str) (d : Disk) : option DiskDomain :=
  match disk_dm d with Some dm => dm !! ToLower host | None => None end.
Definition Disk_IsReady (d : Disk) : bool :=
  match disk_dm d with Some _ => true | None => false end.

(** ** Lemmas *)

(** No project of the tree lies on the way to the project [path]. *)
Fixpoint no_shadow (g : Group) (path : list str) : Prop :=
  match path with
  | [] | [_] => True
  | s :: path' =>
      g_projects g !! ToLower s = None
      /\ match g_subgroups g !! ToLower s with
         | Some sub => no_shadow sub path'
         | None => True
         end
  end.

Lemma no_shadow_new name path : no_shadow (new_group name) path.
Proof. destruct path as [|s [|s' path]]; try done. Qed.

(** An inserted project is found by any path that spells it, in any case of
    letters, with the rest of the path left over. *)
Lemma dig_insert path project : forall g parent tail,
  path <> [] -> no_shadow g path ->
  digProjectWithSubpath (insert_project (ToLower <$> path) project g) parent (path ++ tail)
  = Some (project, foldl (fun p h => path_Join [p; h]) parent path, path_Join tail).
Proof.
  induction path as [|s path IH]; intros g parent tail Hne Hs; [done|].
  destruct path as [|s' path].
  - cbn [fmap list_fmap insert_project app digProjectWithSubpath g_projects].
    by rewrite lookup_insert_eq.
  - destruct Hs as [Hp Hs]. rewrite fmap_cons.
    change (insert_project (ToLower s :: (ToLower <$> s' :: path)) project g)
      with (mkGroup (g_name g) (g_projects g)
        (<[ToLower s := insert_project (ToLower <$> s' :: path) project
             (default (new_group (ToLower s)) (g_subgroups g !! ToLower s))]> (g_subgroups g))).
    change ((s :: s' :: path) ++ tail) with (s :: ((s' :: path) ++ tail)).
    cbn [digProjectWithSubpath g_projects g_subgroups]. rewrite Hp, lookup_insert_eq.
    rewrite IH; [done|done|]. destruct (g_subgroups g !! ToLower s); [done|apply no_shadow_new].
Qed.

Lemma join_path_step ds c :
  Forall ordinary (ds ++ [c]) -> path_Join [Join ds [slash]; c] = Join (ds ++ [c]) [slash].
Proof.
  intros HF. assert (Hc : Clean (Join (ds ++ [c]) [slash]) = Join (ds ++ [c]) [slash]).
  { apply Clean_Join; [done|]. by destruct ds. }
  destruct ds as [|d ds].
  - cbn [Join app] in *. rewrite Forall_singleton in HF. pose proof (proj1 HF) as Hne.
    cbn [path_Join]. rewrite decide_True by done. by rewrite decide_False.
  - cbn [path_Join]. rewrite decide_False.
    + rewrite Join_app in Hc |- * by done. done.
    + apply Join_nonempty; [done|]. by apply Forall_app in HF as [HF _].
Qed.

Lemma join_path cs : forall ds,
  Forall ordinary (ds ++ cs) ->
  foldl (fun p h => path_Join [p; h]) (Join ds [slash]) cs = Join (ds ++ cs) [slash].
Proof.
  induction cs as [|c cs IH]; intros ds HF; [by rewrite app_nil_r|]. cbn [foldl].
  rewrite join_path_step.
  - rewrite IH; rewrite <- app_assoc; done.
  - change (c :: cs) with ([c] ++ cs) in HF. rewrite app_assoc in HF. by apply Forall_app in HF as [HF _].
Qed.

(** A group domain always has a group resolver: the domains below the root
    domain are never custom ones. *)
Definition map_ok (rootDomain : str) (dm : Map) : Prop :=
  forall name dd, dm !! name = Some dd -> HasSuffix name (&"." ++ rootDomain) = true ->
    exists g, dd_Resolver dd = GroupResolver g.

Lemma group_domain_suffix root group :
  ToLower root = root -> HasSuffix (group_domain root group) (&"." ++ root) = true.
Proof.
  intros Hr. unfold group_domain. rewrite ToLower_app.
  assert (ToLower (&"." ++ root) = &"." ++ root) as ->.
  { rewrite ToLower_app, Hr. done. }
  apply HasSuffix_app.
Qed.

Lemma updateGroupDomain_ok root group project https ac id dm :
  ToLower root = root -> map_ok root dm ->
  exists dm', updateGroupDomain root group project https ac id dm = Some dm' /\ map_ok root dm'.
Proof.
  intros Hr Hdm. unfold updateGroupDomain.
  assert (Hg : exists g, dd_Resolver (default (mkDiskDomain (group_domain root group) [] []
      (GroupResolver (new_group group))) (dm !! group_domain root group)) = GroupResolver g).
  { destruct (dm !! group_domain root group) as [dd|] eqn:E; simpl; [|eauto].
    apply (Hdm _ _ E). by apply group_domain_suffix. }
  destruct Hg as [g Hg]. rewrite Hg. eexists. split; [done|].
  intros name dd [[<- <-]|[_ H]]%lookup_insert_Some Hs; [by eexists|by eapply Hdm].
Qed.

Lemma add_custom_ok root group project dm c : map_ok root dm -> map_ok root (add_custom root group project dm c).
Proof.
  intros Hdm. unfold add_custom, Valid. destruct (decide (dc_Domain c = [])); [done|].
  destruct (HasSuffix (ToLower (dc_Domain c)) (&"." ++ root)) eqn:E; simpl; [done|].
  unfold addDomain, updateDomainMap. cbn [dd_Name].
  intros name dd [[<- <-]|[_ H]]%lookup_insert_Some Hs; [congruence|by eapply Hdm].
Qed.

Lemma readProjectConfig_ok root group project config dm :
  ToLower root = root -> map_ok root dm ->
  exists dm', readProjectConfig root group project config dm = Some dm' /\ map_ok root dm'.
Proof.
  intros Hr Hdm. unfold readProjectConfig. destruct config as [c|]; [|by apply updateGroupDomain_ok].
  destruct (updateGroupDomain_ok root group project (mc_HTTPSOnly c) (mc_AccessControl c) (mc_ID c) dm Hr Hdm)
    as (dm' & -> & Hdm').
  eexists. split; [done|]. revert dm' Hdm'.
  induction (mc_Domains c) as [|x xs IH]; intros dm' Hdm'; [done|]. simpl. by apply IH, add_custom_ok.
Qed.

Lemma interleaved_skip {A} (ls : list (list A)) o : interleaved ls o -> interleaved ([] :: ls) o.
Proof.
  induction 1 as [ls Hls|l1 x l l2 o _ IH]; [by constructor; constructor|].
  by apply (interleaved_send ([] :: l1)).
Qed.

(** One group after the other is one of the orders. *)
Lemma interleaved_mjoin {A} (ls : list (list A)) : interleaved ls (mjoin ls).
Proof.
  induction ls as [|l ls IH]; [by constructor|]. change (mjoin (l :: ls)) with (l ++ mjoin ls).
  induction l as [|x l IHl]; [by apply interleaved_skip|]. by apply (interleaved_send []).
Qed.

Lemma collect_ok root results : forall dm,
  ToLower root = root -> map_ok root dm -> exists dm', collect root results dm = Some dm' /\ map_ok root dm'.
Proof.
  induction results as [|x xs IH]; intros dm Hr Hdm; [by eexists|]. simpl.
  destruct (readProjectConfig_ok root (jr_group x) (jr_project x) (jr_config x) dm Hr Hdm) as (dm' & -> & Hdm').
  by apply IH.
Qed.

(** More fuel than the scan limit allows changes nothing. *)
Lemma readProjects_fuel fs group fuel1 : forall fuel2 parent level,
  subgroupScanLimit + 2 <= fuel1 + level -> subgroupScanLimit + 2 <= fuel2 + level ->
  0 < fuel1 -> 0 < fuel2 ->
  readProjects fs fuel1 group parent level = readProjects fs fuel2 group parent level.
Proof.
  induction fuel1 as [|f1 IH]; intros [|f2] parent level H1 H2 P1 P2; try lia.
  cbn [readProjects]. destruct (ReadDirents fs _) as [fis|]; [|done]. f_equal.
  apply list_fmap_ext. intros _ fi _. unfold readProject.
  repeat case_match; try done. bools. apply IH; unfold subgroupScanLimit in *; lia.
Qed.

Lemma ordinary_no_slash comps : Forall ordinary comps -> Forall (fun f => slash ∉ f) comps.
Proof. intros HF. eapply Forall_impl; [exact HF|]. intros c Hc. apply Hc. Qed.

(** How a project path is split when it is inserted, and a request path when
    it is looked up. *)
Lemma lower_split comps :
  Forall ordinary comps -> comps <> [] -> length comps <= 22 ->
  SplitN (ToLower (Join comps [slash])) "/" maxProjectDepth = ToLower <$> comps.
Proof.
  intros HF%ordinary_no_slash Hne Hlen.
  assert (ToLower (Join comps [slash]) = Join (ToLower <$> comps) ["/"%char]) as ->.
  { rewrite <- (Split_Join comps "/") at 2 by done. by rewrite <- Split_ToLower, Join_Split. }
  apply SplitN_Join; [|by destruct comps|rewrite length_fmap; unfold maxProjectDepth, subgroupScanLimit; lia].
  apply Forall_fmap. eapply Forall_impl; [exact HF|]. intros f Hf. simpl.
  unfold ToLower. intros (x & Hx & Hin)%list_elem_of_fmap. symmetry in Hx.
  apply (proj1 (lower_byte_slash _)) in Hx. rewrite Hx in Hin. by apply Hf.
Qed.

Lemma url_split comps rest :
  Forall ordinary comps -> comps <> [] -> length comps <= 22 ->
  SplitN (slash :: Join comps [slash] ++ slash :: rest) "/" maxProjectDepth
  = [] :: comps ++ SplitN rest "/" (23 - length comps).
Proof.
  intros HF%ordinary_no_slash Hne Hlen. change (slash :: ?x) with ([] ++ "/"%char :: x) at 1.
  rewrite SplitN_field by (apply not_elem_of_nil || (unfold maxProjectDepth, subgroupScanLimit; lia)).
  f_equal. replace (maxProjectDepth - 1) with (length comps + (23 - length comps))
    by (unfold maxProjectDepth, subgroupScanLimit; lia).
  apply SplitN_Join_app; [done|done|lia].
Qed.

(** ** Properties *)

(** Building the domains map never fails a type assertion: for a
    lower-case root domain, whatever projects and custom domains the scan
    finds and in whatever order the workers deliver them, the map is built,
    and every domain below the root domain resolves as a group. *)
Theorem ReadGroups_never_panics fs rootDomain fis out :
  ToLower rootDomain = rootDomain -> ReadGroups fs rootDomain fis ∅ out ->
  exists dm, out = Some dm
    /\ forall name dd, dm !! name = Some dd -> HasSuffix name (&"." ++ rootDomain) = true ->
         exists g, dd_Resolver dd = GroupResolver g.
Proof.
  intros Hr (order & _ & ->).
  destruct (collect_ok rootDomain order ∅ Hr) as (dm & -> & Hdm).
  { intros name dd H. by rewrite lookup_empty in H. }
  by exists dm.
Qed.

(** The group tree an update starts from. *)
Definition group_before (rootDomain groupName : str) (dm : Map) : Group :=
  match dm !! group_domain rootDomain groupName with
  | Some dd => match dd_Resolver dd with GroupResolver g => g | _ => new_group groupName end
  | None => new_group groupName
  end.

(** A project that was added to the map is found again: a request to the
    group's domain for a path below the project's path, spelled in any case,
    resolves to the project's own settings and to the public directory of
    the requested path inside the group, with the rest of the path as
    sub-path.  It holds for project paths of up to 22 components that no
    other project of the group is a strict prefix of. *)
Theorem updateGroupDomain_lookup local root group https ac id dm dm' comps rest r :
  updateGroupDomain root group (Join comps [slash]) https ac id dm = Some dm' ->
  Forall ordinary comps -> comps <> [] -> length comps <= 22 ->
  no_shadow (group_before root group dm) comps ->
  Path (req_URL r) = slash :: Join comps [slash] ++ slash :: rest ->
  exists dd sr, dm' !! group_domain root group = Some dd
    /\ disk_resolve local dd r = Ok sr
    /\ lp_ProjectID (sr_LookupPath sr) = id
    /\ lp_HasAccessControl (sr_LookupPath sr) = ac
    /\ lp_IsHTTPSOnly (sr_LookupPath sr) = https
    /\ lp_Prefix (sr_LookupPath sr) = slash :: Join comps [slash]
    /\ lp_Path (sr_LookupPath sr)
       = path_Join [g_name (group_before root group dm); Join comps [slash]; &"public"] ++ &"/"
    /\ sr_SubPath sr = path_Join (SplitN rest "/" (23 - length comps)).
Proof.
  intros Hup HF Hne Hlen Hsh Hpath.
  pose proof (lower_split comps HF Hne Hlen) as Hsplit.
  assert (HurlS : SplitN (Path (req_URL r)) "/" maxProjectDepth
                  = [] :: comps ++ SplitN rest "/" (23 - length comps))
    by (rewrite Hpath; by apply url_split).
  unfold updateGroupDomain in Hup. rewrite Hsplit in Hup. unfold group_before in *.
  set (dd0 := default _ (dm !! group_domain root group)) in *.
  assert (Hg : exists g, dd_Resolver dd0 = GroupResolver g) by (destruct (dd_Resolver dd0); [by eexists|done]).
  destruct Hg as [g Hg]. rewrite Hg in Hup. injection Hup as <-.
  assert (Hbefore : match dm !! group_domain root group with
    | Some dd => match dd_Resolver dd with GroupResolver g => g | _ => new_group group end
    | None => new_group group end = g).
  { subst dd0. destruct (dm !! group_domain root group) as [dd|]; simpl in Hg; [by rewrite Hg|congruence]. }
  rewrite Hbefore in *. eexists _, _. split; [apply lookup_insert_eq|].
  unfold disk_resolve. cbn [dd_Resolver]. unfold Group_Resolve, getProjectConfigWithSubpath.
  rewrite HurlS. cbn [skipn].
  assert ((2 <=? length ([] :: comps ++ SplitN rest "/" (23 - length comps))) = true) as ->.
  { apply Nat.leb_le. destruct comps; [done|]. simpl. lia. }
  rewrite drop_0, dig_insert by done.
  pose proof (join_path comps [] HF) as Hj. cbn [Join app] in Hj. rewrite Hj.
  split; [reflexivity|]. repeat split. cbn [sr_LookupPath lp_Path].
  assert (forall p g, g_name (insert_project (ToLower <$> comps) p g) = g_name g) as ->; [|done].
  intros p g'. destruct comps as [|c [|c' cs]]; [done|done|done].
Qed.

(** A failed scan of the pages directory is not repeated: the update
    marker has been consumed, so that no later turn of the loop produces a
    new map until the marker changes. *)
Theorem Watch_failed_scan_not_retried lastUpdate u e scan :
  lastUpdate <> u ->
  let '(last, out) := Watch_step lastUpdate (Ok u) (Err e) scan in
  out = None /\ forall dirents, Watch_step last (Ok u) dirents scan = (last, None).
Proof.
  intros Hne. unfold Watch_step. rewrite decide_False by done. split; [done|].
  intros dirents. by rewrite decide_True.
Qed.

(** ** A concrete pages directory *)

Definition demo_serving : Serving := disk_New plain_lib no_rules [] 0 (demo_vfs demo_root).

Definition no_config : str -> result str := fun _ => Err os_ErrNotExist.

(** [depth] nested directories called [a] below the group [group], the
    innermost one with a public directory. *)
Definition nested (depth : nat) : str := Join (replicate depth &"a") &"/".
Definition deep_fs (depth : nat) : DiskFS := {|
  ReadDirents p := Ok (if decide (p = path_Join [&"group"; nested depth]) then [] else [(&"a", true)]);
  lstat_ok p := bool_decide (p = path_Join [&"group"; nested depth; &"public"]);
  open_file := no_config;
  decode_config _ := Err (ErrMsg &"json") |}.

(** The scan goes one level deeper than the lookup: a project 23
    directories below its group is entered in the domains map, but a request
    for a file in it does not find it, while 22 directories are found. *)
Theorem project_depth_scan_and_lookup_differ :
  let found depth :=
    match collect &"example.io" (mjoin (scan_results (deep_fs depth) [(&"group", true)])) ∅ with
    | Some dm =>
        match dm !! &"group.example.io" with
        | Some dd => is_ok (disk_resolve demo_serving dd (demo_get (&"/" ++ nested depth ++ &"/index.html")))
        | None => false
        end
    | None => false
    end in
  length (mjoin (scan_results (deep_fs 23) [(&"group", true)])) = 1
  /\ found 22 = true /\ found 23 = false.
Proof. vm_compute. done. Qed.

Lemma ReadGroups_never_panics_witness :
  exists dm, collect &"example.io" (mjoin (scan_results (deep_fs 2) [(&"group", true)])) ∅ = Some dm.
Proof.
  destruct (ReadGroups_never_panics (deep_fs 2) &"example.io" [(&"group", true)] _ eq_refl
    (ex_intro _ _ (conj (interleaved_mjoin _) eq_refl))) as (dm & H & _).
  exists dm. exact H.
Defined.

Definition one_project : option Map :=
  updateGroupDomain &"example.io" &"Group" &"Sub/Project" true true 42 ∅.

Lemma updateGroupDomain_lookup_witness :
  exists dm dd sr, one_project = Some dm /\ dm !! &"group.example.io" = Some dd
    /\ disk_resolve demo_serving dd (demo_get &"/Sub/Project/css/a.css") = Ok sr
    /\ lp_ProjectID (sr_LookupPath sr) = 42%Z
    /\ lp_Path (sr_LookupPath sr) = &"Group/Sub/Project/public/"
    /\ sr_SubPath sr = &"css/a.css".
Proof.
  destruct one_project as [dm|] eqn:E; [|vm_compute in E; discriminate E].
  destruct (updateGroupDomain_lookup demo_serving &"example.io" &"Group" true true 42 ∅ dm
    [&"Sub"; &"Project"] &"css/a.css" (demo_get &"/Sub/Project/css/a.css")) as (dd & sr & H1 & H2 & H3 & _ & _ & _ & H4 & H5).
  - exact E.
  - decide_now.
  - discriminate.
  - simpl. lia.
  - split; [reflexivity|exact I].
  - reflexivity.
  - exists dm, dd, sr. split; [reflexivity|]. split; [exact H1|]. split; [exact H2|]. split; [exact H3|].
    split; [rewrite H4; run|rewrite H5; run].
Defined.

Lemma Watch_failed_scan_not_retried_witness :
  Watch_step (Watch_step no_update (Ok &"1") (Err os_ErrNotExist) (fun _ => ∅)).1 (Ok &"1") (Ok []) (fun _ => ∅)
  = (&"1", None).
Proof.
  destruct (Watch_failed_scan_not_retried no_update &"1" os_ErrNotExist (fun _ => ∅)) as [_ H].
  - discriminate.
  - exact (H (Ok [])).
Defined.
