(* ===== verification/DiskScan.v ===== *)
(** * The order of the disk scan

    [ReadGroups] of internal/source/disk/map.go reads the groups with several
    workers and collects their results as they arrive.  A result claims the
    domain of its group and its valid custom domains; results that claim
    different domains commute, so that the map the scan makes is the one a
    scan group by group would make.  [Watch] repeats the scan for as long as
    the daemon runs; the source answers from the map of the last scan that
    was completed.  (DiskSource.v has the operations.) *)

From S2P Require Import Prelude GoStd GoPath GoUrl Header Vfs Http Serving DiskServing Domain DiskSource.

Section Order.

Context (rootDomain : str).

(** ** The domains a result claims *)

Definition custom_names (c : multiDomainConfig) : list str :=
  (fun config => ToLower (dc_Domain config)) <$> filter (fun config => Valid config rootDomain = true) (mc_Domains c).

Definition claimed (r : jobResult) : list str :=
  group_domain rootDomain (jr_group r)
    :: match jr_config r with Some c => custom_names c | None => [] end.

Definition collect_one (r : jobResult) (dm : Map) : option Map :=
  readProjectConfig rootDomain (jr_group r) (jr_project r) (jr_config r) dm.

(** What a result adds to a map, from the entry of its group alone. *)
Definition group_entry (r : jobResult) (dm : Map) : Map :=
  match dm !! group_domain rootDomain (jr_group r) with
  | Some dd => {[ group_domain rootDomain (jr_group r) := dd ]}
  | None => ∅
  end.
Definition additions (r : jobResult) (dm : Map) : option Map := collect_one r (group_entry r dm).

Lemma group_entry_lookup r dm :
  group_entry r dm !! group_domain rootDomain (jr_group r) = dm !! group_domain rootDomain (jr_group r).
Proof.
  unfold group_entry. destruct (dm !! _) as [dd|] eqn:E; [apply lookup_singleton_eq|done].
Qed.

Lemma group_entry_union r dm : group_entry r dm ∪ dm = dm.
Proof.
  unfold group_entry. destruct (dm !! _) as [dd|] eqn:E; [|apply (left_id_L ∅ (∪))].
  rewrite <- insert_union_singleton_l. by apply insert_id.
Qed.

(** The update of the group's domain and the custom domains are insertions. *)
Lemma updateGroupDomain_union (group project : str) (https ac : bool) (id : Z) (dm0 dm : Map) :
  dm0 !! group_domain rootDomain group = (dm0 ∪ dm) !! group_domain rootDomain group ->
  updateGroupDomain rootDomain group project https ac id (dm0 ∪ dm)
  = (fun u => u ∪ dm) <$> updateGroupDomain rootDomain group project https ac id dm0.
Proof.
  intros H. unfold updateGroupDomain. rewrite <- H. case_match; [|done]. cbn [fmap option_fmap option_map].
  by rewrite insert_union_l.
Qed.

Lemma add_custom_union (group project : str) configs : forall dm0 dm : Map,
  foldl (add_custom rootDomain group project) (dm0 ∪ dm) configs
  = foldl (add_custom rootDomain group project) dm0 configs ∪ dm.
Proof.
  induction configs as [|c configs IH]; intros dm0 dm; [done|]. cbn [foldl]. rewrite <- IH. f_equal.
  unfold add_custom, addDomain, updateDomainMap. case_match; [|done]. by rewrite insert_union_l.
Qed.

Lemma collect_one_additions r dm : collect_one r dm = (fun u => u ∪ dm) <$> additions r dm.
Proof.
  transitivity (collect_one r (group_entry r dm ∪ dm)); [by rewrite group_entry_union|].
  unfold additions, collect_one, readProjectConfig.
  assert (H : group_entry r dm !! group_domain rootDomain (jr_group r)
              = (group_entry r dm ∪ dm) !! group_domain rootDomain (jr_group r))
    by (by rewrite group_entry_union, group_entry_lookup).
  destruct (jr_config r) as [c|]; rewrite updateGroupDomain_union by done; [|done].
  destruct (updateGroupDomain _ _ _ _ _ _ (group_entry r dm)) as [dm'|]; [|done].
  cbn [fmap option_fmap option_map]. by rewrite add_custom_union.
Qed.

(** A result only adds what it claims. *)
Lemma add_custom_names group project configs : forall (dm : Map) name,
  is_Some (foldl (add_custom rootDomain group project) dm configs !! name) ->
  is_Some (dm !! name) \/ name ∈ (fun config => ToLower (dc_Domain config))
                            <$> filter (fun config => Valid config rootDomain = true) configs.
Proof.
  induction configs as [|c configs IH]; intros dm name H; [by left|]. cbn [foldl] in H.
  rewrite filter_cons. apply IH in H as [H|H].
  - unfold add_custom, addDomain, updateDomainMap in H. destruct (Valid c rootDomain) eqn:Ev; [|by left].
    rewrite decide_True by done. rewrite lookup_insert_is_Some in H.
    destruct H as [<-|[_ H]]; [right; apply elem_of_cons; by left|by left].
  - right. case_decide; [apply elem_of_cons; by right|done].
Qed.

Lemma additions_claimed r dm u name : additions r dm = Some u -> is_Some (u !! name) -> name ∈ claimed r.
Proof.
  intros Hu Hn. unfold claimed. apply elem_of_cons.
  assert (Hup : forall https ac id v, updateGroupDomain rootDomain (jr_group r) (jr_project r) https ac id
      (group_entry r dm) = Some v -> is_Some (v !! name) -> name = group_domain rootDomain (jr_group r)).
  { intros https ac id v. unfold updateGroupDomain. case_match; [|done]. intros [= <-].
    rewrite lookup_insert_is_Some. intros [<-|[Hne Hs]]; [done|]. unfold group_entry in Hs.
    destruct (dm !! _); [|by rewrite lookup_empty in Hs; destruct Hs].
    rewrite lookup_singleton_ne in Hs by done. by destruct Hs. }
  unfold additions, collect_one, readProjectConfig in Hu. destruct (jr_config r) as [c|]; [|by left; eapply Hup].
  destruct (updateGroupDomain _ _ _ _ _ _ _) as [v|] eqn:Ev; [|done]. injection Hu as <-.
  apply add_custom_names in Hn as [Hn|Hn]; [left; by eapply Hup|by right].
Qed.

(** ** Results that claim different domains commute *)

Definition independent (r1 r2 : jobResult) : Prop := forall name, name ∈ claimed r1 -> name ∈ claimed r2 -> False.

Lemma additions_stable r1 r2 dm u : independent r1 r2 -> additions r2 dm = Some u -> additions r1 (u ∪ dm) = additions r1 dm.
Proof.
  intros Hi Hu. unfold additions, group_entry.
  assert (u !! group_domain rootDomain (jr_group r1) = None) as Hnone.
  { apply eq_None_not_Some. intros Hs. apply (Hi (group_domain rootDomain (jr_group r1))).
    - apply elem_of_cons. by left.
    - by eapply additions_claimed. }
  by rewrite lookup_union_r.
Qed.

Lemma additions_disjoint r1 r2 dm u1 u2 :
  independent r1 r2 -> additions r1 dm = Some u1 -> additions r2 dm = Some u2 -> u1 ##ₘ u2.
Proof.
  intros Hi H1 H2. apply map_disjoint_spec. intros name d1 d2 E1 E2.
  apply (Hi name); eapply additions_claimed; [exact H1|by rewrite E1|exact H2|by rewrite E2].
Qed.

Definition collect_two (r1 r2 : jobResult) (dm : Map) : option Map := collect_one r1 dm ≫= collect_one r2.

Lemma collect_two_comm r1 r2 dm : independent r1 r2 -> collect_two r1 r2 dm = collect_two r2 r1 dm.
Proof.
  intros Hi. assert (Hi' : independent r2 r1) by (intros name H1 H2; by apply (Hi name)).
  unfold collect_two. rewrite !(collect_one_additions _ dm).
  destruct (additions r1 dm) as [u1|] eqn:E1, (additions r2 dm) as [u2|] eqn:E2; simpl.
  - rewrite !collect_one_additions, (additions_stable r2 r1 dm u1), (additions_stable r1 r2 dm u2) by done.
    rewrite E1, E2. simpl. f_equal. rewrite !(assoc_L (∪)). f_equal. apply map_union_comm.
    by apply (additions_disjoint r2 r1 dm).
  - rewrite collect_one_additions, (additions_stable r2 r1 dm u1), E2 by done. done.
  - rewrite collect_one_additions, (additions_stable r1 r2 dm u2), E1 by done. done.
  - done.
Qed.

(** ** Interleavings *)

Lemma collect_result_cons r rs dm : collect rootDomain (r :: rs) dm = collect_one r dm ≫= collect rootDomain rs.
Proof. simpl. unfold collect_one. by destruct (readProjectConfig _ _ _ _ dm). Qed.

Lemma collect_swap r1 r2 rs dm :
  independent r1 r2 -> collect rootDomain (r1 :: r2 :: rs) dm = collect rootDomain (r2 :: r1 :: rs) dm.
Proof.
  intros Hi. pose proof (collect_two_comm r1 r2 dm Hi) as Hc. unfold collect_two in Hc. rewrite !collect_result_cons.
  assert (Hb : forall a b, collect_one a dm ≫= collect rootDomain (b :: rs)
               = (collect_one a dm ≫= collect_one b) ≫= collect rootDomain rs).
  { intros a b. destruct (collect_one a dm) as [dm'|]; [|done]. simpl. by rewrite <- collect_result_cons. }
  by rewrite !Hb, Hc.
Qed.

(** A result that is independent of those before it may come first. *)
Lemma collect_first r pre : forall rs dm,
  Forall (fun r' => independent r' r) pre ->
  collect rootDomain (pre ++ r :: rs) dm = collect rootDomain (r :: pre ++ rs) dm.
Proof.
  induction pre as [|r' pre IH]; intros rs dm HF; [done|]. inversion HF as [|x xs Hx HF' Heq]. subst.
  cbn [app]. rewrite (collect_swap r r') by (intros name H1 H2; by apply (Hx name)).
  rewrite !(collect_result_cons r'). destruct (collect_one r' dm) as [dm'|]; [|done]. simpl. by apply IH.
Qed.

(** Results of different workers are independent. *)
Definition workers_independent (ls : list (list jobResult)) : Prop :=
  forall i j li lj r1 r2, i <> j -> ls !! i = Some li -> ls !! j = Some lj -> r1 ∈ li -> r2 ∈ lj -> independent r1 r2.

Lemma workers_independent_tail l1 x l l2 :
  workers_independent (l1 ++ (x :: l) :: l2) -> workers_independent (l1 ++ l :: l2).
Proof.
  intros H i j li lj r1 r2 Hij Hi Hj H1 H2.
  assert (Hup : forall k lk r, (l1 ++ l :: l2) !! k = Some lk -> r ∈ lk ->
    exists lk', (l1 ++ (x :: l) :: l2) !! k = Some lk' /\ r ∈ lk').
  { intros k lk r Hk Hr. destruct (decide (k < length l1)) as [Hlt|Hge].
    - exists lk. rewrite lookup_app_l in Hk |- * by done. done.
    - rewrite lookup_app_r in Hk |- * by lia. destruct (k - length l1) as [|m]; [|by exists lk].
      injection Hk as <-. exists (x :: l). split; [done|]. apply elem_of_cons. by right. }
  apply (Hup _ _ r1) in Hi as (li' & Hi & Hr1); [|done]. apply (Hup _ _ r2) in Hj as (lj' & Hj & Hr2); [|done].
  by eapply H.
Qed.

Lemma collect_interleaved ls o : interleaved ls o -> workers_independent ls ->
  forall dm, collect rootDomain o dm = collect rootDomain (mjoin ls) dm.
Proof.
  induction 1 as [ls Hls|l1 x l l2 o _ IH]; intros Hw dm.
  - assert (mjoin ls = []) as ->; [|done]. induction Hls as [|l ls -> _ IHl]; [done|]. apply IHl.
    intros i j li lj r1 r2 Hij Hi Hj. apply (Hw (S i) (S j)); [lia|done|done].
  - assert (Hj : forall y, mjoin (l1 ++ y :: l2) = mjoin l1 ++ y ++ mjoin l2).
    { intros y. change (y :: l2) with ([y] ++ l2). rewrite !join_app. simpl. by rewrite app_nil_r. }
    rewrite Hj. cbn [app]. rewrite collect_first.
    + rewrite !(collect_result_cons x). destruct (collect_one x dm) as [dm'|]; [|done]. simpl.
      rewrite IH, Hj by (by eapply workers_independent_tail). done.
    + apply Forall_forall. intros r' (lk & Hr' & Hk)%list_elem_of_join.
      apply list_elem_of_lookup in Hk as [k Hk]. pose proof (lookup_lt_Some _ _ _ Hk) as Hlt.
      apply (Hw k (length l1) lk (x :: l)); [lia|by apply lookup_app_l_Some|by apply list_lookup_middle|done|].
      apply elem_of_cons. by left.
Qed.

End Order.

(** ** Groups with names of their own *)

Lemma readProjects_group fs fuel group : forall parent level r,
  r ∈ readProjects fs fuel group parent level -> jr_group r = group.
Proof.
  induction fuel as [|fuel IH]; intros parent level r Hr; [by apply not_elem_of_nil in Hr|].
  cbn [readProjects] in Hr. destruct (ReadDirents fs _) as [fis|]; [|by apply not_elem_of_nil in Hr].
  apply list_elem_of_join in Hr as (l & Hr & Hl). apply list_elem_of_fmap in Hl as (fi & -> & _).
  unfold readProject in Hr. repeat case_match;
    first [by apply not_elem_of_nil in Hr|by eapply IH|by apply list_elem_of_singleton in Hr as ->].
Qed.

Lemma scan_worker fs fis i l r :
  scan_results fs fis !! i = Some l -> r ∈ l ->
  exists fi, filter (fun fi => scanned_group fi = true) fis !! i = Some fi /\ jr_group r = fi.1.
Proof.
  unfold scan_results. rewrite list_lookup_fmap_Some. intros (fi & -> & Hi) Hr. exists fi.
  split; [done|]. by eapply readProjects_group.
Qed.

Lemma group_domain_inj rootDomain g1 g2 :
  group_domain rootDomain g1 = group_domain rootDomain g2 -> ToLower g1 = ToLower g2.
Proof. unfold group_domain. rewrite !ToLower_app. intros H. by simplify_list_eq. Qed.

Lemma custom_names_not_group rootDomain c group :
  ToLower rootDomain = rootDomain -> group_domain rootDomain group ∈ custom_names rootDomain c -> False.
Proof.
  intros Hr (config & Hn & [Hv _]%list_elem_of_filter)%list_elem_of_fmap. unfold Valid in Hv.
  case_decide; [done|]. rewrite <- Hn, group_domain_suffix in Hv by done. done.
Qed.

(** The custom domains of different results are different. *)
Definition custom_disjoint (rootDomain : str) (r1 r2 : jobResult) : Prop :=
  forall c1 c2 name, jr_config r1 = Some c1 -> jr_config r2 = Some c2 ->
    name ∈ custom_names rootDomain c1 -> name ∈ custom_names rootDomain c2 -> False.

Lemma independent_intro rootDomain r1 r2 :
  ToLower rootDomain = rootDomain -> ToLower (jr_group r1) <> ToLower (jr_group r2) ->
  custom_disjoint rootDomain r1 r2 -> independent rootDomain r1 r2.
Proof.
  intros Hr Hg Hc name H1 H2. unfold claimed in *. apply elem_of_cons in H1, H2.
  destruct H1 as [->|H1], H2 as [H2|H2].
  - by apply Hg, (group_domain_inj rootDomain).
  - destruct (jr_config r2) as [c|]; [|by apply not_elem_of_nil in H2]. by eapply custom_names_not_group.
  - subst name. destruct (jr_config r1) as [c|]; [|by apply not_elem_of_nil in H1]. by eapply custom_names_not_group.
  - destruct (jr_config r1) as [c1|] eqn:E1; [|by apply not_elem_of_nil in H1].
    destruct (jr_config r2) as [c2|] eqn:E2; [|by apply not_elem_of_nil in H2]. by eapply Hc.
Qed.

(** ** The source over time *)

Section Watching.

Context (rootDomain : str).

(** What a turn of [Watch] finds: the marker file, the listing of the pages
    directory and the directories below it. *)
Record turn_env : Type := mkTurnEnv {
  te_update : result str; te_dirents : result (list (str * bool)); te_fs : DiskFS }.

(** The goroutine of [Watch] and the source it updates. *)
Record watching : Type := mkWatching { w_last : str; w_disk : Disk }.

(** [Disk.Read] starts the goroutine. *)
Definition Disk_Read (d : Disk) : watching := mkWatching no_update d.

Definition turn_scan (env : turn_env) (scan : list (str * bool) -> Map) : Prop :=
  forall fis, te_dirents env = Ok fis -> ReadGroups (te_fs env) rootDomain fis ∅ (Some (scan fis)).

(** A turn of the loop: the updater is called with the finished map. *)
Definition watch_turn (env : turn_env) (s s' : watching) : Prop :=
  exists scan, turn_scan env scan
    /\ let '(last, out) := Watch_step (w_last s) (te_update env) (te_dirents env) scan in
       s' = mkWatching last (match out with Some dm => Disk_updateDomains dm (w_disk s) | None => w_disk s end).

Inductive watch : list turn_env -> watching -> Prop :=
| watch_start : watch [] (Disk_Read Disk_New)
| watch_more envs env s s' : watch envs s -> watch_turn env s s' -> watch (envs ++ [env]) s'.

(** The marker that a turn reads: a missing file is an empty one. *)
Definition marker (env : turn_env) : option str :=
  match te_update env with Ok u => Some u | Err e => if os_IsNotExist e then Some [] else None end.

(** The marker of the last turn that read one. *)
Definition last_marker (envs : list turn_env) : str := default no_update (list.last (omap marker envs)).

(** A turn scans when its marker is new and the directory can be listed. *)
Definition scans (before : list turn_env) (env : turn_env) : bool :=
  match marker env, te_dirents env with
  | Some u, Ok _ => negb (bool_decide (u = last_marker before))
  | _, _ => false
  end.

Lemma last_marker_snoc envs env : last_marker (envs ++ [env]) = default (last_marker envs) (marker env).
Proof.
  unfold last_marker. rewrite omap_app. cbn [omap list_omap]. destruct (marker env); [|by rewrite app_nil_r].
  by rewrite last_snoc.
Qed.

Lemma Watch_step_spec last env scan before : last = last_marker before ->
  Watch_step last (te_update env) (te_dirents env) scan
  = (default last (marker env),
     if scans before env then match te_dirents env with Ok fis => Some (scan fis) | Err _ => None end else None).
Proof.
  intros ->. unfold Watch_step, scans. fold (marker env). destruct (marker env) as [u|]; [|done]. simpl.
  destruct (decide (last_marker before = u)) as [<-|Hne].
  - rewrite bool_decide_eq_true_2 by done. by destruct (te_dirents env).
  - rewrite bool_decide_eq_false_2 by done. by destruct (te_dirents env).
Qed.

(** The map in use is the map of the last turn that scanned. *)
Definition last_scan (envs : list turn_env) (d : Disk) : Prop :=
  match disk_dm d with
  | None => forall before env after, envs = before ++ env :: after -> scans before env = false
  | Some dm => exists before env after fis, envs = before ++ env :: after
      /\ scans before env = true /\ te_dirents env = Ok fis
      /\ ReadGroups (te_fs env) rootDomain fis ∅ (Some dm)
      /\ forall b e a, after = b ++ e :: a -> scans (before ++ env :: b) e = false
  end.

Lemma watch_last_marker envs s : watch envs s -> w_last s = last_marker envs.
Proof.
  induction 1 as [|envs env s s' _ IH (scan & _ & Ht)]; [done|].
  rewrite (Watch_step_spec _ _ _ envs IH) in Ht. rewrite Ht, last_marker_snoc, <- IH. done.
Qed.

(** A list that ends in [x], cut at an element. *)
Lemma snoc_cut {A} (l b a : list A) x y :
  l ++ [x] = b ++ y :: a -> (exists a', a = a' ++ [x] /\ l = b ++ y :: a') \/ (a = [] /\ l = b /\ x = y).
Proof.
  intros H. destruct a as [|z a _] using rev_ind.
  - right. by apply app_inj_tail in H as [-> ->].
  - left. exists a. rewrite app_comm_cons, app_assoc in H. by apply app_inj_tail in H as [-> ->].
Qed.

(** A turn without a scan keeps the map of the last one. *)
Lemma last_scan_idle envs env d : last_scan envs d -> scans envs env = false -> last_scan (envs ++ [env]) d.
Proof.
  unfold last_scan. destruct (disk_dm d) as [dm|].
  - intros (b & e & a & fis & -> & Hs & Hl & Hm & Ha) Hi. exists b, e, (a ++ [env]), fis.
    split; [by simplify_list_eq|]. do 3 (split; [done|]).
    intros b' e' a' [(a2 & -> & ->)|(-> & -> & ->)]%snoc_cut; [by eapply Ha|done].
  - intros H Hi b e a [(a2 & -> & ->)|(-> & -> & ->)]%snoc_cut; [by eapply H|done].
Qed.

Lemma last_scan_new envs env fis dm d :
  scans envs env = true -> te_dirents env = Ok fis -> ReadGroups (te_fs env) rootDomain fis ∅ (Some dm) ->
  last_scan (envs ++ [env]) (Disk_updateDomains dm d).
Proof.
  intros Hs Hf Hm. unfold last_scan. simpl. exists envs, env, [], fis. split; [done|]. do 3 (split; [done|]).
  intros [|] e a Ha; discriminate.
Qed.

End Watching.

(** A scan of a directory from the empty map gives a map. *)
Lemma scan_exists fs rootDomain fis :
  ToLower rootDomain = rootDomain -> exists dm, ReadGroups fs rootDomain fis ∅ (Some dm).
Proof.
  intros Hr. destruct (collect_ok rootDomain (mjoin (scan_results fs fis)) ∅) as (dm & H & _).
  - done.
  - intros name dd H. by rewrite lookup_empty in H.
  - exists dm, (mjoin (scan_results fs fis)). split; [apply interleaved_mjoin|done].
Qed.

Lemma watch_turn_exists rootDomain env s : ToLower rootDomain = rootDomain -> exists s', watch_turn rootDomain env s s'.
Proof.
  intros Hr. assert (exists scan, turn_scan rootDomain env scan) as [scan Hs].
  { unfold turn_scan. destruct (te_dirents env) as [fis|].
    - destruct (scan_exists (te_fs env) rootDomain fis Hr) as [dm H]. exists (fun _ => dm). by intros ? [= <-].
    - by exists (fun _ => ∅). }
  destruct (Watch_step (w_last s) (te_update env) (te_dirents env) scan) as [last out] eqn:E.
  eexists. exists scan. split; [done|]. by rewrite E.
Qed.

(** ** Properties *)

(** [C22] The concurrent scan makes the map of a sequential one: when the names
    of the group directories differ in more than the case of letters and no
    custom domain is configured in two groups, then in whatever order the
    results of the workers arrive, the map is the one that reading the groups
    one after the other gives. *)
Theorem concurrent_scan_is_sequential fs rootDomain fis dm out :
  ToLower rootDomain = rootDomain ->
  (forall i j fi fj, i <> j -> filter (fun fi => scanned_group fi = true) fis !! i = Some fi ->
     filter (fun fi => scanned_group fi = true) fis !! j = Some fj -> ToLower fi.1 <> ToLower fj.1) ->
  (forall i j li lj r1 r2, i <> j -> scan_results fs fis !! i = Some li -> scan_results fs fis !! j = Some lj ->
     r1 ∈ li -> r2 ∈ lj -> custom_disjoint rootDomain r1 r2) ->
  ReadGroups fs rootDomain fis dm out -> out = collect rootDomain (mjoin (scan_results fs fis)) dm.
Proof.
  intros Hr Hg Hc (order & Ho & ->). apply collect_interleaved; [done|].
  intros i j li lj r1 r2 Hij Hi Hj H1 H2. apply independent_intro; [done| |by eapply (Hc i j)].
  destruct (scan_worker _ _ _ _ _ Hi H1) as (fi & Ei & ->), (scan_worker _ _ _ _ _ Hj H2) as (fj & Ej & ->).
  by eapply (Hg i j).
Qed.

(** [C21] The disk source answers from whole scans, over any history of the
    pages directory: after any number of turns of [Watch] the map in use is
    the complete map of the last turn that found a new update marker and could
    list the directory, as the directory was in that turn; the source is ready
    exactly when there was such a turn, and a turn of the loop always comes to
    its end. *)
Theorem source_serves_last_scan rootDomain envs s :
  ToLower rootDomain = rootDomain -> watch rootDomain envs s ->
  last_scan rootDomain envs (w_disk s)
  /\ (Disk_IsReady (w_disk s) = true <-> exists before env after, envs = before ++ env :: after /\ scans before env = true)
  /\ forall env, exists s', watch_turn rootDomain env s s'.
Proof.
  intros Hr Hw. assert (Hl : last_scan rootDomain envs (w_disk s)).
  { induction Hw as [|envs env s s' Hw IH (scan & Hs & Ht)]; [by intros [|] e a|].
    rewrite (Watch_step_spec _ _ _ envs) in Ht by (by apply (watch_last_marker rootDomain)). subst s'. cbn [w_disk].
    destruct (scans envs env) eqn:Es; [|by apply last_scan_idle].
    destruct (te_dirents env) as [fis|] eqn:Ef; [|by apply last_scan_idle; [done|unfold scans in Es; rewrite Ef in Es; repeat case_match]].
    eapply last_scan_new; [done|done|by apply Hs]. }
  split; [done|]. split; [|intros env; by apply watch_turn_exists].
  unfold last_scan in Hl. unfold Disk_IsReady. destruct (disk_dm (w_disk s)).
  - split; [intros _|done]. destruct Hl as (b & e & a & _ & He & Hs & _). by exists b, e, a.
  - split; [done|]. intros (b & e & a & He & Hs). by rewrite (Hl b e a He) in Hs.
Qed.

(** ** Two groups *)

(** The groups [alpha] and [beta] with a project each; [config] gives the
    custom domains of a group's project (a file here holds its own path, of
    which the decoder takes the group). *)
Definition two_groups (config : str -> list domainConfig) : DiskFS := {|
  ReadDirents p := Ok [(&"site", true)];
  lstat_ok p := bool_decide (p = &"alpha/site/public") || bool_decide (p = &"beta/site/public");
  open_file p := Ok p;
  decode_config data := Ok (mkMultiDomainConfig (config (take (length data - length &"/site/config.json") data)) false 1 false) |}.
Definition two_dirents : list (str * bool) := [(&"alpha", true); (&"beta", true)].
Definition custom (name : str) : domainConfig := mkDomainConfig name [] [] false 1 false.

(** Two groups that configure the same custom domain: which of them gets it
    depends on which worker delivers last. *)
Theorem duplicate_domain_depends_on_order :
  let fs := two_groups (fun _ => [custom &"shop.example"]) in
  let owner dm := (fun dd => dd_Resolver dd) <$> (dm !! &"shop.example") in
  exists dm1 dm2, ReadGroups fs &"example.io" two_dirents ∅ (Some dm1)
    /\ ReadGroups fs &"example.io" two_dirents ∅ (Some dm2)
    /\ owner dm1 = Some (CustomResolver (Some (custom &"shop.example")) &"beta/site/public")
    /\ owner dm2 = Some (CustomResolver (Some (custom &"shop.example")) &"alpha/site/public").
Proof.
  intros fs owner.
  set (result group := mkJobResult group &"site" (Some (mkMultiDomainConfig [custom &"shop.example"] false 1 false))).
  set (ra := result &"alpha"). set (rb := result &"beta").
  assert (Hs : scan_results fs two_dirents = [[ra]; [rb]]) by (vm_compute; reflexivity).
  assert (H1 : owner <$> collect &"example.io" [ra; rb] ∅
    = Some (Some (CustomResolver (Some (custom &"shop.example")) &"beta/site/public"))) by (vm_compute; reflexivity).
  assert (H2 : owner <$> collect &"example.io" [rb; ra] ∅
    = Some (Some (CustomResolver (Some (custom &"shop.example")) &"alpha/site/public"))) by (vm_compute; reflexivity).
  apply fmap_Some in H1 as (dm1 & E1 & H1), H2 as (dm2 & E2 & H2).
  exists dm1, dm2. split; [|split; [|done]].
  - exists [ra; rb]. rewrite Hs, E1. split; [|done].
    apply (interleaved_send [] ra [] [[rb]]), (interleaved_send [[]] rb [] []). by repeat constructor.
  - exists [rb; ra]. rewrite Hs, E2. split; [|done].
    apply (interleaved_send [[ra]] rb [] []), (interleaved_send [] ra [] [[]]). by repeat constructor.
Qed.

Lemma concurrent_scan_is_sequential_witness :
  let fs := two_groups (fun group => [custom (group ++ &".example")]) in
  exists order, interleaved (scan_results fs two_dirents) order
    /\ order <> mjoin (scan_results fs two_dirents)
    /\ collect &"example.io" order ∅ = collect &"example.io" (mjoin (scan_results fs two_dirents)) ∅.
Proof.
  intros fs. set (r1 := mkJobResult &"alpha" &"site" (Some (mkMultiDomainConfig [custom &"alpha.example"] false 1 false))).
  set (r2 := mkJobResult &"beta" &"site" (Some (mkMultiDomainConfig [custom &"beta.example"] false 1 false))).
  assert (Hs : scan_results fs two_dirents = [[r1]; [r2]]) by (vm_compute; reflexivity).
  exists [r2; r1]. rewrite Hs. assert (Hi : interleaved [[r1]; [r2]] [r2; r1]).
  { apply (interleaved_send [[r1]] r2 [] []), (interleaved_send [] r1 [] [[]]). by repeat constructor. }
  split; [exact Hi|]. split; [discriminate|]. rewrite <- Hs.
  apply (concurrent_scan_is_sequential fs &"example.io" two_dirents ∅).
  - reflexivity.
  - intros i j fi fj Hij Hfi Hfj.
    assert (filter (fun fi => scanned_group fi = true) two_dirents = two_dirents) as Hf by (vm_compute; reflexivity).
    rewrite Hf in Hfi, Hfj. destruct i as [|[|i]], j as [|[|j]]; try discriminate; try (by destruct Hij);
      injection Hfi as <-; injection Hfj as <-; discriminate.
  - rewrite Hs. intros i j li lj ra rb Hij Hli Hlj Ha Hb.
    destruct i as [|[|i]], j as [|[|j]]; try discriminate; try (by destruct Hij);
      injection Hli as <-; injection Hlj as <-;
      apply list_elem_of_singleton in Ha as ->; apply list_elem_of_singleton in Hb as ->;
      intros c1 c2 name H1 H2 Hn1 Hn2; injection H1 as <-; injection H2 as <-;
      vm_compute in Hn1; vm_compute in Hn2;
      apply list_elem_of_singleton in Hn1; apply list_elem_of_singleton in Hn2; subst; discriminate.
  - exists [r2; r1]. rewrite Hs. split; [exact Hi|reflexivity].
Defined.

(** The directory is scanned in the first turn; in the second the marker
    cannot be read, in the third it is unchanged. *)
Lemma source_serves_last_scan_witness :
  let fs := two_groups (fun _ => [custom &"shop.example"]) in
  let unreadable := mkTurnEnv (Err (ErrSentinel &"os.ErrPermission")) (Ok []) fs in
  let unchanged := mkTurnEnv (Ok &"1") (Ok []) fs in
  exists s, watch &"example.io" [mkTurnEnv (Ok &"1") (Ok two_dirents) fs; unreadable; unchanged] s
    /\ Disk_IsReady (w_disk s) = true.
Proof.
  intros fs unreadable unchanged. set (first := mkTurnEnv (Ok &"1") (Ok two_dirents) fs).
  destruct (scan_exists fs &"example.io" two_dirents eq_refl) as [dm Hdm].
  destruct (scan_exists fs &"example.io" [] eq_refl) as [dm0 Hdm0].
  set (s := mkWatching &"1" (mkDisk (Some dm))). exists s.
  assert (Hw : watch &"example.io" [first; unreadable; unchanged] s).
  { apply (watch_more _ [first; unreadable] unchanged s), (ex_intro _ (fun _ => dm0)).
    - apply (watch_more _ [first] unreadable s), (ex_intro _ (fun _ => dm0)).
      + apply (watch_more _ [] first (Disk_Read Disk_New)), (ex_intro _ (fun _ => dm)); [constructor|].
        split; [intros fis [= <-]; exact Hdm|reflexivity].
      + split; [intros fis [= <-]; exact Hdm0|reflexivity].
    - split; [intros fis [= <-]; exact Hdm0|reflexivity]. }
  split; [exact Hw|]. apply (source_serves_last_scan &"example.io" _ s eq_refl Hw).
  exists [], first, [unreadable; unchanged]. split; reflexivity.
Defined.
