(* ===== verification/Domains.v ===== *)
(** * The choice between the domain sources

    internal/source/domains.go and source.go.  A [Source] is the interface
    value at the time of the call; [None] is the nil interface, and a call on
    it, which panics in Go, is [None]. *)

From S2P Require Import Prelude GoStd GoPath GoUrl Header Vfs Http Serving DiskServing Domain.
From S2P Require Import GitlabClient GitlabSource DiskSource.

(** ** The serverless domain pattern *)

Definition is_xdigit (c : ascii) : bool := match unhex c with Some _ => true | None => false end.

(** The fixed part of the regular expression after [^[^.]+]: a hyphen, two
    digits, [a1], ten digits, [f2], two digits and at least one more. *)
Definition serverless_tail (s : str) : bool :=
  match s with
  | h :: t =>
      bool_decide (h = "-"%char)
      && (19 <=? length t)
      && forallb is_xdigit (take 2 t)
      && bool_decide (take 2 (drop 2 t) = &"a1")
      && forallb is_xdigit (take 10 (drop 4 t))
      && bool_decide (take 2 (drop 14 t) = &"f2")
      && forallb is_xdigit (take 3 (drop 16 t))
  | [] => false
  end.

(** A match after a non-empty prefix without a dot. *)
Fixpoint serverless_from (s : str) : bool :=
  match s with
  | [] => false
  | c :: s' => if decide (c = "."%char) then false else serverless_tail s' || serverless_from s'
  end.

Definition IsServerlessDomain (domain : str) : bool := serverless_from domain.

(** ** Domains *)

Inductive configSource : Type := sourceGitlab | sourceDisk | sourceAuto.

#[export] Instance configSource_eq_dec : EqDecision configSource.
Proof. solve_decision. Defined.

Section Domains.

Context {Certificate : Type}.

(** The interface [Source]; a nil domain is [Ok None]. *)
Record DomainSource : Type := mkDomainSource {
  source_GetDomain : str -> result (option (Domain Certificate));
  source_IsReady : bool }.

Record Domains : Type := mkDomains {
  dom_configSource : configSource; dom_gitlab : option DomainSource; dom_disk : option DomainSource }.

(** [gitlab.New] gave a client or an error. *)
Definition setGitLabClient (gitlab_New : result DomainSource) (d : Domains) : result Domains :=
  match gitlab_New with
  | Err err =>
      match dom_configSource d with
      | sourceGitlab => Err err
      | _ => Ok d
      end
  | Ok glClient => Ok (mkDomains (dom_configSource d) (Some glClient) (dom_disk d))
  end.

(** (The error message shows the value in quotes; the escapes of [%q] are left
    out.) *)
Definition setConfigSource (option_value : str) (gitlab_New : result DomainSource)
    (disk_New : DomainSource) : result Domains :=
  if decide (option_value = &"gitlab") then
    setGitLabClient gitlab_New (mkDomains sourceGitlab None None)
  else if decide (option_value = &"auto") then
    setGitLabClient gitlab_New (mkDomains sourceAuto None (Some disk_New))
  else if decide (option_value = &"disk") then Ok (mkDomains sourceDisk None (Some disk_New))
  else Err (ErrMsg (&"invalid option for -domain-config-source: " ++ [dquote] ++ option_value ++ [dquote])).

Definition NewDomains (option_value : str) (gitlab_New : result DomainSource) (disk_New : DomainSource)
  : result Domains := setConfigSource option_value gitlab_New disk_New.

(** [d.gitlab != nil && d.gitlab.IsReady()] *)
Definition gitlab_usable (d : Domains) : bool :=
  match dom_gitlab d with Some g => source_IsReady g | None => false end.

Definition Domains_source (d : Domains) (domain : str) : option DomainSource :=
  if IsServerlessDomain domain then dom_gitlab d
  else
    match dom_configSource d with
    | sourceDisk => dom_disk d
    | sourceGitlab => dom_gitlab d
    | sourceAuto => if gitlab_usable d then dom_gitlab d else dom_disk d
    end.

Definition Domains_GetDomain (d : Domains) (name : str)
  : option (result (option (Domain Certificate))) :=
  (fun s => source_GetDomain s name) <$> Domains_source d name.

(** Which source [Read] starts, if any: [None] would be a nil dereference. *)
Definition Domains_Read (d : Domains) : option (option DomainSource) :=
  match dom_configSource d with
  | sourceGitlab => Some None
  | _ => Some <$> dom_disk d
  end.

Definition Domains_IsReady (d : Domains) : option bool :=
  match dom_configSource d with
  | sourceGitlab => source_IsReady <$> dom_gitlab d
  | sourceDisk => source_IsReady <$> dom_disk d
  | sourceAuto => if gitlab_usable d then Some true else source_IsReady <$> dom_disk d
  end.

(** The two sources as implementations of the interface. *)
Definition gitlab_as_source (local zip : Serving) (client : str -> Lookup) (g : Gitlab) : DomainSource :=
  mkDomainSource
    (fun name => match (Gitlab_GetDomain local zip (Certificate := Certificate) client name g).1 with
                 | Ok d => Ok (Some d) | Err e => Err e end)
    (Gitlab_IsReady g).

Definition domain_of (local : Serving) (dd : DiskDomain) : Domain Certificate :=
  mkDomain (dd_Name dd) (dd_Cert dd) (dd_Key dd) (disk_resolve local dd) None.

Definition disk_as_source (local : Serving) (d : Disk) : DomainSource :=
  mkDomainSource (fun name => Ok (domain_of local <$> Disk_GetDomain name d)) (Disk_IsReady d).

(** ** Properties *)

(** The configured sources are used as documented: a configuration that
    was accepted always has the source its mode needs; outside serverless
    host names a lookup never meets a nil source, and goes to the disk in
    mode disk, to GitLab in mode gitlab, and in mode auto to GitLab exactly
    while its API is ready and to the disk otherwise; readiness is answered
    by the same source. *)
Theorem Domains_source_selection option_value gl disk d name :
  NewDomains option_value gl disk = Ok d -> IsServerlessDomain name = false ->
  exists s, Domains_source d name = Some s
    /\ Domains_GetDomain d name = Some (source_GetDomain s name)
    /\ Domains_IsReady d = Some (source_IsReady s)
    /\ ((option_value = &"disk" /\ s = disk)
        \/ (option_value = &"gitlab" /\ gl = Ok s)
        \/ (option_value = &"auto"
            /\ ((gl = Ok s /\ source_IsReady s = true)
                \/ (s = disk /\ forall g, gl = Ok g -> source_IsReady g = false)))).
Proof.
  unfold NewDomains, setConfigSource, setGitLabClient. intros H Hn.
  unfold Domains_GetDomain, Domains_source, Domains_IsReady, gitlab_usable. rewrite Hn.
  destruct (decide (option_value = &"gitlab")) as [->|_].
  { destruct gl as [g|e]; simplify_eq/=. exists g. repeat split. auto. }
  destruct (decide (option_value = &"auto")) as [->|_].
  { destruct gl as [g|e]; simplify_eq/=.
    - destruct (source_IsReady g) eqn:Er; simpl.
      + exists g. rewrite Er. repeat split. right; right. auto.
      + exists disk. repeat split. right; right. split; [done|]. right. split; [done|]. by intros ? [= <-].
    - exists disk. repeat split. right; right. split; [done|]. by right. }
  destruct (decide (option_value = &"disk")) as [->|_]; simplify_eq/=.
  exists disk. repeat split. by left.
Qed.

(** In mode disk, and in mode auto without a GitLab client, a host name
    of the serverless form is looked up in the nil GitLab source. *)
Theorem serverless_host_without_gitlab_is_nil disk d name e :
  IsServerlessDomain name = true ->
  NewDomains &"disk" (Err e) disk = Ok d \/ NewDomains &"auto" (Err e) disk = Ok d ->
  Domains_GetDomain d name = None.
Proof.
  intros Hn [H|H]; vm_compute in H; injection H as <-;
    unfold Domains_GetDomain, Domains_source; by rewrite Hn.
Qed.

End Domains.

(** ** Concrete sources *)

Definition demo_source (ready : bool) : DomainSource (Certificate := unit) :=
  mkDomainSource (fun _ => Ok (Some demo_domain)) ready.

Lemma Domains_source_selection_witness :
  exists d s, NewDomains &"auto" (Ok (demo_source false)) (demo_source true) = Ok d
    /\ Domains_source d &"group.example.io" = Some s /\ source_IsReady s = true.
Proof.
  destruct (Domains_source_selection &"auto" (Ok (demo_source false)) (demo_source true)
    (mkDomains sourceAuto (Some (demo_source false)) (Some (demo_source true))) &"group.example.io" eq_refl)
    as (s & Hs & _ & Hr & _); [reflexivity|].
  exists (mkDomains sourceAuto (Some (demo_source false)) (Some (demo_source true))), s.
  split; [reflexivity|]. split; [exact Hs|]. injection Hr as Hr. symmetry. exact Hr.
Defined.

Lemma serverless_host_without_gitlab_is_nil_witness :
  exists d, NewDomains &"disk" (Err errCacheNotConfigured) (demo_source true) = Ok d
    /\ Domains_GetDomain d &"fn-aba10123456789f2cdef-name.example.io" = None.
Proof.
  exists (mkDomains sourceDisk None (Some (demo_source true))). split; [reflexivity|].
  apply (serverless_host_without_gitlab_is_nil (demo_source true) _ _ errCacheNotConfigured); [run|].
  left. reflexivity.
Defined.
