(* ===== verification/Artifact.v ===== *)
(** * Artifact proxy and its login handling

    internal/artifact/artifact.go, internal/handlers/handlers.go and the
    interfaces of internal/interface.go.  The HTTP client is a parameter; the
    authentication is the interface record [Auth]. *)

From S2P Require Import Prelude GoStd GoPath GoUrl Header Http DiskServing.

(** ** Interfaces *)

(** A response of the artifacts API. *)
Record ApiResponse : Type := mkApiResponse {
  resp_StatusCode : Z; resp_Header : Header; resp_ContentLength : Z; resp_Body : str }.

(** [internal.Auth]: each operation may write to the response. *)
Record Auth : Type := mkAuth {
  IsAuthSupported : bool;
  RequireAuth : Request -> Response -> bool * Response;
  GetTokenIfExists : Request -> Response -> result str * Response;
  CheckResponseForInvalidToken : Request -> ApiResponse -> Response -> bool * Response }.

(** ** The path pattern

    [pathExtractor]: the whole path is, letters in either case, [/-/], a
    group of any bytes, [/-/jobs/], a group of digits, [/artifacts], and a
    group that starts with a slash and has no question mark. *)

(** A literal, letters in either case; the fold of [s] has the long s
    (U+017F) too. *)
Fixpoint match_fold (lit s : str) : option str :=
  match lit with
  | [] => Some s
  | l :: lit' =>
      match s with
      | c :: s' =>
          if decide (lower_byte c = l) then match_fold lit' s'
          else if bool_decide (l = "s"%char) && bool_decide (nat_of_ascii c = 197) then
            match s' with
            | c' :: s'' => if decide (nat_of_ascii c' = 191) then match_fold lit' s'' else None
            | [] => None
            end
          else None
      | [] => None
      end
  end.

(** The part after the project path: job identifier and artifact path. *)
Definition match_job (s : str) : option (str * str) :=
  match match_fold &"/-/jobs/" s with
  | None => None
  | Some s1 =>
      let '(digits, s2) := span isDigit s1 in
      if negb (nonempty digits) then None
      else
        match match_fold &"/artifacts" s2 with
        | Some path =>
            if HasPrefix path &"/" && negb (ContainsByte path "?") then Some (digits, path) else None
        | None => None
        end
  end.

(** The greedy group: the longest prefix of [rest] without a newline that
    leaves a job behind it. *)
Fixpoint match_project (acc rest : str) : option (str * str * str) :=
  let here := match match_job rest with Some (d, p) => Some (acc, d, p) | None => None end in
  match rest with
  | [] => here
  | c :: rest' =>
      if decide (nat_of_ascii c = 10) then here
      else match match_project (acc ++ [c]) rest' with
           | Some m => Some m
           | None => here
           end
  end.

(** Project path, job and artifact path of a request path. *)
Definition pathExtractor (requestPath : str) : option (str * str * str) :=
  match match_fold &"/-/" requestPath with
  | Some rest => match_project [] rest
  | None => None
  end.

(** ** artifact.go *)

Record Artifact : Type := mkArtifact { art_server : str; art_suffix : str; art_timeout : Z }.

Definition Artifact_New (server : str) (timeoutSeconds : Z) (pagesDomain : str) : Artifact :=
  mkArtifact (TrimRightByte server "/") (&"." ++ ToLower pagesDomain) (timeoutSeconds * 1000000000).

Definition encodePathSegments (path : str) : str := Join (PathEscape <$> Split path "/") &"/".

Definition apiURLTemplate (server projectID jobID artifactPath : str) : str :=
  server ++ &"/projects/" ++ projectID ++ &"/jobs/" ++ jobID ++ &"/artifacts" ++ artifactPath.
Definition minStatusCode : Z := 200.
Definition maxStatusCode : Z := 299.

(** The string given to [url.Parse]. *)
Definition generated_url (a : Artifact) (projectID jobID artifactPath : str) : str :=
  apiURLTemplate (art_server a) projectID jobID artifactPath.

Definition BuildURL (a : Artifact) (host requestPath : str) : option URL :=
  if negb (HasSuffix (ToLower host) (art_suffix a)) then None
  else
    let topGroup := take (length host - length (art_suffix a)) host in
    match pathExtractor requestPath with
    | None => None
    | Some (project, jobID, path) =>
        let restOfPath := TrimLeftByte (TrimRightByte project "/") "/" in
        if negb (nonempty restOfPath) then None
        else
          Parse (generated_url a (PathEscape (path_Join [topGroup; restOfPath])) jobID
                   (encodePathSegments path))
    end.

Definition addCacheHeader (resp : ApiResponse) (w : Response) : Response :=
  if ((minStatusCode <=? resp_StatusCode resp) && (resp_StatusCode resp <=? maxStatusCode))%Z
  then w_Set &"Cache-Control" &"max-age=3600" w else w.

Section Artifact.

(** [a.client.Do] on a GET with the given authorisation header. *)
Context (Do : URL -> Header -> result ApiResponse).

Definition makeRequest (reqURL : URL) (token : str)
    (additionalHandler : ApiResponse -> Response -> bool * Response) (w : Response) : Response :=
  match Parse (url_String reqURL) with
  | None => Serve500 w
  | Some u =>
      let hdr := if nonempty token then Header_Add ∅ &"Authorization" (&"Bearer " ++ token) else ∅ in
      match Do u hdr with
      | Err _ => Serve502 w
      | Ok resp =>
          let '(handled, w) := additionalHandler resp w in
          if handled then w
          else if (resp_StatusCode resp =? 404)%Z then Serve404 w
          else if (resp_StatusCode resp =? 500)%Z then Serve500 w
          else
            let w := if nonempty token then w else addCacheHeader resp w in
            io_Copy (resp_Body resp)
              (WriteHeader (resp_StatusCode resp)
                (w_Set &"Content-Length" (FormatInt (resp_ContentLength resp))
                  (w_Set &"Content-Type" (Header_Get (resp_Header resp) &"Content-Type") w)))
      end
  end.

Definition TryMakeRequest (a : option Artifact) (host : str) (r : Request) (token : str)
    (additionalHandler : ApiResponse -> Response -> bool * Response) (w : Response) : bool * Response :=
  match a with
  | None => (false, w)
  | Some art =>
      if negb (nonempty (art_server art)) || negb (nonempty host) then (false, w)
      else
        match BuildURL art host (Path (req_URL r)) with
        | None => (false, w)
        | Some reqURL => (true, makeRequest reqURL token additionalHandler w)
        end
  end.

(** ** handlers.go *)

Definition checkIfLoginRequiredOrInvalidToken (auth : Auth) (r : Request) (token : str)
    (resp : ApiResponse) (w : Response) : bool * Response :=
  let check w := CheckResponseForInvalidToken auth r resp w in
  if (resp_StatusCode resp =? 404)%Z then
    if nonempty token then check w
    else if negb (IsAuthSupported auth) then (false, w)
    else
      match RequireAuth auth r w with
      | (true, w') => (true, w')
      | (false, w') => check w'
      end
  else check w.

Definition HandleArtifactRequest (auth : Auth) (artifact : option Artifact) (host : str) (r : Request)
    (w : Response) : bool * Response :=
  match GetTokenIfExists auth r w with
  | (Err _, w') => (true, w')
  | (Ok token, w') =>
      TryMakeRequest artifact host r token (checkIfLoginRequiredOrInvalidToken auth r token) w'
  end.

End Artifact.

(** ** Lemmas *)

Lemma match_fold_spec lit : forall s rest,
  match_fold lit s = Some rest -> exists pre, s = pre ++ rest.
Proof.
  induction lit as [|l lit IH]; intros s rest H; simpl in H; [simplify_eq; by exists []|].
  destruct s as [|c s]; [done|]. case_decide.
  - apply IH in H as [pre ->]. by exists (c :: pre).
  - destruct (_ && _); [|done]. destruct s as [|c' s]; [done|]. case_decide; [|done].
    apply IH in H as [pre ->]. by exists (c :: c' :: pre).
Qed.

Lemma match_job_spec s d p :
  match_job s = Some (d, p) ->
  d <> [] /\ forallb isDigit d = true /\ HasPrefix p &"/" = true /\ "?"%char ∉ p.
Proof.
  unfold match_job. destruct (match_fold &"/-/jobs/" s) as [s1|]; [|done].
  destruct (span isDigit s1) as [ds s2] eqn:E. apply span_app in E as [_ Hd].
  destruct (nonempty ds) eqn:En; [|done]. cbn [negb].
  destruct (match_fold &"/artifacts" s2) as [path|]; [|done].
  destruct (HasPrefix path &"/" && _) eqn:Eb; [|done]. intros [= <- <-]. bools.
  split; [by intros ->|]. split; [done|]. split; [done|].
  by apply ContainsByte_false.
Qed.

Lemma match_project_spec rest : forall acc g d p,
  match_project acc rest = Some (g, d, p) ->
  d <> [] /\ forallb isDigit d = true /\ HasPrefix p &"/" = true /\ "?"%char ∉ p.
Proof.
  induction rest as [|c rest IH]; intros acc g d p H; cbn [match_project] in H.
  - by vm_compute in H.
  - case_decide.
    + destruct (match_job (c :: rest)) as [[d' p']|] eqn:E; [|done]. simplify_eq. by eapply match_job_spec.
    + destruct (match_project (acc ++ [c]) rest) as [[[g' d'] p']|] eqn:Em.
      * simplify_eq. by eapply IH.
      * destruct (match_job (c :: rest)) as [[d' p']|] eqn:E; [|done]. simplify_eq. by eapply match_job_spec.
Qed.

Lemma pathExtractor_spec s g d p :
  pathExtractor s = Some (g, d, p) ->
  d <> [] /\ forallb isDigit d = true /\ HasPrefix p &"/" = true /\ "?"%char ∉ p.
Proof.
  unfold pathExtractor. destruct (match_fold &"/-/" s); [|done]. apply match_project_spec.
Qed.

(** ** Properties *)

(** A proxied artifact request keeps to the shape of the artifacts API:
    the URL is parsed from the configured server followed by
    [/projects/P/jobs/J/artifacts/...], where [P] is a single path segment
    that decodes to the group of the host joined with the requested project
    path, [J] is a non-empty sequence of digits and the artifact path has no
    raw question mark.  Hosts outside the pages domain are never proxied. *)
Theorem BuildURL_shape a host path u :
  BuildURL a host path = Some u ->
  HasSuffix (ToLower host) (art_suffix a) = true
  /\ exists project jobID artifactPath P,
       pathExtractor path = Some (project, jobID, artifactPath)
       /\ Parse (art_server a ++ &"/projects/" ++ P ++ &"/jobs/" ++ jobID ++ &"/artifacts"
                   ++ encodePathSegments artifactPath) = Some u
       /\ "/"%char ∉ P
       /\ PathUnescape P
          = Some (path_Join [take (length host - length (art_suffix a)) host;
                             TrimLeftByte (TrimRightByte project "/") "/"])
       /\ jobID <> [] /\ forallb isDigit jobID = true
       /\ HasPrefix artifactPath &"/" = true /\ "?"%char ∉ artifactPath.
Proof.
  unfold BuildURL. destruct (HasSuffix _ _) eqn:Es; [|done]. cbn [negb].
  destruct (pathExtractor path) as [[[project jobID] ap]|] eqn:Ep; [|done].
  destruct (nonempty _); [|done]. cbn [negb]. intros Hu. split; [done|].
  exists project, jobID, ap. eexists. split; [done|]. split; [exact Hu|].
  split; [apply PathEscape_no_slash|]. split; [by apply url_unescape_escape|].
  by eapply pathExtractor_spec.
Qed.

(** Cached responses are public: a proxied response is marked as
    cacheable only when no token was sent and its status is in the 200s. *)
Theorem artifact_cache_header_is_public Do u token ah w h code :
  (forall resp w w', ah resp w = (false, w') -> w' = w) ->
  w_committed w = None -> w_header w !! &"Cache-Control" = None ->
  (forall resp w', ah resp w = (true, w') -> w_committed w' <> Some (code, h)) ->
  w_committed (makeRequest Do u token ah w) = Some (code, h) ->
  is_Some (h !! &"Cache-Control") -> token = [] /\ (200 <= code <= 299)%Z.
Proof.
  intros Hah Hw Hcc Hhandled Hc Hs. unfold makeRequest in Hc.
  assert (Herr : forall c, w_committed (serveErrorPage c w) = Some (code, h) -> False).
  { intros c Hx. rewrite serveErrorPage_committed in Hx by done. injection Hx as <- <-.
    unfold Header_Set in Hs. rewrite !lookup_insert_ne in Hs by hdr_ne. by rewrite Hcc in Hs; apply is_Some_None in Hs. }
  destruct (Parse (url_String u)); [|by apply Herr in Hc].
  destruct (Do _ _) as [resp|]; [|by apply Herr in Hc].
  destruct (ah resp w) as [[] w1] eqn:Ea; [by apply Hhandled in Ea|].
  apply Hah in Ea as ->.
  destruct (_ =? 404)%Z; [by apply Herr in Hc|]. destruct (_ =? 500)%Z; [by apply Herr in Hc|].
  set (w2 := if nonempty token then w else addCacheHeader resp w) in *.
  assert (Hw2 : w_committed w2 = None) by (subst w2; unfold addCacheHeader; by repeat case_match).
  rewrite (WriteHeader_fresh (resp_StatusCode resp)) in Hc by done.
  assert (Hio : forall d x, is_Some (w_committed x) -> w_committed (io_Copy d x) = w_committed x).
  { intros [|c d] [hd [[cc hh]|] b]; simpl; [done|by intros []|done|by intros []]. }
  rewrite Hio in Hc by (simpl; eauto). simpl in Hc. injection Hc as <- <-.
  unfold Header_Set in Hs. rewrite !lookup_insert_ne in Hs by hdr_ne.
  subst w2. destruct (nonempty token) eqn:En.
  { rewrite Hcc in Hs. by apply is_Some_None in Hs. }
  unfold addCacheHeader in Hs. destruct (_ && _) eqn:Eb.
  - bools. split; [by apply nonempty_nil|done].
  - rewrite Hcc in Hs. by apply is_Some_None in Hs.
Qed.

(** ** Answering *)

(** A handler that reports whether it dealt with the request keeps its word:
    it has answered, or it has left the response alone. *)
Definition answers (w : Response) (out : bool * Response) : Prop :=
  if out.1 then replied out.2 else out.2 = w.

(** What the artifact handling relies on. *)
Class AuthLaws (auth : Auth) : Prop := {
  require_answers r w : IsAuthSupported auth = true -> answers w (RequireAuth auth r w);
  token_answers r w :
    match GetTokenIfExists auth r w with (Ok _, w') => w' = w | (Err _, w') => replied w' end;
  invalid_answers r resp w : answers w (CheckResponseForInvalidToken auth r resp w) }.

Lemma login_answers auth `{!AuthLaws auth} r token resp w :
  answers w (checkIfLoginRequiredOrInvalidToken auth r token resp w).
Proof.
  unfold checkIfLoginRequiredOrInvalidToken. destruct (_ =? 404)%Z; [|apply invalid_answers; apply _].
  destruct (nonempty token); [apply invalid_answers; apply _|].
  destruct (IsAuthSupported auth) eqn:E; [|done]. cbn [negb].
  pose proof (require_answers r w E) as H. unfold answers in H.
  destruct (RequireAuth auth r w) as [[] w']; simpl in H; [done|]. subst w'. apply invalid_answers; apply _.
Qed.

Lemma TryMakeRequest_answers Do art host r token ah w :
  (forall resp w, answers w (ah resp w)) -> answers w (TryMakeRequest Do art host r token ah w).
Proof.
  intros Hah. unfold TryMakeRequest. destruct art as [art|]; [|done]. destruct (_ || _); [done|].
  destruct (BuildURL art host _) as [u|]; [|done]. unfold answers, makeRequest. simpl.
  destruct (Parse _); [|apply replied_serveErrorPage].
  destruct (Do _ _) as [resp|]; [|apply replied_serveErrorPage].
  specialize (Hah resp w). unfold answers in Hah. destruct (ah resp w) as [[] w1]; simpl in Hah; [done|].
  destruct (_ =? 404)%Z; [apply replied_serveErrorPage|].
  destruct (_ =? 500)%Z; [apply replied_serveErrorPage|].
  eapply replied_extends; [apply io_Copy_extends|apply replied_WriteHeader].
Qed.

Lemma HandleArtifactRequest_answers Do auth `{!AuthLaws auth} art host r w :
  answers w (HandleArtifactRequest Do auth art host r w).
Proof.
  unfold HandleArtifactRequest. pose proof (token_answers r w) as H.
  destruct (GetTokenIfExists auth r w) as [[token|e] w']; [|done]. subst w'.
  apply TryMakeRequest_answers. intros resp w'. by apply login_answers.
Qed.

(** ** A concrete artifact server *)

Definition demo_artifact : Artifact := Artifact_New &"https://gitlab.example/api/v4/" 10 &"Example.io".

Lemma BuildURL_shape_witness :
  exists P, Parse (art_server demo_artifact ++ &"/projects/" ++ P ++ &"/jobs/" ++ &"42" ++ &"/artifacts"
                     ++ encodePathSegments &"/a b/index.html") <> None
    /\ PathUnescape P = Some &"group/sub/project".
Proof.
  destruct (BuildURL demo_artifact &"group.example.io" &"/-/sub/project/-/jobs/42/artifacts/a b/index.html")
    as [u|] eqn:E; [|vm_compute in E; discriminate E].
  destruct (BuildURL_shape _ _ _ _ E) as (_ & project & jobID & ap & P & Hx & Hp & _ & HP & _).
  vm_compute in Hx. injection Hx as <- <- <-. exists P. split; [|rewrite HP; run].
  intros Hn. assert (Hc : Some u = None) by (rewrite <- Hn; symmetry; exact Hp). discriminate Hc.
Defined.

Definition public_answer : URL -> Header -> result ApiResponse :=
  fun _ _ => Ok (mkApiResponse 200 ∅ 2 &"ok").
Definition never_handles : ApiResponse -> Response -> bool * Response := fun _ w => (false, w).

Lemma artifact_cache_header_is_public_witness :
  exists h, w_committed (makeRequest public_answer no_url [] never_handles new_response) = Some (200%Z, h)
    /\ (200 <= 200 <= 299)%Z.
Proof.
  eexists. split; [reflexivity|].
  apply (artifact_cache_header_is_public public_answer no_url [] never_handles new_response
    (match w_committed (makeRequest public_answer no_url [] never_handles new_response) with
     | Some (_, h) => h | None => ∅ end) 200).
  - intros resp w w' H. injection H as <-. reflexivity.
  - reflexivity.
  - reflexivity.
  - intros resp w' H. discriminate H.
  - reflexivity.
  - vm_compute. by eexists.
Defined.
