(* ===== verification/App.v ===== *)
(** * The request pipeline

    app.go with internal/acme/acme.go, internal/rejectmethods/middleware.go,
    internal/middleware/headers.go and the context functions of
    internal/request/request.go.  A handler maps a request with its context
    and the response so far to the response; [None] is a panic.  The
    authentication is the interface record [AppAuth]; CORS, access logging,
    metrics, correlation identifiers and [ghandlers.ProxyHeaders] are
    middleware parameters. *)

From S2P Require Import Prelude GoStd GoPath GoUrl Header Http Serving DiskServing Domain.
From S2P Require Import Vfs GitlabSource Domains Artifact.

(** ** rejectmethods *)

Definition acceptedMethods : list str :=
  [&"GET"; &"HEAD"; &"POST"; &"PUT"; &"PATCH"; &"DELETE"; &"CONNECT"; &"OPTIONS"; &"TRACE"].

(** ** middleware/headers.go *)

Definition errInvalidHeaderParameter : error :=
  ErrSentinel &"invalid syntax specified as header parameter".

(** The entries of the header map, in the order Go visits them. *)
Definition AddCustomHeaders (headers : list (str * list str)) (w : Response) : Response :=
  foldl (fun w kv => foldl (fun w value => w_Add kv.1 value w) w kv.2) w headers.

Fixpoint ParseHeaderString_loop (customHeaders : list str) (headers : Header) : result Header :=
  match customHeaders with
  | [] => Ok headers
  | keyValueString :: rest =>
      match SplitN keyValueString ":" 2 with
      | [k; v] =>
          let key := TrimSpace k in
          let value := TrimSpace v in
          ParseHeaderString_loop rest (<[key := header_values headers key ++ [value]]> headers)
      | _ => Err errInvalidHeaderParameter
      end
  end.

Definition ParseHeaderString (customHeaders : list str) : result Header :=
  ParseHeaderString_loop customHeaders ∅.

(** ** References with a scheme *)

(** A string that starts with [https:] is no relative reference. *)
Lemma Parse_https t u : Parse (&"https:" ++ t) = Some u -> Scheme u = &"https".
Proof.
  unfold Parse, cut.
  rewrite IndexByte_app_absent by decide_now.
  assert (Hp : forall t v, parse_nofrag (&"https:" ++ t) = Some v -> Scheme v = &"https").
  { clear. intros t v. unfold parse_nofrag.
    destruct (existsb is_ctl _); [done|]. rewrite decide_False by done.
    change (getscheme (&"https:" ++ t)) with (Some (&"https", t)). cbn zeta iota beta.
    change (ToLower &"https") with &"https". unfold setPath.
    repeat case_match; intros; simplify_eq/=; try done. }
  assert (Hf : forall v f v', setFragment v f = Some v' -> Scheme v' = Scheme v).
  { intros v f v'. unfold setFragment. case_match; [|done]. by intros [= <-]. }
  destruct (IndexByte t "#") as [i|]; cbn [fmap option_fmap option_map].
  - change (length &"https:" + i) with (6 + i). 
    assert (take (6 + i) (&"https:" ++ t) = &"https:" ++ take i t) as -> by done.
    destruct (parse_nofrag (&"https:" ++ take i t)) as [v|] eqn:E; [|done]. apply Hp in E.
    case_decide; [by intros [= <-]|]. intros Hx%Hf. congruence.
  - destruct (parse_nofrag (&"https:" ++ t)) as [v|] eqn:E; [|done]. apply Hp in E.
    rewrite decide_True by done. by intros [= <-].
Qed.

Lemma redirect_location_https r t : redirect_location r (&"https:" ++ t) = &"https:" ++ t.
Proof.
  unfold redirect_location. destruct (Parse (&"https:" ++ t)) as [u|] eqn:E; [|done].
  apply Parse_https in E. by rewrite E.
Qed.

Section App.

#[local] Set Default Proof Using "Type".

Context {Certificate : Type} (X509KeyPair : str -> str -> result Certificate).

Abbreviation domain := (Domain Certificate).

(** ** Requests with a context *)

Record CtxRequest : Type := mkCtxRequest {
  ctx_req : Request; ctx_host : option str; ctx_domain : option (option domain) }.

Definition WithHostAndDomain (r : CtxRequest) (host : str) (d : option domain) : CtxRequest :=
  mkCtxRequest (ctx_req r) (Some host) (Some d).
(** The type assertions panic when the value is missing. *)
Definition GetHost (r : CtxRequest) : option str := ctx_host r.
Definition GetDomain (r : CtxRequest) : option (option domain) := ctx_domain r.

Definition HTTPHandler : Type := CtxRequest -> Response -> option Response.
Abbreviation Middleware := (HTTPHandler -> HTTPHandler).

(** ** The parts of the application *)

Record AppAuth : Type := mkAppAuth {
  auth_base : Auth;
  TryAuthenticate : Request -> Response -> bool * Response;
  CheckAuthentication : Request -> option domain -> Response -> bool * Response;
  CheckAuthenticationWithoutProject : Request -> option domain -> Response -> bool * Response }.

Record theApp : Type := mkApp {
  app_RedirectHTTP : bool; app_StatusPath : str; app_DisableCrossOriginRequests : bool;
  app_domains : Domains (Certificate := Certificate); app_Artifact : option Artifact;
  app_Auth : AppAuth; app_Acme : option str;  (* GitlabURL of the ACME middleware *)
  app_CustomHeaders : list (str * list str) }.

Context (artifact_Do : URL -> Header -> result ApiResponse).

(** ** acme.go *)

Definition isAcmeChallenge (path : str) : bool := HasPrefix (Clean path) &"/.well-known/acme-challenge/".

Definition redirectToGitlab (gitlabURL : str) (r : Request) (w : Response) : bool * Response :=
  match Parse gitlabURL with
  | None => (false, w)
  | Some u =>
      let u1 := set_Path &"/-/acme-challenge" u in
      let query := Values_Set (Values_Set (Query u1) &"domain" (host_FromRequest r))
                     &"token" (Base (Path (req_URL r))) in
      (true, http_Redirect r (url_String (set_RawQuery (Encode query) u1)) 307 w)
  end.

Definition ServeAcmeChallenges (m : option str) (r : Request) (d : option domain) (w : Response)
  : bool * Response :=
  match m with
  | None => (false, w)
  | Some gitlabURL =>
      if negb (isAcmeChallenge (Path (req_URL r))) then (false, w)
      else
        match Domain_ServeFileHTTP d r w with
        | (true, w') => (false, w')
        | (false, w') => redirectToGitlab gitlabURL r w'
        end
  end.

(** ** app.go *)

Definition isReady (a : theApp) : option bool := Domains_IsReady (app_domains a).

Definition app_domain (a : theApp) (host : str) : option (result (option domain)) :=
  Domains_GetDomain (app_domains a) host.

(** The certificate of the named domain; errors are dropped. *)
Definition ServeTLS (a : theApp) (serverName : str) : option (option Certificate) :=
  if negb (nonempty serverName) then Some None
  else
    match app_domain a serverName with
    | None => None
    | Some (Ok (Some d)) =>
        Some (match (EnsureCertificate X509KeyPair (Some d)).1 with Ok c => Some c | Err _ => None end)
    | Some _ => Some None
    end.

Definition healthCheck (a : theApp) (w : Response) : option Response :=
  match isReady a with
  | None => None
  | Some true => Some (Write (&"success" ++ newline) w)
  | Some false => Some (http_Error &"not yet ready" 503 w)
  end.

(** The address of [redirectToHTTPS]. *)
Definition https_url (r : Request) : str :=
  let u := req_URL r in
  url_String (mkURL SchemeHTTPS (Opaque u) None (req_Host r) (Path u) (RawPath u) (ForceQuery u)
                (RawQuery u) (Fragment u) (RawFragment u)).

Definition redirectToHTTPS (r : Request) (statusCode : Z) (w : Response) : Response :=
  http_Redirect r (https_url r) statusCode w.

Definition getHostAndDomain (a : theApp) (r : Request) : option (str * result (option domain)) :=
  let host := GetHostWithoutPort r in
  pair host <$> app_domain a host.

Definition checkAuthAndServeNotFound (a : theApp) (d : option domain) (r : Request) (w : Response)
  : bool * Response :=
  match CheckAuthenticationWithoutProject (app_Auth a) r d w with
  | (true, w') => (true, w')
  | (false, w') => (true, ServeNotFoundAuthFailed d r w')
  end.

Definition tryAuxiliaryHandlers (a : theApp) (r : Request) (https : bool) (host : str)
    (d : option domain) (w : Response) : option (bool * Response) :=
  if negb https && app_RedirectHTTP a then Some (true, redirectToHTTPS r 307 w)
  else
    match HandleArtifactRequest artifact_Do (auth_base (app_Auth a)) (app_Artifact a) host r w with
    | (true, w1) => Some (true, w1)
    | (false, w1) =>
        match isReady a with
        | None => None
        | Some false => Some (true, Serve503 w1)
        | Some true =>
            let '(handled, w2) :=
              if negb (HasLookupPath d r) then checkAuthAndServeNotFound a d r w1 else (false, w1) in
            if handled then Some (true, w2)
            else if negb https && IsHTTPSOnly d r then Some (true, redirectToHTTPS r 301 w2)
            else Some (false, w2)
        end
    end.

(** ** Middlewares *)

Definition NewMiddleware (handler : HTTPHandler) : HTTPHandler := fun r w =>
  if decide (req_Method (ctx_req r) ∈ acceptedMethods) then handler r w
  else Some (http_Error (StatusText 405) 405 w).

Definition routingMiddleware (a : theApp) (handler : HTTPHandler) : HTTPHandler := fun r w =>
  match getHostAndDomain a (ctx_req r) with
  | None => None
  | Some (host, Ok d) => handler (WithHostAndDomain r host d) w
  | Some (host, Err err) =>
      if errors_Is err ErrDomainDoesNotExist then handler (WithHostAndDomain r host None) w
      else Some (Serve502 w)
  end.

Definition healthCheckMiddleware (a : theApp) (handler : HTTPHandler) : HTTPHandler := fun r w =>
  if decide (req_RequestURI (ctx_req r) = app_StatusPath a) then healthCheck a w else handler r w.

Definition customHeadersMiddleware (a : theApp) (handler : HTTPHandler) : HTTPHandler := fun r w =>
  handler r (AddCustomHeaders (app_CustomHeaders a) w).

Definition acmeMiddleware (a : theApp) (handler : HTTPHandler) : HTTPHandler := fun r w =>
  match GetDomain r with
  | None => None
  | Some d =>
      match ServeAcmeChallenges (app_Acme a) (ctx_req r) d w with
      | (true, w') => Some w'
      | (false, w') => handler r w'
      end
  end.

Definition authMiddleware (a : theApp) (handler : HTTPHandler) : HTTPHandler := fun r w =>
  match TryAuthenticate (app_Auth a) (ctx_req r) w with
  | (true, w') => Some w'
  | (false, w') => handler r w'
  end.

Definition auxiliaryMiddleware (a : theApp) (handler : HTTPHandler) : HTTPHandler := fun r w =>
  match GetHost r, GetDomain r with
  | Some host, Some d =>
      match tryAuxiliaryHandlers a (ctx_req r) (IsHTTPS (ctx_req r)) host d w with
      | None => None
      | Some (true, w') => Some w'
      | Some (false, w') => handler r w'
      end
  | _, _ => None
  end.

Definition accessControlMiddleware (a : theApp) (handler : HTTPHandler) : HTTPHandler := fun r w =>
  match GetDomain r with
  | None => None
  | Some d =>
      if IsAccessControlEnabled d (ctx_req r) then
        match CheckAuthentication (app_Auth a) (ctx_req r) d w with
        | (true, w') => Some w'
        | (false, w') => handler r w'
        end
      else handler r w
  end.

Definition serveFileOrNotFoundHandler (a : theApp) : HTTPHandler := fun r w =>
  match GetDomain r with
  | None => None
  | Some d =>
      match Domain_ServeFileHTTP d (ctx_req r) w with
      | (true, w') => Some w'
      | (false, w') =>
          let '(handled, w2) :=
            if IsNamespaceProject d (ctx_req r)
            then CheckAuthenticationWithoutProject (app_Auth a) (ctx_req r) d w' else (false, w') in
          if handled then Some w2 else Some (Domain_ServeNotFoundHTTP d (ctx_req r) w2)
      end
  end.

Definition setRequestScheme (r : Request) : Request :=
  let scheme := if bool_decide (Scheme (req_URL r) = SchemeHTTPS) || req_TLS r
                then SchemeHTTPS else SchemeHTTP in
  mkRequest (req_Method r) (set_Scheme scheme (req_URL r)) (req_Host r) (req_RequestURI r)
    (req_Header r) (req_TLS r) (req_RemoteAddr r).

Definition with_req (f : Request -> Request) (r : CtxRequest) : CtxRequest :=
  mkCtxRequest (f (ctx_req r)) (ctx_host r) (ctx_domain r).

Definition httpInitialMiddleware (handler : HTTPHandler) : HTTPHandler := fun r w =>
  handler (with_req setRequestScheme r) w.

Definition set_req_Host (host : str) (r : Request) : Request :=
  mkRequest (req_Method r) (req_URL r) host (req_RequestURI r) (req_Header r) (req_TLS r) (req_RemoteAddr r).

Definition proxyInitialMiddleware (handler : HTTPHandler) : HTTPHandler := fun r w =>
  let forwardedHost := Header_Get (req_Header (ctx_req r)) &"X-Forwarded-Host" in
  if nonempty forwardedHost then handler (with_req (set_req_Host forwardedHost) r) w else handler r w.

Context (corsHandler AccessLogger metricsMiddleware InjectCorrelationID : Middleware).

Definition content_handler (a : theApp) : HTTPHandler :=
  let handler := serveFileOrNotFoundHandler a in
  if app_DisableCrossOriginRequests a then handler else corsHandler handler.

(** The handlers that run with the domain in the context. *)
Definition domain_pipeline (a : theApp) : HTTPHandler :=
  acmeMiddleware a (authMiddleware a (auxiliaryMiddleware a
    (accessControlMiddleware a (content_handler a)))).

Definition buildHandlerPipeline (a : theApp) : HTTPHandler :=
  NewMiddleware (InjectCorrelationID (customHeadersMiddleware a (healthCheckMiddleware a
    (routingMiddleware a (metricsMiddleware (AccessLogger (domain_pipeline a))))))).

(** ** Lemmas *)

(** A middleware that never panics on its own: with a handler that does not
    panic where [P] holds, neither does it. *)
Definition no_panic (P : CtxRequest -> Prop) (h : HTTPHandler) : Prop :=
  forall r w, P r -> is_Some (h r w).

Definition routed (r : CtxRequest) : Prop := is_Some (ctx_host r) /\ is_Some (ctx_domain r).

(** A middleware that keeps handlers from panicking on the requests it is
    used for, those with [P]. *)
Class PanicFree (P : CtxRequest -> Prop) (m : Middleware) : Prop :=
  panic_free h : no_panic P h -> no_panic P (m h).

Lemma serveFile_no_panic a : no_panic routed (serveFileOrNotFoundHandler a).
Proof.
  intros r w [_ [d Hd]]. unfold serveFileOrNotFoundHandler, GetDomain. rewrite Hd.
  repeat case_match; eauto.
Qed.

Lemma accessControl_no_panic a h : no_panic routed h -> no_panic routed (accessControlMiddleware a h).
Proof.
  intros Hh r w Hr. unfold accessControlMiddleware, GetDomain. destruct (Hr) as [_ [d ->]].
  repeat case_match; eauto.
Qed.

(** The sources the application was started with are not nil. *)
Definition sources_ready (a : theApp) : Prop :=
  is_Some (isReady a) /\ forall host, is_Some (app_domain a host).

Lemma auxiliary_no_panic a h :
  sources_ready a -> no_panic routed h -> no_panic routed (auxiliaryMiddleware a h).
Proof.
  intros [[b Hb] _] Hh r w Hr. unfold auxiliaryMiddleware, GetHost, GetDomain.
  destruct (Hr) as [[host ->] [d ->]]. unfold tryAuxiliaryHandlers. rewrite Hb.
  repeat (case_match; simplify_eq; eauto).
Qed.

Lemma auth_no_panic a h : no_panic routed h -> no_panic routed (authMiddleware a h).
Proof. intros Hh r w Hr. unfold authMiddleware. repeat case_match; eauto. Qed.

Lemma acme_no_panic a h : no_panic routed h -> no_panic routed (acmeMiddleware a h).
Proof.
  intros Hh r w Hr. unfold acmeMiddleware, GetDomain. destruct (Hr) as [_ [d ->]].
  repeat case_match; eauto.
Qed.

Context {cors_pf : PanicFree routed corsHandler} {log_pf : PanicFree routed AccessLogger}.
Context {metrics_pf : PanicFree routed metricsMiddleware} {corr_pf : PanicFree (fun _ => True) InjectCorrelationID}.

Lemma domain_pipeline_no_panic a : sources_ready a -> no_panic routed (domain_pipeline a).
Proof using cors_pf.
  intros Hs. apply acme_no_panic, auth_no_panic, auxiliary_no_panic, accessControl_no_panic; [done|].
  unfold content_handler. case_match; [|apply cors_pf]; apply serveFile_no_panic.
Qed.

Lemma routing_no_panic a h :
  sources_ready a -> no_panic routed h -> no_panic (fun _ => True) (routingMiddleware a h).
Proof.
  intros [_ Hd] Hh r w _. unfold routingMiddleware, getHostAndDomain.
  destruct (Hd (GetHostWithoutPort (ctx_req r))) as [res ->]. simpl.
  destruct res as [d|err]; [|case_match; [|by eauto]]; apply Hh; by split; eexists.
Qed.

(** ** Properties *)

(** The pipeline does not panic: with domain sources that are not nil
    and with library middlewares that do not panic by themselves, every
    request gets a response; in particular the host and the domain are in
    the context whenever a handler asks for them, and a nil domain is never
    dereferenced. *)
Theorem buildHandlerPipeline_no_panic a r w :
  sources_ready a -> exists w', buildHandlerPipeline a r w = Some w'.
Proof using cors_pf log_pf metrics_pf corr_pf.
  intros Hs. assert (H : no_panic (fun _ => True) (buildHandlerPipeline a)).
  { intros r' w' _. unfold buildHandlerPipeline, NewMiddleware. case_decide; [|by eauto].
    apply corr_pf; [|done].
    intros r1 w1 _. unfold customHeadersMiddleware, healthCheckMiddleware. case_decide.
    - unfold healthCheck. destruct Hs as [[b ->] _]. destruct b; eauto.
    - apply (routing_no_panic a); [done| |done].
      apply metrics_pf, log_pf, domain_pipeline_no_panic, Hs. }
  by destruct (H r w I) as [w' Hw]; exists w'.
Qed.

(** What the pipeline relies on: handled requests are answered, others are
    left alone. *)
Class AppAuthLaws (au : AppAuth) : Prop := {
  base_laws :: AuthLaws (auth_base au);
  try_answers r w : answers w (TryAuthenticate au r w);
  check_answers r d w : domain_ok d -> answers w (CheckAuthentication au r d w);
  check_without_answers r d w : domain_ok d -> answers w (CheckAuthenticationWithoutProject au r d w) }.

Lemma tryAuxiliaryHandlers_answers a `{!AppAuthLaws (app_Auth a)} r https host d w out :
  domain_ok d -> tryAuxiliaryHandlers a r https host d w = Some out -> answers w out.
Proof.
  intros Hd. unfold tryAuxiliaryHandlers.
  destruct (_ && _); [intros [= <-]; apply replied_Redirect|].
  pose proof (HandleArtifactRequest_answers artifact_Do (auth_base (app_Auth a)) (app_Artifact a) host r w) as Ha.
  destruct (HandleArtifactRequest _ _ _ _ _ _) as [[] w1]; [by intros [= <-]|].
  unfold answers in Ha. simpl in Ha. subst w1.
  destruct (isReady a) as [[]|]; [|intros [= <-]; apply replied_serveErrorPage|done].
  destruct (HasLookupPath d r); cbn [negb].
  - destruct (_ && _); intros [= <-]; [apply replied_Redirect|done].
  - unfold checkAuthAndServeNotFound. pose proof (check_without_answers r d w Hd) as Hc. unfold answers in Hc.
    destruct (CheckAuthenticationWithoutProject _ _ _ _) as [[] w1]; intros [= <-]; [done|].
    by apply ServeNotFoundAuthFailed_replies.
Qed.

(** Somebody answers: behind the domain lookup, for a request that is no
    ACME challenge, either a handler in front of the content has sent a
    status, or the content handlers got the request with the response as it
    came in.  No handler both swallows the request and stays silent, and
    none writes and passes the request on. *)
Theorem pipeline_answers_or_serves a `{!AppAuthLaws (app_Auth a)} r d w w' serve :
  ctx_domain r = Some d -> domain_ok d -> isAcmeChallenge (Path (req_URL (ctx_req r))) = false ->
  acmeMiddleware a (authMiddleware a (auxiliaryMiddleware a (accessControlMiddleware a serve))) r w = Some w' ->
  replied w' \/ serve r w = Some w'.
Proof.
  intros Hr Hd Hacme. unfold acmeMiddleware, GetDomain, ServeAcmeChallenges. rewrite Hr, Hacme. cbn [negb].
  assert (He : forall m : option str, match m with None => (false, w) | Some _ => (false, w) end = (false, w))
    by by intros [].
  rewrite He. clear He. unfold authMiddleware. pose proof (try_answers (ctx_req r) w) as Ht. unfold answers in Ht.
  destruct (TryAuthenticate _ _ _) as [[] w1]; simpl in Ht; [intros [= <-]; by left|]. subst w1.
  unfold auxiliaryMiddleware, GetDomain. rewrite Hr. destruct (GetHost r) as [host|]; [|done].
  destruct (tryAuxiliaryHandlers _ _ _ _ _ _) as [out|] eqn:Eo; [|done].
  apply (tryAuxiliaryHandlers_answers a _ _ _ _ _ _ Hd) in Eo. unfold answers in Eo.
  destruct out as [[] w1]; simpl in Eo; [intros [= <-]; by left|]. subst w1.
  unfold accessControlMiddleware, GetDomain. rewrite Hr.
  destruct (IsAccessControlEnabled d (ctx_req r)); [|by right].
  pose proof (check_answers (ctx_req r) d w Hd) as Hc. unfold answers in Hc.
  destruct (CheckAuthentication _ _ _ _) as [[] w1]; simpl in Hc; [intros [= <-]; by left|]. subst w1. by right.
Qed.

(** Content of a project with access control is not served without
    authorisation: behind the domain lookup, a request that is no ACME
    challenge and that the authentication rejects is answered by what the
    authentication wrote, or by an earlier handler; the file serving is
    never reached, whatever it would do. *)
Lemma access_control_guards_content a r d w serve1 serve2 :
  ctx_domain r = Some d -> IsAccessControlEnabled d (ctx_req r) = true ->
  isAcmeChallenge (Path (req_URL (ctx_req r))) = false ->
  (forall w, (CheckAuthentication (app_Auth a) (ctx_req r) d w).1 = true) ->
  acmeMiddleware a (authMiddleware a (auxiliaryMiddleware a (accessControlMiddleware a serve1))) r w
  = acmeMiddleware a (authMiddleware a (auxiliaryMiddleware a (accessControlMiddleware a serve2))) r w.
Proof.
  intros Hd Hac Hacme Hcheck.
  assert (Hinner : forall w, accessControlMiddleware a serve1 r w = accessControlMiddleware a serve2 r w).
  { intros w'. unfold accessControlMiddleware, GetDomain. rewrite Hd, Hac.
    specialize (Hcheck w'). by destruct (CheckAuthentication _ _ _ w') as [[] w1]. }
  unfold acmeMiddleware, authMiddleware, auxiliaryMiddleware.
  repeat case_match; try done; apply Hinner.
Qed.

(** A challenge file is served before the access control and then the
    request goes on: when the ACME middleware finds the file, the response is
    already written, for any project, and the rest of the pipeline runs on
    it once more. *)
Theorem acme_file_served_and_continued a r d w gitlabURL w1 h :
  ctx_domain r = Some d -> app_Acme a = Some gitlabURL ->
  isAcmeChallenge (Path (req_URL (ctx_req r))) = true ->
  Domain_ServeFileHTTP d (ctx_req r) w = (true, w1) ->
  acmeMiddleware a h r w = h r w1.
Proof.
  intros Hd Ha Hc Hs. unfold acmeMiddleware, GetDomain, ServeAcmeChallenges.
  by rewrite Hd, Ha, Hc, Hs.
Qed.

(** ** HTTPS *)

Lemma https_url_scheme r : exists t, https_url r = &"https:" ++ t.
Proof.
  unfold https_url, url_String. cbn [Scheme].
  change (nonempty SchemeHTTPS) with true. cbn iota. change (SchemeHTTPS ++ &":") with &"https:".
  by eexists.
Qed.

(** Plain HTTP to an HTTPS-only project is redirected and nothing is
    served: when no earlier handler answers, the response is a 301 whose
    location is the request's own URL with scheme https on the requested
    host; with the global redirect switched on it is a 307 before anything
    else is tried. *)
Theorem https_only_redirect a r host d w :
  w_committed w = None ->
  let out code w' := exists h, w_committed w' = Some (code, h)
                      /\ Header_Get h &"Location" = hexEscapeNonASCII (https_url r) in
  (app_RedirectHTTP a = true ->
     exists w', tryAuxiliaryHandlers a r false host d w = Some (true, w') /\ out 307%Z w')
  /\ (app_RedirectHTTP a = false -> IsHTTPSOnly d r = true ->
     (exists w1, HandleArtifactRequest artifact_Do (auth_base (app_Auth a)) (app_Artifact a) host r w
                 = (false, w1) /\ w_committed w1 = None) ->
     isReady a = Some true -> HasLookupPath d r = true ->
     exists w', tryAuxiliaryHandlers a r false host d w = Some (true, w') /\ out 301%Z w').
Proof.
  intros Hw out.
  assert (Hred : forall code w0, w_committed w0 = None -> out code (redirectToHTTPS r code w0)).
  { intros code w0 Hw0. destruct (Redirect_committed r (https_url r) code w0 Hw0) as (h & H1 & H2).
    exists h. split; [done|]. rewrite H2. destruct (https_url_scheme r) as [t Ht]. rewrite Ht.
    by rewrite redirect_location_https. }
  unfold tryAuxiliaryHandlers. cbn [negb andb]. split.
  - intros ->. eexists. split; [done|by apply Hred].
  - intros -> Hs (w1 & -> & Hw1) -> ->. cbn [negb]. rewrite Hs. eexists. split; [done|by apply Hred].
Qed.

End App.

(** ** A concrete application *)

(** An authentication that rejects everything with a 401. *)
Definition deny_auth : AppAuth (Certificate := unit) :=
  mkAppAuth (mkAuth true (fun _ w => (true, Serve401 w)) (fun _ w => (Ok [], w)) (fun _ _ w => (false, w)))
    (fun _ w => (false, w)) (fun _ _ w => (true, Serve401 w)) (fun _ _ w => (true, Serve401 w)).

Definition private_lookup : LookupPath := mkLookupPath &"file" &"/" &"group/private/public" false true true 2.
Definition private_resolver : Resolver := fun r =>
  Ok (mkServingRequest (disk_New plain_lib no_rules [] 0 (demo_vfs demo_root)) private_lookup
        (TrimPrefix (Path (req_URL r)) &"/")).
Definition private_domain : Domain unit := Domain_New &"private.example.io" [] [] private_resolver.

Definition demo_app : theApp (Certificate := unit) :=
  mkApp false &"/@status" true
    (mkDomains sourceGitlab (Some (mkDomainSource (fun _ => Ok (Some private_domain)) true)) None)
    None deny_auth (Some &"https://gitlab.example") [].

Definition no_artifacts : URL -> Header -> result ApiResponse := fun _ _ => Err (ErrMsg &"off").
Definition transparent : HTTPHandler (Certificate := unit) -> HTTPHandler (Certificate := unit) := fun h => h.

#[export] Instance transparent_panic_free P : PanicFree P transparent.
Proof. intros h Hh. exact Hh. Qed.

Lemma demo_app_ready : sources_ready demo_app.
Proof. split; [by eexists|]. intros host. unfold app_domain, Domains_GetDomain, Domains_source. simpl. case_match; by eexists. Qed.

Definition demo_ctx (path : str) : CtxRequest (Certificate := unit) :=
  mkCtxRequest (demo_get path) (Some &"private.example.io") (Some (Some private_domain)).

Lemma buildHandlerPipeline_no_panic_witness :
  exists w', buildHandlerPipeline no_artifacts transparent transparent transparent transparent demo_app
               (demo_ctx &"/index.html") new_response = Some w'.
Proof.
  apply (buildHandlerPipeline_no_panic no_artifacts transparent transparent transparent transparent demo_app).
  exact demo_app_ready.
Defined.

(** The private site with a challenge file. *)
Definition challenge_root : Root := mem_root
  [(&".well-known", dir_entry); (&".well-known/acme-challenge", dir_entry);
   (&".well-known/acme-challenge/token.html", file_entry &"proof")].
Definition challenge_domain : Domain unit :=
  Domain_New &"private.example.io" [] [] (fun r =>
    Ok (mkServingRequest (disk_New plain_lib no_rules [] 0 (demo_vfs challenge_root)) private_lookup
          (TrimPrefix (Path (req_URL r)) &"/"))).
Definition challenge_ctx : CtxRequest (Certificate := unit) :=
  mkCtxRequest (demo_get &"/.well-known/acme-challenge/token.html") (Some &"private.example.io")
    (Some (Some challenge_domain)).

(** The proof is sent without login, and the login page after it. *)
Lemma acme_file_served_and_continued_witness :
  exists w1, acmeMiddleware demo_app (accessControlMiddleware demo_app (serveFileOrNotFoundHandler demo_app))
               challenge_ctx new_response
             = accessControlMiddleware demo_app (serveFileOrNotFoundHandler demo_app) challenge_ctx w1
    /\ w_status w1 = Some 200%Z /\ w_body w1 = &"proof".
Proof.
  destruct (Domain_ServeFileHTTP (Some challenge_domain) (ctx_req challenge_ctx) new_response) as [b w1] eqn:E.
  assert (Hb : b = true) by (vm_compute in E; injection E as <- _; reflexivity).
  assert (Hw : w_status w1 = Some 200%Z /\ w_body w1 = &"proof")
    by (vm_compute in E; injection E as _ <-; split; reflexivity).
  subst b. exists w1. split; [|exact Hw].
  apply (acme_file_served_and_continued demo_app challenge_ctx (Some challenge_domain) new_response
    &"https://gitlab.example" w1).
  - reflexivity.
  - reflexivity.
  - reflexivity.
  - exact E.
Defined.

Lemma https_only_redirect_witness :
  exists w', tryAuxiliaryHandlers no_artifacts demo_app (demo_get &"/index.html") false &"private.example.io"
               (Some private_domain) new_response = Some (true, w')
    /\ exists h, w_committed w' = Some (301%Z, h)
       /\ Header_Get h &"Location" = &"https://group.example.io/index.html".
Proof.
  destruct (https_only_redirect no_artifacts demo_app (demo_get &"/index.html") &"private.example.io"
    (Some private_domain) new_response eq_refl) as [_ H].
  destruct H as (w' & Hw & h & Hh & Hl).
  - reflexivity.
  - reflexivity.
  - exists new_response. split; reflexivity.
  - reflexivity.
  - reflexivity.
  - exists w'. split; [exact Hw|]. exists h. split; [exact Hh|]. rewrite Hl. run.
Defined.
