(* ===== verification/Logging.v ===== *)
(** * Logging

    internal/logging/logging.go.  The loggers themselves are library code;
    what matters to the program is which logger is made, and that computing
    the fields of an access log line reads the request's context, which
    panics when the context is missing. *)

From S2P Require Import Prelude GoStd GoUrl Header Http Serving Domain App.

(** [log.Initialize]: the formatter and, where given, the level. *)
Definition Initializer : Type := str -> option str -> option error.

Definition ConfigureLogging (Initialize : Initializer) (format : str) (verbose : bool) : option error :=
  let format := if decide (format = []) then &"text" else format in
  let level := if verbose then &"trace" else &"info" in
  Initialize format (Some level).

Inductive Logger : Type := StandardLogger | CombinedLogger.

Definition getAccessLogger (Initialize : Initializer) (format : str) : result Logger :=
  if negb (bool_decide (format = &"text")) && nonempty format then Ok StandardLogger
  else
    match Initialize &"combined" None with
    | Some err => Err err
    | None => Ok CombinedLogger
    end.

(** The value of a log field. *)
Inductive FieldValue : Type := FBool (b : bool) | FStr (s : str) | FInt (z : Z) | FErr (e : error).
Abbreviation Fields := (list (str * FieldValue)).

Section Logging.

#[local] Set Default Proof Using "Type".

Context {Certificate : Type}.
Abbreviation ctx_request := (CtxRequest (Certificate := Certificate)).

(** [None] is the panic of a missing context value. *)
Definition getExtraLogFields (r : ctx_request) : option Fields :=
  match GetHost r with
  | None => None
  | Some host =>
      let logFields := [(&"pages_https", FBool (IsHTTPS (ctx_req r))); (&"pages_host", FStr host)] in
      match GetDomain r with
      | None => None
      | Some None => Some logFields
      | Some (Some d) =>
          match GetLookupPath (Some d) (ctx_req r) with
          | Err err => Some (logFields ++ [(&"error", FErr err)])
          | Ok lp => Some (logFields ++ [(&"pages_project_serving_type", FStr (lp_ServingType lp));
                                         (&"pages_project_prefix", FStr (lp_Prefix lp));
                                         (&"pages_project_id", FInt (lp_ProjectID lp))])
          end
      end
  end.

(** [correlation.ExtractFromContext] *)
Context (correlation_id : ctx_request -> str).

Definition defaultLogFields (r : ctx_request) : option Fields :=
  Some [(&"correlation_id", FStr (correlation_id r)); (&"pages_https", FBool (IsHTTPS (ctx_req r)));
        (&"pages_host", FStr (req_Host (ctx_req r)))].

(** [log.AccessLogger] of the library: a middleware with a generator of extra
    fields, a logger and the test for trusted forwarding addresses. *)
Context (lib_AccessLogger : (ctx_request -> option Fields) -> Logger -> (str -> bool) ->
                            HTTPHandler (Certificate := Certificate) -> HTTPHandler (Certificate := Certificate)).
Context (Initialize : Initializer).

Definition BasicAccessLogger (handler : HTTPHandler (Certificate := Certificate)) (format : str)
    (extraFields : option (ctx_request -> option Fields)) : result (HTTPHandler (Certificate := Certificate)) :=
  let? accessLogger := getAccessLogger Initialize format in
  let extraFields := default defaultLogFields extraFields in
  Ok (lib_AccessLogger extraFields accessLogger (fun _ => false) handler).

Definition logging_AccessLogger (handler : HTTPHandler (Certificate := Certificate)) (format : str)
  : result (HTTPHandler (Certificate := Certificate)) :=
  BasicAccessLogger handler format (Some getExtraLogFields).

Definition LogRequest (r : ctx_request) : Fields :=
  [(&"correlation_id", FStr (correlation_id r)); (&"host", FStr (req_Host (ctx_req r)));
   (&"path", FStr (Path (req_URL (ctx_req r))))].

(** The library calls the handler and the generator, and adds no panic. *)
Class AccessLoggerLaws : Prop :=
  access_logger_panics P extra logger xff h :
    (forall r, P r -> is_Some (extra r)) -> no_panic P h -> no_panic P (lib_AccessLogger extra logger xff h).

(** ** Properties *)

Lemma getExtraLogFields_routed r : routed r -> is_Some (getExtraLogFields r).
Proof.
  intros [[host Hh] [d Hd]]. unfold getExtraLogFields, GetHost, GetDomain. rewrite Hh, Hd.
  destruct d as [d|]; [|by eexists]. destruct (GetLookupPath (Some d) _); by eexists.
Qed.

(** The access logger is safe where the pipeline puts it: behind the routing,
    which puts the host and the domain into the context. *)
Lemma AccessLogger_panic_free `{!AccessLoggerLaws} format logger :
  getAccessLogger Initialize format = Ok logger ->
  exists m, PanicFree routed m /\ forall h, logging_AccessLogger h format = Ok (m h).
Proof.
  intros Hl. exists (lib_AccessLogger getExtraLogFields logger (fun _ => false)). split.
  - intros h Hh. by apply access_logger_panics; [apply getExtraLogFields_routed|].
  - intros h. unfold logging_AccessLogger, BasicAccessLogger. by rewrite Hl.
Qed.

(** In front of the routing it panics on every request. *)
Lemma getExtraLogFields_unrouted r : ctx_host r = None -> getExtraLogFields r = None.
Proof. intros H. unfold getExtraLogFields, GetHost. by rewrite H. Qed.

End Logging.

(** A logger that computes its fields after the request. *)
Definition toy_AccessLogger {Certificate} (extra : CtxRequest (Certificate := Certificate) -> option Fields)
    (logger : Logger) (xff : str -> bool) (h : HTTPHandler (Certificate := Certificate)) : HTTPHandler (Certificate := Certificate) :=
  fun r w => w' ← h r w; _ ← extra r; Some w'.

#[export] Instance toy_AccessLogger_laws {Certificate} : AccessLoggerLaws (Certificate := Certificate) toy_AccessLogger.
Proof.
  intros P extra logger xff h He Hh r w Hr. unfold toy_AccessLogger.
  destruct (Hh r w Hr) as [w' ->]. cbn [mbind option_bind]. destruct (He r Hr) as [f ->]. by eexists.
Qed.
