(* ===== verification/Auth.v ===== *)
(** * Authentication with GitLab

    internal/auth/auth.go and auth_code.go.  The cookie store of
    gorilla/sessions, the API client, the JSON decoders, the random state and
    the cryptography (HKDF, AES-GCM, JWT) are parameters.  A session is its
    [Values]; all values the package stores are strings. *)

From S2P Require Import Prelude GoStd GoPath GoUrl Header Http Serving DiskServing Domain GitlabSource.
From S2P Require Import Artifact App.

(** ** Configuration *)

Record AuthConf : Type := mkAuthConf {
  pagesDomain : str; clientID : str; clientSecret : str; redirectURI : str; gitLabServer : str;
  authSecret : str; authScope : str; jwtSigningKey : str; jwtExpiry : Z }.

(** The templates of auth.go, as functions of what fills them. *)
Definition apiURLUserTemplate (server : str) : str := server ++ &"/api/v4/user".
Definition apiURLProjectTemplate (server : str) (projectID : Z) : str :=
  server ++ &"/api/v4/projects/" ++ FormatInt projectID ++ &"/pages_access".
Definition authorizeURLTemplate (server clientID redirectURI state scope : str) : str :=
  server ++ &"/oauth/authorize?client_id=" ++ clientID ++ &"&redirect_uri=" ++ redirectURI
  ++ &"&response_type=code&state=" ++ state ++ &"&scope=" ++ scope.
Definition tokenURLTemplate (server : str) : str := server ++ &"/oauth/token".
Definition tokenContentTemplate (clientID clientSecret code redirectURI : str) : str :=
  &"client_id=" ++ clientID ++ &"&client_secret=" ++ clientSecret ++ &"&code=" ++ code
  ++ &"&grant_type=authorization_code&redirect_uri=" ++ redirectURI.
Definition authorizeProxyTemplate (redirectURI domain state : str) : str :=
  redirectURI ++ &"?domain=" ++ domain ++ &"&state=" ++ state.
Definition authSessionMaxAge : Z := 60 * 10.

Definition callbackPath : str := &"/auth".
Definition errInvalidToken : error := ErrSentinel &"invalid token".
Definition errEmptyDomainOrCode : error := ErrSentinel &"empty domain or code".
Definition errInvalidNonce : error := ErrSentinel &"invalid nonce".
Definition errInvalidCode : error := ErrSentinel &"invalid code".
Definition errResponseNotOk : error := ErrSentinel &"response was not ok".
Definition errGenerateKeys : error := ErrSentinel &"could not generate auth keys".

(** ** auth_code.go *)

(** [hex.EncodeToString] and [hex.DecodeString]. *)
Definition hex_Encode (s : str) : str :=
  mjoin ((fun c => let n := nat_of_ascii c in [lower_hex (n / 16); lower_hex (n mod 16)]) <$> s).

Fixpoint hex_Decode (s : str) : option str :=
  match s with
  | [] => Some []
  | a :: b :: s' =>
      match unhex a, unhex b with
      | Some x, Some y => cons (ascii_of_nat (16 * x + y)) <$> hex_Decode s'
      | _, _ => None
      end
  | _ => None
  end.

(** The claims of the token; a missing or non-string claim is [None]. *)
Record Claims : Type := mkClaims {
  cl_iss : str; cl_iat : Z; cl_exp : Z; cl_domain : option str; cl_code : option str; cl_nonce : option str }.

(** The key function of the token library: the key for a token, given whether
    its method is an HMAC one. *)
Definition Keyfunc : Type := bool -> result str.

(** The cryptography the code relies on. *)
Record Crypto : Type := mkCrypto {
  hkdf_key : str -> str -> str -> result str;           (* secret, salt, info: 32 bytes read *)
  Seal : str -> str -> str -> str;                      (* key, nonce, plain text *)
  Open_aead : str -> str -> str -> option str;
  SignedClaims : str -> Claims -> result str;           (* HS256 *)
  token_hmac : str -> bool;                             (* the method a token names *)
  jwt_Parse : Keyfunc -> Z -> str -> result (option Claims * bool)  (* claims as a map, and [Valid] *) }.

(** Documented behaviour: opening with the same key and nonce gives the
    plain text back; a signed token is accepted
    with the signing key until it expires; a token for which there is no key
    is refused. *)
Class CryptoLaws (cr : Crypto) : Prop := {
  open_seal k n m : Open_aead cr k n (Seal cr k n m) = Some m;
  parse_signed (kf : Keyfunc) k c t now : SignedClaims cr k c = Ok t -> kf true = Ok k ->
    (cl_iat c <= now <= cl_exp c)%Z -> jwt_Parse cr kf now t = Ok (Some c, true);
  parse_no_key (kf : Keyfunc) t now e : kf (token_hmac cr t) = Err e -> exists e', jwt_Parse cr kf now t = Err e' }.

(** [aes.NewCipher] and [cipher.NewGCMWithNonceSize]: the cipher is its key. *)
Definition aes_NewCipher (key : str) : result str :=
  if decide (length key = 16 \/ length key = 24 \/ length key = 32) then Ok key
  else Err (ErrMsg &"crypto/aes: invalid key size").
Definition NewGCMWithNonceSize (block : str) (size : nat) : result str :=
  if decide (size = 0) then Err (ErrMsg &"cipher: the nonce can't have zero length") else Ok block.

Section Code.

Context (cr : Crypto).

Definition codeKey (a : AuthConf) (domain : str) : result str :=
  hkdf_key cr (authSecret a) domain &"PAGES_AUTH_CODE_ENCRYPTION_KEY".

Definition newAesGcmCipher (a : AuthConf) (domain nonce : str) : result str :=
  let? key := codeKey a domain in
  let? block := aes_NewCipher key in
  NewGCMWithNonceSize block (length nonce).

(** [nonce] is the encoded random key, [now] the time in seconds. *)
Definition EncryptAndSignCode (a : AuthConf) (nonce : str) (now : Z) (domain code : str) : result str :=
  if negb (nonempty domain) || negb (nonempty code) then Err errEmptyDomainOrCode
  else
    let? aesGcm := newAesGcmCipher a domain nonce in
    let encryptedCode := Seal cr aesGcm nonce code in
    SignedClaims cr (jwtSigningKey a)
      (mkClaims &"gitlab-pages" now (now + jwtExpiry a) (Some domain) (Some (hex_Encode encryptedCode)) (Some nonce)).

(** (The message of the error names the method of the token.) *)
Definition getSigningKey (a : AuthConf) : Keyfunc := fun hmac =>
  if negb hmac then Err (ErrMsg &"unexpected signing method") else Ok (jwtSigningKey a).

Definition parseJWTClaims (a : AuthConf) (now : Z) (secureCode : str) : result Claims :=
  let? token := jwt_Parse cr (getSigningKey a) now secureCode in
  match token with
  | (Some claims, true) => Ok claims
  | _ => Err errInvalidToken
  end.

Definition DecryptCode (a : AuthConf) (now : Z) (jwt domain : str) : result str :=
  let? claims := parseJWTClaims a now jwt in
  match cl_nonce claims with
  | None => Err errInvalidNonce
  | Some nonce =>
      match cl_code claims with
      | None => Err errInvalidCode
      | Some encryptedCode =>
          match hex_Decode encryptedCode with
          | None => Err (ErrMsg &"encoding/hex")
          | Some cipherText =>
              let? aesGcm := newAesGcmCipher a domain nonce in
              match Open_aead cr aesGcm nonce cipherText with
              | Some code => Ok code
              | None => Err (ErrMsg &"cipher: message authentication failed")
              end
          end
      end
  end.

(** The loop of [generateKeys]: [stream i] is the [i]-th 32 byte read from the
    HKDF reader. *)
Fixpoint read_keys (stream : nat -> result str) (i count : nat) : result (list str) :=
  match count with
  | 0 => Ok []
  | S count' =>
      let? key := stream i in
      let? keys := read_keys stream (S i) count' in
      Ok (key :: keys)
  end.

Definition generateKeys (stream : nat -> result str) (count : nat) : result (list str) :=
  let? keys := read_keys stream 0 count in
  if length keys <? count then Err errGenerateKeys else Ok keys.

Definition Auth_New (stream : nat -> result str)
    (pagesDomain storeSecret clientID clientSecret redirectURI server scope : str) : result AuthConf :=
  match generateKeys stream 3 with
  | Ok [_; _; key] =>
      Ok (mkAuthConf pagesDomain clientID clientSecret redirectURI (TrimRightByte server "/")
            storeSecret scope key 60)
  | Ok _ => Err errGenerateKeys
  | Err e => Err e
  end.

End Code.

(** ** auth.go *)

Abbreviation SessionValues := (gmap str str).

(** The cookie of a session. *)
Record SessionOptions : Type := mkSessionOptions {
  so_Path : str; so_HttpOnly : bool; so_Secure : bool; so_MaxAge : Z }.

(** The answers of the API, as decoded from JSON. *)
Record tokenResponse : Type := mkTokenResponse {
  AccessToken : str; TokenType : str; ExpiresIn : Z; RefreshToken : str }.
Record errorResponse : Type := mkErrorResponse { er_Error : str; ErrorDescription : str }.

(** An API request of this package. *)
Record AuthRequest : Type := mkAuthRequest { aq_Method : str; aq_URL : str; aq_Authorization : str; aq_Body : str }.

Section Auth.

Context {Certificate : Type} (cr : Crypto).
(** [store.Get]: the values and whether decoding the cookie failed;
    [session.Save]. *)
Context (store_Get : Request -> SessionValues * bool).
Context (store_Save : SessionValues -> Request -> Response -> result Response).
(** [apiClient.Do]; the decoders of the token and of the error response. *)
Context (Do : AuthRequest -> result (Z * str)).
Context (decode_token : str -> result tokenResponse) (decode_error : str -> result errorResponse).
(** A fresh state, a fresh nonce, and the time in seconds. *)
Context (fresh_state fresh_nonce : str) (now : Z).
(** [domains.GetDomain] *)
Context (GetDomain_source : str -> result (option (Domain Certificate))).

Definition getRequestDomain (r : Request) : str :=
  (if IsHTTPS r then &"https://" else &"http://") ++ req_Host r.

Definition getRequestAddress (r : Request) : str := getRequestDomain r ++ req_RequestURI r.

Definition query_Get (r : Request) (key : str) : str := Values_Get (Query (req_URL r)) key.

(** The session with its values, the options of its cookie and whether
    decoding failed.  (The store never gives a nil session; the options are a
    function of the request, so that [store_Save] has them from there.) *)
Definition getSessionFromStore (r : Request) : SessionValues * SessionOptions * bool :=
  let '(session, failed) := store_Get r in
  (session, mkSessionOptions &"/" true (IsHTTPS r) authSessionMaxAge, failed).

(** The session, or the response that was written instead. *)
Definition checkSession (r : Request) (w : Response) : SessionValues + Response :=
  let '(session, _, failed) := getSessionFromStore r in
  if failed then
    match store_Save session r w with
    | Err _ => inr (Serve500 w)
    | Ok w' => inr (http_Redirect r (getRequestAddress r) 302 w')
    end
  else inl session.

Definition domainAllowed (a : AuthConf) (name : str) : bool :=
  let isConfigured := bool_decide (name = pagesDomain a) || HasSuffix (&"." ++ name) (pagesDomain a) in
  if isConfigured then true
  else match GetDomain_source name with Ok (Some _) => true | _ => false end.

Definition shouldProxyAuthToGitlab (r : Request) : bool :=
  nonempty (query_Get r &"domain") && nonempty (query_Get r &"state").

Definition proxy_auth_domain : str := &"proxy_auth_domain".

Definition shouldProxyCallbackToCustomDomain (session : SessionValues) : bool :=
  match session !! proxy_auth_domain with Some _ => true | None => false end.

(** The host whose permission is checked. *)
Definition proxy_host (u : URL) : str := match SplitHostPort (Host u) with Some h => h | None => Host u end.

Definition authorize_url (a : AuthConf) (state : str) : str :=
  authorizeURLTemplate (gitLabServer a) (clientID a) (redirectURI a) state (authScope a).

(** [Some w] when the request was handled. *)
Definition handleProxyingAuth (a : AuthConf) (session : SessionValues) (r : Request) (w : Response)
  : option Response :=
  if shouldProxyAuthToGitlab r then
    let domain := query_Get r &"domain" in
    let state := query_Get r &"state" in
    match Parse domain with
    | None => Some (Serve500 w)
    | Some proxyurl =>
        if negb (domainAllowed a (proxy_host proxyurl)) then Some (Serve401 w)
        else
          match store_Save (<[proxy_auth_domain := domain]> session) r w with
          | Err _ => Some (Serve500 w)
          | Ok w' => Some (http_Redirect r (authorize_url a state) 302 w')
          end
    end
  else
    if shouldProxyCallbackToCustomDomain session then
      let proxyDomain := default [] (session !! proxy_auth_domain) in
      match store_Save (delete proxy_auth_domain session) r w with
      | Err _ => Some (Serve500 w)
      | Ok w' =>
          let query := Query (req_URL r) in
          match EncryptAndSignCode cr a fresh_nonce now proxyDomain (Values_Get query &"code") with
          | Err _ => Some (Serve503 w')
          | Ok signedCode =>
              let query' := Values_Set (Values_Del query &"token") &"code" signedCode in
              Some (http_Redirect r (proxyDomain ++ Path (req_URL r) ++ &"?" ++ Encode query') 302 w')
          end
      end
    else None.

Definition validateState (r : Request) (session : SessionValues) : bool :=
  let state := query_Get r &"state" in
  if negb (nonempty state) then false
  else match session !! &"state" with Some s => bool_decide (s = state) | None => false end.

Definition verifyCodeAndStateGiven (r : Request) : bool :=
  nonempty (query_Get r &"code") && nonempty (query_Get r &"state").

Definition fetchAccessToken (a : AuthConf) (code : str) : result tokenResponse :=
  let url := tokenURLTemplate (gitLabServer a) in
  let content := tokenContentTemplate (clientID a) (clientSecret a) code (redirectURI a) in
  match Parse url with
  | None => Err (ErrMsg &"parse")
  | Some _ =>
      match Do (mkAuthRequest &"POST" url [] content) with
      | Err e => Err e
      | Ok (code, body) => if (code =? 200)%Z then decode_token body else Err errResponseNotOk
      end
  end.

Definition checkAuthenticationResponse (a : AuthConf) (session : SessionValues) (r : Request)
    (w : Response) : Response :=
  if negb (validateState r session) then Serve401 w
  else
    match session !! &"uri" with
    | None => Serve500 w
    | Some uri =>
        match DecryptCode cr a now (query_Get r &"code") (getRequestDomain r) with
        | Err _ => Serve500 w
        | Ok decryptedCode =>
            match fetchAccessToken a decryptedCode with
            | Err _ => Serve503 w
            | Ok token =>
                match store_Save (<[&"access_token" := AccessToken token]> session) r w with
                | Err _ => Serve500 w
                | Ok w' => http_Redirect r uri 302 w'
                end
            end
        end
    end.

Definition Auth_TryAuthenticate (oa : option AuthConf) (r : Request) (w : Response) : bool * Response :=
  match oa with
  | None => (false, w)
  | Some a =>
      match checkSession r w with
      | inr w' => (true, w')
      | inl session =>
          if decide (Path (req_URL r) <> callbackPath) then (false, w)
          else
            match handleProxyingAuth a session r w with
            | Some w' => (true, w')
            | None =>
                if nonempty (query_Get r &"error") then (true, Serve401 w)
                else if verifyCodeAndStateGiven r
                then (true, checkAuthenticationResponse a session r w)
                else (false, w)
            end
      end
  end.

Definition getProxyAddress (a : AuthConf) (r : Request) (state : str) : str :=
  authorizeProxyTemplate (redirectURI a) (getRequestDomain r) state.

(** [Some w] when there is no token and the login was started. *)
Definition checkTokenExists (a : AuthConf) (session : SessionValues) (r : Request) (w : Response)
  : option Response :=
  match session !! &"access_token" with
  | Some _ => None
  | None =>
      let session' := delete proxy_auth_domain
                        (<[&"uri" := getRequestAddress r]> (<[&"state" := fresh_state]> session)) in
      match store_Save session' r w with
      | Err _ => Some (Serve500 w)
      | Ok w' => Some (http_Redirect r (getProxyAddress a r fresh_state) 302 w')
      end
  end.

Definition checkSessionIsValid (a : AuthConf) (r : Request) (w : Response) : SessionValues + Response :=
  match checkSession r w with
  | inr w' => inr w'
  | inl session =>
      match checkTokenExists a session r w with
      | Some w' => inr w'
      | None => inl session
      end
  end.

Definition destroySession (session : SessionValues) (r : Request) (w : Response) : Response :=
  match store_Save (delete &"access_token" session) r w with
  | Err _ => Serve500 w
  | Ok w' => http_Redirect r (getRequestAddress r) 302 w'
  end.

Definition check_invalid_token (code : Z) (body : str) (session : SessionValues) (r : Request)
    (w : Response) : option Response :=
  if (code =? 401)%Z then
    match decode_error body with
    | Err _ => None
    | Ok e => if decide (er_Error e = &"invalid_token") then Some (destroySession session r w) else None
    end
  else None.

(** The access check of the GitLab API for a project, or for the user. *)
Definition access_url (a : AuthConf) (projectID : Z) : str :=
  if (0 <? projectID)%Z then apiURLProjectTemplate (gitLabServer a) projectID else apiURLUserTemplate (gitLabServer a).

Definition checkAuthentication (a : AuthConf) (r : Request) (d : option (Domain Certificate)) (w : Response)
  : bool * Response :=
  match checkSessionIsValid a r w with
  | inr w' => (true, w')
  | inl session =>
      let url := access_url a (GetProjectID d r) in
      match Parse url with
      | None => (true, Serve500 w)
      | Some _ =>
          match Do (mkAuthRequest &"GET" url (&"Bearer " ++ default [] (session !! &"access_token")) []) with
          | Err _ => (true, ServeNotFoundAuthFailed d r w)
          | Ok (code, body) =>
              match check_invalid_token code body session r w with
              | Some w' => (true, w')
              | None =>
                  if (code =? 200)%Z then (false, w) else (true, ServeNotFoundAuthFailed d r w)
              end
          end
      end
  end.

Definition Auth_CheckAuthenticationWithoutProject (oa : option AuthConf) (r : Request)
    (d : option (Domain Certificate)) (w : Response) : bool * Response :=
  match oa with None => (false, w) | Some a => checkAuthentication a r d w end.

Definition Auth_CheckAuthentication (oa : option AuthConf) (r : Request)
    (d : option (Domain Certificate)) (w : Response) : bool * Response :=
  match oa with None => (true, Serve500 w) | Some a => checkAuthentication a r d w end.

Definition Auth_GetTokenIfExists (oa : option AuthConf) (r : Request) (w : Response) : result str * Response :=
  match oa with
  | None => (Ok [], w)
  | Some a =>
      match checkSession r w with
      | inr w' => (Err (ErrMsg &"Error retrieving the session"), w')
      | inl session => (Ok (default [] (session !! &"access_token")), w)
      end
  end.

(** Called only when authentication is supported. *)
Definition Auth_RequireAuth (oa : option AuthConf) (r : Request) (w : Response) : bool * Response :=
  match oa with
  | None => (true, w)
  | Some a => match checkSessionIsValid a r w with inr w' => (true, w') | inl _ => (false, w) end
  end.

Definition Auth_CheckResponseForInvalidToken (oa : option AuthConf) (r : Request) (resp : ApiResponse)
    (w : Response) : bool * Response :=
  match oa with
  | None => (false, w)
  | Some a =>
      match checkSession r w with
      | inr w' => (true, w')
      | inl session =>
          match check_invalid_token (resp_StatusCode resp) (resp_Body resp) session r w with
          | Some w' => (true, w')
          | None => (false, w)
          end
      end
  end.

Definition auth_IsAuthSupported (oa : option AuthConf) : bool := match oa with Some _ => true | None => false end.

(** The package as the interface the pipeline uses. *)
Definition auth_as_app (oa : option AuthConf) : AppAuth (Certificate := Certificate) :=
  mkAppAuth
    (mkAuth (auth_IsAuthSupported oa) (Auth_RequireAuth oa) (Auth_GetTokenIfExists oa)
       (Auth_CheckResponseForInvalidToken oa))
    (Auth_TryAuthenticate oa) (Auth_CheckAuthentication oa) (Auth_CheckAuthenticationWithoutProject oa).

End Auth.

(** ** Lemmas *)

Lemma unhex_lower_hex n : n < 16 -> unhex (lower_hex n) = Some n.
Proof. intros H. do 16 (destruct n as [|n]; [reflexivity|]). lia. Qed.

Lemma hex_Decode_Encode s : hex_Decode (hex_Encode s) = Some s.
Proof.
  induction s as [|c s IH]; [done|]. unfold hex_Encode in *. rewrite fmap_cons.
  change (mjoin (?a :: ?b)) with (a ++ mjoin b).
  pose proof (nat_ascii_bounded c). pose proof (Nat.div_mod_eq (nat_of_ascii c) 16) as Hd.
  assert (nat_of_ascii c / 16 < 16) by (apply Nat.Div0.div_lt_upper_bound; lia).
  assert (nat_of_ascii c mod 16 < 16) by (apply Nat.mod_upper_bound; lia).
  cbn [app hex_Decode]. rewrite !unhex_lower_hex by done. rewrite <- Hd, ascii_nat_embedding.
  rewrite IH. done.
Qed.

Lemma newAesGcmCipher_key cr a domain nonce key :
  newAesGcmCipher cr a domain nonce = Ok key -> codeKey cr a domain = Ok key.
Proof.
  unfold newAesGcmCipher, aes_NewCipher, NewGCMWithNonceSize. destruct (codeKey cr a domain) as [k|]; [|done].
  cbn [result_bind]. case_decide; [|done]. cbn [result_bind]. case_decide; [done|]. by intros [= ->].
Qed.

(** What decrypting a signed code comes to. *)
Lemma DecryptCode_signed cr `{!CryptoLaws cr} a nonce now domain code jwt t :
  EncryptAndSignCode cr a nonce now domain code = Ok jwt -> (now <= t <= now + jwtExpiry a)%Z ->
  exists key, newAesGcmCipher cr a domain nonce = Ok key
    /\ forall dom, DecryptCode cr a t jwt dom
       = let? aesGcm := newAesGcmCipher cr a dom nonce in
         match Open_aead cr aesGcm nonce (Seal cr key nonce code) with
         | Some c => Ok c | None => Err (ErrMsg &"cipher: message authentication failed") end.
Proof.
  unfold EncryptAndSignCode. destruct (_ || _); [done|].
  destruct (newAesGcmCipher cr a domain nonce) as [key|e] eqn:Ek; [|done]. cbn [result_bind]. intros Hs Ht.
  exists key. split; [done|]. intros dom. unfold DecryptCode, parseJWTClaims.
  rewrite (parse_signed (getSigningKey a) _ _ _ t Hs) by done.
  cbn [result_bind cl_nonce cl_code]. by rewrite hex_Decode_Encode.
Qed.

#[local] Hint Extern 1 (replied (Serve500 _)) => apply replied_serveErrorPage : pages.
#[local] Hint Extern 1 (replied (Serve503 _)) => apply replied_serveErrorPage : pages.
#[local] Hint Extern 1 (replied (Serve401 _)) => apply replied_serveErrorPage : pages.

Section AuthLemmas.

#[local] Set Default Proof Using "Type".

Context {Certificate : Type} (cr : Crypto).
Context (store_Get : Request -> SessionValues * bool).
Context (store_Save : SessionValues -> Request -> Response -> result Response).
Context (Do : AuthRequest -> result (Z * str)) (decode_token : str -> result tokenResponse) (decode_error : str -> result errorResponse).
Context (fresh_state fresh_nonce : str) (now : Z).
Context (GetDomain_source : str -> result (option (Domain Certificate))).

Lemma checkSession_replies r w w' : checkSession store_Get store_Save r w = inr w' -> replied w'.
Proof.
  unfold checkSession, getSessionFromStore. destruct (store_Get r) as [session []]; [|done].
  destruct (store_Save session r w); intros [= <-]; eauto with pages.
Qed.

Lemma checkSessionIsValid_replies a r w w' :
  checkSessionIsValid store_Get store_Save fresh_state a r w = inr w' -> replied w'.
Proof.
  unfold checkSessionIsValid, checkTokenExists.
  destruct (checkSession store_Get store_Save r w) as [session|w1] eqn:E.
  - repeat case_match; intros; simplify_eq; eauto with pages.
  - intros [= <-]. by eapply checkSession_replies.
Qed.

Lemma check_invalid_token_replies code body session r w w' :
  check_invalid_token store_Save decode_error code body session r w = Some w' -> replied w'.
Proof.
  unfold check_invalid_token, destroySession. intros. repeat case_match; simplify_eq; eauto with pages.
Qed.

#[local] Hint Resolve checkSession_replies checkSessionIsValid_replies check_invalid_token_replies : pages.

Lemma checkAuthentication_answers a r (d : option (Domain Certificate)) w :
  domain_ok d -> answers w (checkAuthentication store_Get store_Save Do decode_error fresh_state a r d w).
Proof.
  intros Hd. pose proof (ServeNotFoundAuthFailed_replies d r w Hd) as [Hn _]. unfold answers, checkAuthentication.
  destruct (checkSessionIsValid _ _ _ a r w) as [session|w1] eqn:E; simpl; [|by eauto with pages].
  destruct (Parse _); simpl; [|by eauto with pages].
  destruct (Do _) as [[code body]|e]; simpl; [|done].
  destruct (check_invalid_token _ _ _ _ _ _ _) eqn:Ei; simpl; [by eauto with pages|].
  by destruct (code =? 200)%Z.
Qed.

Lemma TryAuthenticate_answers oa r w :
  answers w (Auth_TryAuthenticate cr store_Get store_Save Do decode_token fresh_nonce now GetDomain_source oa r w).
Proof.
  unfold answers, Auth_TryAuthenticate. destruct oa as [a|]; [|done].
  destruct (checkSession store_Get store_Save r w) as [session|w1] eqn:E; simpl; [|by eauto with pages].
  case_decide; [done|]. destruct (handleProxyingAuth _ _ _ _ _ _ _ _ _) as [w1|] eqn:Eh; simpl.
  - unfold handleProxyingAuth in Eh. repeat case_match; simplify_eq; eauto with pages.
  - destruct (nonempty _); simpl; [by eauto with pages|]. destruct (verifyCodeAndStateGiven r); simpl; [|done].
    unfold checkAuthenticationResponse. repeat case_match; eauto with pages.
Qed.

(** The package keeps what the pipeline relies on. *)
#[export] Instance auth_as_app_laws oa :
  AppAuthLaws (auth_as_app cr store_Get store_Save Do decode_token decode_error fresh_state fresh_nonce now
                 GetDomain_source oa).
Proof.
  split.
  - split; cbn.
    + intros r w Ha. destruct oa as [a|]; [|done]. unfold answers. cbn.
      destruct (checkSessionIsValid _ _ _ a r w) eqn:E; simpl; by eauto with pages.
    + intros r w. unfold Auth_GetTokenIfExists. destruct oa as [a|]; [|done].
      destruct (checkSession _ _ r w) eqn:E; by eauto with pages.
    + intros r resp w. unfold answers, Auth_CheckResponseForInvalidToken. destruct oa as [a|]; [|done].
      destruct (checkSession _ _ r w) eqn:E; simpl; [|by eauto with pages].
      destruct (check_invalid_token _ _ _ _ _ _ _) eqn:Ei; simpl; by eauto with pages.
  - intros r w. apply TryAuthenticate_answers.
  - intros r d w Hd. destruct oa as [a|]; [exact (checkAuthentication_answers a r d w Hd)|].
    exact (replied_serveErrorPage content500 w).
  - intros r d w Hd. destruct oa as [a|]; [exact (checkAuthentication_answers a r d w Hd)|done].
Qed.

(** Access is granted only by the API. *)
Lemma checkAuthentication_granted a r (d : option (Domain Certificate)) w w' :
  checkAuthentication store_Get store_Save Do decode_error fresh_state a r d w = (false, w') ->
  exists session token body,
    store_Get r = (session, false) /\ session !! &"access_token" = Some token
    /\ Do (mkAuthRequest &"GET" (access_url a (GetProjectID d r)) (&"Bearer " ++ token) []) = Ok (200%Z, body)
    /\ w' = w.
Proof.
  unfold checkAuthentication, checkSessionIsValid, checkSession, getSessionFromStore, checkTokenExists.
  destruct (store_Get r) as [session []]; [by destruct (store_Save session r w)|].
  destruct (session !! &"access_token") as [token|] eqn:Et; [|by destruct (store_Save _ r w)].
  destruct (Parse _); [|done]. cbn [default from_option id].
  destruct (Do _) as [[code body]|e] eqn:Ed; [|done].
  destruct (check_invalid_token _ _ _ _ _ _ _); [done|].
  destruct (code =? 200)%Z eqn:Ec; [|done]. intros [= <-]. bools. subst code.
  rewrite Et in Ed. by exists session, token, body.
Qed.

(** The proxied domain of a session was checked. *)
Definition session_ok (a : AuthConf) (session : SessionValues) : Prop :=
  forall d, session !! proxy_auth_domain = Some d ->
    exists u, Parse d = Some u /\ domainAllowed GetDomain_source a (proxy_host u) = true.

Lemma session_ok_delete a session : session_ok a (delete proxy_auth_domain session).
Proof. intros d. by rewrite lookup_delete_eq. Qed.

Lemma session_ok_insert_ne a k v session :
  k <> proxy_auth_domain -> session_ok a session -> session_ok a (<[k := v]> session).
Proof. intros Hk Hs d. rewrite lookup_insert_ne by done. apply Hs. Qed.

Lemma session_ok_insert a v u session :
  Parse v = Some u -> domainAllowed GetDomain_source a (proxy_host u) = true ->
  session_ok a (<[proxy_auth_domain := v]> session).
Proof. intros Hp Ha d. rewrite lookup_insert_eq. intros [= <-]. eauto. Qed.

End AuthLemmas.

(** ** Properties *)

(** GitLab has confirmed that the token of the request's session may read the
    project of the request. *)
Definition confirmed_by_gitlab {Certificate : Type} (store_Get : Request -> SessionValues * bool)
    (Do : AuthRequest -> result (Z * str)) (oa : option AuthConf) (r : Request)
    (d : option (Domain Certificate)) : Prop :=
  exists a session token body,
    oa = Some a /\ store_Get r = (session, false) /\ session !! &"access_token" = Some token
    /\ Do (mkAuthRequest &"GET" (access_url a (GetProjectID d r)) (&"Bearer " ++ token) []) = Ok (200%Z, body).

(** [C1] Private content needs the confirmation of GitLab, for lookups that
    stand still: in an application that authenticates with this package, and
    for a domain that resolves the request the same way at every call of the
    handlers, a request for a project with access control that is no ACME
    challenge never reaches the content handlers unless the API has answered
    200 to the access request for this project with the token of the session.
    Without it the whole pipeline behind the domain lookup gives the same
    response whatever the content handlers would do.  (When a lookup fails
    between two calls of one request this is not so; lookups that change are
    in LiveDomain.v and Requests.v.) *)
Theorem private_content_needs_gitlab {Certificate : Type} artifact_Do cr store_Get store_Save Do decode_token
    decode_error fresh_state fresh_nonce now get_domain oa (a : theApp (Certificate := Certificate)) r d w
    serve1 serve2 :
  app_Auth a = auth_as_app cr store_Get store_Save Do decode_token decode_error fresh_state fresh_nonce now
                 get_domain oa ->
  ctx_domain r = Some d -> IsAccessControlEnabled d (ctx_req r) = true ->
  isAcmeChallenge (Path (req_URL (ctx_req r))) = false ->
  ~ confirmed_by_gitlab store_Get Do oa (ctx_req r) d ->
  acmeMiddleware a (authMiddleware a (auxiliaryMiddleware artifact_Do a (accessControlMiddleware a serve1))) r w
  = acmeMiddleware a (authMiddleware a (auxiliaryMiddleware artifact_Do a (accessControlMiddleware a serve2))) r w.
Proof.
  intros Ha Hd Hac Hacme Hno. eapply access_control_guards_content; [done..|].
  intros w1. rewrite Ha. cbn [auth_as_app CheckAuthentication]. unfold Auth_CheckAuthentication.
  destruct oa as [conf|]; [|done].
  destruct (checkAuthentication _ _ _ _ _ conf (ctx_req r) d w1) as [[] w2] eqn:E; [done|].
  destruct Hno. apply checkAuthentication_granted in E as (session & token & body & H1 & H2 & H3 & _).
  by exists conf, session, token, body.
Qed.

(** Access to a project is granted only on the word of GitLab: the
    check lets a request through only when authentication is configured, the
    session has an access token, and the API answered 200 to the access
    request for exactly this project with exactly this token; the response
    is then untouched. *)
Theorem CheckAuthentication_needs_confirmation {Certificate} store_Get store_Save Do decode_error fresh_state
    oa r (d : option (Domain Certificate)) w w' :
  Auth_CheckAuthentication store_Get store_Save Do decode_error fresh_state oa r d w = (false, w') ->
  w' = w /\ confirmed_by_gitlab store_Get Do oa r d.
Proof.
  destruct oa as [a|]; [|done]. intros H.
  apply checkAuthentication_granted in H as (session & token & body & H1 & H2 & H3 & ->).
  split; [done|]. by exists a, session, token, body.
Qed.

(** The two ways in which the cryptography could give a code away: one key
    derived from the secret for both domains, or a ciphertext that is
    authentic under two keys. *)
Definition key_collision (cr : Crypto) (secret d d' : str) : Prop :=
  exists k, hkdf_key cr secret d &"PAGES_AUTH_CODE_ENCRYPTION_KEY" = Ok k
            /\ hkdf_key cr secret d' &"PAGES_AUTH_CODE_ENCRYPTION_KEY" = Ok k.
Definition forged (cr : Crypto) (secret d d' nonce code : str) : Prop :=
  exists k k', k <> k' /\ hkdf_key cr secret d &"PAGES_AUTH_CODE_ENCRYPTION_KEY" = Ok k
    /\ hkdf_key cr secret d' &"PAGES_AUTH_CODE_ENCRYPTION_KEY" = Ok k'
    /\ is_Some (Open_aead cr k' nonce (Seal cr k nonce code)).

(** [C35] The protected OAuth code comes back only on the domain it was made
    for: before it expires it decrypts to the code for that domain; and when
    anything is decrypted from it for another domain, then HKDF has derived one
    key from the secret for both domains, or AES-GCM has accepted under the
    other domain's key what was sealed under this domain's.  (So breaking the
    binding means breaking one of the two.) *)
Theorem code_bound_to_domain cr `{!CryptoLaws cr} a nonce now domain code jwt t :
  EncryptAndSignCode cr a nonce now domain code = Ok jwt ->
  (now <= t <= now + jwtExpiry a)%Z ->
  DecryptCode cr a t jwt domain = Ok code
  /\ forall domain' m, DecryptCode cr a t jwt domain' = Ok m -> domain' <> domain ->
       key_collision cr (authSecret a) domain domain' \/ forged cr (authSecret a) domain domain' nonce code.
Proof.
  intros He Ht. destruct (DecryptCode_signed cr a nonce now domain code jwt t He Ht) as (key & Hk & Hp).
  split; [rewrite Hp, Hk; cbn [result_bind]; by rewrite open_seal|]. intros domain' m. rewrite Hp.
  destruct (newAesGcmCipher cr a domain' nonce) as [key'|e] eqn:Ek'; cbn [result_bind]; [|done].
  apply newAesGcmCipher_key in Hk, Ek'. unfold codeKey in Hk, Ek'. intros Hm _.
  destruct (decide (key = key')) as [->|Hne]; [left; by exists key'|right]. exists key, key'.
  split; [done|]. split; [done|]. split; [done|]. by destruct (Open_aead cr key' _ _).
Qed.

(** A token that does not name an HMAC method is refused, whatever it claims:
    there is no key to check it with. *)
Theorem other_method_refused cr `{!CryptoLaws cr} a now jwt domain :
  token_hmac cr jwt = false -> exists e, DecryptCode cr a now jwt domain = Err e.
Proof.
  intros Hm. unfold DecryptCode, parseJWTClaims.
  destruct (parse_no_key (getSigningKey a) jwt now (ErrMsg &"unexpected signing method")) as [e ->];
    [by rewrite Hm|by eexists].
Qed.

(** The domain in the token is not looked at: tokens whose claims differ in
    the domain alone decrypt alike. *)
Theorem domain_claim_not_checked cr a now jwt jwt' domain c other :
  jwt_Parse cr (getSigningKey a) now jwt = Ok (Some c, true) ->
  jwt_Parse cr (getSigningKey a) now jwt'
  = Ok (Some (mkClaims (cl_iss c) (cl_iat c) (cl_exp c) other (cl_code c) (cl_nonce c)), true) ->
  DecryptCode cr a now jwt domain = DecryptCode cr a now jwt' domain.
Proof. intros H H'. unfold DecryptCode, parseJWTClaims. rewrite H, H'. done. Qed.

(** [C36] Logins are handed only to allowed domains: starting from a session
    whose proxy domain was checked (or is not set), every session the
    callback handler saves is again such a session; so the domain a login
    callback is later forwarded to has passed the check. *)
Theorem proxy_domain_always_checked {Certificate} cr store_Get save1 save2 Do decode_token fresh_nonce now
    (get_domain : str -> result (option (Domain Certificate))) a r w :
  session_ok get_domain a (store_Get r).1 ->
  (forall v r w, session_ok get_domain a v -> save1 v r w = save2 v r w) ->
  Auth_TryAuthenticate cr store_Get save1 Do decode_token fresh_nonce now get_domain (Some a) r w
  = Auth_TryAuthenticate cr store_Get save2 Do decode_token fresh_nonce now get_domain (Some a) r w.
Proof.
  intros Hok Hsave. unfold Auth_TryAuthenticate, checkSession, getSessionFromStore.
  destruct (store_Get r) as [session failed]; simpl in Hok.
  destruct failed; [rewrite (Hsave session) by done; by destruct (save2 session r w)|].
  case_decide; [done|].
  assert (Hh : handleProxyingAuth cr save1 fresh_nonce now get_domain a session r w
               = handleProxyingAuth cr save2 fresh_nonce now get_domain a session r w).
  { unfold handleProxyingAuth. destruct (shouldProxyAuthToGitlab r).
    - destruct (Parse (query_Get r &"domain")) as [u|] eqn:Ep; [|done].
      destruct (domainAllowed get_domain a (proxy_host u)) eqn:Ea; [|done].
      rewrite (Hsave (<[proxy_auth_domain := query_Get r &"domain"]> session)) by (by eapply session_ok_insert).
      done.
    - destruct (shouldProxyCallbackToCustomDomain session); [|done].
      rewrite (Hsave (delete proxy_auth_domain session)) by apply session_ok_delete. done. }
  rewrite Hh. destruct (handleProxyingAuth _ save2 _ _ _ _ _ _ _); [done|].
  destruct (nonempty _); [done|]. destruct (verifyCodeAndStateGiven r); [|done].
  unfold checkAuthenticationResponse. destruct (validateState r session); [|done]. cbn [negb].
  destruct (session !! &"uri"); [|done]. destruct (DecryptCode _ _ _ _ _); [|done].
  destruct (fetchAccessToken _ _ _ _) as [token|]; [|done].
  rewrite (Hsave (<[&"access_token" := AccessToken token]> session)) by (by apply session_ok_insert_ne). done.
Qed.

(** [C37] No token is requested without the state of the session: when the
    state parameter of the callback does not match, the outcome does not
    depend on the API at all. *)
Theorem state_mismatch_makes_no_request {Certificate} cr store_Get save Do1 Do2 decode_token fresh_nonce now
    (get_domain : str -> result (option (Domain Certificate))) a r w :
  validateState r (store_Get r).1 = false ->
  Auth_TryAuthenticate cr store_Get save Do1 decode_token fresh_nonce now get_domain (Some a) r w
  = Auth_TryAuthenticate cr store_Get save Do2 decode_token fresh_nonce now get_domain (Some a) r w.
Proof.
  intros Hv. unfold Auth_TryAuthenticate, checkSession, getSessionFromStore.
  destruct (store_Get r) as [session failed]; simpl in Hv.
  destruct failed; [by destruct (save session r w)|].
  case_decide; [done|]. destruct (handleProxyingAuth _ _ _ _ _ _ _ _ _); [done|].
  unfold checkAuthenticationResponse. by rewrite Hv.
Qed.

Definition io_conf : AuthConf := mkAuthConf &"gitlab.io" [] [] [] &"https://gitlab.example" [] [] [] 60.

(** The check of the pages domain compares suffixes of the host name, not
    labels: every name that ends like the pages domain is allowed, with or
    without a dot in front of that ending, although no source knows it; so
    [evilgitlab.io] is allowed for the pages domain [gitlab.io]. *)
Theorem foreign_domain_allowed a prefix :
  domainAllowed (Certificate := unit) (fun _ => Ok None) a (prefix ++ pagesDomain a) = true.
Proof. unfold domainAllowed. rewrite app_assoc, HasSuffix_app, orb_true_r. done. Qed.

(** ** A concrete cryptography

    Not secret, but with the laws: the key is written in front. *)

Fixpoint bits (p : positive) : str :=
  match p with xH => [] | xO p' => "0"%char :: bits p' | xI p' => "1"%char :: bits p' end.
Fixpoint unbits (s : str) : positive :=
  match s with [] => xH | c :: s' => if decide (c = "0"%char) then xO (unbits s') else xI (unbits s') end.

Lemma unbits_bits p : unbits (bits p) = p.
Proof. induction p as [p IH|p IH|]; simpl; [by rewrite IH|by rewrite IH|done]. Qed.

Definition claims_tuple (c : Claims) := (cl_iss c, cl_iat c, cl_exp c, cl_domain c, cl_code c, cl_nonce c).

Definition toy_sign (k : str) (c : Claims) : str := hex_Encode k ++ "."%char :: bits (encode (claims_tuple c)).

Definition toy_parse (k : str) (now : Z) (t : str) : option Claims :=
  match IndexByte t "." with
  | None => None
  | Some i =>
      match decode (unbits (drop (S i) t)) with
      | Some (iss, iat, exp, dom, code, nonce) =>
          let c := mkClaims iss iat exp dom code nonce in
          if decide (toy_sign k c = t /\ (iat <= now <= exp)%Z) then Some c else None
      | None => None
      end
  end.

Definition toy_crypto : Crypto := {|
  hkdf_key secret salt info := Ok (take 32 (salt ++ secret ++ info ++ replicate 32 "0"%char));
  Seal k n m := hex_Encode k ++ "."%char :: m;
  Open_aead k n c := match IndexByte c "." with
                     | Some i => if decide (take i c = hex_Encode k) then Some (drop (S i) c) else None
                     | None => None end;
  SignedClaims k c := Ok (toy_sign k c);
  token_hmac t := negb (bool_decide (head t = Some "n"%char));
  jwt_Parse kf now t :=
    let? k := kf (negb (bool_decide (head t = Some "n"%char))) in
    match toy_parse k now t with
    | Some c => Ok (Some c, true)
    | None => Err (ErrMsg &"signature is invalid")
    end |}.

Lemma lower_hex_no_dot n : n < 16 -> lower_hex n <> "."%char.
Proof. intros H. do 16 (destruct n as [|n]; [done|]). lia. Qed.

Lemma hex_Encode_no_dot s : "."%char ∉ hex_Encode s.
Proof.
  unfold hex_Encode. intros (l & Hc & Hl)%list_elem_of_join.
  apply list_elem_of_fmap in Hl as (c & -> & _). pose proof (nat_ascii_bounded c).
  apply elem_of_cons in Hc as [Hc|Hc%list_elem_of_singleton]; symmetry in Hc; revert Hc; apply lower_hex_no_dot.
  - apply Nat.Div0.div_lt_upper_bound; lia.
  - apply Nat.mod_upper_bound; lia.
Qed.

Lemma IndexByte_hex k t : IndexByte (hex_Encode k ++ "."%char :: t) "." = Some (length (hex_Encode k)).
Proof. rewrite IndexByte_app_absent by apply hex_Encode_no_dot. simpl. by rewrite Nat.add_0_r. Qed.

Lemma drop_hex k t : drop (S (length (hex_Encode k))) (hex_Encode k ++ "."%char :: t) = t.
Proof. change (S ?n) with (1 + n). rewrite Nat.add_comm, <- drop_drop, drop_app_length. done. Qed.

Lemma toy_sign_hmac k c : bool_decide (head (toy_sign k c) = Some "n"%char) = false.
Proof.
  apply bool_decide_eq_false. unfold toy_sign, hex_Encode. destruct k as [|x k]; [done|].
  rewrite fmap_cons. cbn [mjoin list_join app head]. change (mjoin (?a :: ?b)) with (a ++ mjoin b). cbn [app head].
  pose proof (nat_ascii_bounded x). assert (Hx : nat_of_ascii x / 16 < 16) by (apply Nat.Div0.div_lt_upper_bound; lia).
  revert Hx. generalize (nat_of_ascii x / 16). intros n Hn. do 16 (destruct n as [|n]; [done|]). lia.
Qed.

#[export] Instance toy_crypto_laws : CryptoLaws toy_crypto.
Proof.
  split; simpl.
  - intros k n m. rewrite IndexByte_hex, take_app_length, decide_True by done. by rewrite drop_hex.
  - intros kf k c t now [= <-] Hk Ht. rewrite toy_sign_hmac. simpl. rewrite Hk. simpl.
    unfold toy_parse, toy_sign at 1 2. rewrite IndexByte_hex, drop_hex, unbits_bits.
    rewrite decode_encode. destruct c. cbn in *. by rewrite decide_True.
  - intros kf t now e ->. by eexists.
Qed.

Definition cookie_save : SessionValues -> Request -> Response -> result Response :=
  fun _ _ w => Ok (w_Add &"Set-Cookie" &"gitlab-pages" w).
Definition token_session : Request -> SessionValues * bool := fun _ => ({[ &"access_token" := &"tok" ]}, false).
Definition api_ok : AuthRequest -> result (Z * str) := fun _ => Ok (200%Z, []).
Definition api_down : AuthRequest -> result (Z * str) := fun _ => Err (ErrMsg &"down").
Definition no_json {A} : str -> result A := fun _ => Err (ErrMsg &"json").

Lemma CheckAuthentication_needs_confirmation_witness :
  exists session token body,
    token_session (demo_get &"/") = (session, false) /\ session !! &"access_token" = Some token
    /\ api_ok (mkAuthRequest &"GET" &"https://gitlab.example/api/v4/projects/1/pages_access"
                 (&"Bearer " ++ token) []) = Ok (200%Z, body).
Proof.
  destruct (CheckAuthentication_needs_confirmation token_session cookie_save api_ok no_json &"state"
    (Some io_conf) (demo_get &"/") (Some demo_domain) new_response new_response)
    as (_ & a & session & token & body & Ha & H1 & H2 & H3); [run|].
  exists session, token, body. split; [exact H1|]. split; [exact H2|].
  injection Ha as <-. exact H3.
Defined.

Lemma code_bound_to_domain_witness :
  exists jwt, EncryptAndSignCode toy_crypto io_conf &"nonce" 100 &"https://a.example" &"code" = Ok jwt
    /\ DecryptCode toy_crypto io_conf 130 jwt &"https://a.example" = Ok &"code"
    /\ exists e, DecryptCode toy_crypto io_conf 130 jwt &"https://b.example" = Err e.
Proof.
  destruct (EncryptAndSignCode toy_crypto io_conf &"nonce" 100 &"https://a.example" &"code") as [jwt|e] eqn:E;
    [|vm_compute in E; discriminate E].
  destruct (code_bound_to_domain toy_crypto io_conf &"nonce" 100 &"https://a.example" &"code" jwt 130 E
    ltac:(simpl; lia)) as [H1 H2].
  exists jwt. split; [reflexivity|]. split; [exact H1|].
  destruct (DecryptCode toy_crypto io_conf 130 jwt &"https://b.example") as [m|e] eqn:Ed; [|exists e; reflexivity].
  exfalso. destruct (H2 &"https://b.example" m Ed) as [(k & Hk & Hk')|(k & k' & _ & Hk & Hk' & [c Hc])].
  - discriminate.
  - vm_compute in Hk, Hk'. congruence.
  - vm_compute in Hk, Hk'. injection Hk as <-. injection Hk' as <-. vm_compute in Hc. discriminate Hc.
Defined.

(** A store that refuses a session for a foreign domain. *)
Definition picky_save : SessionValues -> Request -> Response -> result Response :=
  fun v r w => if decide (v !! proxy_auth_domain = Some &"https://evil.example")
               then Err (ErrMsg &"refused") else cookie_save v r w.
Definition callback_request : Request :=
  mkRequest &"GET" (mkURL [] [] None [] &"/auth" [] false &"domain=https%3A%2F%2Fevil.example&state=x" [] [])
    &"gitlab.io" &"/auth" ∅ false [].
Definition no_domains : str -> result (option (Domain unit)) := fun _ => Ok None.
Definition empty_session : Request -> SessionValues * bool := fun _ => (∅, false).

Lemma proxy_domain_always_checked_witness :
  Auth_TryAuthenticate toy_crypto empty_session cookie_save api_ok no_json &"nonce" 0 no_domains (Some io_conf)
    callback_request new_response
  = Auth_TryAuthenticate toy_crypto empty_session picky_save api_ok no_json &"nonce" 0 no_domains (Some io_conf)
    callback_request new_response.
Proof.
  apply (proxy_domain_always_checked toy_crypto empty_session cookie_save picky_save api_ok no_json &"nonce" 0
    no_domains io_conf callback_request new_response).
  - intros d H. discriminate H.
  - intros v r w Hok. unfold picky_save. destruct (decide _) as [Hv|_]; [|reflexivity].
    exfalso. destruct (Hok _ Hv) as (u & Hp & Ha). vm_compute in Hp. injection Hp as <-.
    vm_compute in Ha. discriminate Ha.
Defined.

Lemma state_mismatch_makes_no_request_witness :
  Auth_TryAuthenticate toy_crypto empty_session cookie_save api_ok no_json &"nonce" 0 no_domains (Some io_conf)
    callback_request new_response
  = Auth_TryAuthenticate toy_crypto empty_session cookie_save api_down no_json &"nonce" 0 no_domains (Some io_conf)
    callback_request new_response.
Proof.
  apply (state_mismatch_makes_no_request toy_crypto empty_session cookie_save api_ok api_down no_json &"nonce" 0
    no_domains io_conf callback_request new_response).
  run.
Defined.

Lemma other_method_refused_witness :
  exists e, DecryptCode toy_crypto io_conf 0 &"none.token" &"https://a.example" = Err e.
Proof. apply (other_method_refused toy_crypto io_conf 0 &"none.token" &"https://a.example"). reflexivity. Defined.

Definition claims_for (domain : str) : Claims :=
  mkClaims &"gitlab-pages" 0 60 (Some domain) (Some &"00") (Some &"nonce").

Lemma domain_claim_not_checked_witness :
  DecryptCode toy_crypto io_conf 30 (toy_sign [] (claims_for &"https://a.example")) &"https://a.example"
  = DecryptCode toy_crypto io_conf 30 (toy_sign [] (claims_for &"https://b.example")) &"https://a.example".
Proof.
  apply (domain_claim_not_checked toy_crypto io_conf 30 _ _ _ (claims_for &"https://a.example")
    (Some &"https://b.example"));
    apply (parse_signed (getSigningKey io_conf) []); (reflexivity || (split; discriminate)).
Defined.

(** A login whose state parameter decodes to [s&scope=admin]. *)
Definition crafted_state_request : Request :=
  mkRequest &"GET" (mkURL [] [] None [] &"/auth" [] false
      &"domain=https%3A%2F%2Fa.gitlab.io&state=s%26scope%3Dadmin" [] [])
    &"gitlab.io" &"/auth" ∅ false [].

(** The state is copied into the address of GitLab's login page unescaped: a
    link to the pages domain whose state contains an ampersand adds
    parameters of its own, here a scope in front of the configured one, and
    GitLab is told another state than the one the link had. *)
Theorem state_injects_login_parameters :
  exists w', Auth_TryAuthenticate toy_crypto empty_session cookie_save api_ok no_json &"nonce" 0 no_domains
      (Some io_conf) crafted_state_request new_response = (true, w')
    /\ query_Get crafted_state_request &"state" = &"s&scope=admin"
    /\ sent_header w' &"Location"
       = &"https://gitlab.example/oauth/authorize?client_id=&redirect_uri=&response_type=code&state=s&scope=admin&scope=".
Proof.
  destruct (Auth_TryAuthenticate toy_crypto empty_session cookie_save api_ok no_json &"nonce" 0 no_domains
    (Some io_conf) crafted_state_request new_response) as [b w'] eqn:E.
  vm_compute in E. injection E as <- <-. eexists. split; [reflexivity|]. split; vm_compute; reflexivity.
Qed.

(** The demo application with this package, and an API that refuses. *)
Definition api_forbidden : AuthRequest -> result (Z * str) := fun _ => Ok (404%Z, []).
Definition forbidding_auth : AppAuth (Certificate := unit) :=
  auth_as_app toy_crypto token_session cookie_save api_forbidden no_json no_json &"state" &"nonce" 0 no_domains
    (Some io_conf).
Definition auth_app : theApp (Certificate := unit) :=
  mkApp (app_RedirectHTTP demo_app) (app_StatusPath demo_app) (app_DisableCrossOriginRequests demo_app)
    (app_domains demo_app) (app_Artifact demo_app) forbidding_auth (app_Acme demo_app) (app_CustomHeaders demo_app).

Lemma private_content_needs_gitlab_witness :
  acmeMiddleware auth_app (authMiddleware auth_app (auxiliaryMiddleware no_artifacts auth_app
    (accessControlMiddleware auth_app (serveFileOrNotFoundHandler auth_app)))) (demo_ctx &"/index.html") new_response
  = acmeMiddleware auth_app (authMiddleware auth_app (auxiliaryMiddleware no_artifacts auth_app
    (accessControlMiddleware auth_app (fun _ _ => None)))) (demo_ctx &"/index.html") new_response.
Proof.
  apply (private_content_needs_gitlab no_artifacts toy_crypto token_session cookie_save api_forbidden no_json no_json
    &"state" &"nonce" 0 no_domains (Some io_conf) auth_app (demo_ctx &"/index.html") (Some private_domain)).
  - reflexivity.
  - reflexivity.
  - reflexivity.
  - reflexivity.
  - intros (a & session & token & body & _ & _ & _ & H). unfold api_forbidden in H. discriminate H.
Defined.

Lemma private_domain_ok : domain_ok (Some private_domain).
Proof. intros r sr [= <-]. apply disk_serving_laws; apply _. Qed.

Lemma pipeline_answers_or_serves_witness :
  exists w', acmeMiddleware auth_app (authMiddleware auth_app (auxiliaryMiddleware no_artifacts auth_app
      (accessControlMiddleware auth_app (fun _ _ => None)))) (demo_ctx &"/index.html") new_response = Some w'
    /\ replied w'.
Proof.
  eexists. split; [reflexivity|].
  destruct (pipeline_answers_or_serves no_artifacts auth_app (demo_ctx &"/index.html") (Some private_domain)
    new_response _ (fun _ _ => None) eq_refl private_domain_ok eq_refl eq_refl) as [H|H].
  - exact H.
  - discriminate H.
Defined.
