(* ===== verification/SiteContent.v ===== *)
(** * A page from the domain lookup to its bytes

    The pipeline of app.go over the GitLab source (internal/source/gitlab),
    the access check (internal/auth) and the file serving
    (internal/serving/disk): which requests get the file they ask for.
    (App.v, GitlabSource.v, Auth.v and DiskServing.v have the parts.) *)

From S2P Require Import Prelude GoStd GoPath GoUrl Header Vfs Symlink Http Redirects Serving DiskServing Domain.
From S2P Require Import GitlabClient Cache GitlabSource Domains Artifact App Auth.

(** ** Headers added on the way *)

(** The response so far has neither a status nor a body. *)
Definition unsent (w : Response) : Prop := w_committed w = None /\ w_body w = [].

Lemma AddCustomHeaders_unsent headers : forall w, unsent w -> unsent (AddCustomHeaders headers w).
Proof.
  unfold AddCustomHeaders. induction headers as [|[k vs] headers IH]; intros w Hw; [done|]. cbn [foldl fst snd].
  apply IH. clear IH. revert w Hw. induction vs as [|v vs IH]; intros w Hw; [done|]. by apply IH.
Qed.

(** Two responses agree on how long a page may be kept. *)
Definition same_caching (w w' : Response) : Prop :=
  forall k, k ∈ caching_headers -> w_header w !! k = w_header w' !! k.

Lemma same_caching_trans w1 w2 w3 : same_caching w1 w2 -> same_caching w2 w3 -> same_caching w1 w3.
Proof. intros H1 H2 k Hk. by rewrite H1, H2. Qed.

Lemma w_Add_caching k v w w' : same_caching w w' -> same_caching (w_Add k v w) (w_Add k v w').
Proof.
  intros Hw k' Hk'. unfold w_Add, Header_Add, header_values. cbn [w_header].
  destruct (decide (CanonicalHeaderKey k = k')) as [->|Hne]; [by rewrite !lookup_insert_eq, Hw|].
  by rewrite !lookup_insert_ne, Hw.
Qed.

Lemma AddCustomHeaders_caching headers : forall w w', same_caching w w' ->
  same_caching (AddCustomHeaders headers w) (AddCustomHeaders headers w').
Proof.
  unfold AddCustomHeaders. induction headers as [|[k vs] headers IH]; intros w w' Hw; [done|]. cbn [foldl fst snd].
  apply IH. clear IH. revert w w' Hw. induction vs as [|v vs IH]; intros w w' Hw; [done|]. by apply IH, w_Add_caching.
Qed.

Lemma caching_get w w' k : same_caching w w' -> k ∈ caching_headers -> Header_Get (w_header w) k = Header_Get (w_header w') k.
Proof.
  intros Hw Hk. unfold Header_Get, header_values. assert (CanonicalHeaderKey k = k) as ->; [|by rewrite Hw].
  unfold caching_headers in Hk. apply elem_of_cons in Hk as [->|Hk]; [run|]. apply list_elem_of_singleton in Hk as ->. run.
Qed.

(** The file that is chosen does not depend on the response. *)
Lemma handleContentEncoding_path r root p w w' :
  (handleContentEncoding r root p w).1 = (handleContentEncoding r root p w').1.
Proof. unfold handleContentEncoding. by repeat case_match. Qed.

Lemma handleContentEncoding_announced r root p w v :
  w_header (handleContentEncoding r root p new_response).2 !! &"Content-Encoding" = Some [v] ->
  w_header (handleContentEncoding r root p w).2 !! &"Content-Encoding" = Some [v].
Proof.
  unfold handleContentEncoding. destruct (nonempty _); [done|]. destruct (compressed_files root p !! _); [|done].
  unfold w_Set, Header_Set. cbn [snd w_header]. intros H.
  rewrite lookup_insert_ne in H |- * by hdr_ne.
  change (CanonicalHeaderKey &"Content-Encoding") with &"Content-Encoding" in H |- *.
  by rewrite lookup_insert_eq in H |- *.
Qed.

Lemma finds_file_response lib fs h w w' root p file :
  finds_file lib fs h w root p file -> finds_file lib fs h w' root p file.
Proof.
  intros []. split; try done; by rewrite (handleContentEncoding_path _ _ _ w' w).
Qed.

(** ** The lookup *)

Lemma find_lookup_first local zip size urlPath pre ap post :
  Forall (fun other => isSubPath urlPath other || isRootPath urlPath other = false) pre ->
  isSubPath urlPath ap = true ->
  find_lookup local zip size urlPath (pre ++ ap :: post)
  = Ok (mkServingRequest (fabricateServing local zip ap) (fabricateLookupPath size ap)
          (TrimPrefix urlPath (ap_Prefix ap))).
Proof.
  intros Hpre Hap. induction Hpre as [|other pre Ho _ IH]; cbn [app find_lookup]; [by rewrite Hap|]. by rewrite Ho.
Qed.

Section Site.

#[local] Set Default Proof Using "Type".

Context {Certificate : Type} (artifact_Do : URL -> Header -> result ApiResponse).

(** ** The application *)

Context (lib : ContentLib) {laws : ContentLaws lib} (netlify_Parse : str -> result (list Rule)) (ff : str) (now : Z).
Context (fs : VFS) (local zip : Serving) (client : str -> Lookup) (g : Gitlab).
Context (cr : Crypto) (store_Get : Request -> SessionValues * bool).
Context (store_Save : SessionValues -> Request -> Response -> result Response).
Context (Do : AuthRequest -> result (Z * str)).
Context (decode_token : str -> result tokenResponse) (decode_error : str -> result errorResponse).
Context (fresh_state fresh_nonce : str) (auth_now : Z) (get_domain : str -> result (option (Domain Certificate))).
Context (oa : option AuthConf).

Abbreviation package_auth :=
  (auth_as_app (Certificate := Certificate) cr store_Get store_Save Do decode_token decode_error fresh_state
     fresh_nonce auth_now get_domain oa).

(** A middleware that passes a GET on, with headers added, none of which tell
    how long the response may be kept. *)
Class AddsHeaders (m : HTTPHandler (Certificate := Certificate) -> HTTPHandler (Certificate := Certificate)) : Prop :=
  adds_headers h r w : req_Method (ctx_req r) = &"GET" -> unsent w -> exists w', m h r w = h r w' /\ unsent w' /\ same_caching w' w.

Context (corsHandler AccessLogger metricsMiddleware InjectCorrelationID :
           HTTPHandler (Certificate := Certificate) -> HTTPHandler (Certificate := Certificate)).
Context {cors_adds : AddsHeaders corsHandler} {log_adds : AddsHeaders AccessLogger}.
Context {metrics_adds : AddsHeaders metricsMiddleware} {corr_adds : AddsHeaders InjectCorrelationID}.

(** ** The request *)

(** The application answers from the API, and authenticates with the package. *)
Record api_app (a : theApp (Certificate := Certificate)) (r : Request) : Prop := {
  aa_source : Domains_source (app_domains a) (GetHostWithoutPort r) = Some (gitlab_as_source local zip client g);
  aa_ready : App.isReady a = Some true;
  aa_auth : app_Auth a = package_auth }.

(** No handler in front of the content takes the request. *)
Record plain_request (a : theApp (Certificate := Certificate)) (r : Request) (ap : ApiLookupPath) : Prop := {
  pr_get : req_Method r = &"GET";
  pr_whole : unconditional r;
  pr_status : req_RequestURI r <> app_StatusPath a;
  pr_acme : isAcmeChallenge (Path (req_URL r)) = false;
  pr_callback : Path (req_URL r) <> callbackPath;
  pr_artifact : forall art, app_Artifact a = Some art -> BuildURL art (GetHostWithoutPort r) (Path (req_URL r)) = None;
  pr_session : is_Some oa -> (store_Get r).2 = false;
  pr_https : IsHTTPS r = true \/ app_RedirectHTTP a = false /\ ap_HTTPSOnly ap = false }.

(** The API's lookup for the host has [ap] as its first match of the path. *)
Definition looked_up (r : Request) (size : nat) (ap : ApiLookupPath) : Prop :=
  exists vd pre post, lk_Error (client (GetHostWithoutPort r)) = None
    /\ lk_Domain (client (GetHostWithoutPort r)) = Some vd
    /\ vd_LookupPaths vd = pre ++ ap :: post /\ size = length (vd_LookupPaths vd)
    /\ Forall (fun other => isSubPath (Clean (Path (req_URL r))) other
                            || isRootPath (Clean (Path (req_URL r))) other = false) pre
    /\ isSubPath (Clean (Path (req_URL r))) ap = true.

(** A project without access control, or one the session's token may read. *)
Definition may_read (r : Request) (ap : ApiLookupPath) : Prop :=
  ap_AccessControl ap = true ->
  exists a session token body url, oa = Some a /\ store_Get r = (session, false)
    /\ session !! &"access_token" = Some token
    /\ Parse (access_url a (wrapu64 (ap_ProjectID ap))) = Some url
    /\ Do (mkAuthRequest &"GET" (access_url a (wrapu64 (ap_ProjectID ap))) (&"Bearer " ++ token) []) = Ok (200%Z, body).

Definition site_handler (r : Request) (size : nat) (ap : ApiLookupPath) : Handler :=
  mkHandler r (fabricateLookupPath size ap) (TrimPrefix (Clean (Path (req_URL r))) (ap_Prefix ap)).

(** ** The handlers one by one *)

Lemma looked_up_resolve r size ap : looked_up r size ap ->
  Gitlab_Resolve local zip client r
  = Ok (mkServingRequest (fabricateServing local zip ap) (fabricateLookupPath size ap)
          (TrimPrefix (Clean (Path (req_URL r))) (ap_Prefix ap))).
Proof.
  intros (vd & pre & post & He & Hd & Hp & -> & Hpre & Hap). unfold Gitlab_Resolve.
  rewrite He, Hd, Hp. by apply find_lookup_first.
Qed.

(** The domain that is put in the context. *)
Lemma routed_to_domain a r size ap : api_app a (ctx_req r) -> looked_up (ctx_req r) size ap ->
  exists d, d_Resolver d = Gitlab_Resolve local zip client
    /\ forall h w, routingMiddleware a h r w
                   = h (WithHostAndDomain r (GetHostWithoutPort (ctx_req r)) (Some d)) w.
Proof.
  intros [Hs _ _] (vd & _ & _ & He & Hd & _). unfold routingMiddleware, getHostAndDomain, app_domain, Domains_GetDomain.
  rewrite Hs. cbn [fmap option_fmap option_map gitlab_as_source source_GetDomain]. unfold Gitlab_GetDomain.
  rewrite He, Hd. eexists. split; [|done]. done.
Qed.

Section Handlers.

Context (a : theApp (Certificate := Certificate)) (r : Request) (size : nat) (ap : ApiLookupPath).
Context (d : Domain Certificate).
Hypothesis (Happ : api_app a r) (Hreq : plain_request a r ap) (Hlook : looked_up r size ap).
Hypothesis (Hd : d_Resolver d = Gitlab_Resolve local zip client).

Lemma domain_resolves : resolve (Some d) r
  = Ok (mkServingRequest (fabricateServing local zip ap) (fabricateLookupPath size ap)
          (TrimPrefix (Clean (Path (req_URL r))) (ap_Prefix ap))).
Proof using Hlook Hd. cbn [resolve]. rewrite Hd. by apply looked_up_resolve. Qed.

Lemma domain_field {A} (f : LookupPath -> A) zero :
  lookup_field f zero (Some d) r = f (fabricateLookupPath size ap).
Proof using Hlook Hd. unfold lookup_field, GetLookupPath. by rewrite domain_resolves. Qed.

Lemma session_passes w : is_Some oa -> checkSession store_Get store_Save r w = inl (store_Get r).1.
Proof using Hreq.
  intros Ho. pose proof (pr_session _ _ _ Hreq Ho) as Hs. unfold checkSession, getSessionFromStore.
  destruct (store_Get r) as [session failed]. simpl in Hs. by subst failed.
Qed.

Lemma auth_passes w : TryAuthenticate (app_Auth a) r w = (false, w).
Proof using Happ Hreq.
  rewrite (aa_auth _ _ Happ). cbn [auth_as_app TryAuthenticate]. unfold Auth_TryAuthenticate.
  destruct oa as [conf|] eqn:Eo; [|done]. rewrite session_passes by (rewrite Eo; by eexists).
  by rewrite decide_True by (apply (pr_callback _ _ _ Hreq)).
Qed.

Lemma artifact_passes w :
  HandleArtifactRequest artifact_Do (auth_base (app_Auth a)) (app_Artifact a) (GetHostWithoutPort r) r w = (false, w).
Proof using Happ Hreq.
  assert (Ht : exists token, GetTokenIfExists (auth_base (app_Auth a)) r w = (Ok token, w)).
  { rewrite (aa_auth _ _ Happ). cbn [auth_as_app auth_base GetTokenIfExists]. unfold Auth_GetTokenIfExists.
    destruct oa as [conf|] eqn:Eo; [|by eexists]. rewrite session_passes by (rewrite Eo; by eexists). by eexists. }
  destruct Ht as [token Ht]. unfold HandleArtifactRequest, TryMakeRequest. rewrite Ht.
  destruct (app_Artifact a) as [art|] eqn:Ea; [|done]. rewrite (pr_artifact _ _ _ Hreq art Ea).
  by case_match.
Qed.

Lemma auxiliary_passes w :
  tryAuxiliaryHandlers artifact_Do a r (IsHTTPS r) (GetHostWithoutPort r) (Some d) w = Some (false, w).
Proof using Happ Hreq Hlook Hd.
  unfold tryAuxiliaryHandlers. rewrite artifact_passes, (aa_ready _ _ Happ).
  assert (HasLookupPath (Some d) r = true) as ->
    by (unfold HasLookupPath, GetLookupPath; by rewrite domain_resolves).
  unfold IsHTTPSOnly. rewrite domain_field. cbn [fabricateLookupPath lp_IsHTTPSOnly negb].
  by destruct (pr_https _ _ _ Hreq) as [->|[-> ->]]; destruct (IsHTTPS r).
Qed.

Lemma access_passes w : may_read r ap -> ap_AccessControl ap = true ->
  CheckAuthentication (app_Auth a) r (Some d) w = (false, w).
Proof using Happ Hreq Hlook Hd.
  intros Hmay Hac. destruct (Hmay Hac) as (conf & session & token & body & url & Ho & Hs & Ht & Hu & Hdo).
  rewrite (aa_auth _ _ Happ). cbn [auth_as_app CheckAuthentication]. rewrite Ho. cbn [Auth_CheckAuthentication].
  unfold checkAuthentication, checkSessionIsValid. rewrite session_passes by (rewrite Ho; by eexists).
  rewrite Hs. cbn [fst]. unfold checkTokenExists. rewrite Ht. cbv beta iota zeta. rewrite Ht. unfold GetProjectID.
  rewrite domain_field. cbn [fabricateLookupPath lp_ProjectID default from_option id]. rewrite Hu, Hdo. done.
Qed.

(** The content handler gets the request as it came. *)
Lemma content_reached serve w : may_read r ap ->
  acmeMiddleware a (authMiddleware a (auxiliaryMiddleware artifact_Do a (accessControlMiddleware a serve)))
    (mkCtxRequest r (Some (GetHostWithoutPort r)) (Some (Some d))) w
  = serve (mkCtxRequest r (Some (GetHostWithoutPort r)) (Some (Some d))) w.
Proof using Happ Hreq Hlook Hd.
  intros Hmay. unfold acmeMiddleware, GetDomain, ServeAcmeChallenges. cbn [ctx_domain ctx_req].
  rewrite (pr_acme _ _ _ Hreq). cbn [negb].
  assert ((match app_Acme a with None => (false, w) | Some _ => (false, w) end) = (false, w)) as -> by by destruct (app_Acme a).
  unfold authMiddleware. cbn [ctx_req]. rewrite auth_passes.
  unfold auxiliaryMiddleware, GetHost, GetDomain. cbn [ctx_host ctx_domain ctx_req]. rewrite auxiliary_passes.
  unfold accessControlMiddleware, GetDomain. cbn [ctx_domain ctx_req].
  unfold IsAccessControlEnabled. rewrite domain_field. cbn [fabricateLookupPath lp_HasAccessControl].
  destruct (ap_AccessControl ap) eqn:Hac; [|done]. by rewrite access_passes.
Qed.

End Handlers.

(** The serving gets the request, with nothing but headers in the response. *)
Lemma serving_reached a r size ap :
  api_app a (ctx_req r) -> plain_request a (ctx_req r) ap -> looked_up (ctx_req r) size ap -> may_read (ctx_req r) ap ->
  exists w, unsent w /\ same_caching w (AddCustomHeaders (app_CustomHeaders a) new_response) /\ forall w', ServeFileHTTP (fabricateServing local zip ap) (site_handler (ctx_req r) size ap) w = (true, w') ->
    buildHandlerPipeline artifact_Do corsHandler AccessLogger metricsMiddleware InjectCorrelationID a r new_response = Some w'.
Proof using cors_adds log_adds metrics_adds corr_adds.
  intros Happ Hreq Hlook Hmay. pose proof (pr_get _ _ _ Hreq) as Hget.
  unfold buildHandlerPipeline, NewMiddleware. rewrite Hget, decide_True by decide_now.
  destruct (corr_adds (customHeadersMiddleware a (healthCheckMiddleware a (routingMiddleware a (metricsMiddleware
    (AccessLogger (domain_pipeline artifact_Do corsHandler a)))))) r new_response Hget) as (w1 & -> & H1 & C1); [done|].
  unfold customHeadersMiddleware, healthCheckMiddleware. rewrite decide_False by apply (pr_status _ _ _ Hreq).
  apply (AddCustomHeaders_unsent (app_CustomHeaders a)) in H1. apply (AddCustomHeaders_caching (app_CustomHeaders a)) in C1.
  set (w2 := AddCustomHeaders _ w1) in *. clearbody w2.
  destruct (routed_to_domain a r size ap Happ Hlook) as (d & Hd & Hroute). rewrite Hroute.
  unfold WithHostAndDomain. set (r' := mkCtxRequest _ _ _).
  destruct (metrics_adds (AccessLogger (domain_pipeline artifact_Do corsHandler a)) r' w2 Hget H1) as (w3 & -> & H3 & C3).
  destruct (log_adds (domain_pipeline artifact_Do corsHandler a) r' w3 Hget H3) as (w4 & -> & H4 & C4).
  unfold domain_pipeline. rewrite (content_reached a (ctx_req r) size ap d) by done.
  assert (Hcontent : exists w5, content_handler corsHandler a r' w4 = serveFileOrNotFoundHandler a r' w5 /\ unsent w5
    /\ same_caching w5 w4).
  { unfold content_handler. destruct (app_DisableCrossOriginRequests a); [by exists w4|]. by apply cors_adds. }
  destruct Hcontent as (w5 & Hc & H5 & C5). exists w5. split; [done|].
  split; [by repeat (eapply same_caching_trans; [done|])|]. intros w' Hs. fold r'. rewrite Hc.
  unfold serveFileOrNotFoundHandler, GetDomain. cbn [r' ctx_domain ctx_req].
  unfold Domain_ServeFileHTTP. rewrite (domain_resolves (ctx_req r) size ap d Hlook Hd). unfold Request_ServeFileHTTP.
  cbn [sr_Serving sr_LookupPath sr_SubPath]. fold (site_handler (ctx_req r) size ap). by rewrite Hs.
Qed.

(** ** Properties *)

(** [C2] A page is served to everyone who may read it, through the whole
    pipeline: an unconditional GET that no handler in front of the content
    takes (status, ACME, login callback, artifacts, redirect to https), for a
    path whose first matching lookup of the API names a site with a regular
    file at the rest of the path, not that of the redirects, with an extension
    of known type and, when it is decompressed, not empty, gets status 200 and exactly the bytes of that file (or of the compressed sibling
    that was negotiated) when the project has no access control, and equally
    when it has and GitLab answers 200 to the access request with the token of
    the session; the content type is that of the file's extension, a negotiated
    encoding is announced, and only pages without access control are marked
    as cacheable: a page with access control has no caching headers but those
    the administrator gave as custom headers. *)
Theorem page_is_served a r size ap root p file :
  api_app a (ctx_req r) -> plain_request a (ctx_req r) ap -> looked_up (ctx_req r) size ap ->
  may_read (ctx_req r) ap -> fabricateServing local zip ap = disk_New lib netlify_Parse ff now fs ->
  finds_file lib fs (site_handler (ctx_req r) size ap) new_response root p file ->
  exists w', buildHandlerPipeline artifact_Do corsHandler AccessLogger metricsMiddleware InjectCorrelationID a r
               new_response = Some w'
    /\ w_status w' = Some 200%Z /\ w_body w' = file_data file
    /\ sent_header w' &"Content-Type" = TypeByExtension lib (Ext p)
    /\ (forall v, w_header (handleContentEncoding (ctx_req r) root p new_response).2 !! &"Content-Encoding" = Some [v] ->
          sent_header w' &"Content-Encoding" = v)
    /\ (ap_AccessControl ap = false -> sent_header w' &"Cache-Control" = &"max-age=600")
    /\ (ap_AccessControl ap = true -> forall k, k ∈ caching_headers ->
          sent_header w' k = Header_Get (w_header (AddCustomHeaders (app_CustomHeaders a) new_response)) k).
Proof using laws cors_adds log_adds metrics_adds corr_adds.
  intros Happ Hreq Hlook Hmay Hserving Hfile.
  destruct (serving_reached a r size ap Happ Hreq Hlook Hmay) as (w & [Hw Hb] & Hcach & Hpipe). rewrite Hserving in Hpipe.
  destruct (Disk_ServeFileHTTP_serves_file lib netlify_Parse ff now fs (site_handler (ctx_req r) size ap) w root p file)
    as (w' & Hs & Hst & Hbody & Hct & Hce & Hcc & Hpriv);
    [by eapply finds_file_response|apply (pr_whole _ _ _ Hreq)|apply (pr_get _ _ _ Hreq)|done|].
  exists w'. split; [by apply Hpipe|]. rewrite Hbody, Hb. repeat split; try done.
  - intros v Hv. by apply Hce, handleContentEncoding_announced.
  - intros Hac k Hk. rewrite (Hpriv Hac k Hk). by apply caching_get.
Qed.

End Site.

(** ** A private page for a member of the project *)

#[export] Instance transparent_adds_headers : AddsHeaders transparent.
Proof. intros h r w _ Hw. by exists w. Qed.

Definition member_path : ApiLookupPath :=
  mkApiLookupPath 7 true false &"/" (mkSource &"file" &"group/private/public" no_serverless).
Definition member_client (host : str) : Lookup :=
  mkLookup host None (Some (mkVirtualDomain [] [] [demo_path &"/other/"; member_path])).
Definition api_source : Gitlab := mkGitlab true false.
Definition member_app : theApp (Certificate := unit) :=
  mkApp false &"/@status" false
    (mkDomains sourceGitlab (Some (gitlab_as_source demo_disk demo_disk member_client api_source)) None) None
    (auth_as_app toy_crypto token_session cookie_save api_ok no_json no_json &"state" &"nonce" 0 no_domains (Some io_conf))
    (Some &"https://gitlab.example") [(&"X-Frame-Options", [&"DENY"])].
Definition member_request : CtxRequest (Certificate := unit) := mkCtxRequest (demo_gzip &"/app.css") None None.

Lemma page_is_served_witness :
  exists w', buildHandlerPipeline no_artifacts transparent transparent transparent transparent member_app member_request
               new_response = Some w'
    /\ w_status w' = Some 200%Z /\ w_body w' = &"GZ" /\ sent_header w' &"Content-Encoding" = &"gzip"
    /\ sent_header w' &"Cache-Control" = [].
Proof.
  destruct (page_is_served no_artifacts plain_lib no_rules [] 0 (demo_vfs demo_root) demo_disk demo_disk member_client
    api_source toy_crypto token_session cookie_save api_ok no_json no_json &"state" &"nonce" 0 no_domains (Some io_conf)
    transparent transparent transparent transparent member_app member_request 2 member_path demo_root &"app.css"
    (mkFile &"GZ" true)) as (w' & H1 & H2 & H3 & _ & H4 & _ & H5).
  - split; reflexivity.
  - split.
    + reflexivity.
    + repeat constructor.
    + discriminate.
    + reflexivity.
    + discriminate.
    + discriminate.
    + reflexivity.
    + right. split; reflexivity.
  - exists (mkVirtualDomain [] [] [demo_path &"/other/"; member_path]), [demo_path &"/other/"], [].
    split; [reflexivity|]. split; [reflexivity|]. split; [reflexivity|]. split; [reflexivity|].
    split; [|reflexivity]. constructor; [reflexivity|constructor].
  - intros _. destruct (Parse (access_url io_conf (wrapu64 7))) as [url|] eqn:E; [|vm_compute in E; discriminate E].
    exists io_conf, {[ &"access_token" := &"tok" ]}, &"tok", [], url.
    split; [reflexivity|]. split; [reflexivity|]. split; [reflexivity|]. split; [exact E|reflexivity].
  - reflexivity.
  - split; try (run || done); try (eexists; split; [run|done]); [eexists; run|by left].
  - exists w'. split; [exact H1|]. split; [exact H2|]. split; [exact H3|]. split; [apply H4; run|].
    rewrite (H5 eq_refl); [run|constructor].
Defined.
