(* ===== verification/Login.v ===== *)
(** * A login from end to end

    internal/auth/auth.go over the requests of one login: the visitor of a
    private site is sent to the pages domain, from there to GitLab, back to
    the pages domain, back to the site and to the page.  The sessions live in
    the visitor's cookies, one per host; the browser follows the redirects.
    (Auth.v has the handlers, GoQuery.v the query strings.) *)

From S2P Require Import Prelude GoStd GoPath GoUrl GoQuery Header Http Serving Domain Artifact App Auth.

(** ** The browser *)

(** The request for an address without a fragment. *)
Definition browses (r : Request) (address : str) : Prop :=
  address = getRequestDomain r ++ Path (req_URL r) ++ &"?" ++ RawQuery (req_URL r)
  /\ "?"%char ∉ getRequestDomain r ++ Path (req_URL r).

Lemma app_cons_inj {A} (x : A) (l1 l2 r1 r2 : list A) :
  x ∉ l1 -> x ∉ l2 -> l1 ++ x :: r1 = l2 ++ x :: r2 -> l1 = l2 /\ r1 = r2.
Proof.
  revert l2. induction l1 as [|y l1 IH]; intros [|z l2] H1 H2 E.
  - by injection E.
  - injection E as -> _. destruct H2. apply elem_of_cons. by left.
  - injection E as -> _. destruct H1. apply elem_of_cons. by left.
  - injection E as -> E. rewrite not_elem_of_cons in H1, H2. destruct (IH l2) as [-> ->]; [naive_solver..|done].
Qed.

Lemma browses_query r p q : browses r (p ++ &"?" ++ q) -> "?"%char ∉ p -> RawQuery (req_URL r) = q.
Proof.
  intros [E Hr] Hp. rewrite (app_assoc (getRequestDomain r)) in E.
  by destruct (app_cons_inj "?"%char p _ q (RawQuery (req_URL r)) Hp Hr E) as [_ ->].
Qed.

(** The two parameters of a query put together by hand. *)
Lemma query_Get_two r k1 v1 k2 v2 :
  Query (req_URL r) = <[k2 := [v2]]> {[ k1 := [v1] ]} -> k1 <> k2 ->
  query_Get r k1 = v1 /\ query_Get r k2 = v2 /\ forall k, k <> k1 -> k <> k2 -> query_Get r k = [].
Proof.
  intros Hq Hk. unfold query_Get, Values_Get. rewrite Hq, lookup_insert_eq.
  rewrite lookup_insert_ne by done. rewrite lookup_singleton_eq. split; [done|]. split; [done|].
  intros k H1 H2. by rewrite lookup_insert_ne, lookup_singleton_ne by done.
Qed.

Lemma browses_two r p k1 v1 k2 v2 :
  browses r (p ++ &"?" ++ k1 ++ &"=" ++ v1 ++ &"&" ++ k2 ++ &"=" ++ v2) -> "?"%char ∉ p ->
  k1 <> k2 -> plain_query k1 -> plain_query v1 -> plain_query k2 -> plain_query v2 ->
  "="%char ∉ k1 -> "="%char ∉ k2 ->
  query_Get r k1 = v1 /\ query_Get r k2 = v2 /\ forall k, k <> k1 -> k <> k2 -> query_Get r k = [].
Proof.
  intros Hb Hp Hk P1 P2 P3 P4 E1 E2. apply query_Get_two; [|done]. unfold Query.
  rewrite (browses_query r p _ Hb Hp). by apply ParseQuery_two.
Qed.

Section Login.

#[local] Set Default Proof Using "Type".

Context {Certificate : Type} (cr : Crypto) (a : AuthConf).
Context (store_Get : Request -> SessionValues * bool) (save : SessionValues -> Response -> Response).
Context (Do : AuthRequest -> result (Z * str)).
Context (decode_token : str -> result tokenResponse) (decode_error : str -> result errorResponse).
Context (state nonce : str) (signed_at used_at : Z) (get_domain : str -> result (option (Domain Certificate))).

Definition store_Save (v : SessionValues) (r : Request) (w : Response) : result Response := Ok (save v w).

Abbreviation try_at t r w :=
  (Auth_TryAuthenticate cr store_Get store_Save Do decode_token nonce t get_domain (Some a) r w).
Abbreviation check r d w := (checkAuthentication store_Get store_Save Do decode_error state a r d w).

(** The session of the site while the login is under way, and after it. *)
Definition login_session (page : Request) (s0 : SessionValues) : SessionValues :=
  delete proxy_auth_domain (<[&"uri" := getRequestAddress page]> (<[&"state" := state]> s0)).
Definition logged_in (page : Request) (s0 : SessionValues) (token : tokenResponse) : SessionValues :=
  <[&"access_token" := AccessToken token]> (login_session page s0).

Definition callback_query (signed : str) : Values := <[&"code" := [signed]]> {[ &"state" := [state] ]}.

(** ** The steps *)

Lemma login_start page (d : option (Domain Certificate)) s0 w :
  store_Get page = (s0, false) -> s0 !! &"access_token" = None ->
  check page d w
  = (true, http_Redirect page (getProxyAddress a page state) 302 (save (login_session page s0) w)).
Proof.
  intros Hs Ht. unfold checkAuthentication, checkSessionIsValid, checkSession, getSessionFromStore, checkTokenExists.
  by rewrite Hs, Ht.
Qed.

Lemma login_proxied page r p0 u w t :
  browses r (getProxyAddress a page state) -> Path (req_URL r) = callbackPath -> store_Get r = (p0, false) ->
  "?"%char ∉ redirectURI a -> plain_query (getRequestDomain page) -> getRequestDomain page <> [] ->
  plain_query state -> state <> [] ->
  Parse (getRequestDomain page) = Some u -> domainAllowed get_domain a (proxy_host u) = true ->
  try_at t r w
  = (true, http_Redirect r (authorize_url a state) 302 (save (<[proxy_auth_domain := getRequestDomain page]> p0) w)).
Proof.
  intros Hb Hp Hs Hq Hd Hd0 Hst Hst0 Hu Ha.
  destruct (browses_two r (redirectURI a) &"domain" (getRequestDomain page) &"state" state) as (H1 & H2 & _);
    [exact Hb|done|done|decide_now|done|decide_now|done|decide_now|decide_now|].
  unfold Auth_TryAuthenticate, checkSession, getSessionFromStore. rewrite Hs. rewrite decide_False by (by intros []).
  unfold handleProxyingAuth, shouldProxyAuthToGitlab. rewrite H1, H2, (nonempty_true _ Hd0), (nonempty_true _ Hst0).
  cbn [andb]. rewrite Hu, Ha. done.
Qed.

Lemma login_returned page r p1 code signed w :
  browses r (redirectURI a ++ &"?code=" ++ code ++ &"&state=" ++ state) -> Path (req_URL r) = callbackPath ->
  store_Get r = (p1, false) -> p1 !! proxy_auth_domain = Some (getRequestDomain page) ->
  "?"%char ∉ redirectURI a -> plain_query code -> plain_query state ->
  EncryptAndSignCode cr a nonce signed_at (getRequestDomain page) code = Ok signed ->
  try_at signed_at r w
  = (true, http_Redirect r (getRequestDomain page ++ callbackPath ++ &"?" ++ Encode (callback_query signed)) 302
             (save (delete proxy_auth_domain p1) w)).
Proof.
  intros Hb Hp Hs Hpd Hq Hc Hst He.
  pose proof (browses_query r (redirectURI a) (&"code=" ++ code ++ &"&state=" ++ state) Hb Hq) as Hraw.
  assert (Hquery : Query (req_URL r) = <[&"state" := [state]]> {[ &"code" := [code] ]}).
  { unfold Query. rewrite Hraw. apply (ParseQuery_two &"code" code &"state" state); done || decide_now. }
  destruct (query_Get_two r &"code" code &"state" state Hquery) as (H1 & H2 & H3); [done|].
  unfold Auth_TryAuthenticate, checkSession, getSessionFromStore. rewrite Hs. rewrite decide_False by (by intros []).
  unfold handleProxyingAuth, shouldProxyAuthToGitlab, shouldProxyCallbackToCustomDomain.
  rewrite (H3 &"domain") by done. rewrite Hpd. cbn [nonempty andb default from_option id].
  unfold store_Save. change (Values_Get (Query (req_URL r)) &"code") with (query_Get r &"code"). rewrite H1, He, Hp.
  assert (Values_Set (Values_Del (Query (req_URL r)) &"token") &"code" signed = callback_query signed) as ->; [|done].
  rewrite Hquery. unfold Values_Set, Values_Del, callback_query.
  rewrite delete_insert_ne, delete_singleton_ne by done. rewrite insert_insert_ne by done.
  unfold singletonM, map_singleton. by rewrite insert_insert_eq.
Qed.

Lemma login_finished page r s0 code signed token w `{!CryptoLaws cr} :
  browses r (getRequestDomain page ++ callbackPath ++ &"?" ++ Encode (callback_query signed)) ->
  Path (req_URL r) = callbackPath -> getRequestDomain r = getRequestDomain page ->
  store_Get r = (login_session page s0, false) -> state <> [] -> signed <> [] ->
  EncryptAndSignCode cr a nonce signed_at (getRequestDomain page) code = Ok signed ->
  (signed_at <= used_at <= signed_at + jwtExpiry a)%Z ->
  fetchAccessToken Do decode_token a code = Ok token ->
  try_at used_at r w
  = (true, http_Redirect r (getRequestAddress page) 302 (save (logged_in page s0 token) w)).
Proof.
  intros [Hb Hr] Hp Hd Hs Hst Hsig He Ht Hf.
  assert (Hquery : Query (req_URL r) = callback_query signed).
  { unfold Query. rewrite Hd, Hp in Hb. apply app_inv_head, app_inv_head, app_inv_head in Hb. rewrite <- Hb.
    apply ParseQuery_Encode, map_Forall_insert_2; [done|]. by apply map_Forall_singleton. }
  destruct (query_Get_two r &"state" state &"code" signed Hquery) as (H1 & H2 & H3); [done|].
  assert (Hstate : login_session page s0 !! &"state" = Some state).
  { unfold login_session. rewrite lookup_delete_ne, lookup_insert_ne by done. apply lookup_insert_eq. }
  assert (Huri : login_session page s0 !! &"uri" = Some (getRequestAddress page)).
  { unfold login_session. rewrite lookup_delete_ne by done. apply lookup_insert_eq. }
  assert (Hproxy : login_session page s0 !! proxy_auth_domain = None) by apply lookup_delete_eq.
  unfold Auth_TryAuthenticate, checkSession, getSessionFromStore. rewrite Hs. rewrite decide_False by (by intros []).
  unfold handleProxyingAuth, shouldProxyAuthToGitlab, shouldProxyCallbackToCustomDomain.
  rewrite (H3 &"domain") by done. rewrite Hproxy. cbn [nonempty andb].
  rewrite (H3 &"error") by done. unfold verifyCodeAndStateGiven.
  rewrite H1, H2, (nonempty_true _ Hst), (nonempty_true _ Hsig). cbn [nonempty andb].
  unfold checkAuthenticationResponse, validateState. rewrite H1, (nonempty_true _ Hst). cbn [negb].
  rewrite Hstate, bool_decide_eq_true_2 by done. cbn [negb]. rewrite Huri, H2, Hd. destruct (DecryptCode_signed cr a nonce signed_at (getRequestDomain page) code signed used_at He Ht)
    as (key & Hk & ->). rewrite Hk. cbn [result_bind]. rewrite open_seal. by rewrite Hf.
Qed.

(** ** The login *)

(** The requests of a login that nothing disturbs: the visitor, who is not
    logged in, asks for [page], follows the redirects to the pages domain
    ([away]) and, when GitLab sends the browser back with a code, to [back],
    to the site's own callback ([home]) and to the page once more ([again]).
    Each request carries the session that was last saved for its host. *)
Record login_run (page away back home again : Request) (s0 p0 : SessionValues) (code signed : str)
    (token : tokenResponse) (u : URL) (d : option (Domain Certificate)) : Prop := {
  lr_page : store_Get page = (s0, false);
  lr_anonymous : s0 !! &"access_token" = None;
  lr_domain : plain_query (getRequestDomain page) /\ getRequestDomain page <> [];
  lr_state : plain_query state /\ state <> [];
  lr_redirect : "?"%char ∉ redirectURI a;
  lr_away : browses away (getProxyAddress a page state) /\ Path (req_URL away) = callbackPath
            /\ store_Get away = (p0, false);
  lr_allowed : Parse (getRequestDomain page) = Some u /\ domainAllowed get_domain a (proxy_host u) = true;
  lr_back : browses back (redirectURI a ++ &"?code=" ++ code ++ &"&state=" ++ state)
            /\ Path (req_URL back) = callbackPath
            /\ store_Get back = (<[proxy_auth_domain := getRequestDomain page]> p0, false);
  lr_code : plain_query code;
  lr_signed : EncryptAndSignCode cr a nonce signed_at (getRequestDomain page) code = Ok signed /\ signed <> [];
  lr_home : browses home (getRequestDomain page ++ callbackPath ++ &"?" ++ Encode (callback_query signed))
            /\ Path (req_URL home) = callbackPath /\ getRequestDomain home = getRequestDomain page
            /\ store_Get home = (login_session page s0, false);
  lr_in_time : (signed_at <= used_at <= signed_at + jwtExpiry a)%Z;
  lr_token : fetchAccessToken Do decode_token a code = Ok token;
  lr_again : store_Get again = (logged_in page s0 token, false);
  lr_access : is_Some (Parse (access_url a (GetProjectID d again)))
    /\ exists body, Do (mkAuthRequest &"GET" (access_url a (GetProjectID d again)) (&"Bearer " ++ AccessToken token) [])
                    = Ok (200%Z, body) }.

(** [C11] A login completes: along the requests of an undisturbed login every
    handler sends the browser to where the next request goes and saves the
    session the next request of the same host needs; the code arrives at the
    site unchanged through signing, encryption and two query strings, is
    exchanged for GitLab's token, the visitor ends up at the address asked
    for first, and the access check then lets the request through with the
    response untouched. *)
Theorem login_completes page away back home again s0 p0 code signed token u d `{!CryptoLaws cr} w :
  login_run page away back home again s0 p0 code signed token u d ->
  check page d w
    = (true, http_Redirect page (getProxyAddress a page state) 302 (save (login_session page s0) w))
  /\ try_at signed_at away w
    = (true, http_Redirect away (authorize_url a state) 302
               (save (<[proxy_auth_domain := getRequestDomain page]> p0) w))
  /\ try_at signed_at back w
    = (true, http_Redirect back (getRequestDomain page ++ callbackPath ++ &"?" ++ Encode (callback_query signed)) 302
               (save (delete proxy_auth_domain (<[proxy_auth_domain := getRequestDomain page]> p0)) w))
  /\ try_at used_at home w
    = (true, http_Redirect home (getRequestAddress page) 302 (save (logged_in page s0 token) w))
  /\ check again d w = (false, w).
Proof.
  intros [H0 H1 [D1 D2] [S1 S2] Hr (A1 & A2 & A3) [U1 U2] (B1 & B2 & B3) Hc [E1 E2] (C1 & C2 & C3 & C4) Ht Hf Hg
    [P1 (body & P2)]].
  split; [by apply login_start|]. split; [by eapply login_proxied|].
  split; [by apply (login_returned page _ _ code); try done; apply lookup_insert_eq|].
  split; [by eapply login_finished|].
  unfold checkAuthentication, checkSessionIsValid, checkSession, getSessionFromStore, checkTokenExists. rewrite Hg.
  assert (Htok : logged_in page s0 token !! &"access_token" = Some (AccessToken token)) by apply lookup_insert_eq.
  rewrite Htok. destruct P1 as [pu ->]. rewrite Htok. cbn [default from_option id]. by rewrite P2.
Qed.

End Login.

(** ** A concrete login *)

Definition pages_conf : AuthConf :=
  mkAuthConf &"gitlab.io" &"id" &"secret" &"https://projects.gitlab.io/auth" &"https://gitlab.example" &"s" &"api"
    &"key" 60.
Definition visit (host path query tag : str) : Request :=
  mkRequest &"GET" (mkURL &"https" [] None [] path [] false query [] []) host path ∅ true tag.

Definition v_page : Request := visit &"a.gitlab.io" &"/index.html" [] &"page".
Definition v_away : Request :=
  visit &"projects.gitlab.io" &"/auth" &"domain=https://a.gitlab.io&state=c3RhdGU=" &"away".
Definition v_back : Request := visit &"projects.gitlab.io" &"/auth" &"code=c0de&state=c3RhdGU=" &"back".
Definition v_signed : str :=
  match EncryptAndSignCode toy_crypto pages_conf &"nonce" 100 &"https://a.gitlab.io" &"c0de" with
  | Ok s => s | Err _ => [] end.
Definition v_home : Request :=
  visit &"a.gitlab.io" &"/auth" (Encode (callback_query &"c3RhdGU=" v_signed)) &"home".
Definition v_again : Request := visit &"a.gitlab.io" &"/index.html" [] &"again".

Definition v_token : tokenResponse := mkTokenResponse &"tok" &"bearer" 7200 [].
Definition v_Do (q : AuthRequest) : result (Z * str) := Ok (200%Z, &"json").
Definition v_decode (body : str) : result tokenResponse := Ok v_token.

Definition v_store (r : Request) : SessionValues * bool :=
  if decide (req_RemoteAddr r = &"back") then ({[ proxy_auth_domain := &"https://a.gitlab.io" ]}, false)
  else if decide (req_RemoteAddr r = &"home") then (login_session &"c3RhdGU=" v_page ∅, false)
  else if decide (req_RemoteAddr r = &"again") then (logged_in &"c3RhdGU=" v_page ∅ v_token, false)
  else (∅, false).
Definition v_save (v : SessionValues) (w : Response) : Response := w_Add &"Set-Cookie" &"gitlab-pages" w.

Lemma v_signed_ok :
  EncryptAndSignCode toy_crypto pages_conf &"nonce" 100 &"https://a.gitlab.io" &"c0de" = Ok v_signed.
Proof. unfold v_signed. destruct (EncryptAndSignCode _ _ _ _ _ _) eqn:E; [done|]. vm_compute in E. discriminate E. Qed.

Lemma v_run :
  login_run toy_crypto pages_conf v_store v_Do v_decode &"c3RhdGU=" &"nonce" 100 130 no_domains
    v_page v_away v_back v_home v_again ∅ ∅ &"c0de" v_signed v_token
    (mkURL &"https" [] None &"a.gitlab.io" [] [] false [] [] []) None.
Proof.
  split.
  - reflexivity.
  - reflexivity.
  - split; [decide_now|discriminate].
  - split; [decide_now|discriminate].
  - decide_now.
  - split; [split; [reflexivity|decide_now]|]. split; reflexivity.
  - split; vm_compute; reflexivity.
  - split; [split; [reflexivity|decide_now]|]. split; reflexivity.
  - decide_now.
  - split; [exact v_signed_ok|]. unfold v_signed. vm_compute. discriminate.
  - split; [split; [reflexivity|decide_now]|]. split; [reflexivity|]. split; reflexivity.
  - split; discriminate.
  - vm_compute. reflexivity.
  - reflexivity.
  - split; [vm_compute; by eexists|]. by eexists.
Qed.

Lemma login_completes_witness :
  checkAuthentication (Certificate := unit) v_store (store_Save v_save) v_Do no_json &"c3RhdGU=" pages_conf v_again None
    new_response = (false, new_response)
  /\ (Auth_TryAuthenticate toy_crypto v_store (store_Save v_save) v_Do v_decode &"nonce" 130 no_domains
        (Some pages_conf) v_home new_response).1 = true.
Proof.
  destruct (login_completes toy_crypto pages_conf v_store v_save v_Do v_decode no_json &"c3RhdGU=" &"nonce" 100 130
    no_domains v_page v_away v_back v_home v_again ∅ ∅ &"c0de" v_signed v_token
    (mkURL &"https" [] None &"a.gitlab.io" [] [] false [] [] []) None new_response v_run) as (_ & _ & _ & Hh & Ha).
  split; [exact Ha|]. rewrite Hh. reflexivity.
Defined.
