(* ===== verification/LiveDomain.v ===== *)
(** * Requests over lookups that change

    internal/domain/domain.go resolves a request anew in every method, and
    internal/source/gitlab/gitlab.go asks the cache for every resolution: a
    request sees as many lookups as it makes calls.  Here the handlers of
    app.go and the access check of auth.go run with a view of the domain per
    call; Domain.v, App.v and Auth.v are the case of a single view.  The
    calls are numbered, and the number of the next one is threaded through
    the handlers. *)

From S2P Require Import Prelude GoStd GoPath GoUrl Header Vfs Http Serving DiskServing Domain.
From S2P Require Import GitlabClient Cache CacheClients GitlabSource Domains Artifact App Auth.

(** ** Operations that make calls *)

Definition M (A : Type) : Type := nat -> A * nat.
Definition ret {A} (x : A) : M A := fun n => (x, n).
Definition bind {A B} (m : M A) (k : A -> M B) : M B := fun n => let '(x, n') := m n in k x n'.

Notation "x <- m ;; k" := (bind m (fun x => k)) (at level 100, m at next level, right associativity) : live_scope.
Notation "' p <- m ;; k" := (bind m (fun x => match x with p => k end))
  (at level 100, p pattern, m at next level, right associativity) : live_scope.
#[local] Open Scope live_scope.

Section Live.

#[local] Set Default Proof Using "Type".

Context {Certificate : Type}.
Abbreviation domain := (Domain Certificate).

(** What the resolver of the source computes at the [n]-th call. *)
Context (views : nat -> Resolver).

(** The domain as the [n]-th call sees it. *)
Definition at_call (n : nat) (d : option domain) : option domain :=
  (fun dom => mkDomain (d_Name dom) (CertificateCert dom) (CertificateKey dom) (views n) (certificateOnce dom)) <$> d.

(** A method that resolves once, unless the domain is nil. *)
Definition call {A} (f : option domain -> A) (d : option domain) : M A := fun n =>
  match d with None => (f None, n) | Some _ => (f (at_call n d), S n) end.

(** ** domain.go *)

Definition live_ServeNotFoundAuthFailed (d : option domain) (r : Request) (w : Response) : M Response :=
  lookup <- call (fun d => GetLookupPath d r) d ;;
  match lookup with
  | Err _ => ret (Serve404 w)
  | Ok lookupPath =>
      namespace <- call (fun d => IsNamespaceProject d r) d ;;
      if namespace && negb (lp_HasAccessControl lookupPath)
      then call (fun d => Domain_ServeNotFoundHTTP d r w) d
      else call (fun d => match d with Some dom => serveNamespaceNotFound dom r w | None => w end) d
  end.

(** ** auth.go *)

Context (store_Get : Request -> SessionValues * bool).
Context (store_Save : SessionValues -> Request -> Response -> result Response).
Context (Do : AuthRequest -> result (Z * str)) (decode_error : str -> result errorResponse) (fresh_state : str).

Definition auth_failed (d : option domain) (r : Request) (w : Response) : M (bool * Response) :=
  w' <- live_ServeNotFoundAuthFailed d r w ;; ret (true, w').

Definition live_checkAuthentication (a : AuthConf) (r : Request) (d : option domain) (w : Response)
  : M (bool * Response) :=
  match checkSessionIsValid store_Get store_Save fresh_state a r w with
  | inr w' => ret (true, w')
  | inl session =>
      projectID <- call (fun d => GetProjectID d r) d ;;
      let url := access_url a projectID in
      match Parse url with
      | None => ret (true, Serve500 w)
      | Some _ =>
          match Do (mkAuthRequest &"GET" url (&"Bearer " ++ default [] (session !! &"access_token")) []) with
          | Err _ => auth_failed d r w
          | Ok (code, body) =>
              match check_invalid_token store_Save decode_error code body session r w with
              | Some w' => ret (true, w')
              | None => if (code =? 200)%Z then ret (false, w) else auth_failed d r w
              end
          end
      end
  end.

Definition live_CheckAuthentication (oa : option AuthConf) (r : Request) (d : option domain) (w : Response)
  : M (bool * Response) :=
  match oa with None => ret (true, Serve500 w) | Some a => live_checkAuthentication a r d w end.

Definition live_CheckAuthenticationWithoutProject (oa : option AuthConf) (r : Request) (d : option domain)
    (w : Response) : M (bool * Response) :=
  match oa with None => ret (false, w) | Some a => live_checkAuthentication a r d w end.

(** ** app.go *)

Context (artifact_Do : URL -> Header -> result ApiResponse) (oa : option AuthConf).
Abbreviation app := (theApp (Certificate := Certificate)).
Abbreviation ctx_request := (CtxRequest (Certificate := Certificate)).

(** The sources as the [n]-th call sees them. *)
Context (domains_at : nat -> Domains (Certificate := Certificate)).

Definition app_at (n : nat) (a : app) : app :=
  mkApp (app_RedirectHTTP a) (app_StatusPath a) (app_DisableCrossOriginRequests a) (domains_at n) (app_Artifact a)
    (app_Auth a) (app_Acme a) (app_CustomHeaders a).

Definition LiveHandler : Type := ctx_request -> Response -> M (option Response).

Definition live_checkAuthAndServeNotFound (d : option domain) (r : Request) (w : Response) : M (bool * Response) :=
  '(handled, w') <- live_CheckAuthenticationWithoutProject oa r d w ;;
  if handled then ret (true, w') else auth_failed d r w'.

Definition live_tryAuxiliaryHandlers (a : app) (r : Request) (https : bool) (host : str) (d : option domain)
    (w : Response) : M (option (bool * Response)) :=
  if negb https && app_RedirectHTTP a then ret (Some (true, redirectToHTTPS r 307 w))
  else
    match HandleArtifactRequest artifact_Do (auth_base (app_Auth a)) (app_Artifact a) host r w with
    | (true, w1) => ret (Some (true, w1))
    | (false, w1) =>
        ready <- (fun n => (App.isReady (app_at n a), n)) ;;
        match ready with
        | None => ret None
        | Some false => ret (Some (true, Serve503 w1))
        | Some true =>
            has <- call (fun d => HasLookupPath d r) d ;;
            '(handled, w2) <- (if negb has then live_checkAuthAndServeNotFound d r w1 else ret (false, w1)) ;;
            if handled then ret (Some (true, w2))
            else if https then ret (Some (false, w2))
            else
              only <- call (fun d => IsHTTPSOnly d r) d ;;
              if only then ret (Some (true, redirectToHTTPS r 301 w2)) else ret (Some (false, w2))
        end
    end.

Definition live_ServeAcmeChallenges (m : option str) (r : Request) (d : option domain) (w : Response)
  : M (bool * Response) :=
  match m with
  | None => ret (false, w)
  | Some gitlabURL =>
      if negb (isAcmeChallenge (Path (req_URL r))) then ret (false, w)
      else
        '(served, w') <- call (fun d => Domain_ServeFileHTTP d r w) d ;;
        if served then ret (false, w') else ret (redirectToGitlab gitlabURL r w')
  end.

Definition live_acmeMiddleware (a : app) (handler : LiveHandler) : LiveHandler := fun r w =>
  match GetDomain r with
  | None => ret None
  | Some d =>
      '(handled, w') <- live_ServeAcmeChallenges (app_Acme a) (ctx_req r) d w ;;
      if handled then ret (Some w') else handler r w'
  end.

Definition live_authMiddleware (a : app) (handler : LiveHandler) : LiveHandler := fun r w =>
  match TryAuthenticate (app_Auth a) (ctx_req r) w with
  | (true, w') => ret (Some w')
  | (false, w') => handler r w'
  end.

Definition live_auxiliaryMiddleware (a : app) (handler : LiveHandler) : LiveHandler := fun r w =>
  match GetHost r, GetDomain r with
  | Some host, Some d =>
      out <- live_tryAuxiliaryHandlers a (ctx_req r) (IsHTTPS (ctx_req r)) host d w ;;
      match out with
      | None => ret None
      | Some (true, w') => ret (Some w')
      | Some (false, w') => handler r w'
      end
  | _, _ => ret None
  end.

Definition live_accessControlMiddleware (handler : LiveHandler) : LiveHandler := fun r w =>
  match GetDomain r with
  | None => ret None
  | Some d =>
      enabled <- call (fun d => IsAccessControlEnabled d (ctx_req r)) d ;;
      if enabled then
        '(handled, w') <- live_CheckAuthentication oa (ctx_req r) d w ;;
        if handled then ret (Some w') else handler r w'
      else handler r w
  end.

Definition live_serveFileOrNotFoundHandler : LiveHandler := fun r w =>
  match GetDomain r with
  | None => ret None
  | Some d =>
      '(served, w') <- call (fun d => Domain_ServeFileHTTP d (ctx_req r) w) d ;;
      if served then ret (Some w')
      else
        namespace <- call (fun d => IsNamespaceProject d (ctx_req r)) d ;;
        '(handled, w2) <- (if namespace then live_CheckAuthenticationWithoutProject oa (ctx_req r) d w'
                           else ret (false, w')) ;;
        if handled then ret (Some w2)
        else w3 <- call (fun d => Domain_ServeNotFoundHTTP d (ctx_req r) w2) d ;; ret (Some w3)
  end.

(** The handlers behind the routing, around the content handler. *)
Definition live_pipeline (a : app) (serve : LiveHandler) : LiveHandler :=
  live_acmeMiddleware a (live_authMiddleware a (live_auxiliaryMiddleware a (live_accessControlMiddleware serve))).

Definition live_routingMiddleware (a : app) (handler : LiveHandler) : LiveHandler := fun r w n =>
  match getHostAndDomain (app_at n a) (ctx_req r) with
  | None => (None, S n)
  | Some (host, Ok d) => handler (WithHostAndDomain r host d) w (S n)
  | Some (host, Err err) =>
      if errors_Is err ErrDomainDoesNotExist then handler (WithHostAndDomain r host None) w (S n)
      else (Some (Serve502 w), S n)
  end.

(** ** Lemmas *)

(** The result does not depend on the number of the call. *)
Definition agrees {A} (m : M A) (x : A) : Prop := forall n, (m n).1 = x.

Lemma agrees_ret {A} (x : A) : agrees (ret x) x.
Proof. intros n. done. Qed.

Lemma agrees_bind {A B} (m : M A) (k : A -> M B) x y : agrees m x -> agrees (k x) y -> agrees (bind m k) y.
Proof. intros Hm Hk n. unfold bind. specialize (Hm n). destruct (m n) as [x' n']. simpl in Hm. subst x'. apply Hk. Qed.

(** Every call sees the domain as it is. *)
Definition one_view (d : option domain) : Prop := forall n, at_call n d = d.

Lemma agrees_call {A} (f : option domain -> A) d : one_view d -> agrees (call f d) (f d).
Proof. intros Hd n. unfold call. specialize (Hd n). destruct d; [by rewrite Hd|done]. Qed.

#[local] Hint Resolve agrees_ret agrees_call : live.

(** Takes the next operation of a sequence. *)
#[local] Ltac next := eapply agrees_bind; [by eauto with live|cbv beta iota].

Lemma live_ServeNotFoundAuthFailed_agrees d r w :
  one_view d -> agrees (live_ServeNotFoundAuthFailed d r w) (ServeNotFoundAuthFailed d r w).
Proof.
  intros Hd. unfold live_ServeNotFoundAuthFailed, ServeNotFoundAuthFailed. next.
  destruct (GetLookupPath d r); [|by eauto with live]. next.
  destruct (_ && _); apply (agrees_call (fun d => _) d Hd).
Qed.

Lemma auth_failed_agrees d r w : one_view d -> agrees (auth_failed d r w) (true, ServeNotFoundAuthFailed d r w).
Proof.
  intros Hd. unfold auth_failed. eapply agrees_bind; [by apply live_ServeNotFoundAuthFailed_agrees|].
  apply agrees_ret.
Qed.

#[local] Hint Resolve auth_failed_agrees : live.

Lemma live_checkAuthentication_agrees a r d w :
  one_view d -> agrees (live_checkAuthentication a r d w)
                  (checkAuthentication store_Get store_Save Do decode_error fresh_state a r d w).
Proof.
  intros Hd. unfold live_checkAuthentication, checkAuthentication.
  destruct (checkSessionIsValid _ _ _ _ _ _); [|by eauto with live]. next.
  repeat case_match; by eauto with live.
Qed.

#[local] Hint Resolve live_checkAuthentication_agrees : live.

(** The application authenticates with the package and its sources stand
    still. *)
Context (cr : Crypto) (decode_token : str -> result tokenResponse) (fresh_nonce : str) (now : Z).
Context (get_domain : str -> result (option domain)).

Definition own_auth : AppAuth (Certificate := Certificate) :=
  auth_as_app cr store_Get store_Save Do decode_token decode_error fresh_state fresh_nonce now get_domain oa.

Lemma live_without_project_agrees d r w :
  one_view d -> agrees (live_CheckAuthenticationWithoutProject oa r d w)
                  (CheckAuthenticationWithoutProject own_auth r d w).
Proof.
  intros Hd. unfold live_CheckAuthenticationWithoutProject. cbn [own_auth auth_as_app CheckAuthenticationWithoutProject].
  unfold Auth_CheckAuthenticationWithoutProject. destruct oa; by eauto with live.
Qed.

Lemma live_tryAuxiliary_agrees a r https host d w :
  one_view d -> app_Auth a = own_auth -> (forall n, domains_at n = app_domains a) ->
  agrees (live_tryAuxiliaryHandlers a r https host d w) (tryAuxiliaryHandlers artifact_Do a r https host d w).
Proof.
  intros Hd Ha Hs. unfold live_tryAuxiliaryHandlers, tryAuxiliaryHandlers.
  destruct (_ && app_RedirectHTTP a); [by eauto with live|].
  destruct (HandleArtifactRequest _ _ _ _ _ _) as [[] w1]; [by eauto with live|].
  apply (agrees_bind _ _ (App.isReady a)).
  { intros n. unfold App.isReady. cbn [app_at app_domains fst]. by rewrite Hs. }
  destruct (App.isReady a) as [[]|]; [|by eauto with live..]. next.
  apply (agrees_bind _ _ (if negb (HasLookupPath d r) then checkAuthAndServeNotFound a d r w1 else (false, w1))).
  - destruct (negb _); [|apply agrees_ret]. unfold live_checkAuthAndServeNotFound, checkAuthAndServeNotFound.
    rewrite Ha. eapply agrees_bind; [by apply live_without_project_agrees|].
    destruct (CheckAuthenticationWithoutProject _ _ _ _) as [[] w2]; by eauto with live.
  - destruct (if negb _ then _ else _) as [[] w2]; [by eauto with live|].
    destruct https; [by eauto with live|]. next. simpl. destruct (IsHTTPSOnly d r); by eauto with live.
Qed.

Lemma live_acme_agrees m r d w :
  one_view d -> agrees (live_ServeAcmeChallenges m r d w) (ServeAcmeChallenges m r d w).
Proof.
  intros Hd. unfold live_ServeAcmeChallenges, ServeAcmeChallenges. destruct m; [|by eauto with live].
  destruct (negb _); [by eauto with live|]. next.
  destruct (Domain_ServeFileHTTP _ _ _) as [[] w1]; by eauto with live.
Qed.

Lemma live_pipeline_agrees a serve serve' r d w :
  ctx_domain r = Some d -> one_view d -> app_Auth a = own_auth -> (forall n, domains_at n = app_domains a) ->
  (forall w', agrees (serve r w') (serve' r w')) ->
  agrees (live_pipeline a serve r w)
    (acmeMiddleware a (authMiddleware a (auxiliaryMiddleware artifact_Do a (accessControlMiddleware a serve'))) r w).
Proof.
  intros Hr Hd Ha Hs Hserve. unfold live_pipeline, live_acmeMiddleware, acmeMiddleware, GetDomain. rewrite Hr.
  eapply agrees_bind; [by apply live_acme_agrees|].
  destruct (ServeAcmeChallenges _ _ _ _) as [[] w1]; [by eauto with live|].
  unfold live_authMiddleware, authMiddleware. destruct (TryAuthenticate _ _ _) as [[] w2]; [by eauto with live|].
  unfold live_auxiliaryMiddleware, auxiliaryMiddleware, GetDomain. rewrite Hr.
  destruct (GetHost r) as [host|]; [|by eauto with live].
  eapply agrees_bind; [by apply live_tryAuxiliary_agrees|].
  destruct (tryAuxiliaryHandlers _ _ _ _ _ _ _) as [[[] w3]|]; [by eauto with live| |by eauto with live].
  unfold live_accessControlMiddleware, accessControlMiddleware, GetDomain. rewrite Hr. next.
  destruct (IsAccessControlEnabled d _); [|done]. rewrite Ha. cbn [own_auth auth_as_app CheckAuthentication].
  unfold live_CheckAuthentication, Auth_CheckAuthentication.
  apply (agrees_bind _ _ (match oa with
    | None => (true, Serve500 w3)
    | Some conf => checkAuthentication store_Get store_Save Do decode_error fresh_state conf (ctx_req r) d w3 end)).
  { destruct oa; by eauto with live. }
  destruct (match oa with None => _ | Some _ => _ end) as [[] w4]; by eauto with live.
Qed.

Lemma live_serve_agrees a r d w :
  ctx_domain r = Some d -> one_view d -> app_Auth a = own_auth ->
  agrees (live_serveFileOrNotFoundHandler r w) (serveFileOrNotFoundHandler a r w).
Proof.
  intros Hr Hd Ha. unfold live_serveFileOrNotFoundHandler, serveFileOrNotFoundHandler, GetDomain. rewrite Hr. next.
  destruct (Domain_ServeFileHTTP _ _ _) as [[] w1]; [by eauto with live|]. next. rewrite Ha.
  apply (agrees_bind _ _ (if IsNamespaceProject d (ctx_req r)
    then CheckAuthenticationWithoutProject own_auth (ctx_req r) d w1 else (false, w1))).
  { case_match; [by apply live_without_project_agrees|apply agrees_ret]. }
  destruct (if IsNamespaceProject _ _ then _ else _) as [[] w2]; [by eauto with live|]. next. apply agrees_ret.
Qed.

(** *** What a request that reaches the content has passed *)

(** GitLab has confirmed that the token of the request's session may read the
    project. *)
Definition confirmed_project (r : Request) (projectID : Z) : Prop :=
  exists a session token body,
    oa = Some a /\ store_Get r = (session, false) /\ session !! &"access_token" = Some token
    /\ Do (mkAuthRequest &"GET" (access_url a projectID) (&"Bearer " ++ token) []) = Ok (200%Z, body).

Lemma auth_failed_handled d r w n : ((auth_failed d r w) n).1.1 = true.
Proof. unfold auth_failed, bind. by destruct (live_ServeNotFoundAuthFailed d r w n). Qed.

(** The check asks for the project of the lookup it sees itself. *)
Lemma live_CheckAuthentication_granted r dom w n w' k :
  let d := Some dom in
  live_CheckAuthentication oa r d w n = ((false, w'), k) ->
  w' = w /\ k = S n /\ confirmed_project r (GetProjectID (at_call n d) r).
Proof.
  intros d. subst d. set (d := Some dom).
  unfold live_CheckAuthentication. destruct oa as [a|] eqn:Eoa; [|done].
  unfold live_checkAuthentication, checkSessionIsValid, checkSession, getSessionFromStore, checkTokenExists.
  destruct (store_Get r) as [session []] eqn:Es; [by destruct (store_Save session r w)|].
  destruct (session !! &"access_token") as [token|] eqn:Et; [|by destruct (store_Save _ r w)].
  unfold bind at 1. unfold call. cbv beta iota zeta. subst d. cbv beta iota. set (d := Some dom).
  destruct (Parse _); [|done]. rewrite Et. cbn [default from_option id].
  assert (Hno : auth_failed d r w (S n) <> ((false, w'), k)).
  { intros H. pose proof (auth_failed_handled d r w (S n)) as Hf. by rewrite H in Hf. }
  destruct (Do _) as [[code body]|e] eqn:Ed; [|done].
  destruct (check_invalid_token _ _ _ _ _ _ _); [done|].
  destruct (code =? 200)%Z eqn:Ec; [|done]. intros [= <- <-]. bools. subst code.
  split; [done|]. split; [done|]. by exists a, session, token, body.
Qed.

Lemma live_checkAuthAndServeNotFound_handled d r w n : (live_checkAuthAndServeNotFound d r w n).1.1 = true.
Proof.
  unfold live_checkAuthAndServeNotFound, bind.
  destruct (live_CheckAuthenticationWithoutProject oa r d w n) as [[[] w'] n']; [done|]. apply auth_failed_handled.
Qed.

(** The auxiliary handlers pass a request on only when a lookup was found,
    and leave the response alone. *)
Lemma live_tryAuxiliary_passes a `{!AuthLaws (auth_base (app_Auth a))} r https host d w n w' i :
  live_tryAuxiliaryHandlers a r https host d w n = (Some (false, w'), i) ->
  w' = w /\ n < i /\ is_Some d /\ HasLookupPath (at_call n d) r = true.
Proof.
  unfold live_tryAuxiliaryHandlers. destruct (_ && app_RedirectHTTP a); [done|].
  pose proof (HandleArtifactRequest_answers artifact_Do (auth_base (app_Auth a)) (app_Artifact a) host r w) as Ha.
  destruct (HandleArtifactRequest _ _ _ _ _ _) as [[] w1]; [done|]. unfold answers in Ha. simpl in Ha. subst w1.
  unfold bind at 1. cbv beta iota. destruct (App.isReady _) as [[]|]; [|done..].
  assert (Hno : forall k w1 j, live_checkAuthAndServeNotFound d r w k <> ((false, w1), j)).
  { intros k w1 j E. pose proof (live_checkAuthAndServeNotFound_handled d r w k) as Hh. by rewrite E in Hh. }
  unfold bind at 1. unfold call at 1. destruct d as [dom|]; cbv beta iota.
  - destruct (HasLookupPath (at_call n (Some dom)) r).
    + unfold bind, ret, call. cbn [negb]. destruct https; [intros [= <- <-]; auto with lia|].
      destruct (IsHTTPSOnly _ _); [done|]. intros [= <- <-]. auto with lia.
    + cbn [negb]. unfold bind. destruct (live_checkAuthAndServeNotFound _ r w (S n)) as [[[] w1] n1] eqn:E; [done|].
      by apply Hno in E.
  - cbn [HasLookupPath negb]. unfold bind.
    destruct (live_checkAuthAndServeNotFound _ r w n) as [[[] w1] n1] eqn:E; [done|]. by apply Hno in E.
Qed.

(** Behind the ACME middleware a request is answered without the content
    handler, or the content handler gets the untouched response after the
    check. *)
Lemma live_content_checked a serve r d w n :
  ctx_domain r = Some d -> isAcmeChallenge (Path (req_URL (ctx_req r))) = false -> app_Auth a = own_auth ->
  (forall serve', live_pipeline a serve' r w n = live_pipeline a serve r w n)
  \/ exists i j, n <= j < i /\ HasLookupPath (at_call j d) (ctx_req r) = true
       /\ live_pipeline a serve r w n
          = serve r w (if IsAccessControlEnabled (at_call i d) (ctx_req r) then S (S i) else S i)
       /\ (IsAccessControlEnabled (at_call i d) (ctx_req r) = true ->
           confirmed_project (ctx_req r) (GetProjectID (at_call (S i) d) (ctx_req r))).
Proof.
  intros Hr Hacme Ha.
  assert (Hlaws : AppAuthLaws (app_Auth a)) by (rewrite Ha; apply auth_as_app_laws).
  assert (Hskip : forall h, live_acmeMiddleware a h r w n = h r w n).
  { intros h. unfold live_acmeMiddleware, GetDomain, live_ServeAcmeChallenges. rewrite Hr, Hacme. cbn [negb].
    by destruct (app_Acme a). }
  unfold live_pipeline. setoid_rewrite Hskip. unfold live_authMiddleware.
  pose proof (try_answers (ctx_req r) w) as Ht. unfold answers in Ht.
  destruct (TryAuthenticate _ _ _) as [[] w1]; [by left|]. simpl in Ht. subst w1.
  unfold live_auxiliaryMiddleware, GetDomain. rewrite Hr. destruct (GetHost r) as [host|]; [|by left].
  unfold bind at 1 2 3.
  destruct (live_tryAuxiliaryHandlers a _ _ host d w n) as [[[[] w2]|] i] eqn:Ex; [by left| |by left].
  apply live_tryAuxiliary_passes in Ex as (-> & Hi & [dom ->] & Hhas); [|apply Hlaws].
  unfold live_accessControlMiddleware, GetDomain. rewrite Hr. unfold bind at 1 3 5. unfold call. cbv beta iota.
  destruct (IsAccessControlEnabled (at_call i (Some dom)) (ctx_req r)) eqn:Ee.
  - unfold bind. destruct (live_CheckAuthentication oa _ (Some dom) w (S i)) as [[[] w3] k] eqn:Ec; [by left|].
    apply live_CheckAuthentication_granted in Ec as (-> & -> & Hc).
    right. exists i, n. rewrite Ee. auto.
  - right. exists i, n. rewrite Ee. split; [lia|]. split; [done|]. split; [done|]. done.
Qed.

End Live.

(** ** The calls of a request to the cache *)

Section Cached.

#[local] Set Default Proof Using "Type".

Context {C : Type} (gc : GoCache C) (refreshTimeout expirationTimeout : Z) (ff_disabled : bool).
Context (api : str -> Lookup -> Prop).

Abbreviation state := (@cache_state C).
Abbreviation step := (cache_step gc refreshTimeout expirationTimeout ff_disabled api).

(** [Cache.Resolve] for a client that stays: its critical sections among the
    steps of everybody else. *)
Definition resolves_to (host : str) (st : state) (l : Lookup) (st' : state) : Prop :=
  exists id st1, LoadOrCreate gc host st = (id, st1)
    /\ rtc (among gc refreshTimeout expirationTimeout ff_disabled api) (Loaded id, st1) (Got (Some l), st').

(** Without interruption, and with a wait. *)
Lemma resolves_hit host st l st' :
  Cache_Resolve gc refreshTimeout host st = (Hit (Some l), st') -> resolves_to host st l st'.
Proof.
  intros H. destruct (LoadOrCreate gc host st) as [id st1] eqn:E. exists id, st1. split; [done|].
  by apply (Cache_Resolve_among gc _ expirationTimeout ff_disabled api _ _ _ _ _ _ H E).
Qed.

Lemma resolves_wait host st id st1 st2 l :
  Cache_Resolve gc refreshTimeout host st = (Miss id, st1) -> rtc step st1 st2 ->
  wait_result false id st2 = Some l -> resolves_to host st l st2.
Proof.
  intros H Hs Hw. destruct (LoadOrCreate gc host st) as [id' st0] eqn:E. exists id', st0. split; [done|].
  etrans; [by apply (Cache_Resolve_among gc _ expirationTimeout ff_disabled api _ _ _ _ _ _ H E)|].
  etrans; [by apply among_others_steps|]. apply rtc_once.
  pose proof (among_own gc refreshTimeout expirationTimeout ff_disabled api (Awaiting id) st2) as Ha.
  cbn [client_next] in Ha. by rewrite Hw in Ha.
Qed.

(** The lookups of consecutive calls for one host: before each of them other
    clients, refreshes and time may move the cache on. *)
Definition cached_calls (host : str) (lookups : nat -> Lookup) : Prop :=
  exists states : nat -> state, states 0 = init_state gc
    /\ forall n, exists st, rtc step (states n) st /\ resolves_to host st (lookups n) (states (S n)).

Context {laws : GoCacheLaws gc}.

(** Whatever happens in between, the lookups are the API's for this host. *)
Lemma cached_calls_api host lookups n : cached_calls host lookups -> api host (lookups n).
Proof using laws.
  intros (states & H0 & Hcalls).
  assert (Hone : forall m, clients_inv gc api (states m) -> clients_inv gc api (states (S m)) /\ api host (lookups m)).
  { intros m Hm. destruct (Hcalls m) as (st & Hs & id & st1 & E & Hr).
    apply (clients_inv_steps gc _ _ _ api) in Hs as [Hst _]; [|done].
    destruct (load_ok gc refreshTimeout expirationTimeout ff_disabled api host st id st1 Hst E) as (Hi & Hc & _).
    destruct (amongs_ok gc _ _ _ api host _ _ Hr Hi Hc) as [Hi' (lk & [= ->] & Ha)]. done. }
  assert (Hall : forall m, clients_inv gc api (states m)).
  { intros m. induction m as [|m IH]; [rewrite H0; by apply clients_inv_init|]. by apply Hone. }
  by apply Hone.
Qed.

End Cached.

(** ** Properties *)

Section Properties.

#[local] Set Default Proof Using "Type".

Context {Certificate : Type} (artifact_Do : URL -> Header -> result ApiResponse) (cr : Crypto).
Context (store_Get : Request -> SessionValues * bool).
Context (store_Save : SessionValues -> Request -> Response -> result Response).
Context (Do : AuthRequest -> result (Z * str)) (decode_token : str -> result tokenResponse) (decode_error : str -> result errorResponse).
Context (fresh_state fresh_nonce : str) (now : Z) (get_domain : str -> result (option (Domain Certificate))).
Context (oa : option AuthConf) (domains_at : nat -> Domains (Certificate := Certificate)).

Abbreviation pipeline views a serve :=
  (live_pipeline views store_Get store_Save Do decode_error fresh_state artifact_Do oa domains_at a serve).
Abbreviation content views :=
  (live_serveFileOrNotFoundHandler views store_Get store_Save Do decode_error fresh_state oa).
Abbreviation package_auth :=
  (auth_as_app cr store_Get store_Save Do decode_token decode_error fresh_state fresh_nonce now get_domain oa).
Abbreviation confirmed := (confirmed_project store_Get Do oa).

(** Handlers that resolve once and handlers that resolve at every call
    agree while the lookups stand still: when every call of a request sees
    the resolver of its domain, the handlers behind the routing give the
    response of the pipeline with a single view, around any content handler
    and in particular around the file handler. *)
Theorem one_view_pipeline views corsHandler a r dom w n :
  app_Auth a = package_auth -> (forall k, domains_at k = app_domains a) ->
  ctx_domain r = Some (Some dom) -> (forall k, views k = d_Resolver dom) ->
  let behind serve := live_pipeline views store_Get store_Save Do decode_error fresh_state artifact_Do oa domains_at a serve in
  (forall serve, (forall w' k, (serve r w' k).1 = content_handler corsHandler a r w') ->
     (behind serve r w n).1 = domain_pipeline artifact_Do corsHandler a r w)
  /\ (app_DisableCrossOriginRequests a = true ->
      (behind (content views) r w n).1 = domain_pipeline artifact_Do corsHandler a r w).
Proof.
  intros Ha Hs Hr Hv behind.
  assert (Hone : one_view views (Some dom)) by (intros k; unfold at_call; simpl; rewrite Hv; by destruct dom).
  assert (Hall : forall serve, (forall w' k, (serve r w' k).1 = content_handler corsHandler a r w') ->
     (pipeline views a serve r w n).1 = domain_pipeline artifact_Do corsHandler a r w).
  { intros serve Hserve. by eapply live_pipeline_agrees. }
  split; [done|]. intros Hc. apply Hall. intros w' k. unfold content_handler. rewrite Hc.
  by eapply live_serve_agrees.
Qed.

(** Content follows a check, whatever the lookups do: for a request that
    is no ACME challenge, either the response does not depend on the content
    handler at all, or the content handler gets the response untouched right
    after the access check, a call before has found the project, and, when
    the lookup the check saw has access control, GitLab has confirmed the
    access to the project of the next lookup with the token of the session. *)
Theorem content_follows_check views a serve r d w n :
  ctx_domain r = Some d -> isAcmeChallenge (Path (req_URL (ctx_req r))) = false -> app_Auth a = package_auth ->
  (forall serve', pipeline views a serve' r w n = pipeline views a serve r w n)
  \/ exists i j, n <= j < i /\ HasLookupPath (at_call views j d) (ctx_req r) = true
       /\ pipeline views a serve r w n
          = serve r w (if IsAccessControlEnabled (at_call views i d) (ctx_req r) then S (S i) else S i)
       /\ (IsAccessControlEnabled (at_call views i d) (ctx_req r) = true ->
           confirmed (ctx_req r) (GetProjectID (at_call views (S i) d) (ctx_req r))).
Proof. apply live_content_checked. Qed.

(** *** Behind the cache *)

Context (local_Instance zip_Instance : Serving) (gs : nat -> Gitlab) (disk : option (DomainSource (Certificate := Certificate))).

(** The GitLab source as the calls of a request see it: its lookups and, in
    [gs], whether it is ready. *)
Definition gitlab_views (lookups : nat -> Lookup) (n : nat) : Resolver :=
  Gitlab_Resolve local_Instance zip_Instance (fun _ => lookups n).
Definition gitlab_domains (lookups : nat -> Lookup) (n : nat) : Domains (Certificate := Certificate) :=
  mkDomains sourceGitlab (Some (gitlab_as_source local_Instance zip_Instance (fun _ => lookups n) (gs n))) disk.

Abbreviation served lookups a serve :=
  (live_routingMiddleware (gitlab_domains lookups) a
    (live_pipeline (gitlab_views lookups) store_Get store_Save Do decode_error fresh_state artifact_Do oa
       (gitlab_domains lookups) a serve)).

(** The lookup protects the path of the request, as part of the project. *)
Definition protects (r : Request) (projectID : Z) (lk : Lookup) : Prop :=
  exists sr, Gitlab_Resolve local_Instance zip_Instance (fun _ => lk) r = Ok sr
    /\ lp_HasAccessControl (sr_LookupPath sr) = true /\ lp_ProjectID (sr_LookupPath sr) = projectID.

Lemma gitlab_routing lookups a r w n p :
  protects (ctx_req r) p (lookups n) ->
  exists dom, forall h, live_routingMiddleware (gitlab_domains lookups) a h r w n
              = h (WithHostAndDomain r (GetHostWithoutPort (ctx_req r)) (Some dom)) w (S n).
Proof.
  intros (sr & Hr & _). unfold Gitlab_Resolve in Hr.
  unfold live_routingMiddleware, getHostAndDomain, app_domain, Domains_GetDomain. cbn [app_at app_domains].
  assert (Hsrc : Domains_source (gitlab_domains lookups n) (GetHostWithoutPort (ctx_req r))
                 = Some (gitlab_as_source local_Instance zip_Instance (fun _ => lookups n) (gs n))).
  { unfold Domains_source. by destruct (IsServerlessDomain _). }
  rewrite Hsrc. cbn [fmap option_fmap option_map gitlab_as_source source_GetDomain]. unfold Gitlab_GetDomain.
  destruct (lk_Error (lookups n)); [done|]. destruct (lk_Domain (lookups n)) as [vd|]; [|done].
  eexists. intros h. done.
Qed.

(** Without the confirmation the content handler is not reached. *)
Lemma private_content_unreached lookups a serve1 serve2 r w p :
  (forall n, protects (ctx_req r) p (lookups n)) ->
  app_Auth a = package_auth -> isAcmeChallenge (Path (req_URL (ctx_req r))) = false ->
  ~ confirmed (ctx_req r) p ->
  served lookups a serve1 r w 0 = served lookups a serve2 r w 0.
Proof.
  intros Hprot Ha Hacme Hno.
  destruct (gitlab_routing lookups a r w 0 p (Hprot 0)) as (dom & Hroute). rewrite !Hroute.
  set (r' := WithHostAndDomain r _ (Some dom)).
  destruct (live_content_checked (gitlab_views lookups) store_Get store_Save Do decode_error fresh_state artifact_Do
    oa (gitlab_domains lookups) cr decode_token fresh_nonce now get_domain a serve1 r' (Some dom) w 1)
    as [Hsame|(i & j & _ & _ & _ & Hconf)]; [done..|by symmetry|].
  destruct Hno. destruct (Hprot i) as (sr & Hi & Hac & _), (Hprot (S i)) as (sr' & Hi' & _ & Hp).
  rewrite <- Hp. replace (lp_ProjectID (sr_LookupPath sr'))
    with (GetProjectID (at_call (gitlab_views lookups) (S i) (Some dom)) (ctx_req r)).
  - apply Hconf. unfold IsAccessControlEnabled, lookup_field, GetLookupPath. cbn [at_call fmap option_fmap option_map resolve d_Resolver].
    unfold gitlab_views. change (ctx_req r') with (ctx_req r). by rewrite Hi.
  - unfold GetProjectID, lookup_field, GetLookupPath. cbn [at_call fmap option_fmap option_map resolve d_Resolver].
    unfold gitlab_views. by rewrite Hi'.
Qed.

(** Private content needs the confirmation of GitLab through every change
    of the cache: when all the lookups the API gives for the requested host
    protect the path as part of one project, then, however other clients,
    refreshes, temporary states and time move the cache, and whenever the
    source is ready, between the calls of the request, a request whose session
    GitLab has not confirmed for this project is answered the same way
    whatever the content handlers would do. *)
Theorem cached_private_content_needs_gitlab {C} (gc : GoCache C) `{!GoCacheLaws gc} refreshTimeout
    expirationTimeout ff_disabled api lookups a serve1 serve2 r w p :
  cached_calls gc refreshTimeout expirationTimeout ff_disabled api (GetHostWithoutPort (ctx_req r)) lookups ->
  (forall lk, api (GetHostWithoutPort (ctx_req r)) lk -> protects (ctx_req r) p lk) ->
  app_Auth a = package_auth -> isAcmeChallenge (Path (req_URL (ctx_req r))) = false ->
  ~ confirmed (ctx_req r) p ->
  served lookups a serve1 r w 0 = served lookups a serve2 r w 0.
Proof.
  intros Hcalls Hapi. apply private_content_unreached. intros n. apply Hapi.
  eapply cached_calls_api; [apply _|exact Hcalls].
Qed.

End Properties.

(** ** A request between two lookups *)

(** The API protects the site, and sometimes fails. *)
Definition private_answer : Lookup :=
  mkLookup demo_name None (Some (mkVirtualDomain [] []
    [mkApiLookupPath 7 true false &"/" (mkSource &"file" &"group/private/public" no_serverless)])).
Definition private_api (d : str) (l : Lookup) : Prop := d = demo_name /\ (l = private_answer \/ l = bad_lookup).

(** A cache as a list of the items set, the latest first. *)
Abbreviation items := (list (str * (nat * Z))).

Fixpoint items_Get (t : Z) (k : str) (c : items) : option nat :=
  match c with
  | [] => None
  | (k', (v, expires)) :: c' =>
      if decide (k' = k) then if (t <=? expires)%Z then Some v else None else items_Get t k c'
  end.
Definition items_cache (ttl : Z) : GoCache items := {|
  cache_Get := items_Get;
  cache_SetDefault t k v c := (k, (v, (t + ttl)%Z)) :: c;
  cache_Delete k c := filter (fun item => item.1 <> k) c;
  cache_New := [] |}.

#[export] Instance items_cache_laws : GoCacheLaws (items_cache 600).
Proof.
  split; cbn [items_cache cache_Get cache_SetDefault cache_Delete cache_New items_Get].
  - done.
  - intros t k v c. rewrite decide_True by done. by assert ((t <=? t + 600)%Z = true) as -> by lia.
  - intros t t' k k' v c Hk. by rewrite decide_False.
  - intros t k c. induction c as [|[k' [v x]] c IH]; [done|]. rewrite filter_cons.
    case_decide as Hk; [|done]. cbn. by rewrite decide_False.
  - intros t k k' c Hk. induction c as [|[k1 [v x]] c IH]; [done|]. rewrite filter_cons.
    case_decide as H1; cbn; [by rewrite IH|]. simpl in H1. by rewrite decide_False by congruence.
  - intros t t' k c v Ht. induction c as [|[k1 [v1 x]] c IH]; [done|]. cbn. case_decide; [|done].
    destruct (t' <=? x)%Z eqn:E; [|done]. bools. by assert ((t <=? x)%Z = true) as -> by lia.
Qed.

Abbreviation demo_state := (@cache_state items).
Abbreviation ask := (Cache_Resolve (items_cache 600) 60 demo_name).
Abbreviation idle := (init_state (items_cache 600)).

Definition tick (dt : Z) (st : demo_state) : demo_state :=
  mkState (heap st) (store st) (clock st + dt) (jobs st) (history st).

(** The site is looked up.  Ten minutes later its entry is still there; the
    request finds it outdated and a refresh is started. *)
Definition asked : demo_state := (ask idle).2.
Definition answered : demo_state := setResponse 0 private_answer asked.
Definition old_entry : demo_state := tick 600 answered.
Definition refreshing : demo_state := (ask old_entry).2.
(** One second later the entry has expired, and the lookup that replaces it
    fails. *)
Definition expired : demo_state := tick 1 refreshing.
Definition asked_again : demo_state := (ask expired).2.
Definition failed_lookup : demo_state := setResponse 1 bad_lookup asked_again.
(** The refresh ends with a good answer. *)
Definition refresh_runs : demo_state := refresh_begin 0 failed_lookup.
Definition refresh_answered : demo_state := setResponse 2 private_answer refresh_runs.
Definition refreshed : demo_state := refresh_end (items_cache 600) 600 false 0 refresh_answered.

Definition race_states (n : nat) : demo_state :=
  match n with 0 => idle | 1 | 2 | 3 => refreshing | 4 => failed_lookup | _ => refreshed end.
Definition race_lookups (n : nat) : Lookup := match n with 3 => bad_lookup | _ => private_answer end.

Section DemoSteps.

Context (api : str -> Lookup -> Prop).
Abbreviation demo_step := (cache_step (items_cache 600) 60 600 false api).

Lemma tick_step dt st : (0 <= dt)%Z -> demo_step st (tick dt st).
Proof. apply step_tick. Qed.

Lemma ask_step st : demo_step st (ask st).2.
Proof. apply step_resolve. Qed.

Lemma answer_step id l st :
  match heap st !! id with
  | Some e => retrieve_once e = true /\ response e = None /\ api (e_domain e) l
  | None => False
  end -> demo_step st (setResponse id l st).
Proof. destruct (heap st !! id) as [e|] eqn:E; [|done]. intros (H1 & H2 & H3). by eapply step_retrieved. Qed.

End DemoSteps.

Lemma race_calls : cached_calls (items_cache 600) 60 600 false private_api demo_name race_lookups.
Proof.
  exists race_states. split; [reflexivity|]. intros n.
  destruct n as [|[|[|[|[|n]]]]].
  - exists old_entry. split; [|by apply resolves_hit].
    eapply rtc_l; [apply (ask_step _ idle)|]. eapply rtc_l; [apply (answer_step _ 0 private_answer asked)|].
    + split; [done|]. split; [done|]. by split; [|left].
    + by apply rtc_once, (tick_step _ 600 answered).
  - exists refreshing. split; [constructor|by apply resolves_hit].
  - exists refreshing. split; [constructor|by apply resolves_hit].
  - exists expired. split; [by apply rtc_once, (tick_step _ 1 refreshing)|].
    apply (resolves_wait _ _ _ _ _ _ _ 1 asked_again); [done| |done].
    apply rtc_once, (answer_step _ 1 bad_lookup asked_again). split; [done|]. split; [done|]. by split; [|right].
  - exists refreshed. split; [|by apply resolves_hit].
    eapply rtc_l; [apply (step_refresh_begin _ _ _ _ _ 0 failed_lookup)|].
    eapply rtc_l; [apply (answer_step _ 2 private_answer refresh_runs)|].
    + split; [done|]. split; [done|]. by split; [|left].
    + apply rtc_once, (step_refresh_end _ _ _ _ _ 0 refresh_answered).
  - exists refreshed. split; [constructor|by apply resolves_hit].
Qed.

(** A visitor without a session, and an API that confirms nothing. *)
Definition stranger_auth : AppAuth (Certificate := unit) :=
  auth_as_app toy_crypto empty_session cookie_save api_forbidden no_json no_json &"state" &"nonce" 0 no_domains
    (Some io_conf).
Definition live_app : theApp (Certificate := unit) :=
  mkApp false &"/@status" true (app_domains demo_app) None stranger_auth None [].
Definition stranger_request : CtxRequest (Certificate := unit) := mkCtxRequest (demo_get &"/index.html") None None.
Definition ready_source : Gitlab := mkGitlab true false.

Definition serve_stranger (lookups : nat -> Lookup)
    (serve : LiveHandler (Certificate := unit)) : option Response * nat :=
  live_routingMiddleware (gitlab_domains demo_disk demo_disk (fun _ => ready_source) None lookups) live_app
    (live_pipeline (gitlab_views demo_disk demo_disk lookups) empty_session cookie_save api_forbidden no_json &"state"
       no_artifacts (Some io_conf) (gitlab_domains demo_disk demo_disk (fun _ => ready_source) None lookups) live_app serve)
    stranger_request new_response 0.

Definition stranger_content (lookups : nat -> Lookup) : LiveHandler (Certificate := unit) :=
  live_serveFileOrNotFoundHandler (gitlab_views demo_disk demo_disk lookups) empty_session cookie_save api_forbidden
    no_json &"state" (Some io_conf).

Lemma private_answer_protects : protects demo_disk demo_disk (demo_get &"/index.html") 7 private_answer.
Proof.
  destruct (lk_Domain private_answer) as [vd|] eqn:Ed; [|discriminate Ed]. injection Ed as <-.
  eexists. unfold Gitlab_Resolve. cbn [private_answer lk_Error lk_Domain vd_LookupPaths length find_lookup].
  change (isSubPath (Clean (Path (req_URL (demo_get &"/index.html")))) _) with true.
  split; [reflexivity|]. split; reflexivity.
Qed.

Lemma stranger_not_confirmed p :
  ~ confirmed_project empty_session api_forbidden (Some io_conf) (demo_get &"/index.html") p.
Proof. intros (a & session & token & body & _ & _ & _ & H). discriminate H. Qed.

(** The access check fails open on a lookup error: every successful lookup of
    the API protects the page as part of project 7 and GitLab confirms
    nothing, yet there is a run of the cache in which a visitor without a
    session gets the page.  The lookup of the access check failed, which
    counts as no access control, and the next one, of the file handler,
    succeeded. *)
Theorem access_control_fails_open :
  cached_calls (items_cache 600) 60 600 false private_api demo_name race_lookups
  /\ (forall l, private_api demo_name l -> lk_Error l = None ->
        protects demo_disk demo_disk (demo_get &"/index.html") 7 l)
  /\ (forall p, ~ confirmed_project empty_session api_forbidden (Some io_conf) (demo_get &"/index.html") p)
  /\ exists w' k, serve_stranger race_lookups (stranger_content race_lookups) = (Some w', k)
       /\ w_status w' = Some 200%Z /\ w_body w' = &"<h1>home</h1>".
Proof.
  split; [exact race_calls|]. split.
  { intros l [_ [->| ->]] He; [exact private_answer_protects|discriminate He]. }
  split; [exact stranger_not_confirmed|].
  destruct (serve_stranger race_lookups (stranger_content race_lookups)) as [out k] eqn:E.
  vm_compute in E. injection E as <- <-. eexists _, _. split; [reflexivity|]. split; reflexivity.
Qed.

(** An API that does not fail. *)
Definition steady_api (d : str) (l : Lookup) : Prop := d = demo_name /\ l = private_answer.
Definition steady_lookups (n : nat) : Lookup := private_answer.

Lemma steady_calls : cached_calls (items_cache 600) 60 600 false steady_api demo_name steady_lookups.
Proof.
  exists (fun n => match n with 0 => idle | _ => answered end). split; [reflexivity|]. intros [|n].
  - exists idle. split; [constructor|]. apply (resolves_wait _ _ _ _ _ _ _ 0 asked); [done| |done].
    by apply rtc_once, (answer_step _ 0 private_answer asked).
  - exists answered. split; [constructor|by apply resolves_hit].
Qed.

Lemma cached_private_content_needs_gitlab_witness :
  serve_stranger steady_lookups (stranger_content steady_lookups)
  = serve_stranger steady_lookups (fun _ _ => ret None).
Proof.
  apply (cached_private_content_needs_gitlab no_artifacts toy_crypto empty_session cookie_save api_forbidden no_json
    no_json &"state" &"nonce" 0 no_domains (Some io_conf) demo_disk demo_disk (fun _ => ready_source) None (items_cache 600) 60 600
    false steady_api steady_lookups live_app) with (p := 7%Z).
  - exact steady_calls.
  - intros lk [_ ->]. exact private_answer_protects.
  - reflexivity.
  - reflexivity.
  - exact (stranger_not_confirmed 7).
Defined.

(** The private domain with the resolver it has at every call. *)
Lemma one_view_pipeline_witness :
  (live_pipeline (fun _ => private_resolver) token_session cookie_save api_forbidden no_json &"state" no_artifacts
     (Some io_conf) (fun _ => app_domains auth_app) auth_app
     (live_serveFileOrNotFoundHandler (fun _ => private_resolver) token_session cookie_save api_forbidden no_json
        &"state" (Some io_conf)) (demo_ctx &"/index.html") new_response 0).1
  = domain_pipeline no_artifacts transparent auth_app (demo_ctx &"/index.html") new_response.
Proof.
  apply (one_view_pipeline no_artifacts toy_crypto token_session cookie_save api_forbidden no_json no_json &"state"
    &"nonce" 0 no_domains (Some io_conf) (fun _ => app_domains auth_app) (fun _ => private_resolver) transparent
    auth_app (demo_ctx &"/index.html") private_domain).
  - reflexivity.
  - reflexivity.
  - reflexivity.
  - reflexivity.
  - reflexivity.
Defined.

Lemma content_follows_check_witness :
  exists i j, 0 <= j < i
    /\ HasLookupPath (at_call (gitlab_views demo_disk demo_disk steady_lookups) j (Some private_domain))
         (demo_get &"/index.html") = true
    /\ confirmed_project token_session api_ok (Some io_conf) (demo_get &"/index.html") 7.
Proof.
  destruct (content_follows_check no_artifacts toy_crypto token_session cookie_save api_ok no_json no_json &"state"
    &"nonce" 0 no_domains (Some io_conf) (fun _ => app_domains auth_app) (gitlab_views demo_disk demo_disk steady_lookups)
    (mkApp false [] true (app_domains auth_app) None
       (auth_as_app toy_crypto token_session cookie_save api_ok no_json no_json &"state" &"nonce" 0 no_domains
          (Some io_conf)) None [])
    (fun _ w => ret (Some w)) (demo_ctx &"/index.html") (Some private_domain) new_response 0
    eq_refl eq_refl eq_refl) as [Hsame|(i & j & Hij & Hhas & _ & Hc)].
  - specialize (Hsame (fun _ _ => ret None)). vm_compute in Hsame. discriminate Hsame.
  - exists i, j. split; [exact Hij|]. split; [exact Hhas|]. exact (Hc eq_refl).
Defined.
