(* ===== verification/Retriever.v ===== *)
(** * The retriever and the configured cache

    internal/source/gitlab/cache/retriever.go as the two goroutines it runs,
    and how cache.go, memstore.go and retriever.go are put together from the
    configuration.  [Retriever_Retrieve] of Cache.v is what the machine here
    computes; LiveDomain.v has the calls of a request to the cache. *)

From S2P Require Import Prelude GoStd GoPath GoUrl Header Vfs Http Serving Domain GitlabClient Config Cache GitlabSource.
From S2P Require Import DiskServing Tls LiveDomain.

(** ** The goroutines of Retrieve *)

Section Machine.

#[local] Set Default Proof Using "Type".

(** [calls i] is the answer of the [i]-th call of [client.GetLookup]. *)
Context (calls : nat -> Lookup) (retries : nat).

Definition timeout_lookup : Lookup := mkLookup [] (Some (ErrMsg &"retrieval context done")) None.

(** The goroutine of [resolveWithBackoff], after [i] calls with the last
    answer: in its loop, asleep, at the send on the unbuffered channel, or
    done. *)
Inductive worker : Type :=
  | Looping (i : nat) (lookup : Lookup)
  | Sleeping (i : nat) (lookup : Lookup)
  | Sending (lookup : Lookup)
  | Ended.

(** The caller, in the [select] or returned. *)
Inductive caller : Type := Selecting | Returned (lookup : Lookup).

Record rstate : Type := mkRstate { r_worker : worker; r_caller : caller; r_ctx_done : bool }.

Definition r_initial : rstate := mkRstate (Looping 0 zero_lookup) Selecting false.

(** One turn of the loop. *)
Definition loop_turn (i : nat) (lookup : Lookup) : worker :=
  if decide (i < retries) then
    let lookup := calls i in
    if final_answer lookup then Sending lookup else Sleeping (S i) lookup
  else Sending lookup.

Inductive rstep : rstate -> rstate -> Prop :=
  | rs_loop i l c b : rstep (mkRstate (Looping i l) c b) (mkRstate (loop_turn i l) c b)
  | rs_wake i l c b : rstep (mkRstate (Sleeping i l) c b) (mkRstate (Looping i l) c b)
  | rs_deliver l b : rstep (mkRstate (Sending l) Selecting b) (mkRstate Ended (Returned l) b)
  | rs_expire w c : rstep (mkRstate w c false) (mkRstate w c true)
  | rs_give_up w : rstep (mkRstate w Selecting true) (mkRstate w (Returned timeout_lookup) true).

Definition rsteps : rstate -> rstate -> Prop := rtc rstep.

(** ** Lemmas *)

(** What the worker will send. *)
Definition will_send (w : worker) : option Lookup :=
  match w with
  | Looping i l | Sleeping i l => Some (backoff_loop calls i (retries - i) l).1
  | Sending l => Some l
  | Ended => None
  end.

Lemma loop_turn_sends i l : will_send (loop_turn i l) = will_send (Looping i l).
Proof.
  unfold loop_turn. case_decide as Hi.
  - cbn [will_send]. replace (retries - i) with (S (retries - S i)) by lia. cbn [backoff_loop].
    by destruct (final_answer (calls i)).
  - cbn [will_send]. by replace (retries - i) with 0 by lia.
Qed.

(** The machine is on its way to one answer: the worker holds it, or the
    caller got it, or the caller gave up and the worker holds it for ever. *)
Definition on_the_way (st : rstate) : Prop :=
  match r_caller st with
  | Selecting => will_send (r_worker st) = Some (backoff_loop calls 0 retries zero_lookup).1
  | Returned l =>
      (r_worker st = Ended /\ l = (backoff_loop calls 0 retries zero_lookup).1)
      \/ (r_worker st <> Ended /\ l = timeout_lookup /\ r_ctx_done st = true)
  end.

Lemma on_the_way_initial : on_the_way r_initial.
Proof. unfold on_the_way. cbn. by rewrite Nat.sub_0_r. Qed.

Lemma loop_turn_not_ended i l : loop_turn i l <> Ended.
Proof. unfold loop_turn. repeat case_match; done. Qed.

Lemma on_the_way_step st st' : on_the_way st -> rstep st st' -> on_the_way st'.
Proof.
  intros Hw Hs. destruct Hs as [i l c b|i l c b|l b|w c|w]; unfold on_the_way in *; cbn in *.
  - destruct c; [by rewrite loop_turn_sends|]. destruct Hw as [[? _]|(_ & -> & ->)]; [done|].
    right. split; [apply loop_turn_not_ended|done].
  - destruct c; [done|]. destruct Hw as [[? _]|(_ & -> & ->)]; [done|]. by right.
  - left. split; [done|]. congruence.
  - destruct c; [done|]. destruct Hw as [?|(_ & _ & ?)]; [by left|done].
  - right. split; [|done]. intros ->. done.
Qed.

Lemma on_the_way_steps st st' : on_the_way st -> rsteps st st' -> on_the_way st'.
Proof. intros Hw Hs. induction Hs as [|st st1 st2 Hs _ IH]; [done|]. by eapply IH, on_the_way_step. Qed.

(** The worker gets to its send, in at most two steps a call. *)
Definition worker_measure (w : worker) : nat :=
  match w with
  | Looping i _ => 2 * (retries - i) + 1
  | Sleeping i _ => 2 * (retries - i) + 2
  | Sending _ | Ended => 0
  end.

Lemma worker_sends n : forall w c b l, worker_measure w <= n -> will_send w = Some l ->
  exists k, k <= n /\ relations.nsteps rstep k (mkRstate w c b) (mkRstate (Sending l) c b).
Proof.
  induction n as [|n IH]; intros w c b l Hm Hl.
  - destruct w; cbn in *; try lia; [|done]. injection Hl as <-. exists 0. split; [lia|constructor].
  - destruct w as [i l0|i l0|l0|]; [| | |done].
    + destruct (IH (loop_turn i l0) c b l) as (k & Hk & Hs).
      * unfold loop_turn. cbn in Hm. case_decide; [case_match|]; cbn; lia.
      * by rewrite loop_turn_sends.
      * exists (S k). split; [lia|]. econstructor; [constructor|done].
    + destruct (IH (Looping i l0) c b l) as (k & Hk & Hs); [cbn in *; lia|done|].
      exists (S k). split; [lia|]. econstructor; [constructor|done].
    + injection Hl as <-. exists 0. split; [lia|constructor].
Qed.

End Machine.

(** ** The configured cache *)

Record Retriever : Type := mkRetriever {
  rt_client : Client; retrievalTimeout : Z; maxRetrievalInterval : Z; maxRetrievalRetries : Z }.

Definition NewRetriever (client : Client) (timeout interval retries : Z) : Retriever :=
  mkRetriever client timeout interval retries.

Section Answers.

#[local] Set Default Proof Using "Type".

(** What a call of the API may answer: some transport, at some time. *)
Context (Decode : str -> option VirtualDomain * option error) (SignedString : str -> str -> Z -> result str).

Definition api_answer (client : Client) (domain : str) (l : Lookup) : Prop :=
  exists Do now, l = GetLookup Do Decode SignedString now client domain.

(** What the retriever may answer for a domain. *)
Definition retriever_answer (rt : Retriever) (domain : str) (l : Lookup) : Prop :=
  exists timed_out calls, (forall i, api_answer (rt_client rt) domain (calls i))
    /\ l = Retriever_Retrieve timed_out calls (maxRetrievalRetries rt).

(** A lookup the source can use: an error, or a domain. *)
Definition usable (l : Lookup) : Prop := lk_Error l <> None \/ lk_Domain l <> None.

(** The API answered with a body from which the decoder made neither a domain
    nor an error, as it does from the JSON [null]. *)
Definition null_answer (client : Client) (domain : str) (l : Lookup) : Prop :=
  exists Do now body, client_get Do SignedString now client pages_path (host_params domain) = Ok (Some body)
    /\ Decode body = (None, None) /\ l = mkLookup domain None None.

Lemma api_answer_usable client domain l : api_answer client domain l -> usable l \/ null_answer client domain l.
Proof.
  intros (Do & now & ->). unfold GetLookup, usable.
  destruct (client_get _ _ _ _ _ _) as [[body|]|err] eqn:Eg; [|by left; left..].
  destruct (Decode body) as [[dom|] [err|]] eqn:Ed; [by left; left|by left; right|by left; left|].
  right. by exists Do, now, body.
Qed.

Lemma backoff_loop_last calls (P : Lookup -> Prop) : (forall i, P (calls i)) ->
  forall left i l, (left = 0 -> P l) -> P (backoff_loop calls i left l).1.
Proof.
  intros Hp. induction left as [|left IH]; intros i l Hl; [by apply Hl|]. cbn [backoff_loop].
  destruct (final_answer (calls i)); [apply Hp|]. by apply IH.
Qed.

Lemma retriever_answer_usable rt domain l :
  (0 < maxRetrievalRetries rt)%Z -> retriever_answer rt domain l -> usable l \/ null_answer (rt_client rt) domain l.
Proof.
  intros Hr (timed_out & calls & Hc & ->). unfold Retriever_Retrieve, resolveWithBackoff.
  destruct timed_out; [by left; left|].
  apply (backoff_loop_last calls (fun l => usable l \/ null_answer (rt_client rt) domain l)); [|lia].
  intros i. by apply api_answer_usable.
Qed.

End Answers.

Section Setup.

#[local] Set Default Proof Using "Type".

(** [cache.New] of go-cache: the cache with a default expiration and a
    clean-up interval. *)
Context {C : Type} (go_cache_New : Z -> Z -> GoCache C).

Record memstore : Type := mkMemstore {
  ms_store : GoCache C; ms_retriever : Retriever; entryRefreshTimeout : Z; entryExpirationTimeout : Z }.

Definition newMemStore (client : Client) (cc : CacheConfig) : memstore :=
  let retriever := NewRetriever client (c_RetrievalTimeout cc) (c_MaxRetrievalInterval cc) (c_MaxRetrievalRetries cc) in
  mkMemstore (go_cache_New (c_CacheExpiry cc) (c_CacheCleanupInterval cc)) retriever (c_EntryRefreshTimeout cc)
    (c_CacheExpiry cc).

Record Cache : Type := mkCache { cache_client : Client; cache_store : memstore }.

Definition NewCache (client : Client) (cc : CacheConfig) : Cache := mkCache client (newMemStore client cc).

(** [Entry.Lookup] *)
Definition Entry_Lookup (e : Entry) : option Lookup := response e.

Context (Decode : str -> option VirtualDomain * option error) (SignedString : str -> str -> Z -> result str).

(** The lookups of a request over the cache made from the configuration. *)
Definition configured_calls (ff_disabled : bool) (c : Cache) (host : str) (lookups : nat -> Lookup) : Prop :=
  let ms := cache_store c in
  cached_calls (ms_store ms) (entryRefreshTimeout ms) (entryExpirationTimeout ms) ff_disabled
    (retriever_answer Decode SignedString (ms_retriever ms)) host lookups.

End Setup.

(** ** Properties *)

Section RetrieveProperties.

#[local] Set Default Proof Using "Type".

Context (calls : nat -> Lookup) (retries : Z).

Abbreviation turns := (Z.to_nat retries).
Abbreviation steps := (rsteps calls turns).

(** [C24] The goroutines of [Retrieve] compute the function: the caller returns
    a lookup in some run exactly when it is the answer of the last call made
    or the error of the timeout. *)
Theorem Retrieve_computes l :
  (exists w b, steps r_initial (mkRstate w (Returned l) b))
  <-> exists timed_out, l = Retriever_Retrieve timed_out calls retries.
Proof.
  split.
  - intros (w & b & Hs). apply (on_the_way_steps calls turns) in Hs; [|apply on_the_way_initial].
    unfold on_the_way in Hs. cbn in Hs. destruct Hs as [[_ ->]|(_ & -> & _)]; [by exists false|by exists true].
  - intros [[] ->].
    + exists (Looping 0 zero_lookup), true. eapply rtc_l; [apply rs_expire|]. apply rtc_once, rs_give_up.
    + destruct (worker_sends calls turns (2 * turns + 2) (Looping 0 zero_lookup) Selecting false
        (backoff_loop calls 0 turns zero_lookup).1) as (k & _ & Hk).
      * cbn. lia.
      * cbn. by rewrite Nat.sub_0_r.
      * exists Ended, false. eapply rtc_r; [by apply rtc_nsteps; exists k|]. constructor.
Qed.

(** The steps a state has left at most. *)
Definition steps_left (st : rstate) : nat :=
  match r_worker st with
  | Looping i _ => 2 * (turns - i) + 2
  | Sleeping i _ => 2 * (turns - i) + 3
  | Sending _ => 1
  | Ended => 0
  end + match r_caller st with Selecting => 1 | Returned _ => 0 end + (if r_ctx_done st then 0 else 1).

Lemma steps_left_decreases st st' : rstep calls turns st st' -> S (steps_left st') <= steps_left st.
Proof.
  destruct 1 as [i l c b|i l c b|l b|w c|w]; unfold steps_left; cbn [r_worker r_caller r_ctx_done]; [|lia..].
  unfold loop_turn. case_decide; [destruct (final_answer (calls i))|]; destruct c, b; cbn; lia.
Qed.

(** [C23] [Retrieve] returns: no run of its goroutines takes more than two steps
    per allowed call and four more, and in a state with no step left the
    caller has returned. *)
Theorem Retrieve_terminates n st :
  relations.nsteps (rstep calls turns) n r_initial st ->
  n <= 2 * turns + 4 /\ ((forall st', ~ rstep calls turns st st') -> exists l, r_caller st = Returned l).
Proof.
  intros Hn. split.
  - assert (Hm : forall st0, relations.nsteps (rstep calls turns) n st0 st -> n + steps_left st <= steps_left st0).
    { clear. induction n as [|n IH]; intros st0 Hs; inversion Hs as [|? ? st1 ? H1 H2]; subst; [lia|].
      apply steps_left_decreases in H1. apply IH in H2. lia. }
    apply Hm in Hn. unfold steps_left at 2 in Hn. cbn in Hn. lia.
  - intros Hstuck. assert (Hw : on_the_way calls turns st).
    { eapply on_the_way_steps; [apply on_the_way_initial|]. apply rtc_nsteps. by exists n. }
    destruct st as [w [|l] b]; [|by eexists]. unfold on_the_way in Hw. cbn in Hw.
    destruct w as [i l|i l|l|]; [..|done]; exfalso; eapply Hstuck; constructor.
Qed.

(** A retrieval that timed out leaves its goroutine behind: once the caller
    has returned without the answer, the goroutine never ends, and every run
    that cannot go on leaves it at the send on the channel nobody reads. *)
Theorem timed_out_worker_never_ends st l st' :
  steps r_initial st -> r_caller st = Returned l -> r_worker st <> Ended -> steps st st' ->
  r_worker st' <> Ended
  /\ ((forall st2, ~ rstep calls turns st' st2) -> exists l', r_worker st' = Sending l').
Proof.
  intros Hi Hc Hw Hs. assert (Hinv : r_worker st' <> Ended /\ r_caller st' = Returned l).
  { revert Hc Hw. clear Hi. induction Hs as [|st st1 st2 Hstep _ IH]; intros Hc Hw; [done|]. apply IH.
    - destruct Hstep; cbn in *; congruence.
    - destruct Hstep; cbn in *; try done. apply loop_turn_not_ended. }
  destruct Hinv as [He _]. split; [done|]. intros Hstuck. destruct st' as [[i l0|i l0|l0|] c b]; cbn in *; [..|done].
  - exfalso. eapply Hstuck. constructor.
  - exfalso. eapply Hstuck. constructor.
  - by eexists.
Qed.

End RetrieveProperties.

(** [C25] A source built from the configuration meets a nil domain only in an
    answer of the API that is one: when at least one retrieval is configured,
    then whatever the API answers, however long it takes and whatever the
    cache does meanwhile, a lookup of a request either comes from a successful
    answer whose body decodes to no domain and no error (the JSON [null]), or
    has an error or a domain, so that resolving it and looking up its domain
    fail only with that error or for want of a matching path. *)
Theorem configured_source_nil_only_from_null {C} (go_cache_New : Z -> Z -> GoCache C) cc
    `{!GoCacheLaws (go_cache_New (c_CacheExpiry cc) (c_CacheCleanupInterval cc))}
    (Decode : str -> option VirtualDomain * option error) SignedString ff_disabled client
    host lookups n local zip r g (Certificate : Type) :
  (0 < c_MaxRetrievalRetries cc)%Z ->
  configured_calls Decode SignedString ff_disabled (NewCache go_cache_New client cc) host lookups ->
  null_answer Decode SignedString client host (lookups n)
  \/ (forall e, Gitlab_Resolve local zip (fun _ => lookups n) r = Err e ->
        lk_Error (lookups n) = Some e \/ lk_Error (lookups n) = None /\ e = ErrDomainDoesNotExist)
     /\ (forall e, (Gitlab_GetDomain local zip (Certificate := Certificate) (fun _ => lookups n) host g).1 = Err e ->
        lk_Error (lookups n) = Some e).
Proof.
  intros Hr Hc. destruct (retriever_answer_usable Decode SignedString
    (ms_retriever (cache_store (NewCache go_cache_New client cc))) host (lookups n) Hr) as [Hu|Hn].
  { eapply cached_calls_api; [|exact Hc]. done. }
  2: { left. exact Hn. }
  right. unfold usable in Hu. split; intros e.
  - unfold Gitlab_Resolve. destruct (lk_Error (lookups n)) as [err|]; [intros [= <-]; by left|].
    destruct (lk_Domain (lookups n)) as [dom|]; [|by destruct Hu].
    pose proof (find_lookup_spec local zip (length (vd_LookupPaths dom)) (Clean (Path (req_URL r))) (vd_LookupPaths dom))
      as Hf. intros E. rewrite E in Hf. right. by split; [|apply Hf].
  - unfold Gitlab_GetDomain. destruct (lk_Error (lookups n)) as [err|]; [by intros [= <-]|].
    destruct (lk_Domain (lookups n)) as [dom|]; [done|by destruct Hu].
Qed.

(** An answer of the API that decodes to nothing is not recognised: the lookup
    has neither an error nor a domain, and both uses of it dereference the nil
    domain. *)
Theorem null_answer_dereferences_nil Do Decode SignedString now client host body local zip r g (Certificate : Type) :
  client_get Do SignedString now client pages_path (host_params host) = Ok (Some body) -> Decode body = (None, None) ->
  let l := GetLookup Do Decode SignedString now client host in
  Gitlab_Resolve local zip (fun _ => l) r = Err errPanic
  /\ (Gitlab_GetDomain local zip (Certificate := Certificate) (fun _ => l) host g).1 = Err errPanic.
Proof. intros Hg Hd. cbv zeta. unfold GetLookup. by rewrite Hg, Hd. Qed.

(** ** Settings without a retrieval *)

(** The flags of Config.v with no retrieval allowed. *)
Definition zero_retry_flags : Flags :=
  mkFlags [] [] false true &"shared/pages" &"pages.example.com" [] 10 [] [] [] []
    0 0 false false &"text" false [] [] &"https://gitlab.com" [] &"/secret"
    (10 * second) (30 * second) (10 * minute) minute minute (30 * second) second 0 &"gitlab" false
    [] [] [] &"api" 0 false &"tls1.2" []
    (60 * second) (30 * second) (30 * second) (30 * second) false false
    (mkMultiStringFlag [] &",") (mkMultiStringFlag [] &",") (mkMultiStringFlag [] &",") (mkMultiStringFlag [] &",")
    (mkMultiStringFlag [] &";;").

(** The number of retrievals is not validated: the flags with zero of them are
    accepted, and with the retriever made from the accepted configuration
    every request that is resolved dereferences a nil domain. *)
Theorem zero_retries_accepted :
  exists c, loadConfig demo_files zero_retry_flags = Ok c
    /\ forall C (go_cache_New : Z -> Z -> GoCache C) client calls local zip r,
         let rt := ms_retriever (cache_store (NewCache go_cache_New client (Config_Cache c))) in
         Gitlab_Resolve local zip (fun _ => Retriever_Retrieve false calls (maxRetrievalRetries rt)) r = Err errPanic.
Proof.
  exists (loaded_config zero_retry_flags [] [] (demo_secret ++ [ascii_of_nat 0])). split; [|reflexivity].
  apply loadConfig_ok. exists [], [], (demo_secret ++ [ascii_of_nat 0]).
  split; [done|]. split; [done|]. split; [|split; [done|]].
  - right. split; [done|]. eexists. split; [reflexivity|]. exists demo_secret. by vm_compute.
  - apply validateConfig_spec. split; [by left|]. split; [by left|].
    exists VersionTLS12, 0%Z. split; [run|]. split; [run|by left].
Qed.

(** ** Concrete retrievals *)

(** The API fails twice and then answers. *)
Definition third_time (i : nat) : Lookup := if decide (i < 2) then bad_lookup else private_answer.

Lemma Retrieve_computes_witness :
  exists w b, rsteps third_time 3 r_initial (mkRstate w (Returned private_answer) b).
Proof. apply (Retrieve_computes third_time 3). exists false. reflexivity. Defined.

(** The caller gives up during the first call. *)
Definition given_up : rstate := mkRstate (Looping 0 zero_lookup) (Returned timeout_lookup) true.

Lemma given_up_reached retries : rsteps third_time retries r_initial given_up.
Proof. eapply rtc_l; [apply rs_expire|]. apply rtc_once, rs_give_up. Qed.

(** A whole run: two failures, the answer, its delivery, and the deadline. *)
Definition delivered : rstate := mkRstate Ended (Returned private_answer) true.

Lemma delivered_run : relations.nsteps (rstep third_time 3) 7 r_initial delivered.
Proof.
  do 2 (eapply nsteps_l; [apply rs_loop|]; eapply nsteps_l; [apply rs_wake|]).
  eapply nsteps_l; [apply rs_loop|]. eapply nsteps_l; [apply rs_deliver|]. eapply nsteps_l; [apply rs_expire|]. apply nsteps_O.
Qed.

Lemma Retrieve_terminates_witness :
  relations.nsteps (rstep third_time 3) 7 r_initial delivered /\ (forall st', ~ rstep third_time 3 delivered st')
  /\ 7 <= 2 * 3 + 4 /\ exists l, r_caller delivered = Returned l.
Proof.
  destruct (Retrieve_terminates third_time 3 7 delivered delivered_run) as [H1 H2].
  assert (Hs : forall st', ~ rstep third_time 3 delivered st') by (intros st' Hs; inversion Hs).
  split; [exact delivered_run|]. split; [exact Hs|]. split; [exact H1|]. exact (H2 Hs).
Defined.

Lemma timed_out_worker_never_ends_witness : r_worker given_up <> Ended.
Proof.
  apply (timed_out_worker_never_ends third_time 3 given_up timeout_lookup given_up).
  - exact (given_up_reached 3).
  - reflexivity.
  - discriminate.
  - apply rtc_refl.
Defined.

(** The default settings, in seconds, over a transport that is down. *)
Definition default_cache : CacheConfig := mkCacheConfig 600 60 60 30 1 3.
Definition refusing_decoder : str -> option VirtualDomain * option error := fun _ => (None, Some (ErrMsg &"json")).
Definition no_signer : str -> str -> Z -> result str := fun _ _ _ => Err (ErrMsg &"sign").
Definition some_client : Client := mkClient &"secret" no_url 10 30.
Definition items_New (expiry cleanup : Z) : GoCache (list (str * (nat * Z))) := items_cache expiry.
Definition down_lookup : Lookup :=
  GetLookup (fun _ => Err (ErrMsg &"down")) refusing_decoder no_signer 0 some_client demo_name.

Lemma down_calls :
  configured_calls refusing_decoder no_signer false (NewCache items_New some_client default_cache) demo_name
    (fun _ => down_lookup).
Proof.
  assert (Ha : retriever_answer refusing_decoder no_signer (mkRetriever some_client 30 1 3) demo_name down_lookup).
  { exists false, (fun _ => down_lookup). split; [|reflexivity]. intros i. by exists (fun _ => Err (ErrMsg &"down")), 0%Z. }
  set (answered := setResponse 0 down_lookup asked).
  exists (fun n => match n with 0 => init_state (items_cache 600) | _ => answered end). split; [reflexivity|]. intros [|n].
  - exists (init_state (items_cache 600)). split; [constructor|].
    apply (resolves_wait _ _ _ _ _ _ _ 0 asked); [reflexivity| |reflexivity].
    apply rtc_once, (answer_step _ 0 down_lookup asked). by split.
  - exists answered. split; [constructor|]. by apply resolves_hit.
Qed.

Lemma configured_source_nil_only_from_null_witness :
  ~ null_answer refusing_decoder no_signer some_client demo_name down_lookup
  /\ exists e, Gitlab_Resolve demo_disk demo_disk (fun _ => down_lookup) (demo_get &"/") = Err e
       /\ (lk_Error down_lookup = Some e \/ lk_Error down_lookup = None /\ e = ErrDomainDoesNotExist).
Proof.
  assert (Hno : ~ null_answer refusing_decoder no_signer some_client demo_name down_lookup)
    by (intros (Do & t & body & _ & H & _); discriminate H).
  split; [exact Hno|]. exists (ErrMsg &"sign").
  assert (E : Gitlab_Resolve demo_disk demo_disk (fun _ => down_lookup) (demo_get &"/")
    = Err (ErrMsg &"sign")) by (vm_compute; reflexivity). split; [exact E|].
  destruct (configured_source_nil_only_from_null items_New default_cache refusing_decoder no_signer false some_client
    demo_name (fun _ => down_lookup) 0 demo_disk demo_disk (demo_get &"/") (mkGitlab true false) unit) as [H|[H _]].
  - reflexivity.
  - exact down_calls.
  - by destruct Hno.
  - exact (H _ E).
Defined.
