(* ===== verification/HttpRange.v ===== *)
(** * Reading a remote file in ranges

    internal/httprange/{resource,http_reader,http_ranged_reader}.go.  The
    HTTP client is a parameter; the body of a response is the bytes it
    delivers and how it ends, and a read of it may deliver any non-empty part
    that is asked for.  The [Resource] that readers share is passed along, so
    that an error one reader records is seen by the others.  Offsets are
    64-bit integers that wrap around.  Open request gauges are left out. *)

From S2P Require Import Prelude GoStd GoUrl Header Http.

(** ** strconv.ParseInt with base 0 *)

Definition digit_value (c : ascii) : option Z :=
  let n := Z.of_nat (nat_of_ascii c) in
  let l := Z.of_nat (nat_of_ascii (lower_byte c)) in
  if (48 <=? n)%Z && (n <=? 57)%Z then Some (n - 48)%Z
  else if (97 <=? l)%Z && (l <=? 122)%Z then Some (l - 97 + 10)%Z
  else None.

Fixpoint parse_digits (base n : Z) (s : str) : option Z :=
  match s with
  | [] => Some n
  | c :: s' =>
      if decide (c = "_"%char) then parse_digits base n s'
      else
        match digit_value c with
        | None => None
        | Some d =>
            if (base <=? d)%Z then None
            else if (2 ^ 64 <=? n * base + d)%Z then None
            else parse_digits base (n * base + d) s'
        end
  end.

(** The base and the digits of a number without sign. *)
Definition base_prefix (s : str) : Z * str :=
  match s with
  | "0"%char :: c :: d :: s' =>
      let l := lower_byte c in
      if decide (l = "b"%char) then (2%Z, d :: s')
      else if decide (l = "o"%char) then (8%Z, d :: s')
      else if decide (l = "x"%char) then (16%Z, d :: s')
      else (8%Z, c :: d :: s')
  | "0"%char :: s' => (8%Z, s')
  | _ => (10%Z, s)
  end.

(** Underscores only between digits or after the prefix; [seen] is the kind of
    the last byte: a digit, an underscore or something else. *)
Inductive seen_byte : Type := SeenNone | SeenDigit | SeenUnderscore | SeenOther.

Fixpoint underscores_between (hex : bool) (seen : seen_byte) (s : str) : bool :=
  match s with
  | [] => match seen with SeenUnderscore => false | _ => true end
  | c :: s' =>
      let is_digit := match digit_value c with
                      | Some d => (d <? 10)%Z || (hex && (d <? 16)%Z)
                      | None => false
                      end in
      if is_digit then underscores_between hex SeenDigit s'
      else if decide (c = "_"%char) then
        match seen with SeenDigit => underscores_between hex SeenUnderscore s' | _ => false end
      else
        match seen with SeenUnderscore => false | _ => underscores_between hex SeenOther s' end
  end.

Definition underscoreOK (s : str) : bool :=
  match s with
  | "0"%char :: c :: s' =>
      let l := lower_byte c in
      if bool_decide (l = "b"%char) || bool_decide (l = "o"%char) || bool_decide (l = "x"%char)
      then underscores_between (bool_decide (l = "x"%char)) SeenDigit s'
      else underscores_between false SeenNone s
  | _ => underscores_between false SeenNone s
  end.

Definition ParseInt (s : str) : option Z :=
  let '(neg, digits) := match s with
                        | "+"%char :: s' => (false, s')
                        | "-"%char :: s' => (true, s')
                        | _ => (false, s)
                        end in
  if decide (digits = []) then None
  else
    let '(base, ds) := base_prefix digits in
    match parse_digits base 0 ds with
    | None => None
    | Some un =>
        if negb (underscoreOK digits) then None
        else if negb neg && (2 ^ 63 <=? un)%Z then None
        else if neg && (2 ^ 63 <? un)%Z then None
        else Some (if neg then - un else un)%Z
    end.

(** ** Errors *)

Definition ErrNotFound : error := ErrSentinel &"resource not found".
Definition ErrRangeRequestsNotSupported : error :=
  ErrSentinel &"requests range is not supported by the remote server".
Definition ErrInvalidRange : error := ErrSentinel &"invalid range".
Definition errSeekInvalidWhence : error := ErrSentinel &"invalid whence".
Definition errSeekOutsideRange : error := ErrSentinel &"outside of range".
Definition io_EOF : error := ErrSentinel &"EOF".
Definition io_ErrUnexpectedEOF : error := ErrSentinel &"unexpected EOF".

(** ** Responses *)

(** The bytes a body delivers before it ends with [body_end] ([io.EOF] for a
    complete one). *)
Record Body : Type := mkBody { body_data : str; body_end : error }.

Record RangeResponse : Type := mkRangeResponse {
  rr_StatusCode : Z; rr_Header : Header; rr_ContentLength : Z; rr_Body : Body }.

(** How one read of a body goes: at most [more + 1] bytes are there, and the
    end may be reported together with the last byte ([eager]). *)
Record arrival : Type := mkArrival { more : nat; eager : bool }.

Definition body_Read (b : Body) (at_ : arrival) (len : nat) : str * option error * Body :=
  match body_data b with
  | [] => ([], Some (body_end b), b)
  | data =>
      let n := Nat.min (S (more at_)) len in
      let rest := drop n data in
      (take n data, (if eager at_ && bool_decide (rest = []) then Some (body_end b) else None),
       mkBody rest (body_end b))
  end.

(** ** resource.go *)

Record Resource : Type := mkResource {
  res_ETag : str; res_LastModified : str; res_Size : Z; res_url : str; res_err : option error }.

Definition SetURL (url : str) (R : Resource) : Resource :=
  mkResource (res_ETag R) (res_LastModified R) (res_Size R) url (res_err R).
Definition Resource_Err (R : Resource) : option error := res_err R.
Definition Resource_Valid (R : Resource) : bool :=
  match Resource_Err R with None => true | Some _ => false end.
Definition setError (e : error) (R : Resource) : Resource :=
  mkResource (res_ETag R) (res_LastModified R) (res_Size R) (res_url R) (Some e).

(** The headers of a request for the resource. *)
Definition Resource_Request (R : Resource) : result Header :=
  match Parse (res_url R) with
  | None => Err (ErrMsg &"parse")
  | Some _ =>
      Ok (if nonempty (res_ETag R) then Header_Set ∅ &"ETag" (res_ETag R)
          else if nonempty (res_LastModified R) then Header_Set ∅ &"If-Range" (res_LastModified R)
          else ∅)
  end.

Definition range_header (first last : Z) : str := &"bytes=" ++ FormatInt first ++ &"-" ++ FormatInt last.

Section HttpRange.

#[local] Set Default Proof Using "Type".

(** [httpClient.Do] on a GET of the URL with the headers. *)
Context (Do : str -> Header -> result RangeResponse).

Definition NewResource (url : str) : result Resource :=
  match Parse url with
  | None => Err (ErrMsg &"parse")
  | Some _ =>
      match Do url (Header_Set ∅ &"Range" (range_header 0 0)) with
      | Err e => Err e
      | Ok res =>
          let resource size := mkResource (Header_Get (rr_Header res) &"ETag")
            (Header_Get (rr_Header res) &"Last-Modified") size url None in
          if (rr_StatusCode res =? 200)%Z then Ok (resource (rr_ContentLength res))
          else if (rr_StatusCode res =? 206)%Z then
            let contentRange := Header_Get (rr_Header res) &"Content-Range" in
            match SplitN contentRange "/" 2 with
            | [_; size] =>
                match ParseInt size with
                | Some n => Ok (resource n)
                | None => Err (ErrWrap (&"invalid `Content-Range`: " ++ contentRange) (ErrMsg &"strconv.ParseInt"))
                end
            | _ => Err (ErrMsg (&"invalid `Content-Range`: " ++ contentRange))
            end
          else if (rr_StatusCode res =? 416)%Z then Err ErrRangeRequestsNotSupported
          else if (rr_StatusCode res =? 404)%Z then Err ErrNotFound
          else Err (ErrMsg (&"httprange: new resource " ++ FormatInt (rr_StatusCode res)))
      end
  end.

(** ** http_reader.go *)

Record Reader : Type := mkReader {
  rangeStart : Z; rangeSize : Z; offset : Z; reader_res : option Body }.

Definition NewReader (offset size : Z) : Reader := mkReader offset size offset None.

Definition Reader_Close (r : Reader) : Reader := mkReader (rangeStart r) (rangeSize r) (offset r) None.

(** The end of the range, as the code computes it. *)
Definition rangeEnd (r : Reader) : Z := wrap64 (rangeStart r + rangeSize r).

Definition prepareRequest (R : Resource) (r : Reader) : result Header :=
  if ((rangeStart r <? 0) || (rangeSize r <? 0) || (res_Size R <? rangeEnd r))%Z then Err ErrInvalidRange
  else if ((offset r <? rangeStart r) || (rangeEnd r <=? offset r))%Z then Err ErrInvalidRange
  else
    let? hdr := Resource_Request R in
    Ok (Header_Set hdr &"Range" (range_header (offset r) (wrap64 (rangeEnd r - 1)))).

Definition setResponse (R : Resource) (r : Reader) (res : RangeResponse) : option error * Resource * Reader :=
  let keep := (None, R, mkReader (rangeStart r) (rangeSize r) (offset r) (Some (rr_Body res))) in
  let corrupted e := (Some e, setError e R, r) in
  if (rr_StatusCode res =? 200)%Z then
    if (0 <? offset r)%Z
       || nonempty (res_ETag R) && negb (bool_decide (res_ETag R = Header_Get (rr_Header res) &"ETag"))
    then corrupted ErrRangeRequestsNotSupported else keep
  else if (rr_StatusCode res =? 404)%Z then corrupted ErrNotFound
  else if (rr_StatusCode res =? 206)%Z then keep
  else if (rr_StatusCode res =? 416)%Z then corrupted ErrRangeRequestsNotSupported
  else (Some (ErrMsg (&"httprange: read response " ++ FormatInt (rr_StatusCode res))), R, r).

Definition ensureResponse (R : Resource) (r : Reader) : option error * Resource * Reader :=
  match reader_res r with
  | Some _ => (None, R, r)
  | None =>
      match prepareRequest R r with
      | Err e => (Some e, R, r)
      | Ok hdr =>
          match Do (res_url R) hdr with
          | Err e => (Some e, R, r)
          | Ok res => setResponse R r res
          end
      end
  end.

Inductive whence : Type := SeekStart | SeekCurrent | SeekEnd | SeekInvalid.

Definition Seek (off : Z) (wh : whence) (r : Reader) : result Z * Reader :=
  let newOffset := match wh with
                   | SeekStart => Some (wrap64 (rangeStart r + off))
                   | SeekCurrent => Some (wrap64 (offset r + off))
                   | SeekEnd => Some (wrap64 (rangeEnd r + off))
                   | SeekInvalid => None
                   end in
  match newOffset with
  | None => (Err errSeekInvalidWhence, r)
  | Some n =>
      if ((n <? rangeStart r) || (rangeEnd r <? n))%Z then (Err errSeekOutsideRange, r)
      else
        let r := if (n =? offset r)%Z then r else Reader_Close r in
        (Ok (wrap64 (n - rangeStart r)), mkReader (rangeStart r) (rangeSize r) n (reader_res r))
  end.

(** Data, error, and the states of the resource and the reader. *)
Definition Read (R : Resource) (r : Reader) (at_ : arrival) (len : nat)
  : str * option error * Resource * Reader :=
  if len =? 0 then ([], None, R, r)
  else
    let '(err, R, r) := ensureResponse R r in
    match err, reader_res r with
    | Some e, _ => ([], Some e, R, r)
    | None, None => ([], None, R, r)
    | None, Some body =>
        let '(data, err, body') := body_Read body at_ len in
        let advance := match err with None => true | Some e => bool_decide (e = io_EOF) end in
        let offset' := if advance then wrap64 (offset r + Z.of_nat (length data)) else offset r in
        (data, err, R, mkReader (rangeStart r) (rangeSize r) offset' (Some body'))
    end.

(** [io.ReadFull]: the [i]-th read goes as [arr i]; at most [fuel] reads. *)
Fixpoint read_at_least (fuel : nat) (R : Resource) (r : Reader) (arr : nat -> arrival) (acc : str) (len : nat)
  : str * option error * Resource * Reader :=
  if len =? 0 then (acc, None, R, r)
  else
    match fuel with
    | 0 => (acc, None, R, r)
    | S fuel' =>
        let '(data, err, R, r) := Read R r (arr fuel') len in
        let acc := acc ++ data in
        let len := len - length data in
        match err with
        | None => read_at_least fuel' R r arr acc len
        | Some e =>
            if len =? 0 then (acc, None, R, r)
            else (acc, Some (if nonempty acc && bool_decide (e = io_EOF) then io_ErrUnexpectedEOF else e), R, r)
        end
    end.

Definition ReadFull (R : Resource) (r : Reader) (arr : nat -> arrival) (len : nat)
  : str * option error * Resource * Reader := read_at_least len R r arr [] len.

(** ** http_ranged_reader.go *)

(** The [cachedReader] of a [RangedReader]; the resource is passed along. *)
Definition RangedReader : Type := option Reader.
Definition NewRangedReader : RangedReader := None.

Definition SectionReader (off size : Z) : Reader := NewReader off size.

Definition cachedRead (R : Resource) (c : Reader) (arr : nat -> arrival) (len : nat) (off : Z)
  : str * option error * Resource * Reader :=
  match Seek off SeekStart c with
  | (Err e, c') => ([], Some e, R, c')
  | (Ok _, c') => ReadFull R c' arr len
  end.

Definition ephemeralRead (R : Resource) (arr : nat -> arrival) (len : nat) (off : Z)
  : str * option error * Resource :=
  let '(data, err, R, _) := ReadFull R (NewReader off (Z.of_nat len)) arr len in (data, err, R).

Definition ReadAt (R : Resource) (rr : RangedReader) (arr : nat -> arrival) (len : nat) (off : Z)
  : str * option error * Resource * RangedReader :=
  match rr with
  | Some c => let '(data, err, R, c') := cachedRead R c arr len off in (data, err, R, Some c')
  | None => let '(data, err, R) := ephemeralRead R arr len off in (data, err, R, None)
  end.

(** [readFunc] works on the ranged reader with the reader in place. *)
Definition WithCachedReader {A} (R : Resource) (readFunc : Resource -> RangedReader -> A * Resource * RangedReader)
  : A * Resource * RangedReader :=
  let '(a, R, _) := readFunc R (Some (NewReader 0 (res_Size R))) in (a, R, None).

End HttpRange.

Example ParseInt_samples :
  ParseInt &"1234" = Some 1234%Z /\ ParseInt &"-0x1_F" = Some (-31)%Z /\ ParseInt &"017" = Some 15%Z
  /\ ParseInt &"*" = None /\ ParseInt &"1__0" = None /\ ParseInt &"9223372036854775808" = None
  /\ ParseInt &"0" = Some 0%Z /\ ParseInt &"0_7" = Some 7%Z.
Proof. vm_compute. repeat split. Qed.

(** ** Lemmas *)

(** The bytes [a .. b) of [data]. *)
Definition slice (data : str) (a b : Z) : str := take (Z.to_nat (b - a)) (drop (Z.to_nat a) data).

Lemma slice_length data a b :
  (0 <= a <= b)%Z -> (b <= Z.of_nat (length data))%Z -> length (slice data a b) = Z.to_nat (b - a).
Proof. intros Ha Hb. unfold slice. rewrite length_take, length_drop. lia. Qed.

Lemma slice_empty data a : slice data a a = [].
Proof. unfold slice. by rewrite Z.sub_diag. Qed.

Lemma slice_take data a b n :
  (0 <= a <= b)%Z -> (Z.of_nat n <= b - a)%Z -> take n (slice data a b) = slice data a (a + Z.of_nat n).
Proof.
  intros Ha Hn. unfold slice. rewrite take_take. f_equal. lia.
Qed.

Lemma slice_drop data a b n :
  (0 <= a <= b)%Z -> (Z.of_nat n <= b - a)%Z -> drop n (slice data a b) = slice data (a + Z.of_nat n) b.
Proof.
  intros Ha Hn. unfold slice. rewrite skipn_firstn_comm, drop_drop. f_equal; [lia|]. f_equal. lia.
Qed.

Lemma slice_app data a b c :
  (0 <= a <= b)%Z -> (b <= c)%Z -> slice data a b ++ slice data b c = slice data a c.
Proof.
  intros Ha Hb. rewrite <- (take_drop (Z.to_nat (b - a)) (slice data a c)).
  rewrite slice_take, slice_drop by lia. by rewrite !Z2Nat.id, Z.add_comm, Z.sub_add by lia.
Qed.

(** A server that keeps to range requests (RFC 7233): a satisfiable range of
    the file is answered with exactly these bytes. *)
Class RangeServer (Do : str -> Header -> result RangeResponse) (url : str) (data : str) : Prop :=
  serves_range hdr a b :
    (0 <= a <= b)%Z -> (b < Z.of_nat (length data))%Z -> Header_Get hdr &"Range" = range_header a b ->
    exists h n, Do url hdr = Ok (mkRangeResponse 206 h n (mkBody (slice data a (b + 1)) io_EOF)).

Lemma Header_Get_Set_range h v : Header_Get (Header_Set h &"Range" v) &"Range" = v.
Proof.
  unfold Header_Get, Header_Set, header_values. change (CanonicalHeaderKey &"Range") with &"Range".
  by rewrite lookup_insert_eq.
Qed.

(** A new resource has the URL it was asked for. *)
Lemma NewResource_url Do url R : NewResource Do url = Ok R -> res_url R = url /\ res_err R = None.
Proof. unfold NewResource. intros H. by repeat case_match; simplify_eq. Qed.

(** A request that was prepared asks for bytes of the resource. *)
Lemma prepareRequest_bounds R r hdr :
  in_int64 (rangeStart r) -> in_int64 (rangeSize r) ->
  prepareRequest R r = Ok hdr ->
  exists last, Header_Get hdr &"Range" = range_header (offset r) last
    /\ (0 <= rangeStart r <= offset r)%Z /\ (offset r <= last)%Z /\ (last < res_Size R)%Z
    /\ last = (rangeStart r + rangeSize r - 1)%Z.
Proof.
  intros Hs Hz. unfold prepareRequest.
  destruct ((rangeStart r <? 0) || (rangeSize r <? 0) || (res_Size R <? rangeEnd r))%Z eqn:E1; [done|].
  destruct ((offset r <? rangeStart r) || (rangeEnd r <=? offset r))%Z eqn:E2; [done|]. bools. intros (h & Hh & [= <-])%result_bind_ok.
  assert (Hend : rangeEnd r = (rangeStart r + rangeSize r)%Z).
  { pose proof (wrap64_in (rangeStart r + rangeSize r)) as Hin. unfold rangeEnd in *.
    destruct (wrap64_sum _ _ Hs Hz) as [Hw|[Hw|Hw]]; rewrite Hw in *; unfold in_int64 in *; lia. }
  exists (rangeEnd r - 1)%Z. split.
  - rewrite wrap64_small; [apply Header_Get_Set_range|].
    pose proof (wrap64_in (rangeStart r + rangeSize r)) as Hin. unfold rangeEnd in *. unfold in_int64 in *. lia.
  - lia.
Qed.

Section Correctness.

#[local] Set Default Proof Using "Type".

Context (Do : str -> Header -> result RangeResponse) (url data : str).
Context {server : RangeServer Do url data}.

Definition fits : Prop := (Z.of_nat (length data) < 2 ^ 63)%Z.

(** A reader of the file: its range lies in the file, its offset in the range,
    and an open response is about to deliver the bytes from the offset on. *)
Definition reader_ok (r : Reader) : Prop :=
  (0 <= rangeStart r)%Z /\ (0 <= rangeSize r)%Z
  /\ (rangeStart r + rangeSize r <= Z.of_nat (length data))%Z
  /\ (rangeStart r <= offset r <= rangeStart r + rangeSize r)%Z
  /\ forall b, reader_res r = Some b -> b = mkBody (slice data (offset r) (rangeStart r + rangeSize r)) io_EOF.

(** A resource that describes the file and whose URL parses. *)
Definition resource_ok (R : Resource) : Prop :=
  res_url R = url /\ res_Size R = Z.of_nat (length data) /\ is_Some (Parse url).

Lemma reader_ok_end r : fits -> reader_ok r -> rangeEnd r = (rangeStart r + rangeSize r)%Z.
Proof. unfold fits, reader_ok, rangeEnd. intros. apply wrap64_small. unfold in_int64. lia. Qed.

Lemma NewReader_ok off size :
  (0 <= off)%Z -> (0 <= size)%Z -> (off + size <= Z.of_nat (length data))%Z -> reader_ok (NewReader off size).
Proof. intros. unfold reader_ok. simpl. repeat split; try lia. done. Qed.

Lemma ensureResponse_ok R r :
  fits -> resource_ok R -> reader_ok r -> (offset r < rangeStart r + rangeSize r)%Z ->
  ensureResponse Do R r
  = (None, R, mkReader (rangeStart r) (rangeSize r) (offset r)
                (Some (mkBody (slice data (offset r) (rangeStart r + rangeSize r)) io_EOF))).
Proof using server.
  intros Hf (Hu & Hz & Hp) Hr Ho. pose proof (reader_ok_end r Hf Hr) as He.
  destruct r as [rs sz o [b|]]; cbn [rangeStart rangeSize offset reader_res] in *; unfold ensureResponse;
    cbn [reader_res]; destruct Hr as (H1 & H2 & H3 & H4 & Hb); cbn [rangeStart rangeSize offset reader_res] in *.
  { by rewrite (Hb b eq_refl). }
  unfold prepareRequest. rewrite He. cbn [rangeStart rangeSize offset].
  destruct ((rs <? 0) || (sz <? 0) || (res_Size R <? rs + sz))%Z eqn:E1.
  { exfalso. rewrite !orb_true_iff, !Z.ltb_lt in E1. lia. }
  destruct ((o <? rs) || (rs + sz <=? o))%Z eqn:E2.
  { exfalso. rewrite orb_true_iff, Z.ltb_lt, Z.leb_le in E2. lia. }
  unfold Resource_Request. rewrite Hu. destruct Hp as [u Hp]. rewrite Hp. cbn [result_bind].
  rewrite wrap64_small by (unfold fits, in_int64 in *; lia).
  edestruct (server (Header_Set
     (if nonempty (res_ETag R) then Header_Set ∅ &"ETag" (res_ETag R)
      else if nonempty (res_LastModified R) then Header_Set ∅ &"If-Range" (res_LastModified R) else ∅)
     &"Range" (range_header o (rs + sz - 1)%Z)) o (rs + sz - 1)%Z) as (h & n & ->);
    [lia|lia|apply Header_Get_Set_range|].
  unfold setResponse. cbn. by replace (rs + sz - 1 + 1)%Z with (rs + sz)%Z by lia.
Qed.

(** One read delivers the next bytes of the file. *)
Lemma Read_ok R r at_ len :
  fits -> resource_ok R -> reader_ok r -> (offset r < rangeStart r + rangeSize r)%Z -> 0 < len ->
  exists n err r',
    Read Do R r at_ len = (slice data (offset r) (offset r + Z.of_nat n), err, R, r')
    /\ 0 < n <= len /\ reader_ok r' /\ rangeStart r' = rangeStart r /\ rangeSize r' = rangeSize r
    /\ offset r' = (offset r + Z.of_nat n)%Z
    /\ (err = None \/ err = Some io_EOF /\ offset r' = (rangeStart r + rangeSize r)%Z).
Proof using server.
  intros Hf HR Hr Ho Hlen. unfold Read. replace (len =? 0) with false by (symmetry; apply Nat.eqb_neq; lia).
  rewrite ensureResponse_ok by done. destruct Hr as (H1 & H2 & H3 & H4 & _).
  set (e := (rangeStart r + rangeSize r)%Z) in *. cbn [reader_res rangeStart rangeSize offset].
  unfold body_Read. cbn [body_data body_end].
  pose proof (slice_length data (offset r) e ltac:(lia) ltac:(lia)) as Hl.
  destruct (slice data (offset r) e) as [|c cs] eqn:Es; [simpl in Hl; lia|]. rewrite <- Es in *. clear c cs Es.
  set (n := Nat.min (Nat.min (S (more at_)) len) (Z.to_nat (e - offset r))).
  assert (Ht : take (Nat.min (S (more at_)) len) (slice data (offset r) e) = slice data (offset r) (offset r + Z.of_nat n)).
  { rewrite <- (slice_take _ _ e) by lia. subst n.
    destruct (Nat.min_spec (Nat.min (S (more at_)) len) (Z.to_nat (e - offset r))) as [[_ ->]|[Hx ->]]; [done|].
    rewrite !take_ge by lia. done. }
  assert (Hd : drop (Nat.min (S (more at_)) len) (slice data (offset r) e) = slice data (offset r + Z.of_nat n) e).
  { rewrite <- (slice_drop _ _ e) by lia. subst n.
    destruct (Nat.min_spec (Nat.min (S (more at_)) len) (Z.to_nat (e - offset r))) as [[_ ->]|[Hx ->]]; [done|].
    rewrite !drop_ge by lia. done. }
  rewrite Ht, Hd, slice_length by lia.
  assert (Hw : wrap64 (offset r + Z.of_nat (Z.to_nat (offset r + Z.of_nat n - offset r))) = (offset r + Z.of_nat n)%Z).
  { rewrite wrap64_small; [lia|]. unfold fits, in_int64 in *. lia. }
  eexists n, _, _. split; [reflexivity|]. cbn [rangeStart rangeSize offset].
  assert (Hadv : match (if eager at_ && bool_decide (slice data (offset r + Z.of_nat n) e = []) then Some io_EOF else None)
    with None => true | Some x => bool_decide (x = io_EOF) end = true).
  { destruct (_ && _); [by apply bool_decide_eq_true_2|done]. }
  rewrite Hadv, Hw. split; [lia|]. split.
  - unfold reader_ok. cbn [rangeStart rangeSize offset reader_res]. repeat split; try lia. by intros b [= <-].
  - repeat split. destruct (eager at_); [|by left]. simpl.
    case_bool_decide as Hn; [|by left]. right. split; [done|].
    apply (f_equal length) in Hn. rewrite slice_length in Hn by lia. simpl in Hn. lia.
Qed.

(** Reading in parts of any size gives the same bytes. *)
Lemma read_at_least_ok R arr fuel : forall r acc len,
  fits -> resource_ok R -> reader_ok r -> (offset r + Z.of_nat len <= rangeStart r + rangeSize r)%Z -> len <= fuel ->
  exists r', read_at_least Do fuel R r arr acc len
             = (acc ++ slice data (offset r) (offset r + Z.of_nat len), None, R, r')
    /\ reader_ok r' /\ rangeStart r' = rangeStart r /\ rangeSize r' = rangeSize r
    /\ offset r' = (offset r + Z.of_nat len)%Z.
Proof using server.
  induction fuel as [|fuel IH]; intros r acc len Hf HR Hr Ho Hlen.
  { assert (len = 0) as -> by lia. exists r. simpl. rewrite Z.add_0_r, slice_empty, app_nil_r. done. }
  cbn [read_at_least]. destruct (len =? 0) eqn:E0.
  { apply Nat.eqb_eq in E0 as ->. exists r. rewrite Z.add_0_r, slice_empty, app_nil_r. done. }
  apply Nat.eqb_neq in E0.
  destruct (Read_ok R r (arr fuel) len) as (n & err & r1 & -> & Hn & Hr1 & Hs1 & Hz1 & Ho1 & Herr); try done; [lia..|].
  assert (Hbnd : (0 <= offset r)%Z /\ (offset r + Z.of_nat n <= Z.of_nat (length data))%Z).
  { destruct Hr as (? & ? & ? & ? & _). lia. }
  rewrite slice_length by lia.
  replace (Z.to_nat (offset r + Z.of_nat n - offset r)) with n by lia.
  assert (Hgo : slice data (offset r) (offset r + Z.of_nat n)
      ++ slice data (offset r1) (offset r1 + Z.of_nat (len - n)) = slice data (offset r) (offset r + Z.of_nat len)).
  { rewrite Ho1. replace (offset r + Z.of_nat n + Z.of_nat (len - n))%Z with (offset r + Z.of_nat len)%Z by lia.
    apply slice_app; lia. }
  destruct Herr as [->|[-> He]].
  - destruct (IH r1 (acc ++ slice data (offset r) (offset r + Z.of_nat n)) (len - n) Hf HR Hr1)
      as (r2 & -> & Hr2 & Hs2 & Hz2 & Ho2); [rewrite Ho1, Hs1, Hz1; lia|lia|].
    exists r2. rewrite <- app_assoc, Hgo. split; [done|]. split; [done|]. split; [congruence|].
    split; [congruence|lia].
  - assert (len = n) by lia. subst len. rewrite Nat.sub_diag. cbn. exists r1. done.
Qed.

Lemma ReadFull_ok R arr r len :
  fits -> resource_ok R -> reader_ok r -> (offset r + Z.of_nat len <= rangeStart r + rangeSize r)%Z ->
  exists r', ReadFull Do R r arr len = (slice data (offset r) (offset r + Z.of_nat len), None, R, r')
    /\ reader_ok r' /\ rangeStart r' = rangeStart r /\ rangeSize r' = rangeSize r
    /\ offset r' = (offset r + Z.of_nat len)%Z.
Proof using server. intros. by apply (read_at_least_ok R arr len r [] len). Qed.

(** Seeking keeps the invariant, and goes to the offset that was asked for. *)
Lemma Seek_ok off wh r :
  fits -> reader_ok r -> reader_ok (Seek off wh r).2
  /\ rangeStart (Seek off wh r).2 = rangeStart r /\ rangeSize (Seek off wh r).2 = rangeSize r.
Proof.
  intros Hf Hr. pose proof (reader_ok_end r Hf Hr) as He. unfold Seek.
  set (newOffset := match wh with SeekStart => _ | _ => _ end). destruct newOffset as [n|]; [|done].
  destruct ((n <? rangeStart r) || (rangeEnd r <? n))%Z eqn:E; [done|]. bools.
  destruct Hr as (H1 & H2 & H3 & H4 & Hb). unfold reader_ok.
  destruct (n =? offset r)%Z eqn:En; cbn [Reader_Close rangeStart rangeSize offset reader_res snd].
  - apply Z.eqb_eq in En as ->. repeat split; try lia. done.
  - repeat split; try lia. done.
Qed.

Lemma Seek_start_ok off r :
  fits -> reader_ok r -> (0 <= off <= rangeSize r)%Z ->
  (Seek off SeekStart r).1 = Ok off /\ offset (Seek off SeekStart r).2 = (rangeStart r + off)%Z.
Proof.
  intros Hf Hr Ho. pose proof (reader_ok_end r Hf Hr) as He. destruct Hr as (H1 & H2 & H3 & H4 & _).
  unfold Seek. rewrite (wrap64_small (rangeStart r + off)) by (unfold fits, in_int64 in *; lia).
  destruct ((rangeStart r + off <? rangeStart r) || (rangeEnd r <? rangeStart r + off))%Z eqn:E.
  { exfalso. rewrite orb_true_iff, !Z.ltb_lt in E. lia. }
  split; [|done]. cbn [fst].
  destruct (_ =? offset r)%Z; cbn [Reader_Close rangeStart];
    (rewrite wrap64_small; [f_equal; lia|unfold fits, in_int64 in *; lia]).
Qed.

(** The reader a [RangedReader] keeps covers the whole file. *)
Definition ranged_ok (rr : RangedReader) : Prop :=
  forall c, rr = Some c -> reader_ok c /\ rangeStart c = 0%Z /\ rangeSize c = Z.of_nat (length data).

(** [C20] Reading at an offset gives the bytes of the remote file: with a
    server that answers range requests, [ReadAt] returns exactly the bytes
    asked for and no error, with and without the cached reader, however the
    connection cuts the bytes into parts, and leaves the reader fit for the
    next read. *)
Theorem ReadAt_reads_file R rr arr len off :
  fits -> resource_ok R -> ranged_ok rr -> (0 <= off)%Z -> (off + Z.of_nat len <= Z.of_nat (length data))%Z ->
  exists rr', ReadAt Do R rr arr len off = (slice data off (off + Z.of_nat len), None, R, rr') /\ ranged_ok rr'.
Proof using server.
  intros Hf HR Hrr Ho Hl. destruct rr as [c|]; unfold ReadAt.
  - destruct (Hrr c eq_refl) as (Hc & Hs & Hz). unfold cachedRead.
    destruct (Seek_start_ok off c Hf Hc ltac:(lia)) as [Hok Hoff].
    destruct (Seek_ok off SeekStart c Hf Hc) as (Hc' & Hs' & Hz').
    destruct (Seek off SeekStart c) as [out c']. cbn [fst snd] in *. subst out. rewrite Hs in Hoff.
    destruct (ReadFull_ok R arr c' len Hf HR Hc') as (c2 & -> & Hc2 & Hs2 & Hz2 & _); [rewrite Hs', Hz', Hs, Hz; lia|].
    exists (Some c2). rewrite Hoff. split; [done|]. intros ? [= <-]. split; [done|]. split; congruence.
  - unfold ephemeralRead.
    destruct (ReadFull_ok R arr (NewReader off (Z.of_nat len)) len Hf HR) as (c & -> & _);
      [apply NewReader_ok; lia|simpl; lia|]. by exists None.
Qed.

End Correctness.

(** ** Properties *)

(** [C34] Only bytes of the resource are asked for, whatever the range: a
    reader, with any 64-bit start and size (an archive may claim sizes for
    which their sum overflows), sends a request only for a range that starts
    at its offset, ends at the end of its section and lies inside the size of
    the resource. *)
Theorem range_requests_in_bounds R r hdr :
  in_int64 (rangeStart r) -> in_int64 (rangeSize r) ->
  prepareRequest R r = Ok hdr ->
  exists last, Header_Get hdr &"Range" = range_header (offset r) last
    /\ (0 <= rangeStart r <= offset r)%Z /\ (offset r <= last < res_Size R)%Z
    /\ last = (rangeStart r + rangeSize r - 1)%Z.
Proof.
  intros Hs Hz Hp. destruct (prepareRequest_bounds R r hdr Hs Hz Hp) as (last & H1 & H2 & H3 & H4 & H5).
  exists last. repeat split; [done|lia|lia|lia|lia|done].
Qed.

(** A reader of an empty section does not report the end of the file: reading
    it is an error of its own. *)
Theorem empty_section_is_invalid Do R off at_ len :
  0 < len -> in_int64 off ->
  Read Do R (SectionReader off 0) at_ len = ([], Some ErrInvalidRange, R, SectionReader off 0).
Proof.
  intros Hl Hoff. unfold Read. replace (len =? 0) with false by (symmetry; apply Nat.eqb_neq; lia).
  change (SectionReader off 0) with (NewReader off 0). unfold ensureResponse.
  change (reader_res (NewReader off 0)) with (@None Body). cbn iota.
  assert (prepareRequest R (NewReader off 0) = Err ErrInvalidRange) as ->; [|done].
  unfold prepareRequest. destruct (_ || _ || _)%Z; [done|].
  assert (((offset (NewReader off 0) <? rangeStart (NewReader off 0))
           || (rangeEnd (NewReader off 0) <=? offset (NewReader off 0)))%Z = true) as ->; [|done].
  unfold rangeEnd. simpl. rewrite Z.add_0_r. apply orb_true_iff. right. apply Z.leb_le.
  by rewrite wrap64_small.
Qed.

(** ** A concrete server *)

Definition remote : str := &"hello".

(** The server looks for the range among those of the file. *)
Definition find_range (s : str) : option (Z * Z) :=
  head (filter (fun p => range_header p.1 p.2 = s)
    (mjoin ((fun a => (fun b => (Z.of_nat a, Z.of_nat b)) <$> seq a (5 - a)) <$> seq 0 5))).

Definition remote_Do : str -> Header -> result RangeResponse := fun _ hdr =>
  match find_range (Header_Get hdr &"Range") with
  | Some (a, b) => Ok (mkRangeResponse 206 ∅ (b - a + 1) (mkBody (slice remote a (b + 1)) io_EOF))
  | None => Ok (mkRangeResponse 416 ∅ 0 (mkBody [] io_EOF))
  end.

#[export] Instance remote_server url : RangeServer remote_Do url remote.
Proof.
  intros hdr a b Ha Hb Hh. unfold remote_Do. rewrite Hh. change (Z.of_nat (length remote)) with 5%Z in Hb.
  assert (find_range (range_header a b) = Some (a, b)) as ->; [|by eexists _, _].
  assert (a = 0 \/ a = 1 \/ a = 2 \/ a = 3 \/ a = 4)%Z as Ea by lia.
  assert (b = 0 \/ b = 1 \/ b = 2 \/ b = 3 \/ b = 4)%Z as Eb by lia.
  destruct Ea as [->|[->|[->|[->| ->]]]], Eb as [->|[->|[->|[->| ->]]]]; try lia; run.
Qed.

Definition remote_resource : Resource := mkResource [] [] 5 &"https://cdn.example/a.zip" None.

Lemma remote_resource_ok : resource_ok &"https://cdn.example/a.zip" remote remote_resource.
Proof. split; [reflexivity|]. split; [reflexivity|]. eexists. vm_compute. reflexivity. Qed.

Lemma ReadAt_reads_file_witness :
  exists rr', ReadAt remote_Do remote_resource None (fun _ => mkArrival 0 true) 3 1
              = (&"ell", None, remote_resource, rr').
Proof.
  destruct (ReadAt_reads_file remote_Do &"https://cdn.example/a.zip" remote remote_resource None
    (fun _ => mkArrival 0 true) 3 1) as (rr' & H & _).
  - reflexivity.
  - exact remote_resource_ok.
  - intros c Hc. discriminate Hc.
  - lia.
  - simpl. lia.
  - exists rr'. exact H.
Defined.

Lemma range_requests_in_bounds_witness :
  exists last, range_header 1 3 = range_header 1 last /\ (last < 5)%Z.
Proof.
  destruct (range_requests_in_bounds remote_resource (mkReader 1 3 1 None)
    (Header_Set ∅ &"Range" (range_header 1 3))) as (last & H1 & _ & H2 & _).
  - split; vm_compute; congruence.
  - split; vm_compute; congruence.
  - vm_compute. reflexivity.
  - exists last. split; [exact H1|]. apply H2.
Defined.
