(* ===== verification/HttpFs.v ===== *)
(** * Archives on the local disk

    internal/httpfs/http_fs.go: the file system behind [file://] URLs, which
    opens files below the allowed directories only. *)

From S2P Require Import Prelude GoStd GoPath Vfs LocalVfs.

Definition os_ErrPermission : error := ErrSentinel &"os.ErrPermission".

(** [NewFileSystemPath]: the allowed paths made absolute.  The code writes
    them into the slice of the configuration, which nothing else reads; that
    [os.Getwd], and so [filepath.Abs], can fail is left out. *)
Definition NewFileSystemPath (os : OS) (allowedPaths : list str) : list str :=
  filepath_Abs os <$> allowedPaths.

(** [Open], with [os.Open] as an argument. *)
Definition httpfs_Open {A} (os : OS) (os_Open : str -> result A) (allowedPaths : list str) (name : str) : result A :=
  let absPath := filepath_Abs os (Clean ([slash] ++ name)) in
  if existsb (fun allowedPath => HasPrefix absPath (allowedPath ++ &"/")) allowedPaths
  then os_Open absPath else Err os_ErrPermission.

(** The components of the file a name stands for. *)
Definition requested (name : str) : list str := clean_components true (components ([slash] ++ name)).

Lemma requested_ordinary name : Forall ordinary (requested name).
Proof. apply clean_components_rooted. Qed.

Lemma absPath_requested os name : filepath_Abs os (Clean ([slash] ++ name)) = abs_path (requested name).
Proof.
  rewrite (Clean_abs ([slash] ++ name)) by apply HasPrefix_app. fold (requested name).
  unfold filepath_Abs. rewrite IsAbs_abs_path. apply Clean_abs_path, requested_ordinary.
Qed.

Lemma below_prefix rs cs :
  Forall ordinary rs -> rs <> [] -> Forall ordinary cs ->
  HasPrefix (abs_path cs) (abs_path rs ++ &"/") = true <-> exists ds, cs = rs ++ ds /\ ds <> [].
Proof.
  intros Hrs Hne Hcs. split.
  - intros [k Hk]%HasPrefix_spec. rewrite <- app_assoc in Hk.
    pose proof (abs_path_prefix rs cs k Hrs Hne Hcs Hk) as Hc.
    exists (components k). split; [done|]. intros H. unfold components in H. by apply Split_nonempty in H.
  - intros (ds & -> & Hd). destruct ds as [|d ds]; [done|]. rewrite abs_path_app by done.
    apply HasPrefix_spec. eexists. by rewrite <- app_assoc.
Qed.

(** A name is opened at its cleaned path below an allowed directory, or
    refused. *)
Lemma httpfs_Open_cases {A} os (os_Open : str -> result A) (allowed : list (list str)) name :
  Forall (fun rs => Forall ordinary rs /\ rs <> []) allowed ->
  let out := httpfs_Open os os_Open (abs_path <$> allowed) name in
  (exists rs ds, rs ∈ allowed /\ requested name = rs ++ ds /\ ds <> [] /\ out = os_Open (abs_path (requested name)))
  \/ (out = Err os_ErrPermission /\ forall rs ds, rs ∈ allowed -> requested name = rs ++ ds -> ds = []).
Proof.
  intros Hall out. subst out. unfold httpfs_Open. rewrite absPath_requested.
  pose proof (requested_ordinary name) as Hreq. rewrite Forall_forall in Hall.
  destruct (existsb _ _) eqn:E.
  - left. apply existsb_exists in E as (p & Hin & Hp).
    apply list_elem_of_In, list_elem_of_fmap in Hin as (rs & -> & Hin).
    destruct (Hall rs Hin) as [Ho Hne]. apply below_prefix in Hp as (ds & Hds & Hd); [|done..].
    by exists rs, ds.
  - right. split; [done|]. intros rs ds Hin Hds. destruct (decide (ds = [])) as [|Hd]; [done|].
    exfalso. destruct (Hall rs Hin) as [Ho Hne].
    assert (existsb (fun a => HasPrefix (abs_path (requested name)) (a ++ &"/")) (abs_path <$> allowed) = true);
      [|congruence].
    apply existsb_exists. exists (abs_path rs). split; [apply list_elem_of_In; by apply list_elem_of_fmap_2|].
    apply below_prefix; [done..|]. by exists ds.
Qed.

(** A [file://] URL opens only files strictly below an allowed
    directory: a name, with any dots and slashes in it, is either opened at
    its cleaned absolute path, which then extends the components of an
    allowed directory, or refused with a permission error when no allowed
    directory is above it. *)
Theorem httpfs_Open_allowed {A} os (os_Open : str -> result A) (allowed : list (list str)) name :
  Forall (fun rs => Forall ordinary rs /\ rs <> []) allowed ->
  let out := httpfs_Open os os_Open (abs_path <$> allowed) name in
  (exists rs ds, rs ∈ allowed /\ requested name = rs ++ ds /\ ds <> [] /\ out = os_Open (abs_path (requested name)))
  \/ (out = Err os_ErrPermission /\ forall rs ds, rs ∈ allowed -> requested name = rs ++ ds -> ds = []).
Proof. apply httpfs_Open_cases. Qed.

Lemma httpfs_Open_allowed_witness :
  httpfs_Open (os_with []) (fun p => Ok p) [&"/srv/pages"] &"../../etc/passwd" = Err os_ErrPermission.
Proof.
  destruct (httpfs_Open_allowed (os_with []) (fun p => Ok p) [[&"srv"; &"pages"]] &"../../etc/passwd")
    as [(rs & ds & Hin & Hr & _)|[H _]].
  - decide_now.
  - exfalso. apply list_elem_of_singleton in Hin as ->. vm_compute in Hr. discriminate Hr.
  - exact H.
Defined.
