(* ===== verification/ZipArchive.v ===== *)
(** * Zip archives as file system roots

    internal/vfs/zip/{archive,lru_cache,deflate_reader}.go.  The zip reader
    (the central directory of the archive), decompression and the HTTP client
    are parameters; the offset and link caches are maps from which entries
    may vanish at any time (eviction and expiry). *)

From stdpp Require Import pretty.
From S2P Require Import Prelude GoStd GoPath GoUrl Header Http Vfs Symlink HttpRange.

Definition dirPrefix : str := &"public/".
Definition maxSymlinkSize : nat := 256.
Definition errNotSymlink : error := ErrSentinel &"zip: not a symlink".
Definition errSymlinkSize : error := ErrSentinel &"zip: symlink too long".
Definition errNotFile : error := ErrSentinel &"zip: not a file".

(** ** archive/zip *)

(** A [zip.File]: header fields, the type its external attributes give, where
    its data starts, and the bytes [file.Open] delivers. *)
Record ZipFile : Type := mkZipFile {
  zf_Name : str; zf_attr : FileMode; zf_Method : Z; zf_CompressedSize64 : Z; zf_UncompressedSize : Z;
  zf_Modified : Z; zf_DataOffset : result Z; zf_Open : result Body }.

(** [FileHeader.Mode]: a name that ends in a slash is a directory. *)
Definition zip_Mode (f : ZipFile) : FileMode := if HasSuffix (zf_Name f) &"/" then ModeDir else zf_attr f.
Definition zip_FileInfo (f : ZipFile) : FileInfo :=
  mkFileInfo (zip_Mode f) (wrap64 (zf_UncompressedSize f)) (zf_Modified f).

(** [&zip.FileHeader{Name: name}] *)
Definition named_header (name : str) : ZipFile :=
  mkZipFile name ModeRegular 0 0 0 0 (Ok 0%Z) (Ok (mkBody [] io_EOF)).

(** ** The archive *)

Record zipArchive : Type := mkZipArchive {
  za_cacheNamespace : str; za_files : gmap str ZipFile; za_directories : gmap str ZipFile }.

Definition addPathDirectory (pathname : str) (a : zipArchive) : zipArchive :=
  let dir := (path_Split pathname).1 in
  if decide (dir = []) then a
  else
    match za_directories a !! dir with
    | Some _ => a
    | None => mkZipArchive (za_cacheNamespace a) (za_files a) (<[dir := named_header dir]> (za_directories a))
    end.

(** The body of the loop over the entries of the archive. *)
Definition add_entry (a : zipArchive) (f : ZipFile) : zipArchive :=
  if negb (HasPrefix (zf_Name f) dirPrefix) then a
  else
    let a1 := if IsDir (zip_Mode f)
              then mkZipArchive (za_cacheNamespace a) (za_files a) (<[zf_Name f := f]> (za_directories a))
              else mkZipArchive (za_cacheNamespace a) (<[zf_Name f := f]> (za_files a)) (za_directories a) in
    addPathDirectory (zf_Name f) a1.

Definition new_archive (namespace : str) : zipArchive := mkZipArchive namespace ∅ ∅.

Definition index_archive (namespace : str) (entries : list ZipFile) : zipArchive :=
  foldl add_entry (new_archive namespace) entries.

Definition findFile (a : zipArchive) (name : str) : option ZipFile :=
  za_files a !! Clean (dirPrefix ++ name).

Definition findDirectory (a : zipArchive) (name : str) : option ZipFile :=
  za_directories a !! (Clean (dirPrefix ++ name) ++ &"/").

(** [cacheNamespace] of the [n]-th archive. *)
Definition cacheNamespace (n : Z) : str := FormatInt n ++ &":".

Section Archive.

#[local] Set Default Proof Using "Type".

Context (Do : str -> Header -> result RangeResponse).
(** [zip.NewReader] on the ranged reader. *)
Context (zip_NewReader : Resource -> RangedReader -> result (list ZipFile) * Resource * RangedReader).

(** [readArchive] once it has its resource: the archive, or the error that
    [openArchive] then gives. *)
Definition load_archive (namespace : str) (R : Resource) : result zipArchive * Resource :=
  match WithCachedReader R zip_NewReader with
  | (Err e, R', _) => (Err e, R')
  | (Ok entries, R', _) => (Ok (index_archive namespace entries), R')
  end.

(** [readArchive] as a whole, when nobody sets another URL in between. *)
Definition readArchive (namespace url : str) : result zipArchive * option Resource :=
  match NewResource Do url with
  | Err e => (Err e, None)
  | Ok R => let '(out, R') := load_archive namespace R in (out, Some R')
  end.

(** ** lru_cache.go

    [cached] is what [c.cache.Get] finds that is not expired. *)
Definition findOrFetch {V} (namespace key : str) (fetchFn : result V) (cache : gmap str V)
  : result V * gmap str V :=
  match cache !! (namespace ++ key) with
  | Some v => (Ok v, cache)
  | None =>
      match fetchFn with
      | Err e => (Err e, cache)
      | Ok v => (Ok v, <[namespace ++ key := v]> cache)
      end
  end.

(** The two caches all archives of the file system share. *)
Record zip_caches : Type := mkZipCaches { dataOffsetCache : gmap str Z; readlinkCache : gmap str str }.

(** ** Root operations *)

Definition zip_Lstat (a : zipArchive) (name : str) : result FileInfo :=
  match findFile a name with
  | Some f => Ok (zip_FileInfo f)
  | None =>
      match findDirectory a name with
      | Some d => Ok (zip_FileInfo d)
      | None => Err os_ErrNotExist
      end
  end.

(** The bytes of a link, up to one more than the limit: [io.ReadFull] into an
    array of that size, where a short read is no error but an empty one is. *)
Definition read_link (f : ZipFile) : result str :=
  let? body := zf_Open f in
  let data := body_data body in
  if maxSymlinkSize <? length data then Ok (take (S maxSymlinkSize) data)
  else if decide (body_end body = io_EOF) then
    if decide (data = []) then Err io_EOF else Ok data
  else Err (body_end body).

Definition zip_Readlink (a : zipArchive) (name : str) (c : zip_caches) : result str * zip_caches :=
  match findFile a name with
  | None =>
      (Err (match findDirectory a name with Some _ => errNotSymlink | None => os_ErrNotExist end), c)
  | Some f =>
      if negb (is_symlink (zip_Mode f)) then (Err errNotSymlink, c)
      else
        let '(out, cache) := findOrFetch (za_cacheNamespace a) name (read_link f) (readlinkCache c) in
        (let? symlink := out in
         (if maxSymlinkSize <? length symlink then Err errSymlinkSize else Ok symlink),
         mkZipCaches (dataOffsetCache c) cache)
  end.

Context (inflate : str -> str).

(** The file a section of the archive gives: stored files are the seekable
    range reader itself. *)
Definition section_file (fetch : Z -> Z -> str) (f : ZipFile) (off : Z) : result File :=
  let data := fetch off (wrap64 (zf_CompressedSize64 f)) in
  if (zf_Method f =? 8)%Z then Ok (mkFile (inflate data) false)
  else if (zf_Method f =? 0)%Z then Ok (mkFile data true)
  else Err (ErrMsg &"unsupported compression method").

(** [fetch off size] is what reading the section to its end gives. *)
Definition zip_Open (fetch : Z -> Z -> str) (a : zipArchive) (name : str) (c : zip_caches)
  : result File * zip_caches :=
  match findFile a name with
  | None =>
      (Err (match findDirectory a name with Some _ => errNotFile | None => os_ErrNotExist end), c)
  | Some f =>
      if negb (IsRegular (zip_Mode f)) then (Err errNotFile, c)
      else
        let '(out, cache) := findOrFetch (za_cacheNamespace a) name (zf_DataOffset f) (dataOffsetCache c) in
        (let? off := out in section_file fetch f off, mkZipCaches cache (readlinkCache c))
  end.

(** ** Without the caches *)

Definition uncached : zip_caches := mkZipCaches ∅ ∅.

(** The archive as the [Root] the serving reads. *)
Definition zip_root (fetch : Z -> Z -> str) (a : zipArchive) : Root := {|
  Lstat := zip_Lstat a;
  Readlink name := (zip_Readlink a name uncached).1;
  Open name := (zip_Open fetch a name uncached).1 |}.

End Archive.

(** ** Lemmas *)

Lemma addPathDirectory_files p a : za_files (addPathDirectory p a) = za_files a.
Proof. unfold addPathDirectory. by repeat case_match. Qed.

(** An entry below [public/] that is no directory. *)
Definition public_file (key : str) (f : ZipFile) : bool :=
  HasPrefix (zf_Name f) dirPrefix && negb (IsDir (zip_Mode f)) && bool_decide (zf_Name f = key).

Lemma last_filter_snoc {A} (P : A -> bool) l x :
  list.last (filter (fun y => P y = true) (l ++ [x]))
  = if P x then Some x else list.last (filter (fun y => P y = true) l).
Proof.
  rewrite filter_app. destruct (P x) eqn:E.
  - rewrite filter_cons_True by done. rewrite filter_nil. by rewrite last_snoc.
  - rewrite filter_cons_False by congruence. by rewrite filter_nil, app_nil_r.
Qed.

Lemma index_files ns entries key :
  za_files (index_archive ns entries) !! key = list.last (filter (fun f => public_file key f = true) entries).
Proof.
  induction entries as [|f entries IH] using rev_ind; [exact (lookup_empty key)|].
  unfold index_archive in *. rewrite foldl_app. cbn [foldl]. rewrite last_filter_snoc, <- IH.
  unfold add_entry, public_file. destruct (HasPrefix (zf_Name f) dirPrefix); [|done]. cbn [negb andb].
  rewrite addPathDirectory_files. destruct (IsDir (zip_Mode f)); [done|]. cbn.
  case_bool_decide as Hk; [by rewrite Hk, lookup_insert_eq|by rewrite lookup_insert_ne].
Qed.

(** An entry that makes the directory [key] known: itself, or a file right
    in it. *)
Definition makes_dir (key : str) (f : ZipFile) : Prop :=
  HasPrefix (zf_Name f) dirPrefix = true
  /\ (IsDir (zip_Mode f) = true /\ zf_Name f = key \/ (path_Split (zf_Name f)).1 = key /\ key <> []).

Lemma addPathDirectory_dirs p a key :
  is_Some (za_directories (addPathDirectory p a) !! key)
  <-> is_Some (za_directories a !! key) \/ ((path_Split p).1 = key /\ key <> []).
Proof.
  unfold addPathDirectory. case_decide as Hd.
  { split; [by left|]. intros [H|[<- H]]; done. }
  destruct (za_directories a !! (path_Split p).1) as [d|] eqn:E; cbn.
  - split; [by left|]. intros [H|[<- _]]; [done|by eexists].
  - rewrite lookup_insert_is_Some. split.
    + intros [<-|[_ H]]; [by right|by left].
    + intros [H|[<- _]]; [|by left]. destruct (decide ((path_Split p).1 = key)); [by left|by right].
Qed.

Lemma index_dirs ns entries key :
  is_Some (za_directories (index_archive ns entries) !! key) <-> Exists (makes_dir key) entries.
Proof.
  induction entries as [|f entries IH] using rev_ind.
  { rewrite Exists_nil. split; [|done]. intros [x Hx]. by rewrite (lookup_empty key : za_directories (index_archive ns []) !! key = None) in Hx. }
  unfold index_archive in *. rewrite foldl_app. cbn [foldl]. rewrite Exists_app, <- IH, Exists_cons, Exists_nil.
  unfold add_entry, makes_dir at 1. destruct (HasPrefix (zf_Name f) dirPrefix); cbn [negb]; [|naive_solver].
  rewrite addPathDirectory_dirs. destruct (IsDir (zip_Mode f)); cbn [za_directories].
  - rewrite lookup_insert_is_Some. destruct (decide (zf_Name f = key)); naive_solver.
  - naive_solver.
Qed.

(** A directory is stored under its own name. *)
Definition dirs_named (a : zipArchive) : Prop :=
  forall key d, za_directories a !! key = Some d -> zf_Name d = key.

Lemma addPathDirectory_named p a : dirs_named a -> dirs_named (addPathDirectory p a).
Proof.
  intros Ha. unfold addPathDirectory. case_decide as Hne; [done|]. case_match; [done|].
  intros key d. cbn [za_directories]. intros [[<- <-]|[_ Hl]]%lookup_insert_Some; [done|by apply Ha].
Qed.

Lemma add_entry_named a f : dirs_named a -> dirs_named (add_entry a f).
Proof.
  intros Ha. unfold add_entry. destruct (HasPrefix (zf_Name f) dirPrefix); [|done]. cbn [negb].
  apply addPathDirectory_named. destruct (IsDir (zip_Mode f)); [|done].
  intros key d. cbn [za_directories]. intros [[<- <-]|[_ Hl]]%lookup_insert_Some; [done|by apply Ha].
Qed.

Lemma index_dirs_named ns entries : dirs_named (index_archive ns entries).
Proof.
  unfold index_archive. assert (H : dirs_named (new_archive ns)) by (intros key d Hl; by destruct (lookup_empty_Some key d)).
  revert H. generalize (new_archive ns). induction entries as [|f entries IH]; intros a Ha; [done|].
  by apply IH, add_entry_named.
Qed.

(** ** The shared caches *)

Lemma pretty_N_go_no_colon x s :
  ":"%char ∉ String.list_ascii_of_string s -> ":"%char ∉ String.list_ascii_of_string (pretty_N_go x s).
Proof.
  revert s. induction (N.lt_wf_0 x) as [x _ IH]; intros s Hs.
  destruct (decide (x = 0%N)) as [->|Hx]; [by rewrite pretty_N_go_0|].
  rewrite pretty_N_go_step by lia. apply IH; [apply N.div_lt; lia|].
  cbn. intros [Hc|Hc]%elem_of_cons; [|done]. revert Hc. unfold pretty_N_char.
  by repeat case_match.
Qed.

Lemma FormatInt_no_colon n : ":"%char ∉ FormatInt n.
Proof.
  assert (HN : forall x, ":"%char ∉ String.list_ascii_of_string (pretty_N x)).
  { intros x. unfold pretty_N. case_decide; [decide_now|]. apply pretty_N_go_no_colon. decide_now. }
  unfold FormatInt, go, pretty, pretty_Z. destruct n as [|p|p]; [decide_now|apply HN|].
  change (String.list_ascii_of_string (String.append "-" ?s)) with ("-"%char :: String.list_ascii_of_string s).
  intros [Hc|Hc]%elem_of_cons; [done|by apply HN in Hc].
Qed.

Lemma cacheNamespace_inj n m x y : cacheNamespace n ++ x = cacheNamespace m ++ y -> n = m /\ x = y.
Proof.
  unfold cacheNamespace. rewrite <- !app_assoc. intros H.
  assert (Hi : IndexByte (FormatInt n ++ &":" ++ x) ":" = IndexByte (FormatInt m ++ &":" ++ y) ":") by by rewrite H.
  rewrite (IndexByte_app_absent (FormatInt n)), (IndexByte_app_absent (FormatInt m)) in Hi by apply FormatInt_no_colon.
  change (Some (length (FormatInt n) + 0) = Some (length (FormatInt m) + 0)) in Hi. injection Hi as Hi.
  apply app_inj_1 in H as [H1 H2]; [|lia].
  change (":"%char :: x = ":"%char :: y) in H2. injection H2 as H2. split; [|done].
  unfold FormatInt in H1. apply (inj pretty). unfold go in H1.
  apply (f_equal String.string_of_list_ascii) in H1. by rewrite !String.string_of_list_ascii_of_string in H1.
Qed.

Section Caches.

#[local] Set Default Proof Using "Type".

Context (inflate : str -> str) (fetch : Z -> Z -> Z -> str).
(** The archives of the file system, by their number. *)
Context (archives : gmap Z zipArchive).
Context (Hns : forall n a, archives !! n = Some a -> za_cacheNamespace a = cacheNamespace n).

(** Requests on any archive, and entries that vanish, in any order;
    [fetch n] reads sections of the [n]-th archive. *)
Inductive caches_reach : zip_caches -> Prop :=
  | caches_init : caches_reach uncached
  | caches_open c n a name : caches_reach c -> archives !! n = Some a ->
      caches_reach (zip_Open inflate (fetch n) a name c).2
  | caches_readlink c n a name : caches_reach c -> archives !! n = Some a ->
      caches_reach (zip_Readlink a name c).2
  | caches_evict c c' : caches_reach c -> dataOffsetCache c' ⊆ dataOffsetCache c ->
      readlinkCache c' ⊆ readlinkCache c -> caches_reach c'.

(** What a cache holds for a name of an archive is what its file gives. *)
Definition cache_ok {V} (value : ZipFile -> result V) (m : gmap str V) : Prop :=
  forall n a name v, archives !! n = Some a -> m !! (cacheNamespace n ++ name) = Some v ->
    exists f, findFile a name = Some f /\ value f = Ok v.

Lemma cache_ok_subseteq {V} (value : ZipFile -> result V) m m' : m' ⊆ m -> cache_ok value m -> cache_ok value m'.
Proof. intros Hs Hm n a name v Ha Hv. apply (Hm n a name v Ha). by apply (lookup_weaken m'). Qed.

Lemma findOrFetch_ok {V} (value : ZipFile -> result V) m n a name f :
  archives !! n = Some a -> cache_ok value m -> findFile a name = Some f ->
  (findOrFetch (za_cacheNamespace a) name (value f) m).1 = value f
  /\ cache_ok value (findOrFetch (za_cacheNamespace a) name (value f) m).2.
Proof using Hns.
  intros Ha Hm Hf. rewrite (Hns n a Ha). unfold findOrFetch.
  destruct (m !! (cacheNamespace n ++ name)) as [v|] eqn:E.
  { split; [|done]. destruct (Hm n a name v Ha E) as (f' & Hf' & Hv). simpl. congruence. }
  destruct (value f) as [v|e] eqn:Ev; [|done]. split; [done|]. simpl.
  intros n' a' name' v' Ha' [[Hk <-]|[_ Hl]]%lookup_insert_Some; [|by apply (Hm n' a' name')].
  apply cacheNamespace_inj in Hk as [-> ->]. exists f. split; [congruence|done].
Qed.

Definition caches_ok (c : zip_caches) : Prop :=
  cache_ok zf_DataOffset (dataOffsetCache c) /\ cache_ok read_link (readlinkCache c).

Lemma findOrFetch_empty {V} ns name (v : result V) : (findOrFetch ns name v (∅ : gmap str V)).1 = v.
Proof. unfold findOrFetch. rewrite lookup_empty. by destruct v. Qed.

Lemma zip_Open_ok n a name c :
  archives !! n = Some a -> caches_ok c ->
  (zip_Open inflate (fetch n) a name c).1 = Open (zip_root inflate (fetch n) a) name
  /\ caches_ok (zip_Open inflate (fetch n) a name c).2.
Proof using Hns.
  intros Ha Hc. cbn [zip_root Open]. unfold zip_Open. destruct (findFile a name) as [f|] eqn:Ef; [|done].
  destruct (negb _); [done|]. destruct Hc as [H1 H2].
  destruct (findOrFetch_ok zf_DataOffset _ n a name f Ha H1 Ef) as [Hv Hok].
  pose proof (findOrFetch_empty (za_cacheNamespace a) name (zf_DataOffset f)
    : (findOrFetch _ _ _ (dataOffsetCache uncached)).1 = _) as He.
  destruct (findOrFetch _ _ _ (dataOffsetCache c)) as [out m], (findOrFetch _ _ _ (dataOffsetCache uncached)) as [out' m'].
  cbn in *. subst. done.
Qed.

Lemma zip_Readlink_ok n a name c :
  archives !! n = Some a -> caches_ok c ->
  (zip_Readlink a name c).1 = (zip_Readlink a name uncached).1 /\ caches_ok (zip_Readlink a name c).2.
Proof using Hns.
  intros Ha Hc. unfold zip_Readlink. destruct (findFile a name) as [f|] eqn:Ef; [|done].
  destruct (negb _); [done|]. destruct Hc as [H1 H2].
  destruct (findOrFetch_ok read_link _ n a name f Ha H2 Ef) as [Hv Hok].
  pose proof (findOrFetch_empty (za_cacheNamespace a) name (read_link f)
    : (findOrFetch _ _ _ (readlinkCache uncached)).1 = _) as He.
  destruct (findOrFetch _ _ _ (readlinkCache c)) as [out m], (findOrFetch _ _ _ (readlinkCache uncached)) as [out' m'].
  cbn in *. subst. done.
Qed.

Lemma caches_reach_ok c : caches_reach c -> caches_ok c.
Proof using Hns.
  induction 1 as [|c n a name _ IH Ha|c n a name _ IH Ha|c c' _ [IH1 IH2] Hd Hr].
  - split; intros n a name v Ha Hv; by apply (lookup_empty_Some (cacheNamespace n ++ name) v) in Hv.
  - by apply (zip_Open_ok n).
  - by apply (zip_Readlink_ok n).
  - split; by eapply cache_ok_subseteq.
Qed.

(** [C19] The shared caches are transparent: after any sequence of requests on
    any archives, with entries vanishing in between, opening a file and
    reading a link of an archive give exactly what they give without caches;
    in particular no archive sees an offset or a link of another one. *)
Theorem zip_caches_transparent c n a name :
  caches_reach c -> archives !! n = Some a ->
  (zip_Open inflate (fetch n) a name c).1 = Open (zip_root inflate (fetch n) a) name
  /\ (zip_Readlink a name c).1 = Readlink (zip_root inflate (fetch n) a) name.
Proof using Hns.
  intros Hc%caches_reach_ok Ha. split; [by apply zip_Open_ok|]. by apply (zip_Readlink_ok n).
Qed.

End Caches.

(** ** Properties *)

(** What an archive shows: a name stands for the cleaned path below
    [public/]; it shows the last file entry of exactly that name, else a
    directory when some entry is that directory or lies right in it, and
    does not exist otherwise.  Entries outside [public/] are never shown,
    whatever name is asked for. *)
Theorem zip_Lstat_spec ns entries name :
  let key := Clean (dirPrefix ++ name) in
  let file := list.last (filter (fun f => public_file key f = true) entries) in
  match zip_Lstat (index_archive ns entries) name with
  | Ok fi =>
      (exists f, file = Some f /\ f ∈ entries /\ HasPrefix key dirPrefix = true /\ fi = zip_FileInfo f)
      \/ (file = None /\ Exists (makes_dir (key ++ &"/")) entries /\ Mode fi = ModeDir)
  | Err e => e = os_ErrNotExist /\ file = None /\ ~ Exists (makes_dir (key ++ &"/")) entries
  end.
Proof.
  intros key file. unfold zip_Lstat, findFile, findDirectory. fold key. rewrite index_files. fold file.
  destruct file as [f|] eqn:Ef.
  { left. exists f. apply list.last_Some_elem_of in Ef. apply list_elem_of_filter in Ef as [Hp Hin].
    unfold public_file in Hp. bools. split; [done|]. split; [done|]. split; [congruence|done]. }
  pose proof (index_dirs ns entries (key ++ &"/")) as Hd.
  destruct (za_directories (index_archive ns entries) !! (key ++ &"/")) as [d|] eqn:Ed.
  - right. split; [done|]. split; [by apply Hd|].
    apply index_dirs_named in Ed. unfold zip_FileInfo, zip_Mode. cbn [Mode]. by rewrite Ed, HasSuffix_app.
  - split; [done|]. split; [done|]. intros H. apply Hd in H. by apply is_Some_None in H.
Qed.

(** ** A concrete archive *)

Definition stored (name data : str) (off : Z) : ZipFile :=
  mkZipFile name ModeRegular 0 (Z.of_nat (length data)) (Z.of_nat (length data)) 0 (Ok off) (Ok (mkBody data io_EOF)).
Definition zip_link (name target : str) : ZipFile :=
  mkZipFile name ModeSymlink 0 (Z.of_nat (length target)) (Z.of_nat (length target)) 0 (Ok 0%Z)
    (Ok (mkBody target io_EOF)).

Definition demo_zip (n : Z) : zipArchive := index_archive (cacheNamespace n)
  [named_header &"public/"; stored &"public/index.html" &"hello" 100; zip_link &"public/link.html" &"index.html";
   stored &"secret.txt" &"secret" 200].

Definition demo_fetch (n off size : Z) : str := FormatInt n ++ &":" ++ FormatInt off.

(** A file below directories the archive does not list is not reachable: only
    its own directory is known, not the ones above, so that the walk to the
    file fails at the first of them. *)
Theorem zip_unlisted_parents_hide_file inflate fetch :
  let root := zip_root inflate fetch (index_archive (cacheNamespace 1) [stored &"public/a/b/c.html" &"hello" 0]) in
  is_ok (Lstat root &"a/b/c.html") = true /\ Lstat root &"a" = Err os_ErrNotExist
  /\ EvalSymlinks root &"a/b/c.html" = Err os_ErrNotExist.
Proof. vm_compute. repeat split. Qed.

Lemma demo_archives_named n a :
  ({[ 1%Z := demo_zip 1; 2%Z := demo_zip 2 ]} : gmap Z zipArchive) !! n = Some a -> za_cacheNamespace a = cacheNamespace n.
Proof.
  intros [[<- <-]|[_ [<- <-]%lookup_singleton_Some]]%lookup_insert_Some; vm_compute; reflexivity.
Qed.

Lemma zip_caches_transparent_witness :
  let c := (zip_Open id (demo_fetch 2) (demo_zip 2) &"index.html" uncached).2 in
  (zip_Open id (demo_fetch 1) (demo_zip 1) &"index.html" c).1 = Open (zip_root id (demo_fetch 1) (demo_zip 1)) &"index.html"
  /\ (zip_Readlink (demo_zip 1) &"link.html" c).1 = Ok &"index.html".
Proof.
  intros c. assert (Hc : caches_reach id demo_fetch {[ 1%Z := demo_zip 1; 2%Z := demo_zip 2 ]} c).
  { apply (caches_open id demo_fetch _ uncached 2); [constructor|vm_compute; reflexivity]. }
  split.
  - apply (zip_caches_transparent id demo_fetch _ demo_archives_named c 1 (demo_zip 1) &"index.html" Hc).
    vm_compute. reflexivity.
  - destruct (zip_caches_transparent id demo_fetch _ demo_archives_named c 1 (demo_zip 1) &"link.html" Hc) as [_ H].
    + vm_compute. reflexivity.
    + rewrite H. vm_compute. reflexivity.
Defined.
