(* ===== verification/DeflateReader.v ===== *)
(** * The pool of decompressing readers

    internal/vfs/zip/deflate_reader.go.  Readers live on a heap, because the
    pool hands the same object out again after it was closed; a pointer is an
    index.  The buffered reader (bufio) and the decompressor (compress/flate) of
    a reader are parameters, each with its own reset and its laws.  The pool
    may give back any reader it holds, or none.  The abstract machine gives every file a
    decompressor of its own; the theorem is a simulation between the two. *)

From S2P Require Import Prelude.

Definition ErrClosedReader : error := ErrSentinel &"deflatereader: reader is closed".

Section Deflate.

#[local] Set Default Proof Using "Type".

(** A compressed stream, its buffered reader, and the state of a decompressor
    that reads from the buffered reader it was given. *)
Context {Src Buf Inf : Type}.
Context (bufio_NewReader : Src -> Buf) (bufio_Reset : Src -> Buf -> Buf).
Context (flate_NewReader : Inf) (flate_Reset : Inf -> Inf).
Context (flate_Read : nat -> Buf * Inf -> (str * option error) * (Buf * Inf)) (flate_Close : Inf -> option error).

(** [closer] is the stream that is open, [None] after closing. *)
Record deflateReader : Type := mkDeflateReader { dr_reader : Buf; dr_closer : option Src; dr_flate : Inf }.

(** What a read works on, and what it works on at first. *)
Definition decoder (r : deflateReader) : Buf * Inf := (dr_reader r, dr_flate r).
Definition fresh_decoder (src : Src) : Buf * Inf := (bufio_NewReader src, flate_NewReader).

(** The heap of readers, the pool, the streams that were closed, and the
    pointer each file was given. *)
Record pool_state : Type := mkPoolState {
  ps_heap : list deflateReader; ps_pool : list nat; ps_closed : list Src; ps_files : list nat }.

Definition pool_initial : pool_state := mkPoolState [] [] [] [].

Definition set_reader (p : nat) (r : deflateReader) (st : pool_state) : pool_state :=
  mkPoolState (<[p := r]> (ps_heap st)) (ps_pool st) (ps_closed st) (ps_files st).

(** [Read] of the reader at [p]. *)
Definition deflate_Read (p n : nat) (st : pool_state) : option ((str * option error) * pool_state) :=
  match ps_heap st !! p with
  | None => None
  | Some r =>
      match dr_closer r with
      | None => Some (([], Some ErrClosedReader), st)
      | Some _ =>
          let '(out, (buf, d)) := flate_Read n (decoder r) in
          Some (out, set_reader p (mkDeflateReader buf (dr_closer r) d) st)
      end
  end.

(** [Close]: the result of closing the decompressor; then the stream is
    closed and the reader goes to the pool. *)
Definition deflate_Close (p : nat) (st : pool_state) : option (option error * pool_state) :=
  match ps_heap st !! p with
  | None => None
  | Some r =>
      match dr_closer r with
      | None => Some (Some ErrClosedReader, st)
      | Some src =>
          Some (flate_Close (dr_flate r),
                mkPoolState (<[p := mkDeflateReader (dr_reader r) None (dr_flate r)]> (ps_heap st)) (p :: ps_pool st)
                  (ps_closed st ++ [src]) (ps_files st))
      end
  end.

Definition deflate_reset (rc : Src) (r : deflateReader) : deflateReader :=
  mkDeflateReader (bufio_Reset rc (dr_reader r)) (Some rc) (flate_Reset (dr_flate r)).

(** [choice] is the place in the pool that [Get] takes, if any. *)
Definition newDeflateReader (choice : option nat) (rc : Src) (st : pool_state) : nat * pool_state :=
  let fresh := (length (ps_heap st),
                mkPoolState (ps_heap st ++ [mkDeflateReader (bufio_NewReader rc) (Some rc) flate_NewReader]) (ps_pool st)
                  (ps_closed st) (ps_files st)) in
  match choice with
  | None => fresh
  | Some i =>
      match ps_pool st !! i with
      | None => fresh
      | Some p =>
          match ps_heap st !! p with
          | None => fresh
          | Some r => (p, mkPoolState (<[p := deflate_reset rc r]> (ps_heap st)) (delete i (ps_pool st))
                            (ps_closed st) (ps_files st))
          end
      end
  end.

(** ** Users

    The files are opened, read and closed by number. *)

Inductive dop : Type :=
  | DOpen (choice : option nat) (src : Src)
  | DRead (k n : nat)
  | DClose (k : nat).

Inductive dout : Type := OOpened | ORead (out : str * option error) | OClosed (err : option error).

Definition pool_step (op : dop) (st : pool_state) : option (dout * pool_state) :=
  match op with
  | DOpen choice src =>
      let '(p, st) := newDeflateReader choice src st in
      Some (OOpened, mkPoolState (ps_heap st) (ps_pool st) (ps_closed st) (ps_files st ++ [p]))
  | DRead k n =>
      p ← ps_files st !! k; '(out, st) ← deflate_Read p n st; Some (ORead out, st)
  | DClose k =>
      p ← ps_files st !! k; '(err, st) ← deflate_Close p st; Some (OClosed err, st)
  end.

(** ** The abstract machine

    A file is its stream and its own decompressor, or closed; using a closed
    file is not allowed. *)

Record own_state : Type := mkOwnState { os_files : list (option (Src * (Buf * Inf))); os_closed : list Src }.

Definition own_initial : own_state := mkOwnState [] [].

Definition own_step (op : dop) (st : own_state) : option (dout * own_state) :=
  match op with
  | DOpen _ src => Some (OOpened, mkOwnState (os_files st ++ [Some (src, fresh_decoder src)]) (os_closed st))
  | DRead k n =>
      match os_files st !! k with
      | Some (Some (src, d)) =>
          let '(out, d) := flate_Read n d in
          Some (ORead out, mkOwnState (<[k := Some (src, d)]> (os_files st)) (os_closed st))
      | _ => None
      end
  | DClose k =>
      match os_files st !! k with
      | Some (Some (src, d)) =>
          Some (OClosed (flate_Close d.2), mkOwnState (<[k := None]> (os_files st)) (os_closed st ++ [src]))
      | _ => None
      end
  end.

Fixpoint run_ops {S : Type} (step : dop -> S -> option (dout * S)) (ops : list dop) (st : S) : option (list dout * S) :=
  match ops with
  | [] => Some ([], st)
  | op :: rest =>
      match step op st with
      | None => None
      | Some (o, st1) =>
          match run_ops step rest st1 with
          | None => None
          | Some (outs, st2) => Some (o :: outs, st2)
          end
      end
  end.

(** The documented behaviour: the two [Reset]s make the buffered reader and the
    decompressor as good as new ones, and what is equally good cannot be told
    apart. *)
Context (beq : relation Buf) (ieq : relation Inf).
Abbreviation deq := (prod_relation beq ieq).
Class FlateLaws : Prop := {
  beq_equiv :: Equivalence beq;
  ieq_equiv :: Equivalence ieq;
  bufio_reset_fresh src b : beq (bufio_Reset src b) (bufio_NewReader src);
  flate_reset_fresh d : ieq (flate_Reset d) flate_NewReader;
  flate_read_deq n x x' : deq x x' -> (flate_Read n x).1 = (flate_Read n x').1
    /\ deq (flate_Read n x).2 (flate_Read n x').2;
  flate_close_ieq d d' : ieq d d' -> flate_Close d = flate_Close d' }.

(** ** The simulation *)

(** An open file has a reader of its own, which is not in the pool and is as
    good as the file's decompressor; pooled readers are closed. *)
Record simulates (st : pool_state) (ab : own_state) : Prop := {
  sim_length : length (ps_files st) = length (os_files ab);
  sim_closed : ps_closed st = os_closed ab;
  sim_open k src d : os_files ab !! k = Some (Some (src, d)) ->
    exists p r, ps_files st !! k = Some p /\ ps_heap st !! p = Some r /\ dr_closer r = Some src
      /\ deq (decoder r) d /\ p ∉ ps_pool st;
  sim_distinct k k' x x' p : os_files ab !! k = Some (Some x) -> os_files ab !! k' = Some (Some x') ->
    ps_files st !! k = Some p -> ps_files st !! k' = Some p -> k = k';
  sim_pool : NoDup (ps_pool st);
  sim_pool_heap p : p ∈ ps_pool st -> p < length (ps_heap st) }.

Context `{HL : !FlateLaws}.

(** What opening a file promises: the reader at [p] is open on the stream and
    as good as new, it is out of the pool, and no reader in use has changed. *)
Definition opened (src : Src) (st : pool_state) (p : nat) (st' : pool_state) : Prop :=
  (exists r, ps_heap st' !! p = Some r /\ dr_closer r = Some src /\ deq (decoder r) (fresh_decoder src))
  /\ p ∉ ps_pool st' /\ NoDup (ps_pool st') /\ (forall q, q ∈ ps_pool st' -> q ∈ ps_pool st)
  /\ length (ps_heap st) <= length (ps_heap st') /\ ps_closed st' = ps_closed st /\ ps_files st' = ps_files st
  /\ forall q r, ps_heap st !! q = Some r -> q ∉ ps_pool st -> q <> p /\ ps_heap st' !! q = Some r.

Lemma fresh_opened src st :
  NoDup (ps_pool st) -> (forall q, q ∈ ps_pool st -> q < length (ps_heap st)) ->
  opened src st (length (ps_heap st))
    (mkPoolState (ps_heap st ++ [mkDeflateReader (bufio_NewReader src) (Some src) flate_NewReader]) (ps_pool st)
       (ps_closed st) (ps_files st)).
Proof using HL.
  intros Hn Hp. unfold opened. cbn. split; [|split; [|split; [done|split; [done|split]]]].
  - eexists. split; [by apply list_lookup_middle|]. split; [done|split; reflexivity].
  - intros Hx%Hp. lia.
  - rewrite length_app. lia.
  - split; [done|]. split; [done|]. intros q r Hq _. pose proof (lookup_lt_Some _ _ _ Hq). split; [lia|].
    by apply lookup_app_l_Some.
Qed.

Lemma pooled_opened src st i p r :
  NoDup (ps_pool st) -> ps_pool st !! i = Some p -> ps_heap st !! p = Some r ->
  opened src st p
    (mkPoolState (<[p := deflate_reset src r]> (ps_heap st)) (delete i (ps_pool st)) (ps_closed st) (ps_files st)).
Proof using HL.
  intros Hn Ei Er. unfold opened. cbn. pose proof (lookup_lt_Some _ _ _ Er) as Hlt.
  assert (Hperm : ps_pool st ≡ₚ p :: delete i (ps_pool st)) by (by apply delete_Permutation).
  rewrite Hperm in Hn. apply NoDup_cons in Hn as [Hq Hn].
  split; [exists (deflate_reset src r); split; [by apply list_lookup_insert_eq|]; split; [done|split; [apply bufio_reset_fresh|apply flate_reset_fresh]]|].
  split; [done|]. split; [done|]. split; [intros x Hx; rewrite Hperm; by right|].
  split; [by rewrite length_insert|]. split; [done|]. split; [done|].
  intros x r' Hx Hx'. assert (x <> p) by (intros ->; apply Hx'; rewrite Hperm; by left).
  split; [done|]. by rewrite list_lookup_insert_ne.
Qed.

Lemma newDeflateReader_spec choice src st p st' :
  newDeflateReader choice src st = (p, st') -> NoDup (ps_pool st) ->
  (forall q, q ∈ ps_pool st -> q < length (ps_heap st)) -> opened src st p st'.
Proof using HL.
  intros H Hn Hp. pose proof (fresh_opened src st Hn Hp) as Hfresh. unfold newDeflateReader in H.
  destruct choice as [i|]; [|by simplify_eq]. destruct (ps_pool st !! i) as [q|] eqn:Ei; [|by simplify_eq].
  destruct (ps_heap st !! q) as [r|] eqn:Eq; [|by simplify_eq]. simplify_eq. by apply pooled_opened.
Qed.

Lemma open_simulates choice src st ab :
  simulates st ab -> exists st', pool_step (DOpen choice src) st = Some (OOpened, st')
    /\ simulates st' (mkOwnState (os_files ab ++ [Some (src, fresh_decoder src)]) (os_closed ab)).
Proof using HL.
  intros [Hl Hc Ho Hd Hn Hp]. unfold pool_step.
  destruct (newDeflateReader choice src st) as [p st1] eqn:E.
  destruct (newDeflateReader_spec _ _ _ _ _ E Hn Hp) as ((r & Hr & Hrc & Hrd) & Hpp & Hn' & Hsub & Hlen & Hc' & Hf & Hkeep).
  eexists. split; [reflexivity|]. split; cbn; rewrite ?Hf.
  - rewrite !length_app. simpl. lia.
  - by rewrite Hc'.
  - intros k s d [Hk|[Hk [= <- <-]]]%lookup_snoc_Some.
    + destruct (Ho k s d) as (q & r' & Hq & Hq' & H1 & H2 & H3); [naive_solver|].
      destruct (Hkeep q r' Hq' H3) as [Hne Hq'']. exists q, r'. split; [by apply lookup_app_l_Some|].
      do 3 (split; [done|]). intros Hx. by apply H3, Hsub.
    + exists p, r. split; [rewrite lookup_app_r by lia; by replace (k - _) with 0 by lia|]. by do 3 (split; [done|]).
  - intros k k' x x' q [Hk|[Hk _]]%lookup_snoc_Some [Hk'|[Hk' _]]%lookup_snoc_Some Hq Hq'; [| | |congruence].
    + destruct Hk as [Hlt Hk], Hk' as [Hlt' Hk']. rewrite lookup_app_l in Hq, Hq' by lia. by eapply Hd.
    + destruct Hk as [Hlt Hk]. rewrite lookup_app_l in Hq by lia.
      rewrite lookup_app_r in Hq' by lia. replace (k' - _) with 0 in Hq' by lia. injection Hq' as ->.
      destruct x as [s d]. destruct (Ho k s d Hk) as (q' & r' & Hq1 & Hq2 & _ & _ & Hq3).
      destruct (Hkeep q' r' Hq2 Hq3) as [Hne _]. congruence.
    + destruct Hk' as [Hlt Hk']. rewrite lookup_app_l in Hq' by lia.
      rewrite lookup_app_r in Hq by lia. replace (k - _) with 0 in Hq by lia. injection Hq as ->.
      destruct x' as [s d]. destruct (Ho k' s d Hk') as (q' & r' & Hq1 & Hq2 & _ & _ & Hq3).
      destruct (Hkeep q' r' Hq2 Hq3) as [Hne _]. congruence.
  - done.
  - intros q Hq%Hsub%Hp. lia.
Qed.

Lemma read_simulates k n src d st ab :
  simulates st ab -> os_files ab !! k = Some (Some (src, d)) ->
  exists st', pool_step (DRead k n) st = Some (ORead (flate_Read n d).1, st')
    /\ simulates st' (mkOwnState (<[k := Some (src, (flate_Read n d).2)]> (os_files ab)) (os_closed ab)).
Proof using HL.
  intros [Hl Hc Ho Hd Hn Hp] Hk. destruct (Ho k src d Hk) as (p & r & Hf & Hh & Hcl & Hq & Hpool).
  destruct (flate_read_deq n _ _ Hq) as [E1 E2]. pose proof (lookup_lt_Some _ _ _ Hh) as Hlt.
  unfold pool_step. rewrite Hf. cbn [mbind option_bind]. unfold deflate_Read. rewrite Hh, Hcl.
  destruct (flate_Read n (decoder r)) as [out [b1 d1]]. cbn [fst snd] in E1, E2. rewrite <- E1.
  eexists. split; [reflexivity|]. split; cbn.
  - by rewrite length_insert.
  - done.
  - intros k' s' d' Hk'. destruct (decide (k' = k)) as [->|Hne].
    + rewrite list_lookup_insert_eq in Hk' by (by eapply lookup_lt_Some). injection Hk' as <- <-.
      exists p, (mkDeflateReader b1 (Some src) d1). split; [done|]. rewrite list_lookup_insert_eq by done.
      by do 3 (split; [done|]).
    + rewrite list_lookup_insert_ne in Hk' by done.
      destruct (Ho k' s' d' Hk') as (p' & r' & Hf' & Hh' & H1 & H2 & H3).
      assert (p' <> p) by (intros ->; by apply Hne, (Hd k' k (s', d') (src, d) p)).
      exists p', r'. split; [done|]. by rewrite list_lookup_insert_ne by done.
  - intros k1 k2 x1 x2 q H1 H2. 
    assert (Hx : forall j x, <[k:=Some (src, (flate_Read n d).2)]> (os_files ab) !! j = Some (Some x) -> exists y, os_files ab !! j = Some (Some y)).
    { intros j x Hj. destruct (decide (j = k)) as [->|Hj']; [by eauto|]. rewrite list_lookup_insert_ne in Hj by done. by eauto. }
    apply Hx in H1 as [y1 H1], H2 as [y2 H2]. by eapply Hd.
  - done.
  - intros q Hq'%Hp. by rewrite length_insert.
Qed.

Lemma close_simulates k src d st ab :
  simulates st ab -> os_files ab !! k = Some (Some (src, d)) ->
  exists st', pool_step (DClose k) st = Some (OClosed (flate_Close d.2), st')
    /\ simulates st' (mkOwnState (<[k := None]> (os_files ab)) (os_closed ab ++ [src])).
Proof using HL.
  intros [Hl Hc Ho Hd Hn Hp] Hk. destruct (Ho k src d Hk) as (p & r & Hf & Hh & Hcl & Hq & Hpool).
  pose proof (lookup_lt_Some _ _ _ Hh) as Hlt. pose proof (lookup_lt_Some _ _ _ Hk) as Hltk.
  unfold pool_step. rewrite Hf. cbn [mbind option_bind]. unfold deflate_Close. rewrite Hh, Hcl.
  destruct Hq as [_ Hq]. rewrite (flate_close_ieq (dr_flate r) d.2 Hq). eexists. split; [reflexivity|].
  assert (Hx : forall j x, <[k:=None]> (os_files ab) !! j = Some (Some x) -> j <> k /\ os_files ab !! j = Some (Some x)).
  { intros j x Hj. destruct (decide (j = k)) as [->|Hj']; [by rewrite list_lookup_insert_eq in Hj|].
    by rewrite list_lookup_insert_ne in Hj. }
  split; cbn.
  - by rewrite length_insert.
  - by rewrite Hc.
  - intros k' s' d' [Hne Hk']%Hx. destruct (Ho k' s' d' Hk') as (p' & r' & Hf' & Hh' & H1 & H2 & H3).
    assert (p' <> p) by (intros ->; by apply Hne, (Hd k' k (s', d') (src, d) p)).
    exists p', r'. split; [done|]. rewrite list_lookup_insert_ne by done. do 3 (split; [done|]).
    by intros [->|?]%elem_of_cons.
  - intros k1 k2 x1 x2 q [_ H1]%Hx [_ H2]%Hx. by eapply Hd.
  - by apply NoDup_cons.
  - intros q [->|Hq'%Hp]%elem_of_cons; by rewrite length_insert.
Qed.

Lemma step_simulates op st ab o ab' :
  simulates st ab -> own_step op ab = Some (o, ab') ->
  exists st', pool_step op st = Some (o, st') /\ simulates st' ab'.
Proof using HL.
  intros Hs. destruct op as [choice src|k n|k]; cbn [own_step].
  - intros [= <- <-]. by apply open_simulates.
  - destruct (os_files ab !! k) as [[[src d]|]|] eqn:E; [|done|done].
    destruct (read_simulates k n src d st ab Hs E) as (st' & H1 & H2).
    destruct (flate_Read n d) as [out d']. intros [= <- <-]. by exists st'.
  - destruct (os_files ab !! k) as [[[src d]|]|] eqn:E; [|done|done].
    intros [= <- <-]. by apply close_simulates.
Qed.

(** [C16] Pooled readers cannot be told from fresh ones: for users that do not
    touch a file after closing it, every sequence of opens, reads and closes
    gives, with every choice of the pool, the results of a machine in which
    each file has a new decompressor of its own, and closes the same streams
    in the same order. *)
Theorem pooled_readers_refine_own_readers ops outs ab :
  run_ops own_step ops own_initial = Some (outs, ab) ->
  exists st, run_ops pool_step ops pool_initial = Some (outs, st) /\ ps_closed st = os_closed ab.
Proof using HL.
  assert (Hs : simulates pool_initial own_initial).
  { split; [done|done|intros k src d Hk; by destruct k|done|constructor|].
    intros p Hp. by apply not_elem_of_nil in Hp. }
  revert Hs outs ab. generalize pool_initial, own_initial. induction ops as [|op ops IH]; intros st ab0 Hs outs ab; cbn [run_ops].
  - intros [= <- <-]. exists st. split; [done|apply Hs].
  - destruct (own_step op ab0) as [[o ab1]|] eqn:E; [|done].
    destruct (step_simulates op st ab0 o ab1 Hs E) as (st1 & -> & Hs1).
    destruct (run_ops own_step ops ab1) as [[outs1 ab2]|] eqn:E2; [|done]. intros [= <- <-].
    destruct (IH st1 ab1 Hs1 outs1 ab2 E2) as (st2 & -> & Hcl). by exists st2.
Qed.

End Deflate.

(** ** A concrete decompressor

    Streams that are stored as they are: the buffer is what is left to read,
    the decompressor counts what it has given. *)

Definition stored_Read (n : nat) (x : str * nat) : (str * option error) * (str * nat) :=
  match x.1 with
  | [] => (([], Some (ErrSentinel &"EOF")), x)
  | _ => ((take n x.1, None), (drop n x.1, x.2 + n))
  end.

#[export] Instance stored_laws :
  FlateLaws (fun src => src) (fun src (_ : str) => src) 0 (fun _ => 0) stored_Read (fun _ => None) eq eq.
Proof. split; [apply _|apply _|done|done|by intros n [b d] [b' d'] [[= ->] [= ->]]|by intros d d' ->]. Qed.

Abbreviation stored_step := (pool_step (fun src => src) (fun src (_ : str) => src) 0 (fun _ => 0) stored_Read (fun _ => None)).

Definition stored_ops : list dop :=
  [DOpen None &"abc"; DRead 0 2; DClose 0; DOpen (Some 0) &"xyz"; DOpen (Some 0) &"klm"; DRead 1 2; DRead 2 5].

Lemma pooled_readers_refine_own_readers_witness :
  exists st, run_ops stored_step stored_ops pool_initial
    = Some ([OOpened; ORead (&"ab", None); OClosed None; OOpened; OOpened; ORead (&"xy", None); ORead (&"klm", None)], st)
    /\ ps_closed st = [&"abc"].
Proof.
  apply (pooled_readers_refine_own_readers (fun src => src) (fun src (_ : str) => src) 0 (fun _ => 0) stored_Read
    (fun _ => None) eq eq (HL := stored_laws) stored_ops _
    (mkOwnState [None; Some (&"xyz", (&"z", 2)); Some (&"klm", ([], 5))] [&"abc"])).
  reflexivity.
Defined.

(** The guard against using a closed reader does not survive the pool: after
    the reader of a closed file was handed out again, reading the closed file
    returns no error but the bytes of the other file. *)
Lemma closed_reader_reads_other_file :
  exists st, run_ops stored_step
    [DOpen None &"abc"; DClose 0; DRead 0 1; DOpen (Some 0) &"xyz"; DRead 0 1; DRead 1 1] pool_initial
  = Some ([OOpened; OClosed None; ORead ([], Some ErrClosedReader); OOpened;
           ORead (&"x", None); ORead (&"y", None)], st).
Proof. by eexists. Qed.
