(* ===== verification/ZipVfs.v ===== *)
(** * The cache of zip archives

    internal/vfs/zip/vfs.go with the opening of an archive ([openArchive],
    [openStatus] of archive.go).  Archives live on a heap (a pointer is an
    index) that the cache and the requests share; every critical section is
    one operation, and reading an archive ends at any later time.  The cache
    library is a parameter.  Metrics are left out. *)

From S2P Require Import Prelude GoStd GoUrl Header Vfs HttpRange ZipArchive.

Definition errAlreadyCached : error := ErrSentinel &"archive already cached".

(** ** The cache library *)

(** [GetWithExpiration] at a time, [SetDefault], [Add] (fails when the key is
    there), [Delete]. *)
Record ZipCache (C : Type) : Type := mkZipCache {
  zc_Get : Z -> str -> C -> option (nat * Z);
  zc_SetDefault : Z -> str -> nat -> C -> C;
  zc_Add : Z -> str -> nat -> C -> option C;
  zc_Delete : str -> C -> C;
  zc_New : C }.
Arguments zc_Get {C}.
Arguments zc_SetDefault {C}.
Arguments zc_Add {C}.
Arguments zc_Delete {C}.
Arguments zc_New {C}.

Definition zc_item {C} (zc : ZipCache C) (t : Z) (k : str) (c : C) : option nat := fst <$> zc_Get zc t k c.

(** Its documented behaviour: a key reads what was last set or added, other
    keys are not touched, items vanish by deletion or by time, and adding
    succeeds when the key is not there. *)
Class ZipCacheLaws {C} (zc : ZipCache C) : Prop := {
  zc_get_new t k : zc_item zc t k (zc_New zc) = None;
  zc_get_set t t' k k' v c : zc_item zc t' k' (zc_SetDefault zc t k v c) = Some v /\ k = k'
    \/ zc_item zc t' k' (zc_SetDefault zc t k v c) = None /\ k = k'
    \/ zc_item zc t' k' (zc_SetDefault zc t k v c) = zc_item zc t' k' c /\ k <> k';
  zc_get_add t t' k k' v c c' : zc_Add zc t k v c = Some c' ->
    zc_item zc t' k' c' = Some v /\ k = k'
    \/ zc_item zc t' k' c' = None /\ k = k'
    \/ zc_item zc t' k' c' = zc_item zc t' k' c /\ k <> k';
  zc_add_absent t k v c : zc_item zc t k c = None -> is_Some (zc_Add zc t k v c);
  zc_get_delete_eq t k c : zc_item zc t k (zc_Delete zc k c) = None;
  zc_get_delete_ne t k k' c : k <> k' -> zc_item zc t k' (zc_Delete zc k c) = zc_item zc t k' c }.

(** ** Archives *)

Inductive archiveStatus : Type := archiveOpening | archiveOpenError | archiveOpened | archiveCorrupted.

#[export] Instance archiveStatus_eq_dec : EqDecision archiveStatus.
Proof. solve_decision. Defined.

(** [v_key] is the key the archive was made for, [v_once] the URL reading was
    started with, [v_done] the outcome once the channel is closed and
    [v_resource] the resource its bytes come from. *)
Record varchive : Type := mkVarchive {
  v_key : str; v_namespace : str; v_once : option str; v_done : option (result zipArchive);
  v_resource : option Resource }.

Definition newArchive (key : str) (count : Z) : varchive := mkVarchive key (cacheNamespace count) None None None.

Definition openStatus (a : varchive) : archiveStatus * option error :=
  match v_done a with
  | None => (archiveOpening, None)
  | Some (Err e) => (archiveOpenError, Some e)
  | Some (Ok _) =>
      match v_resource a ≫= Resource_Err with
      | Some e => (archiveCorrupted, Some e)
      | None => (archiveOpened, None)
      end
  end.

(** ** The file system *)

Record zipVFS {C : Type} : Type := mkZipVFS {
  vheap : list varchive; vcache : C; vclock : Z; archiveCount : Z;
  pending : list (nat * str)  (* requests between the two sections of [Root]: archive and path *) }.
Arguments zipVFS : clear implicits.

Definition keyFromPath (path : str) : result str :=
  match Parse path with
  | None => Err (ErrMsg &"parse")
  | Some u =>
      Ok (url_String (mkURL (Scheme u) (Opaque u) (User u) (Host u) (Path u) (RawPath u) (ForceQuery u)
            [] [] (RawFragment u)))
  end.

Section ZipVfs.

#[local] Set Default Proof Using "Type".

Context {C : Type} (zc : ZipCache C) (cacheRefreshInterval : Z).

Definition initial : zipVFS C := mkZipVFS C [] (zc_New zc) 0 0 [].

Definition with_cache (c : C) (st : zipVFS C) : zipVFS C :=
  mkZipVFS C (vheap st) c (vclock st) (archiveCount st) (pending st).

(** The branch that makes a new archive. *)
Definition create_archive (key : str) (st : zipVFS C) : result nat * zipVFS C :=
  let count := (archiveCount st + 1)%Z in
  let id := length (vheap st) in
  let heap := vheap st ++ [newArchive key count] in
  let c := zc_Delete zc key (vcache st) in
  match zc_Add zc (vclock st) key id c with
  | None => (Err errAlreadyCached, mkZipVFS C heap c (vclock st) count (pending st))
  | Some c' => (Ok id, mkZipVFS C heap c' (vclock st) count (pending st))
  end.

Definition findOrCreateArchive (key : str) (st : zipVFS C) : result nat * zipVFS C :=
  match zc_Get zc (vclock st) key (vcache st) with
  | None => create_archive key st
  | Some (id, expiry) =>
      match vheap st !! id with
      | None => create_archive key st
      | Some a =>
          match (openStatus a).1 with
          | archiveOpening | archiveOpenError => (Ok id, st)
          | archiveOpened =>
              if (expiry - vclock st <? cacheRefreshInterval)%Z
              then (Ok id, with_cache (zc_SetDefault zc (vclock st) key id (vcache st)) st)
              else (Ok id, st)
          | archiveCorrupted => create_archive key st
          end
      end
  end.

(** The first section of [Root]: the request goes on to open the archive. *)
Definition Root_find (path : str) (st : zipVFS C) : result nat * zipVFS C :=
  match keyFromPath path with
  | Err e => (Err e, st)
  | Ok key =>
      match findOrCreateArchive key st with
      | (Err e, st') => (Err e, st')
      | (Ok id, st') =>
          (Ok id, mkZipVFS C (vheap st') (vcache st') (vclock st') (archiveCount st') (pending st' ++ [(id, path)]))
      end
  end.

(** [openArchive] up to the wait: the URL is updated, and reading is started
    once. *)
Definition open_begin (url : str) (a : varchive) : varchive :=
  let resource := SetURL url <$> v_resource a in
  match (openStatus a).1 with
  | archiveOpening =>
      mkVarchive (v_key a) (v_namespace a) (match v_once a with Some u => Some u | None => Some url end)
        (v_done a) resource
  | _ => mkVarchive (v_key a) (v_namespace a) (v_once a) (v_done a) resource
  end.

(** The [select]: the outcome of the reading when it is done, the error of the
    request's own context when that is; when both are, either ([ctx_first]).
    [None]: still waiting. *)
Definition open_wait (a : varchive) (ctx : option error) (ctx_first : bool) : option (result ()) :=
  match v_done a, ctx with
  | None, None => None
  | None, Some e => Some (Err e)
  | Some out, None => Some (let? _ := out in Ok tt)
  | Some out, Some e => Some (if ctx_first then Err e else let? _ := out in Ok tt)
  end.

(** The error [Root] gives for an archive that is not there. *)
Definition root_error (e : error) : error := if decide (e = ErrNotFound) then ErrNotExist e else e.

Definition update (id : nat) (f : varchive -> varchive) (st : zipVFS C) : zipVFS C :=
  mkZipVFS C (alter f id (vheap st)) (vcache st) (vclock st) (archiveCount st) (pending st).

(** *** Root as one request runs it

    [others] is what the rest of the program does while the request waits for
    the lock, before it opens the archive, and while it waits for the reading;
    [ctx] is the error of a context that is done by then, and [ctx_first] the
    choice of the [select] when the reading is done, too. *)
Record turn : Type := mkTurn {
  before_find : zipVFS C -> zipVFS C; before_open : zipVFS C -> zipVFS C; waiting : zipVFS C -> zipVFS C;
  ctx : option error; ctx_first : bool }.

(** [None]: still waiting. *)
Definition openArchive (t : turn) (id : nat) (url : str) (st : zipVFS C) : option (result ()) * zipVFS C :=
  match vheap st !! id with
  | None => (None, st)
  | Some a =>
      let st1 := update id (open_begin url) st in
      match openStatus a with
      | (archiveOpening, _) =>
          let st2 := waiting t st1 in
          (vheap st2 !! id ≫= fun a2 => open_wait a2 (ctx t) (ctx_first t), st2)
      | (_, None) => (Some (Ok tt), st1)
      | (_, Some e) => (Some (Err e), st1)
      end
  end.

(** The archive, as its place on the heap. *)
Definition findOrOpenArchive (t : turn) (key path : str) (st : zipVFS C) : option (result nat) * zipVFS C :=
  match findOrCreateArchive key (before_find t st) with
  | (Err e, st1) => (Some (Err e), st1)
  | (Ok id, st1) =>
      let '(out, st2) := openArchive t id path (before_open t st1) in
      ((fun r => let? _ := r in Ok id) <$> out, st2)
  end.

(** The loop: [turns] bounds its turns, [others i] is the [i]-th of them. *)
Fixpoint Root_loop (turns : nat) (others : nat -> turn) (key path : str) (st : zipVFS C)
  : option (result nat) * zipVFS C :=
  match turns with
  | 0 => (None, st)
  | S turns' =>
      match findOrOpenArchive (others 0) key path st with
      | (None, st') => (None, st')
      | (Some (Ok id), st') => (Some (Ok id), st')
      | (Some (Err e), st') =>
          if decide (e = errAlreadyCached) then Root_loop turns' (fun i => others (S i)) key path st'
          else (Some (Err (root_error e)), st')
      end
  end.

Definition zip_Root (turns : nat) (others : nat -> turn) (path : str) (st : zipVFS C)
  : option (result nat) * zipVFS C :=
  match keyFromPath path with
  | Err e => (Some (Err e), st)
  | Ok key => Root_loop turns others key path st
  end.

Definition zip_Name : str := &"zip".

(** The parts of [readArchive]: the resource is there, the archive is done. *)
Definition set_resource (R : Resource) (a : varchive) : varchive :=
  mkVarchive (v_key a) (v_namespace a) (v_once a) (v_done a) (Some R).
Definition finish_read (out : result zipArchive) (resource : option Resource) (a : varchive) : varchive :=
  mkVarchive (v_key a) (v_namespace a) (v_once a) (Some out) resource.

(** A read finds that the resource has changed. *)
Definition corrupt (e : error) (a : varchive) : varchive :=
  mkVarchive (v_key a) (v_namespace a) (v_once a) (v_done a) (setError e <$> v_resource a).

(** [resetCache], the part of [Reconfigure] that changes the cache. *)
Definition resetCache (st : zipVFS C) : zipVFS C := with_cache (zc_New zc) st.

(** The error of the cache is known to this package alone: no reading and no
    resource fails with it. *)
Definition from_outside (out : result zipArchive) (R : Resource) : Prop :=
  out <> Err errAlreadyCached /\ res_err R <> Some errAlreadyCached.

(** One section of some request, a part of the reading of an archive, a
    reconfiguration, a reader that finds the resource changed, or time that
    passes.  Reading the directory of an archive leaves the URL of its resource
    alone. *)
Inductive vstep : zipVFS C -> zipVFS C -> Prop :=
  | vs_find path st : vstep st (Root_find path st).2
  | vs_open n id path st : pending st !! n = Some (id, path) ->
      vstep st (update id (open_begin path)
        (mkZipVFS C (vheap st) (vcache st) (vclock st) (archiveCount st) (delete n (pending st))))
  | vs_resource id a url Do R st :
      vheap st !! id = Some a -> v_once a = Some url -> v_done a = None -> v_resource a = None ->
      NewResource Do url = Ok R -> vstep st (update id (set_resource R) st)
  | vs_no_resource id a url Do e st :
      vheap st !! id = Some a -> v_once a = Some url -> v_done a = None -> v_resource a = None ->
      NewResource Do url = Err e -> e <> errAlreadyCached -> vstep st (update id (finish_read (Err e) None) st)
  | vs_read id a R zip_NewReader out R' st :
      vheap st !! id = Some a -> v_done a = None -> v_resource a = Some R ->
      load_archive zip_NewReader (v_namespace a) R = (out, R') ->
      from_outside out R' -> res_url R' = res_url R -> vstep st (update id (finish_read out (Some R')) st)
  | vs_reset st : vstep st (resetCache st)
  | vs_corrupt id e st : e <> errAlreadyCached -> vstep st (update id (corrupt e) st)
  | vs_tick t st : (vclock st <= t)%Z ->
      vstep st (mkZipVFS C (vheap st) (vcache st) t (archiveCount st) (pending st)).

Definition vsteps : zipVFS C -> zipVFS C -> Prop := rtc vstep.
Definition vreach (st : zipVFS C) : Prop := vsteps initial st.

(** ** Lemmas *)

(** Every archive stands in the heap with its own number as name space, keeps
    the key it was made for, and has a resource with a URL of that key; the
    cache and the requests hold archives of the right key. *)
Record archive_ok (id : nat) (a : varchive) : Prop := {
  ok_namespace : v_namespace a = cacheNamespace (Z.of_nat id + 1);
  ok_once u : v_once a = Some u -> keyFromPath u = Ok (v_key a);
  ok_resource R : v_resource a = Some R -> keyFromPath (res_url R) = Ok (v_key a) /\ res_err R <> Some errAlreadyCached;
  ok_done z : v_done a = Some (Ok z) -> za_cacheNamespace z = v_namespace a;
  ok_error : v_done a <> Some (Err errAlreadyCached) }.

Definition has_key (st : zipVFS C) (id : nat) (key : str) : Prop :=
  exists a, vheap st !! id = Some a /\ v_key a = key.

Record vinv (st : zipVFS C) : Prop := {
  vi_archives id a : vheap st !! id = Some a -> archive_ok id a;
  vi_count : archiveCount st = Z.of_nat (length (vheap st));
  vi_cache t k id : zc_item zc t k (vcache st) = Some id -> has_key st id k;
  vi_pending n id path : pending st !! n = Some (id, path) ->
    exists key, keyFromPath path = Ok key /\ has_key st id key }.

Context {laws : ZipCacheLaws zc}.

Lemma vinv_initial : vinv initial.
Proof using laws.
  split; [done|done| |done]. intros t k id. cbn [initial vcache]. by rewrite zc_get_new.
Qed.

(** A change of one archive that keeps its key and name space. *)
Lemma vinv_update st id f :
  vinv st ->
  (forall a, v_key (f a) = v_key a) ->
  (forall a, vheap st !! id = Some a -> archive_ok id a -> archive_ok id (f a)) ->
  vinv (update id f st).
Proof.
  intros [H1 H2 H3 H4] Hk Hf.
  assert (Hhas : forall i k, has_key st i k -> has_key (update id f st) i k).
  { intros i k (a & Ha & Hak). unfold has_key. cbn [update vheap]. destruct (decide (id = i)) as [->|Hne].
    - exists (f a). rewrite list_lookup_alter_eq, Ha. split; [done|]. by rewrite Hk.
    - exists a. by rewrite list_lookup_alter_ne. }
  split; cbn [update vheap vcache vclock archiveCount pending].
  - intros i a. destruct (decide (id = i)) as [->|Hne].
    + rewrite list_lookup_alter_eq. destruct (vheap st !! i) as [a0|] eqn:E; [|done]. intros [= <-]. auto.
    + rewrite list_lookup_alter_ne by done. apply H1.
  - by rewrite length_alter.
  - intros t k i Hi. by apply Hhas, (H3 t).
  - intros n i path Hp. destruct (H4 n i path Hp) as (key & Hkey & Hh). eauto.
Qed.

(** Opening an archive with a URL of its key. *)
Lemma open_begin_inv st id url key :
  vinv st -> keyFromPath url = Ok key -> has_key st id key -> vinv (update id (open_begin url) st).
Proof.
  intros Hv Hkey (a & Ha & Hak). apply vinv_update; [done|intros b; unfold open_begin; by repeat case_match|].
  intros b Hb [Hn Hu Hr Hz Hd]. assert (b = a) as -> by congruence. unfold open_begin.
  assert (Hres : forall R, SetURL url <$> v_resource a = Some R ->
    keyFromPath (res_url R) = Ok (v_key a) /\ res_err R <> Some errAlreadyCached).
  { intros R (R0 & HR0 & ->)%fmap_Some. split; [cbn [SetURL res_url]; congruence|by destruct (Hr R0 HR0)]. }
  destruct (openStatus a).1; split; cbn [v_once v_key v_resource v_done v_namespace]; try done.
  destruct (v_once a); [done|]. intros u [= <-]. congruence.
Qed.

Lemma has_key_app st h i k : has_key st i k -> forall st', vheap st' = vheap st ++ h -> has_key st' i k.
Proof. intros (a & Ha & Hk) st' Hst. exists a. rewrite Hst. split; [by apply lookup_app_l_Some|done]. Qed.

(** Making an archive succeeds: the key was deleted just before. *)
Lemma create_archive_spec key st :
  vinv st -> exists st', create_archive key st = (Ok (length (vheap st)), st')
    /\ vinv st' /\ vheap st' = vheap st ++ [newArchive key (archiveCount st + 1)] /\ pending st' = pending st.
Proof using laws.
  intros Hv. pose proof Hv as [H1 H2 H3 H4]. unfold create_archive.
  destruct (zc_add_absent (vclock st) key (length (vheap st)) (zc_Delete zc key (vcache st))) as [c' Hc'];
    [apply zc_get_delete_eq|].
  rewrite Hc'. eexists. split; [done|].
  set (st' := mkZipVFS C _ c' _ _ _). assert (Hheap : vheap st' = vheap st ++ [newArchive key (archiveCount st + 1)]) by done.
  split; [|done]. split.
  - intros id a. rewrite Hheap. intros [Ha|[Hlen Ha]]%lookup_app_Some; [by apply H1|].
    destruct (id - length (vheap st)) as [|m] eqn:Em; [|done]. injection Ha as <-.
    assert (id = length (vheap st)) as -> by lia. split; try done. cbn. by rewrite H2.
  - cbn [archiveCount st']. rewrite Hheap, length_app, H2. simpl. lia.
  - intros t k id. cbn [vcache st'].
    destruct (zc_get_add (vclock st) t key k (length (vheap st)) _ c' Hc') as [[-> <-]|[[-> _]|[-> Hne]]]; [|done|].
    + intros [= <-]. exists (newArchive key (archiveCount st + 1)). split; [|done].
      rewrite Hheap, lookup_app_r, Nat.sub_diag by lia. done.
    + rewrite zc_get_delete_ne by done. intros Hid. by apply (has_key_app st _ id k (H3 t k id Hid) st' Hheap).
  - intros n id path Hp. destruct (H4 n id path Hp) as (k & Hk & Hh). exists k. split; [done|].
    by apply (has_key_app st _ id k Hh st' Hheap).
Qed.

(** Finding an archive: never an error, of the right key, never one whose
    resource has changed. *)
Lemma findOrCreateArchive_spec key st :
  vinv st -> exists id st' a, findOrCreateArchive key st = (Ok id, st')
    /\ vinv st' /\ vheap st' !! id = Some a /\ v_key a = key /\ (openStatus a).1 <> archiveCorrupted
    /\ pending st' = pending st.
Proof using laws.
  intros Hv. assert (Hcreate : exists id st' a, create_archive key st = (Ok id, st')
    /\ vinv st' /\ vheap st' !! id = Some a /\ v_key a = key /\ (openStatus a).1 <> archiveCorrupted
    /\ pending st' = pending st).
  { destruct (create_archive_spec key st Hv) as (st' & He & Hv' & Hh & Hp).
    exists (length (vheap st)), st', (newArchive key (archiveCount st + 1)).
    rewrite Hh, lookup_app_r, Nat.sub_diag by lia. done. }
  unfold findOrCreateArchive. destruct (zc_Get zc (vclock st) key (vcache st)) as [[id expiry]|] eqn:Eg; [|done].
  destruct (vheap st !! id) as [a|] eqn:Ea; [|done].
  assert (Hkey : v_key a = key).
  { assert (Hi : zc_item zc (vclock st) key (vcache st) = Some id) by (unfold zc_item; by rewrite Eg).
    destruct (vi_cache st Hv _ _ _ Hi) as (a' & Ha' & Hk). congruence. }
  destruct (openStatus a).1 eqn:Es; [..|done].
  - exists id, st, a. by rewrite Es.
  - exists id, st, a. by rewrite Es.
  - destruct (_ <? _)%Z; [|by exists id, st, a; rewrite Es].
    eexists id, _, a. split; [done|]. rewrite Es. cbn [with_cache vheap pending]. split; [|done].
    destruct Hv as [H1 H2 H3 H4]. split; [done|done| |done].
    intros t k i. cbn [with_cache vcache].
    destruct (zc_get_set (vclock st) t key k id (vcache st)) as [[-> <-]|[[-> _]|[-> Hne]]]; [|done|apply H3].
    intros [= <-]. by exists a.
Qed.

Lemma index_archive_namespace ns entries : za_cacheNamespace (index_archive ns entries) = ns.
Proof.
  unfold index_archive. change ns with (za_cacheNamespace (new_archive ns)) at 2.
  generalize (new_archive ns). induction entries as [|f entries IH]; intros a; [done|]. cbn [foldl]. rewrite IH.
  unfold add_entry, addPathDirectory. by repeat case_match.
Qed.

Lemma vstep_inv st st' : vinv st -> vstep st st' -> vinv st'.
Proof using laws.
  intros Hv. destruct 1 as [path st|n id path st Hp|id a url Do R st Ha Ho Hd Hr HR|id a url Do e st Ha Ho Hd Hr HR He
    |id a R zn out R' st Ha Hd Hr El [Ho1 Ho2] Hurl|st|id e st He|t st Ht].
  - unfold Root_find. destruct (keyFromPath path) as [key|e] eqn:Ek; [|done].
    destruct (findOrCreateArchive_spec key st Hv) as (id & st' & a & -> & [H1 H2 H3 H4] & Ha & Hk & _ & _).
    cbn [snd]. split; [done|done|done|]. cbn [pending].
    intros n i p [Hp|[_ Hp]]%lookup_app_Some; [by apply (H4 n)|].
    destruct (n - length (pending st')) as [|m]; [|done]. injection Hp as <- <-.
    exists key. split; [done|]. by exists a.
  - pose proof Hv as [H1 H2 H3 H4]. destruct (H4 n id path Hp) as (key & Hkey & a & Ha & Hak).
    set (st0 := mkZipVFS C _ _ _ _ (delete n (pending st))).
    assert (Hv0 : vinv st0).
    { split; [done|done|done|]. intros m i p Hm. cbn [pending st0] in Hm.
      pose proof (submseteq_delete (pending st) n) as Hsub.
      apply list_elem_of_lookup_2 in Hm. apply (elem_of_submseteq _ _ _ Hm) in Hsub.
      apply list_elem_of_lookup in Hsub as [m' Hm']. by apply (H4 m'). }
    eapply open_begin_inv; [done|done|by exists a].
  - apply vinv_update; [done|done|]. intros b Hb []. assert (b = a) as -> by congruence.
    apply NewResource_url in HR as [HRu HRe]. split; cbn [set_resource v_key v_namespace v_once v_resource v_done]; try done.
    intros R0 [= <-]. rewrite HRu, HRe. split; [by apply ok_once0|done].
  - apply vinv_update; [done|done|]. intros b Hb []. split; cbn [finish_read v_key v_namespace v_once v_resource v_done]; try done.
    congruence.
  - apply vinv_update; [done|done|]. intros b Hb []. assert (b = a) as -> by congruence.
    split; cbn [finish_read v_key v_namespace v_once v_resource v_done]; [done|done| | |congruence].
    + intros R0 [= <-]. rewrite Hurl. split; [by apply ok_resource0|done].
    + intros z [= Hz]. unfold load_archive in El. destruct (WithCachedReader _ _) as [[[entries|e] R0] rr]; [|congruence].
      injection El as <- <-. injection Hz as <-. apply index_archive_namespace.
  - destruct Hv as [H1 H2 H3 H4]. split; [done|done| |done].
    intros t k id. cbn [resetCache with_cache vcache]. by rewrite zc_get_new.
  - apply vinv_update; [done|done|]. intros b Hb []. split; try done. cbn [corrupt v_resource v_key].
    intros R (R0 & HR0 & ->)%fmap_Some. cbn [setError res_url res_err]. split; [by apply ok_resource0|congruence].
  - destruct Hv as [H1 H2 H3 H4]. by split.
Qed.

Lemma vsteps_inv st st' : vinv st -> vsteps st st' -> vinv st'.
Proof using laws.
  intros Hv Hs. induction Hs as [|st st1 st' Hstep _ IH]; [done|]. by eapply IH, vstep_inv.
Qed.

Lemma vreach_inv st : vreach st -> vinv st.
Proof using laws. apply vsteps_inv, vinv_initial. Qed.

(** The key of an archive never changes. *)
Lemma vstep_has_key st st' id key : vinv st -> vstep st st' -> has_key st id key -> has_key st' id key.
Proof using laws.
  intros Hv Hs Hk.
  assert (Hupd : forall i f st, (forall a, v_key (f a) = v_key a) -> has_key st id key -> has_key (update i f st) id key).
  { clear. intros i f st Hf (a & Ha & Hk). unfold has_key. cbn [update vheap]. destruct (decide (i = id)) as [->|Hne].
    - exists (f a). rewrite list_lookup_alter_eq, Ha. split; [done|]. by rewrite Hf.
    - exists a. by rewrite list_lookup_alter_ne. }
  destruct Hs as [path st|n i path st Hp|i a url Do R st Ha Ho Hd Hr HR|i a url Do e st Ha Ho Hd Hr HR He
    |i a R zn out R' st Ha Hd Hr El Ho Hurl|st|i e st He|t st Ht].
  - unfold Root_find. destruct (keyFromPath path) as [k|e]; [|done].
    assert (Hc : exists h, vheap (create_archive k st).2 = vheap st ++ h).
    { unfold create_archive. case_match; by eexists. }
    assert (Hf : exists h, vheap (findOrCreateArchive k st).2 = vheap st ++ h).
    { unfold findOrCreateArchive. repeat case_match; try exact Hc; exists []; by rewrite app_nil_r. }
    destruct Hf as [h Hh]. destruct (findOrCreateArchive k st) as [[i|e] st']; cbn [snd] in *;
      by apply (has_key_app st h id key Hk).
  - apply Hupd; [intros b; unfold open_begin; by repeat case_match|done].
  - by apply Hupd.
  - by apply Hupd.
  - by apply Hupd.
  - done.
  - by apply Hupd.
  - done.
Qed.

Lemma vsteps_has_key st st' id key : vinv st -> vsteps st st' -> has_key st id key -> vinv st' /\ has_key st' id key.
Proof using laws.
  intros Hv Hs. revert Hv. induction Hs as [|st st1 st' Hstep _ IH]; intros Hv Hk; [done|].
  apply IH; [by eapply vstep_inv|by eapply vstep_has_key].
Qed.

(** [readArchive] without interruption is a run of its steps. *)
Lemma readArchive_steps id a url Do zip_NewReader st :
  vheap st !! id = Some a -> v_once a = Some url -> v_done a = None -> v_resource a = None ->
  let out := readArchive Do zip_NewReader (v_namespace a) url in
  (forall e, out.1 = Err e -> e <> errAlreadyCached) ->
  (forall R, out.2 = Some R -> res_url R = url /\ res_err R <> Some errAlreadyCached) ->
  vsteps st (update id (finish_read out.1 out.2) st).
Proof.
  intros Ha Ho Hd Hr. unfold readArchive. destruct (NewResource Do url) as [R|e] eqn:ER; cbn [fst snd]; intros He HR.
  - destruct (load_archive zip_NewReader (v_namespace a) R) as [out R'] eqn:El. cbn [fst snd] in *.
    destruct (HR R' eq_refl) as [Hu' He']. eapply rtc_l; [by eapply vs_resource|].
    assert (update id (finish_read out (Some R')) st
            = update id (finish_read out (Some R')) (update id (set_resource R) st)) as ->.
    { unfold update. f_equal. cbn [vheap]. apply list_eq. intros j. destruct (decide (id = j)) as [->|Hne].
      - by rewrite !list_lookup_alter_eq, Ha.
      - by rewrite !list_lookup_alter_ne. }
    apply rtc_once. apply (vs_read id (set_resource R a) R zip_NewReader); [|done|done|done| |].
    + cbn [update vheap]. by rewrite list_lookup_alter_eq, Ha.
    + split; [|done]. intros ->. by apply (He errAlreadyCached).
    + by destruct (NewResource_url _ _ _ ER) as [-> _].
  - apply rtc_once. eapply vs_no_resource; eauto.
Qed.

(** [C18] Requests get archives of their own site: in every interleaving of
    requests, reads, resets, expiries and changed resources, looking for the archive
    of a URL succeeds at once (the retry loop of [Root] is never taken), the
    archive found is not one whose resource is known to have changed, and, at
    any later time, the URL its reading was started with and the URL its bytes
    are requested from, whichever request set it last, have the key of the URL
    asked for, that is, are the same up to query and fragment. *)
Theorem zip_Root_own_archive st path key :
  vreach st -> keyFromPath path = Ok key ->
  exists id st' a, Root_find path st = (Ok id, st')
    /\ vheap st' !! id = Some a /\ (openStatus a).1 <> archiveCorrupted
    /\ forall st2 a2, vsteps st' st2 -> vheap st2 !! id = Some a2 ->
         (forall u, v_once a2 = Some u -> keyFromPath u = Ok key)
         /\ (forall R, v_resource a2 = Some R -> keyFromPath (res_url R) = Ok key).
Proof using laws.
  intros Hr Hkey. pose proof (vreach_inv st Hr) as Hv. unfold Root_find. rewrite Hkey.
  destruct (findOrCreateArchive_spec key st Hv) as (id & st' & a & Hf & _ & Ha & Hk & Hs & _).
  rewrite Hf. eexists id, _, a. split; [done|]. split; [done|]. split; [done|]. intros st2 a2 Hsteps Ha2.
  assert (Hv' : vinv (Root_find path st).2) by (eapply vstep_inv; [exact Hv|constructor]).
  unfold Root_find in Hv'. rewrite Hkey, Hf in Hv'. cbn [snd] in Hv'.
  destruct (vsteps_has_key _ st2 id key Hv' Hsteps) as [Hv2 (a3 & Ha3 & Hk3)]; [by exists a|].
  assert (a3 = a2) as -> by congruence. rewrite <- Hk3. destruct (vi_archives st2 Hv2 id a2 Ha2). split; [done|].
  intros R HR. by apply ok_resource0.
Qed.

(** *** A whole request *)

(** What the others do is steps of the program. *)
Definition turn_ok (t : turn) : Prop :=
  (forall st, vsteps st (before_find t st)) /\ (forall st, vsteps st (before_open t st))
  /\ (forall st, vsteps st (waiting t st)) /\ ctx t <> Some errAlreadyCached.

(** What a request for [key] may be told in state [st]. *)
Definition root_outcome (ctx : option error) (key : str) (st : zipVFS C) (out : option (result nat)) : Prop :=
  match out with
  | Some (Ok id) => exists a z, vheap st !! id = Some a /\ v_key a = key /\ v_done a = Some (Ok z)
                     /\ za_cacheNamespace z = cacheNamespace (Z.of_nat id + 1)
  | Some (Err e) => ctx = Some e \/ exists id a, vheap st !! id = Some a /\ v_key a = key
                     /\ (v_done a = Some (Err e) \/ exists R, v_resource a = Some R /\ res_err R = Some e)
  | None => ctx = None /\ exists id a, vheap st !! id = Some a /\ v_key a = key /\ v_done a = None
  end.

Lemma open_begin_done url a : v_done (open_begin url a) = v_done a.
Proof. unfold open_begin. by repeat case_match. Qed.

Lemma open_begin_key url a : v_key (open_begin url a) = v_key a.
Proof. unfold open_begin. by repeat case_match. Qed.

Lemma open_begin_resource url a : v_resource (open_begin url a) = SetURL url <$> v_resource a.
Proof. unfold open_begin. by repeat case_match. Qed.

(** What is known of an archive that is done. *)
Lemma done_outcome ctx key st id a out :
  vinv st -> vheap st !! id = Some a -> v_key a = key -> v_done a = Some out ->
  root_outcome ctx key st (Some (let? _ := out in Ok id)).
Proof.
  intros Hv Ha Hk Hd. destruct (vi_archives st Hv id a Ha) as [Hn _ _ Hz _]. destruct out as [z|e]; cbn [root_outcome].
  - exists a, z. split; [done|]. split; [done|]. split; [done|]. rewrite <- Hn. by apply Hz.
  - right. exists id, a. auto.
Qed.

Lemma openArchive_outcome t id path key st :
  turn_ok t -> vinv st -> keyFromPath path = Ok key -> has_key st id key ->
  let '(out, st') := openArchive t id path st in
  vinv st' /\ root_outcome (ctx t) key st' ((fun r => let? _ := r in Ok id) <$> out).
Proof using laws.
  intros (_ & _ & Hw & _) Hv Hkey (a & Ha & Hak). unfold openArchive. rewrite Ha.
  pose proof (open_begin_inv st id path key Hv Hkey (ex_intro _ a (conj Ha Hak))) as Hv1.
  set (st1 := update id (open_begin path) st) in *.
  assert (Ha1 : vheap st1 !! id = Some (open_begin path a)) by (cbn [st1 update vheap]; by rewrite list_lookup_alter_eq, Ha).
  assert (Hk1 : v_key (open_begin path a) = key) by (by rewrite open_begin_key).
  pose proof (open_begin_done path a) as Hdone. unfold openStatus.
  destruct (v_done a) as [[z|e]|] eqn:Ed.
  - destruct (v_resource a ≫= Resource_Err) as [e|] eqn:Er; (split; [done|]).
    + apply bind_Some in Er as (R & HR & He). right. exists id, (open_begin path a). split; [done|]. split; [done|].
      right. exists (SetURL path R). by rewrite open_begin_resource, HR.
    + by apply (done_outcome _ _ _ _ _ (Ok z) Hv1 Ha1).
  - split; [done|]. by apply (done_outcome _ _ _ _ _ (Err e) Hv1 Ha1).
  - destruct (vsteps_has_key st1 (waiting t st1) id key Hv1 (Hw st1)) as [Hv2 (a2 & Ha2 & Hk2)]; [by eexists|].
    split; [done|]. rewrite Ha2. cbn [mbind option_bind]. unfold open_wait.
    destruct (v_done a2) as [out|] eqn:Ed2, (ctx t) as [e|] eqn:Ec; cbn [fmap option_fmap option_map].
    + destruct (ctx_first t); [by left|]. pose proof (done_outcome (Some e) key _ id a2 out Hv2 Ha2 Hk2 Ed2). by destruct out.
    + pose proof (done_outcome None key _ id a2 out Hv2 Ha2 Hk2 Ed2). by destruct out.
    + by left.
    + split; [done|]. by exists id, a2.
Qed.

(** No outcome is the error of the cache. *)
Lemma root_outcome_foreign ctx key st :
  vinv st -> ctx <> Some errAlreadyCached -> ~ root_outcome ctx key st (Some (Err errAlreadyCached)).
Proof.
  intros Hv Hc [H|(id & a & Ha & _ & Hd)]; [done|].
  destruct (vi_archives st Hv id a Ha) as [_ _ Hn2 _ Hn1].
  destruct Hd as [Hd|(R & HR & He)]; [done|]. by destruct (Hn2 R HR).
Qed.

Lemma findOrOpenArchive_outcome t key path st :
  turn_ok t -> vinv st -> keyFromPath path = Ok key ->
  let '(out, st') := findOrOpenArchive t key path st in
  vinv st' /\ root_outcome (ctx t) key st' out.
Proof using laws.
  intros Ht Hv Hkey. pose proof Ht as (Hf & Ho & _). unfold findOrOpenArchive.
  assert (Hv0 : vinv (before_find t st)) by (by eapply vsteps_inv).
  destruct (findOrCreateArchive_spec key _ Hv0) as (id & st1 & a & -> & Hv1 & Ha & Hk & _ & _).
  destruct (vsteps_has_key st1 (before_open t st1) id key Hv1 (Ho st1)) as [Hv2 Hk2]; [by exists a|].
  pose proof (openArchive_outcome t id path key _ Ht Hv2 Hkey Hk2) as Hout.
  by destruct (openArchive t id path (before_open t st1)) as [out st2].
Qed.

Lemma zip_Root_turn others path key st turns :
  vinv st -> keyFromPath path = Ok key -> turn_ok (others 0) -> 0 < turns ->
  exists out st', findOrOpenArchive (others 0) key path st = (out, st')
    /\ vinv st' /\ root_outcome (ctx (others 0)) key st' out
    /\ zip_Root turns others path st
       = (match out with Some (Err e) => Some (Err (root_error e)) | _ => out end, st').
Proof using laws.
  intros Hr Hkey Ht Hn. pose proof (findOrOpenArchive_outcome (others 0) key path st Ht Hr Hkey) as Hout.
  destruct (findOrOpenArchive (others 0) key path st) as [out st'] eqn:E. destruct Hout as [Hv Hout].
  exists out, st'. split; [done|]. split; [done|]. split; [done|]. unfold zip_Root. rewrite Hkey.
  destruct turns as [|turns]; [lia|]. cbn [Root_loop]. rewrite E.
  destruct out as [[id|e]|]; [done| |done]. rewrite decide_False; [done|]. intros ->.
  by eapply root_outcome_foreign; [exact Hv|apply Ht|exact Hout].
Qed.

(** [C33] A request for an archive takes one turn of the loop and is told the
    truth: in every reachable state and whatever the rest of the program does
    in between, it does not go round the loop again; it gets an archive that
    was opened for its own key, with the name space of that archive, or the
    error of reading it, of its changed resource or of the request's own
    context, or else it still waits for a reading that has not ended while
    its context is not done. *)
Theorem zip_Root_one_turn others path key st turns :
  vreach st -> keyFromPath path = Ok key -> turn_ok (others 0) -> 0 < turns ->
  exists out st', findOrOpenArchive (others 0) key path st = (out, st')
    /\ root_outcome (ctx (others 0)) key st' out
    /\ zip_Root turns others path st
       = (match out with Some (Err e) => Some (Err (root_error e)) | _ => out end, st').
Proof using laws.
  intros Hr%vreach_inv Hkey Ht Hn.
  destruct (zip_Root_turn others path key st turns Hr Hkey Ht Hn) as (out & st' & E & _ & Hout & Hroot). eauto.
Qed.

End ZipVfs.

(** ** A concrete cache *)

(** Items with an expiry, sixty units after they were set. *)
Definition timed_get (t : Z) (k : str) (c : gmap str (nat * Z)) : option (nat * Z) :=
  match c !! k with Some (v, e) => if (t <=? e)%Z then Some (v, e) else None | None => None end.

Definition timed_cache : ZipCache (gmap str (nat * Z)) := {|
  zc_Get := timed_get;
  zc_SetDefault t k v c := <[k := (v, (t + 60)%Z)]> c;
  zc_Add t k v c := match timed_get t k c with Some _ => None | None => Some (<[k := (v, (t + 60)%Z)]> c) end;
  zc_Delete k c := delete k c;
  zc_New := ∅ |}.

Lemma timed_insert (t : Z) (k : str) (v : nat) (c : gmap str (nat * Z)) t' (k' : str) :
  let get m : option nat := fst <$> timed_get t' k' m in
  let c' := <[k := (v, (t + 60)%Z)]> c in
  get c' = Some v /\ k = k' \/ get c' = None /\ k = k' \/ get c' = get c /\ k <> k'.
Proof.
  cbv zeta. unfold timed_get. destruct (decide (k = k')) as [<-|Hne].
  - rewrite lookup_insert_eq. destruct (_ <=? _)%Z; [by left|by right; left].
  - rewrite lookup_insert_ne by done. by right; right.
Qed.

#[export] Instance timed_cache_laws : ZipCacheLaws timed_cache.
Proof.
  split; unfold zc_item; cbn [timed_cache zc_Get zc_SetDefault zc_Add zc_Delete zc_New].
  - intros t k. unfold timed_get. by rewrite lookup_empty.
  - intros. apply timed_insert.
  - intros t t' k k' v c c'. destruct (timed_get t k c); [done|]. intros [= <-]. apply timed_insert.
  - intros t k v c. destruct (timed_get t k c); [done|]. by eexists.
  - intros t k c. unfold timed_get. by rewrite lookup_delete_eq.
  - intros t k k' c Hne. unfold timed_get. by rewrite lookup_delete_ne.
Qed.

Lemma zip_Root_own_archive_witness :
  exists id st' a, Root_find timed_cache 30 &"https://cdn.example/a.zip?sign=1" (initial timed_cache) = (Ok id, st')
    /\ vheap st' !! id = Some a /\ (openStatus a).1 <> archiveCorrupted
    /\ forall st2 a2 R, vsteps timed_cache 30 st' st2 -> vheap st2 !! id = Some a2 -> v_resource a2 = Some R ->
         keyFromPath (res_url R) = Ok &"https://cdn.example/a.zip".
Proof.
  destruct (zip_Root_own_archive timed_cache 30 (initial timed_cache) &"https://cdn.example/a.zip?sign=1"
    &"https://cdn.example/a.zip") as (id & st' & a & H1 & H2 & H3 & H4).
  - constructor.
  - vm_compute. reflexivity.
  - exists id, st', a. split; [exact H1|]. split; [exact H2|]. split; [exact H3|].
    intros st2 a2 R Hs Ha. exact (proj2 (H4 st2 a2 Hs Ha) R).
Defined.

(** An archive that is not there: while the request waits, the reading of the
    first archive ends with a 404. *)
Definition not_there : str -> Header -> result RangeResponse := fun _ _ => Ok (mkRangeResponse 404 ∅ 0 (mkBody [] io_EOF)).
Definition missing_url : str := &"https://cdn.example/gone.zip".

Definition read_first (st : zipVFS (gmap str (nat * Z))) : zipVFS (gmap str (nat * Z)) :=
  match vheap st !! 0 with
  | Some a =>
      match v_done a, v_resource a with
      | None, None => if decide (v_once a = Some missing_url) then update 0 (finish_read (Err ErrNotFound) None) st else st
      | _, _ => st
      end
  | None => st
  end.
Definition missing_turn : turn := mkTurn (fun st => st) (fun st => st) read_first None false.

Lemma missing_turn_ok : turn_ok timed_cache 30 missing_turn.
Proof.
  split; [intros st; apply rtc_refl|]. split; [intros st; apply rtc_refl|]. split; [|discriminate].
  intros st. cbn [missing_turn waiting]. unfold read_first. destruct (vheap st !! 0) as [a|] eqn:E; [|apply rtc_refl].
  destruct (v_done a) eqn:Ed; [apply rtc_refl|]. destruct (v_resource a) eqn:Er; [apply rtc_refl|].
  case_decide as Ho; [|apply rtc_refl]. apply rtc_once.
  by apply (vs_no_resource timed_cache 30 0 a missing_url not_there ErrNotFound st).
Qed.

Lemma zip_Root_one_turn_witness :
  exists st', zip_Root timed_cache 30 1 (fun _ => missing_turn) missing_url (initial timed_cache)
              = (Some (Err (ErrNotExist ErrNotFound)), st').
Proof.
  destruct (zip_Root_one_turn timed_cache 30 (fun _ => missing_turn) missing_url missing_url (initial timed_cache) 1)
    as (out & st' & E & _ & Hr).
  - constructor.
  - vm_compute. reflexivity.
  - exact missing_turn_ok.
  - lia.
  - exists st'. rewrite Hr. f_equal. apply (f_equal fst) in E. vm_compute in E. rewrite <- E. reflexivity.
Defined.
