(* ===== verification/ZipSite.v ===== *)
(** * A page out of a remote archive

    The parts of internal/vfs/zip, internal/httprange and
    internal/serving/disk put together behind the pipeline: the API names an
    archive as the site of a project, [Root] opens it, the path leads to an
    entry, and the section of the entry is read with range requests.
    (ZipVfs.v, ZipArchive.v, HttpRange.v and SiteContent.v have the parts.) *)

From S2P Require Import Prelude GoStd GoPath GoUrl Header Vfs Symlink Http Redirects Serving DiskServing Domain.
From S2P Require Import GitlabClient Cache GitlabSource Domains Artifact App Auth SiteContent.
From S2P Require Import HttpRange ZipArchive ZipVfs.

(** ** Reading a section to its end *)

(** [SectionReader] read to the end of its section. *)
Definition section_bytes (Do : str -> Header -> result RangeResponse) (R : Resource) (arr : nat -> arrival)
    (off size : Z) : str :=
  (ReadFull Do R (SectionReader off size) arr (Z.to_nat size)).1.1.1.

Lemma section_bytes_slice Do url data `{!RangeServer Do url data} R arr off size :
  fits data -> resource_ok url data R -> (0 <= off)%Z -> (0 <= size)%Z -> (off + size <= Z.of_nat (length data))%Z ->
  section_bytes Do R arr off size = slice data off (off + size).
Proof.
  intros Hf HR Ho Hs Hl. unfold section_bytes, SectionReader.
  destruct (ReadFull_ok Do url data R arr (NewReader off size) (Z.to_nat size) Hf HR) as (r' & -> & _);
    [by apply NewReader_ok|simpl; lia|]. simpl. f_equal. lia.
Qed.

(** ** Entries that can be reached *)

Definition archive_key (cs : list str) : str := dirPrefix ++ Join cs [slash].

(** The last entry with a name, which hides the others. *)
Definition entry_at (entries : list ZipFile) (key : str) : option ZipFile :=
  list.last (filter (fun f => public_file key f = true) entries).

(** [f] is the regular file at [cs], below directories that the archive
    makes known. *)
Record listed (entries : list ZipFile) (cs : list str) (f : ZipFile) : Prop := {
  ls_ordinary : Forall ordinary cs;
  ls_nonempty : cs <> [];
  ls_file : entry_at entries (archive_key cs) = Some f;
  ls_regular : zip_Mode f = ModeRegular;
  ls_dirs n : 0 < n < length cs -> entry_at entries (archive_key (take n cs)) = None
              /\ Exists (makes_dir (archive_key (take n cs) ++ &"/")) entries }.

Lemma archive_key_clean cs : Forall ordinary cs -> cs <> [] -> Clean (dirPrefix ++ Join cs [slash]) = archive_key cs.
Proof.
  intros HF Hne. assert (E : archive_key cs = Join (&"public" :: cs) [slash]) by (by rewrite Join_cons).
  unfold archive_key in E. unfold archive_key. rewrite E. apply Clean_Join; [|done]. constructor; [|done]. decide_now.
Qed.

Lemma findFile_entry ns entries name : findFile (index_archive ns entries) name = entry_at entries (Clean (dirPrefix ++ name)).
Proof. apply index_files. Qed.

Lemma listed_plain inflate fetch ns entries cs f :
  listed entries cs f -> plain_path (zip_root inflate fetch (index_archive ns entries)) cs (zip_FileInfo f).
Proof.
  intros []. split; [done|]. split; [done|]. split.
  - intros n Hn. destruct (ls_dirs0 n Hn) as [Hnone Hdir].
    assert (Hclean : Clean (dirPrefix ++ Join (take n cs) [slash]) = archive_key (take n cs)).
    { apply archive_key_clean; [by apply Forall_take|]. intros E%(f_equal length). rewrite length_take in E. simpl in E. lia. }
    cbn [zip_root Lstat]. unfold zip_Lstat. rewrite findFile_entry, Hclean, Hnone. unfold findDirectory. rewrite Hclean.
    apply (index_dirs ns) in Hdir as [d Hd]. rewrite Hd. eexists. split; [done|].
    apply index_dirs_named in Hd. unfold zip_FileInfo, zip_Mode. cbn [Mode]. by rewrite Hd, HasSuffix_app.
  - cbn [zip_root Lstat]. unfold zip_Lstat. rewrite findFile_entry, archive_key_clean, ls_file0 by done.
    split; [done|]. unfold zip_FileInfo. cbn [Mode]. by rewrite ls_regular0.
Qed.

(** The bytes of an entry from those of its section. *)
Definition unpacked (inflate : str -> str) (method : Z) (section : str) : option File :=
  if (method =? 8)%Z then Some (mkFile (inflate section) false)
  else if (method =? 0)%Z then Some (mkFile section true) else None.

Lemma zip_Open_entry inflate fetch ns entries name f off file :
  entry_at entries (Clean (dirPrefix ++ name)) = Some f -> zip_Mode f = ModeRegular -> zf_DataOffset f = Ok off ->
  unpacked inflate (zf_Method f) (fetch off (wrap64 (zf_CompressedSize64 f))) = Some file ->
  let root := zip_root inflate fetch (index_archive ns entries) in
  Open root name = Ok file /\ Lstat root name = Ok (zip_FileInfo f).
Proof.
  intros He Hm Ho Hu root. subst root. cbn [zip_root Open Lstat]. unfold zip_Open, zip_Lstat. rewrite findFile_entry, He.
  split; [|done]. unfold IsRegular. rewrite Hm. cbn [bool_decide negb decide]. unfold findOrFetch, uncached.
  cbn [dataOffsetCache]. rewrite lookup_empty, Ho. cbn [fst result_bind]. unfold section_file. unfold unpacked in Hu.
  destruct (zf_Method f =? 8)%Z; [by injection Hu as <-|]. destruct (zf_Method f =? 0)%Z; [by injection Hu as <-|done].
Qed.

Section Site.

#[local] Set Default Proof Using "Type".

Context {Certificate : Type} (artifact_Do : URL -> Header -> result ApiResponse).

(** ** The application (see SiteContent.v) *)

Context (lib : ContentLib) {laws : ContentLaws lib} (netlify_Parse : str -> result (list Rule)) (ff : str) (now : Z).
Context (local zip : Serving) (client : str -> Lookup) (g : Gitlab).
Context (cr : Crypto) (store_Get : Request -> SessionValues * bool).
Context (store_Save : SessionValues -> Request -> Response -> result Response).
Context (auth_Do : AuthRequest -> result (Z * str)).
Context (decode_token : str -> result tokenResponse) (decode_error : str -> result errorResponse).
Context (fresh_state fresh_nonce : str) (auth_now : Z) (get_domain : str -> result (option (Domain Certificate))).
Context (oa : option AuthConf).
Context (corsHandler AccessLogger metricsMiddleware InjectCorrelationID :
           HTTPHandler (Certificate := Certificate) -> HTTPHandler (Certificate := Certificate)).
Context {cors_adds : AddsHeaders corsHandler} {log_adds : AddsHeaders AccessLogger}.
Context {metrics_adds : AddsHeaders metricsMiddleware} {corr_adds : AddsHeaders InjectCorrelationID}.

(** ** The file system *)

Context {C : Type} (zc : ZipCache C) {zlaws : ZipCacheLaws zc} (cacheRefreshInterval : Z) (inflate : str -> str).

(** The remote file and how its responses arrive. *)
Context (Do : str -> Header -> result RangeResponse) (data : str) (arr : nat -> arrival).

(** The root of an archive that is done, over its own resource. *)
Definition archive_root (a : varchive) : result Root :=
  match v_done a, v_resource a with
  | Some (Ok z), Some R => Ok (zip_root inflate (section_bytes Do R arr) z)
  | Some (Err e), _ => Err e
  | _, _ => Err (ErrMsg &"not opened")
  end.

(** The file system of a request that comes in state [st], while the rest of
    the program does [others], and [later] between the opening of the archive
    and the reads of its files; a request that still waits has no root. *)
Definition opened_VFS (turns : nat) (others : nat -> turn) (later : zipVFS C -> zipVFS C) (st : zipVFS C) : VFS :=
  mkVFS (fun path =>
    match zip_Root zc cacheRefreshInterval turns others path st with
    | (Some (Ok id), st') =>
        match vheap (later st') !! id with
        | Some a => archive_root a
        | None => Err (ErrMsg &"no archive")
        end
    | (Some (Err e), _) => Err e
    | (None, _) => Err (ErrMsg &"still opening")
    end) zip_Name.

(** The entry whose section is sent: the one at the path itself, or at its
    compressed sibling. *)
Record sends (entries : list ZipFile) (q : str) (e : ZipFile) (file : File) : Prop := {
  se_entry : entry_at entries (Clean (dirPrefix ++ q)) = Some e;
  se_regular : zip_Mode e = ModeRegular;
  se_section : exists off, zf_DataOffset e = Ok off /\ (0 <= off)%Z /\ (0 <= zf_CompressedSize64 e)%Z
    /\ (off + zf_CompressedSize64 e <= Z.of_nat (length data))%Z
    /\ unpacked inflate (zf_Method e) (slice data off (off + zf_CompressedSize64 e)) = Some file;
  se_content : seekable file = true \/ file_data file <> [] }.

(** ** Properties *)

(** The archive [Root] returns is one of the key asked for, and its resource
    has a URL of this key from then on. *)
Lemma opened_resource_key turns others later path key st id st' a R :
  vreach zc cacheRefreshInterval st -> turn_ok zc cacheRefreshInterval (others 0) -> 0 < turns ->
  keyFromPath path = Ok key -> zip_Root zc cacheRefreshInterval turns others path st = (Some (Ok id), st') ->
  vsteps zc cacheRefreshInterval st' (later st') -> vheap (later st') !! id = Some a -> v_resource a = Some R ->
  keyFromPath (res_url R) = Ok key.
Proof using zlaws.
  intros Hr%vreach_inv Ht Hn Hkey Hroot Hlater Ha HR; [|done].
  destruct (zip_Root_turn zc cacheRefreshInterval others path key st turns Hr Hkey Ht Hn) as (out & st1 & _ & Hv & Hout & E).
  rewrite Hroot in E. destruct out as [[i|e]|]; try discriminate E. injection E as <- <-.
  destruct Hout as (a1 & z & Ha1 & Hk1 & _).
  destruct (vsteps_has_key zc cacheRefreshInterval st' _ id key Hv Hlater) as [Hv2 (a2 & Ha2 & Hk2)]; [by exists a1|].
  assert (a2 = a) as -> by congruence. rewrite <- Hk2. by apply (ok_resource id a (vi_archives zc _ Hv2 id a Ha)).
Qed.

(** [C9] A page out of a remote archive, from the lookup to the range requests:
    when the API names an archive as the site of the path, the request's own
    run of [Root] opens it, the rest of the path is a regular entry below
    [public/] under directories that the archive makes known, and the request
    may read the project, then an unconditional GET that no handler in front of
    the content takes, for a file of known type other than that of the
    redirects (and not empty when it is decompressed), gets status 200 and exactly
    the bytes of the entry (or of its compressed sibling): those of its section
    of the remote file when it is stored, decompressed when it is deflated,
    however the connection cuts them into parts.  The bytes are requested from
    the resource of the opened archive, whatever URL other requests have set
    there meanwhile; the remote file is the one served at every URL with the
    key of the archive the API names, and nothing is assumed of other URLs. *)
Theorem zip_page_is_served a r size ap st turns others later key id st' arch R ns entries cs f e file :
  api_app local zip client g cr store_Get store_Save auth_Do decode_token decode_error fresh_state fresh_nonce auth_now
    get_domain oa a (ctx_req r) ->
  plain_request store_Get oa a (ctx_req r) ap -> looked_up client (ctx_req r) size ap ->
  may_read store_Get auth_Do oa (ctx_req r) ap ->
  fabricateServing local zip ap = disk_New lib netlify_Parse ff now (opened_VFS turns others later st) ->
  vreach zc cacheRefreshInterval st -> turn_ok zc cacheRefreshInterval (others 0) -> 0 < turns ->
  keyFromPath (src_Path (ap_Source ap)) = Ok key ->
  zip_Root zc cacheRefreshInterval turns others (src_Path (ap_Source ap)) st = (Some (Ok id), st') ->
  vsteps zc cacheRefreshInterval st' (later st') ->
  vheap (later st') !! id = Some arch -> v_done arch = Some (Ok (index_archive ns entries)) -> v_resource arch = Some R ->
  (forall u, keyFromPath u = Ok key -> RangeServer Do u data) -> res_Size R = Z.of_nat (length data) -> fits data ->
  Clean (Path (req_URL (ctx_req r))) = ap_Prefix ap ++ Join cs [slash] -> listed entries cs f ->
  Join cs [slash] <> ConfigFile -> TypeByExtension lib (Ext (Join cs [slash])) <> [] ->
  let root := zip_root inflate (section_bytes Do R arr) (index_archive ns entries) in
  sends entries (handleContentEncoding (ctx_req r) root (Join cs [slash]) new_response).1 e file ->
  exists w', buildHandlerPipeline artifact_Do corsHandler AccessLogger metricsMiddleware InjectCorrelationID a r
               new_response = Some w'
    /\ w_status w' = Some 200%Z /\ w_body w' = file_data file
    /\ sent_header w' &"Content-Type" = TypeByExtension lib (Ext (Join cs [slash])).
Proof using laws zlaws cors_adds log_adds metrics_adds corr_adds.
  intros Happ Hreq Hlook Hmay Hserving Hreach Hturn Hturns Hkey Hopen Hlater Harch Hdone HRes Hserver Hsize Hfits Hpath Hf
    Hconfig Htype root [He Hm (off & Ho & H0 & Hs & Hl & Hu) Hc].
  pose proof (opened_resource_key _ _ _ _ _ _ _ _ _ _ Hreach Hturn Hturns Hkey Hopen Hlater Harch HRes) as Hurl.
  destruct (serving_reached artifact_Do local zip client g cr store_Get store_Save auth_Do decode_token decode_error
    fresh_state fresh_nonce auth_now get_domain oa corsHandler AccessLogger metricsMiddleware InjectCorrelationID
    a r size ap Happ Hreq Hlook Hmay) as (w & [Hw Hb] & _ & Hpipe).
  rewrite Hserving in Hpipe. pose proof (listed_plain inflate (section_bytes Do R arr) ns entries cs f Hf) as Hplain.
  assert (Hwrap : wrap64 (zf_CompressedSize64 e) = zf_CompressedSize64 e)
    by (apply wrap64_small; unfold fits, in_int64 in *; lia).
  assert (HR : resource_ok (res_url R) data R).
  { split; [done|]. split; [done|]. unfold keyFromPath in Hurl. destruct (Parse (res_url R)); [by eexists|done]. }
  destruct (zip_Open_entry inflate (section_bytes Do R arr) ns entries _ e off file He Hm Ho) as [HO HL].
  { rewrite Hwrap. pose proof (Hserver _ Hurl). by rewrite (section_bytes_slice Do (res_url R) data). }
  assert (Hsub : TrimPrefix (Clean (Path (req_URL (ctx_req r)))) (ap_Prefix ap) = Join cs [slash])
    by (by rewrite Hpath, TrimPrefix_app).
  set (fs := opened_VFS turns others later st) in *.
  assert (Hfind : finds_file lib fs (site_handler (ctx_req r) size ap) new_response root (Join cs [slash]) file).
  { split; unfold site_handler; cbn [h_LookupPath h_SubPath h_Request fabricateLookupPath lp_Path fs opened_VFS vfs_Root].
    - rewrite Hopen, Harch. unfold archive_root. by rewrite Hdone, HRes.
    - rewrite Hsub. by eapply EvalSymlinks_plain_path.
    - destruct Hplain as (_ & _ & _ & HLs & _). eexists. split; [exact HLs|]. apply (ls_regular _ _ _ Hf).
    - done.
    - done.
    - exact HO.
    - by eexists.
    - done. }
  destruct (Disk_ServeFileHTTP_serves_file lib netlify_Parse ff now fs (site_handler (ctx_req r) size ap)
    w root (Join cs [slash]) file) as (w' & Hserve & Hst & Hbody & Hct & _);
    [by eapply finds_file_response|apply (pr_whole _ _ _ _ _ Hreq)|apply (pr_get _ _ _ _ _ Hreq)|done|].
  exists w'. split; [by apply Hpipe|]. by rewrite Hbody, Hb.
Qed.

End Site.

(** ** A page below a directory of an archive *)

(** The section of the page is the middle of the remote file. *)
Definition site_url : str := &"https://cdn.example/a.zip".
Definition site_entries : list ZipFile := [named_header &"public/docs/"; stored &"public/docs/index.html" &"ell" 1].
Definition site_page : ZipFile := stored &"public/docs/index.html" &"ell" 1.

(** The server of the file tells its size; other URLs are refused. *)
Definition site_Do : str -> Header -> result RangeResponse := fun url hdr =>
  match keyFromPath url, remote_Do url hdr with
  | Ok key, Ok res =>
      if decide (key = site_url)
      then Ok (mkRangeResponse (rr_StatusCode res) {[ &"Content-Range" := [&"bytes 0-0/5"] ]} (rr_ContentLength res) (rr_Body res))
      else Ok (mkRangeResponse 404 ∅ 0 (mkBody [] io_EOF))
  | _, _ => Err (ErrMsg &"request")
  end.

Lemma site_server u : keyFromPath u = Ok site_url -> RangeServer site_Do u remote.
Proof.
  intros Hu hdr a b Ha Hb Hh. destruct (remote_server u hdr a b Ha Hb Hh) as (h & n & E). unfold site_Do.
  rewrite Hu, E, decide_True by done. by eexists _, _.
Qed.

(** The request comes with a signed URL.  While it waits, the archive is read;
    before it reads the page, another request sets a newer URL. *)
Definition signed_url : str := &"https://cdn.example/a.zip?sign=1".
Definition site_resource : Resource := mkResource [] [] 5 signed_url None.
Definition site_NewReader : Resource -> RangedReader -> result (list ZipFile) * Resource * RangedReader :=
  fun R rr => (Ok site_entries, R, rr).

Abbreviation site_state := (zipVFS (gmap str (nat * Z))).
Definition read_site (st : site_state) : site_state :=
  match vheap st !! 0 with
  | Some a =>
      match v_done a, v_resource a with
      | None, None =>
          if decide (v_once a = Some signed_url)
          then update 0 (finish_read (Ok (index_archive (v_namespace a) site_entries)) (Some site_resource))
                 (update 0 (set_resource site_resource) st)
          else st
      | _, _ => st
      end
  | None => st
  end.
Definition reading_ends : turn := mkTurn (fun st => st) (fun st => st) read_site None false.

Definition renewed_url : str := &"https://cdn.example/a.zip?sign=2".
Definition renew (st : site_state) : site_state :=
  let st1 := (Root_find timed_cache 30 renewed_url st).2 in
  match pending st1 !! 0 with
  | Some (id, path) => update id (open_begin path)
      (mkZipVFS _ (vheap st1) (vcache st1) (vclock st1) (archiveCount st1) (delete 0 (pending st1)))
  | None => st1
  end.

Lemma read_site_steps st : vsteps timed_cache 30 st (read_site st).
Proof.
  unfold read_site. destruct (vheap st !! 0) as [a|] eqn:E; [|apply rtc_refl].
  destruct (v_done a) eqn:Ed; [apply rtc_refl|]. destruct (v_resource a) eqn:Er; [apply rtc_refl|].
  case_decide as Ho; [|apply rtc_refl]. eapply rtc_l.
  - apply (vs_resource timed_cache 30 0 a signed_url site_Do site_resource st E Ho Ed Er). run.
  - apply rtc_once. apply (vs_read timed_cache 30 0 (set_resource site_resource a) site_resource site_NewReader _ site_resource).
    + cbn [update vheap]. by rewrite list_lookup_alter_eq, E.
    + exact Ed.
    + reflexivity.
    + reflexivity.
    + split; discriminate.
    + reflexivity.
Qed.

Lemma renew_steps st : vsteps timed_cache 30 st (renew st).
Proof.
  eapply rtc_l; [apply (vs_find timed_cache 30 renewed_url st)|]. unfold renew.
  destruct (pending (Root_find timed_cache 30 renewed_url st).2 !! 0) as [[id path]|] eqn:E; [|apply rtc_refl].
  apply rtc_once. by apply vs_open.
Qed.

Lemma reading_ends_ok : turn_ok timed_cache 30 reading_ends.
Proof.
  split; [intros st; apply rtc_refl|]. split; [intros st; apply rtc_refl|]. split; [exact read_site_steps|discriminate].
Qed.

Definition split_arrival (n : nat) : arrival := mkArrival 1 true.
Definition site_vfs : VFS :=
  opened_VFS timed_cache 30 id site_Do split_arrival 1 (fun _ => reading_ends) renew (initial timed_cache).
Definition zip_disk : Serving := disk_New plain_lib no_rules [] 0 site_vfs.
Definition zip_path : ApiLookupPath := mkApiLookupPath 7 true false &"/project/" (mkSource &"zip" signed_url no_serverless).
Definition zip_client (host : str) : Lookup := mkLookup host None (Some (mkVirtualDomain [] [] [zip_path])).
Definition zip_app : theApp (Certificate := unit) :=
  mkApp false &"/@status" false
    (mkDomains sourceGitlab (Some (gitlab_as_source demo_disk zip_disk zip_client api_source)) None) None
    (auth_as_app toy_crypto token_session cookie_save api_ok no_json no_json &"state" &"nonce" 0 no_domains (Some io_conf))
    (Some &"https://gitlab.example") [].
Definition zip_request : CtxRequest (Certificate := unit) := mkCtxRequest (demo_gzip &"/project/docs/index.html") None None.

Definition site_archive : varchive :=
  mkVarchive site_url (cacheNamespace 1) (Some signed_url) (Some (Ok (index_archive (cacheNamespace 1) site_entries)))
    (Some (SetURL renewed_url site_resource)).

Lemma site_page_listed : listed site_entries [&"docs"; &"index.html"] site_page.
Proof.
  split; [repeat constructor; decide_now|done|run|done|]. intros n Hn. assert (n = 1) as -> by (simpl in Hn; lia).
  split; [run|]. constructor. split; [run|left; split; run].
Qed.

Lemma zip_page_is_served_witness :
  exists w', buildHandlerPipeline no_artifacts transparent transparent transparent transparent zip_app zip_request
               new_response = Some w'
    /\ w_status w' = Some 200%Z /\ w_body w' = &"ell".
Proof.
  destruct (zip_page_is_served no_artifacts plain_lib no_rules [] 0 demo_disk zip_disk zip_client
    api_source toy_crypto token_session cookie_save api_ok no_json no_json &"state" &"nonce" 0 no_domains (Some io_conf)
    transparent transparent transparent transparent timed_cache 30 id site_Do remote split_arrival
    zip_app zip_request 1 zip_path (initial timed_cache) 1 (fun _ => reading_ends) renew site_url 0
    (zip_Root timed_cache 30 1 (fun _ => reading_ends) signed_url (initial timed_cache)).2 site_archive
    (SetURL renewed_url site_resource) (cacheNamespace 1) site_entries
    [&"docs"; &"index.html"] site_page site_page (mkFile &"ell" true)) as (w' & H1 & H2 & H3 & _).
  - split; reflexivity.
  - split; try discriminate; try reflexivity.
    + repeat constructor.
    + right. split; reflexivity.
  - exists (mkVirtualDomain [] [] [zip_path]), [], []. repeat split; try reflexivity. constructor.
  - intros _. destruct (Parse (access_url io_conf (wrapu64 7))) as [url|] eqn:E; [|vm_compute in E; discriminate E].
    exists io_conf, {[ &"access_token" := &"tok" ]}, &"tok", [], url.
    split; [reflexivity|]. split; [reflexivity|]. split; [reflexivity|]. split; [exact E|reflexivity].
  - reflexivity.
  - apply rtc_refl.
  - exact reading_ends_ok.
  - lia.
  - run.
  - run.
  - apply renew_steps.
  - run.
  - run.
  - run.
  - exact site_server.
  - reflexivity.
  - run.
  - run.
  - exact site_page_listed.
  - discriminate.
  - discriminate.
  - split; [run|reflexivity| |by left]. exists 1%Z. repeat split; try reflexivity; done.
  - exists w'. split; [exact H1|]. split; [exact H2|exact H3].
Defined.
