(* ===== verification/Requests.v ===== *)
(** * Many requests over one cache

    The server of app.go while it runs: every connection is handled by its own
    goroutine, and all of them share the cache of
    internal/source/gitlab/cache and the source of
    internal/source/gitlab/gitlab.go.  A request runs its handlers up to the
    next call of the cache, goes through the critical sections of the call one
    by one, and goes on with the lookup it got; between any two of its steps
    other requests, refreshes, retrievals and time move the shared state.  A
    lookup with neither an error nor a domain ends the request at once, by the
    dereference of the nil domain.  (LiveDomain.v has the handlers of one
    request, CacheClients.v the critical sections, Cache.v the cache.) *)

From S2P Require Import Prelude GoStd GoPath GoUrl Header Vfs Http Serving DiskServing Domain.
From S2P Require Import GitlabClient Cache CacheLiveness CacheClients GitlabSource Domains Artifact App Auth LiveDomain.

(** ** What a computation uses

    [tracks m1 m2 P]: [m1] makes [u] calls, its result and [u] satisfy [P], and
    [m2], over other lookups and other states of the source, does the same when
    they agree as far as the calls of [m1] go. *)

Section Tracks.

#[local] Set Default Proof Using "Type".

Context (L1 L2 : nat -> Lookup) (gs1 gs2 : nat -> Gitlab).

Definition agree_on (n u : nat) : Prop :=
  (forall i, n <= i < n + u -> L1 i = L2 i) /\ forall i, n <= i <= n + u -> gs1 i = gs2 i.

Definition tracks {A} (m1 m2 : M A) (P : A -> nat -> Prop) : Prop :=
  forall n, exists u, (m1 n).2 = n + u /\ P (m1 n).1 u /\ (agree_on n u -> m2 n = m1 n).

Lemma agree_on_le n u n' u' : n <= n' -> n' + u' <= n + u -> agree_on n u -> agree_on n' u'.
Proof. intros H1 H2 [HL Hg]. split; intros i Hi; [apply HL|apply Hg]; lia. Qed.

Lemma tracks_ret {A} (x : A) (P : A -> nat -> Prop) : P x 0 -> tracks (ret x) (ret x) P.
Proof. intros HP n. exists 0. split; [simpl; lia|]. by split. Qed.

Lemma tracks_bind {A B} (m1 m2 : M A) (k1 k2 : A -> M B) P Q :
  tracks m1 m2 P -> (forall x u, P x u -> tracks (k1 x) (k2 x) (fun y v => Q y (u + v))) ->
  tracks (bind m1 k1) (bind m2 k2) Q.
Proof.
  intros Hm Hk n. destruct (Hm n) as (u & Hu & HP & Hsame). unfold bind. destruct (m1 n) as [x n1]. simpl in *. subst n1.
  destruct (Hk x u HP (n + u)) as (v & Hv & HQ & Hsame'). exists (u + v). split; [lia|]. split; [done|]. intros Hag.
  rewrite Hsame by (eapply agree_on_le; [| |exact Hag]; lia). apply Hsame'. eapply agree_on_le; [| |exact Hag]; lia.
Qed.

Lemma tracks_weaken {A} (m1 m2 : M A) (P Q : A -> nat -> Prop) :
  tracks m1 m2 P -> (forall x u, P x u -> Q x u) -> tracks m1 m2 Q.
Proof. intros Hm HPQ n. destruct (Hm n) as (u & ? & ? & ?). exists u. auto. Qed.

End Tracks.

Section Handlers.

Context {Certificate : Type} (artifact_Do : URL -> Header -> result ApiResponse).
Context (store_Get : Request -> SessionValues * bool).
Context (store_Save : SessionValues -> Request -> Response -> result Response).
Context (Do : AuthRequest -> result (Z * str)) (decode_error : str -> result errorResponse).
Context (fresh_state : str) (oa : option AuthConf).
Context (local_Instance zip_Instance : Serving) (disk : option (DomainSource (Certificate := Certificate))).
Context (a : theApp (Certificate := Certificate)).

Abbreviation ctx_request := (CtxRequest (Certificate := Certificate)).
Abbreviation handler := (LiveHandler (Certificate := Certificate)).
Abbreviation views := (gitlab_views local_Instance zip_Instance).
Abbreviation domains := (gitlab_domains (Certificate := Certificate) local_Instance zip_Instance).
Abbreviation files L := (live_serveFileOrNotFoundHandler (Certificate := Certificate) (views L) store_Get store_Save Do
  decode_error fresh_state oa).

(** [corsHandler.Handler] of rs/cors, around handlers of either kind: [cors]
    adds its headers and tells whether it has answered the request itself, as
    it does for preflight requests. *)
Context (cors : Request -> Response -> bool * Response).

Definition cors_Handler (h : HTTPHandler (Certificate := Certificate)) : HTTPHandler := fun r w =>
  match cors (ctx_req r) w with (true, w') => Some w' | (false, w') => h r w' end.
Definition live_cors_Handler (h : handler) : handler := fun r w =>
  match cors (ctx_req r) w with (true, w') => ret (Some w') | (false, w') => h r w' end.

(** The innermost handlers of [buildHandlerPipeline]. *)
Definition live_content_handler (L : nat -> Lookup) : handler :=
  if app_DisableCrossOriginRequests a then files L else live_cors_Handler (files L).
Abbreviation content L := (live_content_handler L).

(** The handlers of a request from the routing on, over the lookups and the
    states of the source that its calls see. *)
Definition run_with (serve : handler) (gs : nat -> Gitlab) (lookups : nat -> Lookup) (r : ctx_request)
  : option Response * nat :=
  live_routingMiddleware (domains gs disk lookups) a
    (live_pipeline (views lookups) store_Get store_Save Do decode_error fresh_state artifact_Do oa
       (domains gs disk lookups) a serve) r new_response 0.

Definition run (gs : nat -> Gitlab) (lookups : nat -> Lookup) (r : ctx_request) : option Response * nat :=
  run_with (content lookups) gs lookups r.

(** The domain that the routing finds depends on the lookup alone. *)
Definition routed (lk : Lookup) (host : str) : result (option (Domain Certificate)) :=
  match (Gitlab_GetDomain local_Instance zip_Instance (fun _ => lk) host (mkGitlab true false)).1 with
  | Ok d => Ok (Some d)
  | Err e => Err e
  end.

Lemma getHostAndDomain_routed gs L n r :
  getHostAndDomain (app_at (domains gs disk L) n a) r
  = Some (GetHostWithoutPort r, routed (L n) (GetHostWithoutPort r)).
Proof.
  unfold getHostAndDomain, app_domain, Domains_GetDomain, routed. set (host := GetHostWithoutPort r).
  assert (Hsrc : Domains_source (app_domains (app_at (domains gs disk L) n a)) host
                 = Some (gitlab_as_source local_Instance zip_Instance (fun _ => L n) (gs n))).
  { unfold Domains_source. by destruct (IsServerlessDomain host). }
  rewrite Hsrc. cbn [fmap option_fmap option_map gitlab_as_source source_GetDomain]. unfold Gitlab_GetDomain.
  by destruct (lk_Error (L n)), (lk_Domain (L n)).
Qed.

(** ** The calls of the handlers *)

Section Calls.

Context (L1 L2 : nat -> Lookup) (gs1 gs2 : nat -> Gitlab).
Abbreviation tracks := (tracks L1 L2 gs1 gs2).

Lemma tracks_call {A} (f : option (Domain Certificate) -> A) d :
  tracks (call (views L1) f d) (call (views L2) f d) (fun _ u => u <= 1).
Proof.
  intros n. unfold call. destruct d as [dom|].
  - exists 1. split; [simpl; lia|]. split; [lia|]. intros [HL _]. cbn [at_call fmap option_fmap option_map]. unfold gitlab_views.
    by rewrite (HL n) by lia.
  - exists 0. split; [simpl; lia|]. split; [lia|done].
Qed.

(** One call, or a value that is there: the rest is arithmetic. *)
Ltac step := first
  [ eapply tracks_bind; [apply tracks_call|cbv beta; intros ? ? ?]
  | apply tracks_ret; cbv beta; simpl; lia
  | eapply tracks_weaken; [apply tracks_call|cbv beta; simpl; intros; lia] ].

Lemma not_found_tracks (d : option (Domain Certificate)) r w :
  tracks (live_ServeNotFoundAuthFailed (views L1) d r w) (live_ServeNotFoundAuthFailed (views L2) d r w) (fun _ u => u <= 3).
Proof. unfold live_ServeNotFoundAuthFailed. step. destruct x; [|step]. step. case_match; step. Qed.

Lemma auth_failed_tracks (d : option (Domain Certificate)) r w :
  tracks (auth_failed (views L1) d r w) (auth_failed (views L2) d r w) (fun x u => x.1 = true /\ u <= 3).
Proof.
  unfold auth_failed. eapply tracks_bind; [apply not_found_tracks|]. cbv beta. intros x u Hu.
  apply tracks_ret. simpl. split; [done|lia].
Qed.

(** A granted access costs one call. *)
Definition check_cost (x : bool * Response) (u : nat) : Prop := u <= if x.1 then 4 else 1.

Lemma checkAuthentication_tracks conf r (d : option (Domain Certificate)) w :
  tracks (live_checkAuthentication (views L1) store_Get store_Save Do decode_error fresh_state conf r d w)
    (live_checkAuthentication (views L2) store_Get store_Save Do decode_error fresh_state conf r d w) check_cost.
Proof.
  unfold live_checkAuthentication. destruct (checkSessionIsValid _ _ _ _ _ _); [|apply tracks_ret; unfold check_cost; simpl; lia].
  step. assert (Hfail : tracks (auth_failed (views L1) d r w) (auth_failed (views L2) d r w) (fun y v => check_cost y (u + v))).
  { eapply tracks_weaken; [apply auth_failed_tracks|]. unfold check_cost. intros y v [-> Hv]. lia. }
  repeat case_match; try exact Hfail; apply tracks_ret; unfold check_cost; simpl; lia.
Qed.

Lemma without_project_tracks r (d : option (Domain Certificate)) w :
  tracks (live_CheckAuthenticationWithoutProject (views L1) store_Get store_Save Do decode_error fresh_state oa r d w)
    (live_CheckAuthenticationWithoutProject (views L2) store_Get store_Save Do decode_error fresh_state oa r d w) check_cost.
Proof.
  unfold live_CheckAuthenticationWithoutProject. destruct oa; [apply checkAuthentication_tracks|].
  apply tracks_ret. unfold check_cost. simpl. lia.
Qed.

Lemma auth_and_not_found_tracks (d : option (Domain Certificate)) r w :
  tracks (live_checkAuthAndServeNotFound (views L1) store_Get store_Save Do decode_error fresh_state oa d r w)
    (live_checkAuthAndServeNotFound (views L2) store_Get store_Save Do decode_error fresh_state oa d r w)
    (fun x u => x.1 = true /\ u <= 4).
Proof.
  unfold live_checkAuthAndServeNotFound. eapply tracks_bind; [apply without_project_tracks|]. unfold check_cost.
  intros [[] w'] u Hu; simpl in *; [apply tracks_ret; simpl; split; [done|lia]|].
  eapply tracks_weaken; [apply auth_failed_tracks|]. simpl. intros x v [? ?]. split; [done|lia].
Qed.

Lemma ready_tracks : tracks (fun n => (App.isReady (app_at (domains gs1 disk L1) n a), n))
  (fun n => (App.isReady (app_at (domains gs2 disk L2) n a), n)) (fun _ u => u = 0).
Proof.
  intros n. exists 0. split; [simpl; lia|]. split; [done|]. intros [_ Hg]. unfold App.isReady, gitlab_domains, Domains_IsReady.
  cbn [app_at app_domains dom_configSource dom_gitlab gitlab_as_source fmap option_fmap option_map source_IsReady].
  by rewrite (Hg n) by lia.
Qed.

Lemma tryAuxiliary_tracks r https host (d : option (Domain Certificate)) w :
  tracks
    (live_tryAuxiliaryHandlers (views L1) store_Get store_Save Do decode_error fresh_state artifact_Do oa (domains gs1 disk L1) a r https host d w)
    (live_tryAuxiliaryHandlers (views L2) store_Get store_Save Do decode_error fresh_state artifact_Do oa (domains gs2 disk L2) a r https host d w)
    (fun x u => u <= match x with Some (false, _) => 2 | _ => 5 end).
Proof.
  unfold live_tryAuxiliaryHandlers. destruct (_ && _); [step|].
  destruct (HandleArtifactRequest _ _ _ _ _ _) as [[] w1]; [step|].
  eapply tracks_bind; [apply ready_tracks|]. cbv beta. intros ready u0 ->. destruct ready as [[]|]; [|step..]. step.
  eapply (tracks_bind _ _ _ _ _ _ _ _ (fun (x : bool * Response) u => u <= if x.1 then 4 else 0)).
  - destruct (negb x); [|step]. eapply tracks_weaken; [apply auth_and_not_found_tracks|].
    cbv beta. intros y v [-> Hv]. done.
  - intros [[] w2] v Hv; simpl in *; [step|]. destruct https; [step|]. step. case_match; step.
Qed.

Lemma acme_tracks m r (d : option (Domain Certificate)) w :
  tracks (live_ServeAcmeChallenges (views L1) m r d w) (live_ServeAcmeChallenges (views L2) m r d w) (fun _ u => u <= 1).
Proof.
  unfold live_ServeAcmeChallenges. destruct m; [|step]. destruct (negb _); [step|]. step.
  destruct x as [[] w']; step.
Qed.

Lemma files_tracks r w : tracks (files L1 r w) (files L2 r w) (fun _ u => u <= 6).
Proof.
  unfold live_serveFileOrNotFoundHandler. destruct (GetDomain r) as [d|]; [|step]. step. destruct x as [[] w']; [step|]. step.
  eapply (tracks_bind _ _ _ _ _ _ _ _ check_cost).
  - destruct x; [apply without_project_tracks|]. apply tracks_ret. unfold check_cost. simpl. lia.
  - unfold check_cost. intros [[] w2] v Hv; simpl in *; [step|]. step. step.
Qed.

Lemma content_tracks r w : tracks (content L1 r w) (content L2 r w) (fun _ u => u <= 6).
Proof.
  unfold live_content_handler. destruct (app_DisableCrossOriginRequests a); [apply files_tracks|].
  unfold live_cors_Handler. destruct (cors (ctx_req r) w) as [[] w']; [step|apply files_tracks].
Qed.

Definition behind (L : nat -> Lookup) (gs : nat -> Gitlab) (serve : handler) : handler :=
  live_pipeline (views L) store_Get store_Save Do decode_error fresh_state artifact_Do oa (domains gs disk L) a serve.

Lemma pipeline_tracks serve1 serve2 r w :
  (forall w', tracks (serve1 r w') (serve2 r w') (fun _ u => u <= 6)) ->
  tracks (behind L1 gs1 serve1 r w) (behind L2 gs2 serve2 r w) (fun _ u => u <= 11).
Proof.
  intros Hserve. unfold behind, live_pipeline, live_acmeMiddleware.
  destruct (GetDomain r) as [d|] eqn:Ed; [|step]. eapply tracks_bind; [apply acme_tracks|].
  cbv beta. intros [[] w1] u1 Hu1; [step|].
  unfold live_authMiddleware. destruct (TryAuthenticate _ _ _) as [[] w2]; [step|].
  unfold live_auxiliaryMiddleware. rewrite Ed. destruct (GetHost r); [|step].
  eapply tracks_bind; [apply tryAuxiliary_tracks|]. cbv beta. intros [[[] w3]|] u2 Hu2; [step| |step].
  unfold live_accessControlMiddleware. rewrite Ed. step.
  assert (Hcontent : forall w4 u3, u3 <= 1 -> tracks (serve1 r w4) (serve2 r w4) (fun _ v => u1 + (u2 + (u + (u3 + v))) <= 11)).
  { intros w4 u3 Hu3. eapply tracks_weaken; [apply Hserve|]. cbv beta. intros; lia. }
  destruct x; [|by apply (Hcontent _ 0); lia]. unfold live_CheckAuthentication.
  eapply (tracks_bind _ _ _ _ _ _ _ _ check_cost).
  - destruct oa; [apply checkAuthentication_tracks|]. apply tracks_ret. unfold check_cost. simpl. lia.
  - unfold check_cost. intros [[] w4] u3 Hu3; simpl in Hu3; [step|]. by apply Hcontent.
Qed.

(** Every request makes at most twelve calls, and what it does depends on
    nothing but what they see. *)
Lemma run_tracks serve1 serve2 r :
  (forall r w, tracks (serve1 r w) (serve2 r w) (fun _ u => u <= 6)) ->
  exists u, (run_with serve1 gs1 L1 r).2 = u /\ 1 <= u <= 12
    /\ (agree_on L1 L2 gs1 gs2 0 u -> run_with serve2 gs2 L2 r = run_with serve1 gs1 L1 r).
Proof.
  intros Hserve. assert (Hpipe := fun r w => pipeline_tracks serve1 serve2 r w (Hserve r)).
  unfold run_with, live_routingMiddleware. fold (behind L1 gs1 serve1) (behind L2 gs2 serve2).
  rewrite !getHostAndDomain_routed. set (host := GetHostWithoutPort (ctx_req r)).
  assert (Hrest : forall d, exists u, (behind L1 gs1 serve1 (WithHostAndDomain r host d) new_response 1).2 = u /\ 1 <= u <= 12
    /\ (agree_on L1 L2 gs1 gs2 0 u -> behind L2 gs2 serve2 (WithHostAndDomain r host d) new_response 1
                                     = behind L1 gs1 serve1 (WithHostAndDomain r host d) new_response 1)).
  { intros d. destruct (Hpipe (WithHostAndDomain r host d) new_response 1) as (u & Hu & Hle & Hsame). exists (1 + u).
    split; [done|]. split; [lia|]. intros Hag. apply Hsame. eapply agree_on_le; [| |exact Hag]; lia. }
  assert (Hfirst : forall u, 1 <= u -> agree_on L1 L2 gs1 gs2 0 u -> L2 0 = L1 0) by (intros u Hu [HL _]; rewrite HL; [done|lia]).
  destruct (routed (L1 0) host) as [d|err] eqn:Er.
  - destruct (Hrest d) as (u & Hu & Hle & Hsame). exists u. split; [done|]. split; [done|]. intros Hag.
    rewrite (Hfirst u), Er by (lia || done). auto.
  - destruct (errors_Is err ErrDomainDoesNotExist) eqn:Ee.
    + destruct (Hrest None) as (u & Hu & Hle & Hsame). exists u. split; [done|]. split; [done|]. intros Hag.
      rewrite (Hfirst u), Er, Ee by (lia || done). auto.
    + exists 1. split; [done|]. split; [lia|]. intros Hag. by rewrite (Hfirst 1), Er, Ee by (lia || done).
Qed.

End Calls.

(** ** No handler panics

    [gives P m]: the result of [m] has [P], whatever the number of the call. *)
Definition gives {A} (P : A -> Prop) (m : M A) : Prop := forall n, P (m n).1.

Lemma gives_bind {A B} (P : B -> Prop) (m : M A) (k : A -> M B) : (forall x, gives P (k x)) -> gives P (bind m k).
Proof. intros Hk n. unfold bind. destruct (m n) as [x n']. apply Hk. Qed.

Lemma content_no_panic L r w : is_Some (GetDomain r) -> gives is_Some (content L r w).
Proof.
  intros [d Hd]. assert (Hfiles : forall w, gives is_Some (files L r w)).
  { intros w0. unfold live_serveFileOrNotFoundHandler. rewrite Hd. apply gives_bind. intros [[] w1]; [by intros n; eexists|].
    apply gives_bind. intros ns. apply gives_bind. intros [[] w2]; [by intros n; eexists|]. apply gives_bind.
    intros w3 n. by eexists. }
  unfold live_content_handler, live_cors_Handler. case_match; [apply Hfiles|].
  destruct (cors _ _) as [[] w']; [by intros n; eexists|apply Hfiles].
Qed.

Lemma tryAuxiliary_no_panic L gs r https host (d : option (Domain Certificate)) w :
  gives is_Some (live_tryAuxiliaryHandlers (views L) store_Get store_Save Do decode_error fresh_state artifact_Do oa
    (domains gs disk L) a r https host d w).
Proof.
  unfold live_tryAuxiliaryHandlers. destruct (_ && _); [by intros n; eexists|].
  destruct (HandleArtifactRequest _ _ _ _ _ _) as [[] w1]; [by intros n; eexists|].
  intros n. unfold bind at 1. unfold App.isReady, gitlab_domains, Domains_IsReady.
  cbn [app_at app_domains dom_configSource dom_gitlab gitlab_as_source fmap option_fmap option_map source_IsReady].
  destruct (Gitlab_IsReady (gs n)); [|by eexists]. revert n. apply gives_bind. intros has. apply gives_bind.
  intros [[] w2]; [by intros n; eexists|]. destruct https; [by intros n; eexists|]. apply gives_bind. intros [] n; by eexists.
Qed.

Lemma behind_no_panic L gs serve r w :
  is_Some (GetHost r) -> is_Some (GetDomain r) -> (forall w', gives is_Some (serve r w')) -> gives is_Some (behind L gs serve r w).
Proof.
  intros [host Hh] [d Hd] Hserve. unfold behind, live_pipeline, live_acmeMiddleware. rewrite Hd. apply gives_bind.
  intros [[] w1]; [by intros n; eexists|]. unfold live_authMiddleware. destruct (TryAuthenticate _ _ _) as [[] w2]; [by intros n; eexists|].
  unfold live_auxiliaryMiddleware. rewrite Hh, Hd. intros n. unfold bind at 1.
  pose proof (tryAuxiliary_no_panic L gs (ctx_req r) (IsHTTPS (ctx_req r)) host d w2 n) as Haux.
  destruct (live_tryAuxiliaryHandlers _ _ _ _ _ _ _ _ _ _ _ _ _ _ _ n) as [[[[] w3]|] n']; [by eexists| |by destruct Haux].
  clear Haux. revert n'. unfold live_accessControlMiddleware. rewrite Hd. apply gives_bind. intros []; [|apply Hserve].
  apply gives_bind. intros [[] w4]; [by intros k; eexists|apply Hserve].
Qed.

(** The handlers answer every request, as long as no lookup is nil. *)
Lemma run_no_panic gs L r : is_Some (run gs L r).1.
Proof.
  unfold run, run_with, live_routingMiddleware. rewrite getHostAndDomain_routed. fold (behind L gs (content L)).
  assert (Hb : forall d, is_Some (behind L gs (content L) (WithHostAndDomain r (GetHostWithoutPort (ctx_req r)) d) new_response 1).1).
  { intros d. apply behind_no_panic; [by eexists..|]. intros w'. apply content_no_panic. by eexists. }
  destruct (routed _ _) as [d|err]; [apply Hb|]. destruct (errors_Is _ _); [apply Hb|by eexists].
Qed.

(** ** The server

    [Asking cl]: in [Cache.Resolve], at the point [cl]; [Answered None] is a
    panic. *)
Inductive phase : Type := Working | Asking (cl : client) | Answered (out : option Response).

(** [cn_gone]: the context of the request is done.  [cn_got] are the lookups
    the calls of the request got, [cn_ready] the states of the source when
    they were made. *)
Record connection : Type := mkConnection {
  cn_req : ctx_request; cn_gone : bool; cn_got : list Lookup; cn_ready : list Gitlab; cn_phase : phase }.

Definition cn_host (c : connection) : str := GetHostWithoutPort (ctx_req (cn_req c)).

(** The handlers over what the request has seen: they go on when they make no
    more calls than that. *)
Definition replay (g : Gitlab) (c : connection) : option Response * nat :=
  run (fun i => default g (cn_ready c !! i)) (fun i => default zero_lookup (cn_got c !! i)) (cn_req c).

Definition with_phase (p : phase) (c : connection) : connection :=
  mkConnection (cn_req c) (cn_gone c) (cn_got c) (cn_ready c) p.

(** A lookup whose domain both [GetDomain] and [Resolve] dereference, though
    it has none. *)
Definition nil_lookup (l : Lookup) : bool :=
  match lk_Error l, lk_Domain l with None, None => true | _, _ => false end.

(** The request makes its next call; the call gives it a lookup. *)
Definition asks (g : Gitlab) (c : connection) : connection :=
  mkConnection (cn_req c) (cn_gone c) (cn_got c) (cn_ready c ++ [g]) (cn_phase c).
Definition receives (l : Lookup) (c : connection) : connection :=
  mkConnection (cn_req c) (cn_gone c) (cn_got c ++ [l]) (cn_ready c) (if nil_lookup l then Answered None else Working).

(** The first call is [GetDomain], which may find that the API refuses the
    secret; the others are [Resolve]. *)
Definition source_after (l : Lookup) (c : connection) (g : Gitlab) : Gitlab :=
  match cn_got c with
  | [] => (Gitlab_GetDomain local_Instance zip_Instance (Certificate := Certificate) (fun _ => l) (cn_host c) g).2
  | _ => g
  end.

Context {C : Type} (gc : GoCache C) (refreshTimeout expirationTimeout : Z) (ff_disabled : bool).
Context (api : str -> Lookup -> Prop).

Record server : Type := mkServer { sv_cache : @cache_state C; sv_source : Gitlab; sv_conns : list connection }.

Definition sv_initial (g : Gitlab) : server := mkServer (init_state gc) g [].

Inductive server_step : server -> server -> Prop :=
  | sv_arrive r cache g conns :
      server_step (mkServer cache g conns) (mkServer cache g (conns ++ [mkConnection r false [] [] Working]))
  | sv_leave n c cache g conns : conns !! n = Some c ->
      server_step (mkServer cache g conns)
        (mkServer cache g (<[n := mkConnection (cn_req c) true (cn_got c) (cn_ready c) (cn_phase c)]> conns))
  | sv_ask n c id cache cache' g conns :
      conns !! n = Some c -> cn_phase c = Working -> length (cn_got c) < (replay g c).2 ->
      LoadOrCreate gc (cn_host c) cache = (id, cache') ->
      server_step (mkServer cache g conns)
        (mkServer cache' g (<[n := with_phase (Asking (Loaded id)) (asks g c)]> conns))
  | sv_section n c cl cl' cache cache' g conns :
      conns !! n = Some c -> cn_phase c = Asking cl -> client_next refreshTimeout cl cache = (cl', cache') ->
      server_step (mkServer cache g conns) (mkServer cache' g (<[n := with_phase (Asking cl') c]> conns))
  | sv_get n c l cache g conns :
      conns !! n = Some c -> cn_phase c = Asking (Got (Some l)) ->
      server_step (mkServer cache g conns) (mkServer cache (source_after l c g) (<[n := receives l c]> conns))
  | sv_cancelled n c id l cache g conns :
      conns !! n = Some c -> cn_phase c = Asking (Awaiting id) ->
      cn_gone c = true -> cn_got c <> [] ->  (* [GetDomain] waits in the background *)
      wait_result true id cache = Some l ->
      server_step (mkServer cache g conns) (mkServer cache (source_after l c g) (<[n := receives l c]> conns))
  | sv_answer n c cache g conns :
      conns !! n = Some c -> cn_phase c = Working -> (replay g c).2 <= length (cn_got c) ->
      server_step (mkServer cache g conns)
        (mkServer cache g (<[n := with_phase (Answered (replay g c).1) c]> conns))
  | sv_cache_step cache cache' g conns :
      cache_step gc refreshTimeout expirationTimeout ff_disabled api cache cache' ->
      server_step (mkServer cache g conns) (mkServer cache' g conns)
  | sv_source_step cache g g' conns :
      gitlab_step local_Instance zip_Instance (Certificate := Certificate) g g' ->
      server_step (mkServer cache g conns) (mkServer cache g' conns).

(** The next step of the [n]-th request itself, if it has one. *)
Definition advance (n : nat) (st : server) : server :=
  let 'mkServer cache g conns := st in
  match conns !! n with
  | None => st
  | Some c =>
      match cn_phase c with
      | Answered _ => st
      | Asking (Got (Some l)) => mkServer cache (source_after l c g) (<[n := receives l c]> conns)
      | Asking cl =>
          let '(cl', cache') := client_next refreshTimeout cl cache in
          mkServer cache' g (<[n := with_phase (Asking cl') c]> conns)
      | Working =>
          if (replay g c).2 <=? length (cn_got c)
          then mkServer cache g (<[n := with_phase (Answered (replay g c).1) c]> conns)
          else
            let '(id, cache') := LoadOrCreate gc (cn_host c) cache in
            mkServer cache' g (<[n := with_phase (Asking (Loaded id)) (asks g c)]> conns)
      end
  end.

Lemma advance_steps n st : rtc server_step st (advance n st).
Proof.
  destruct st as [cache g conns]. unfold advance. destruct (conns !! n) as [c|] eqn:Hn; [|done].
  destruct (cn_phase c) as [|cl|] eqn:Hp; [| |done].
  - destruct (Nat.leb_spec (replay g c).2 (length (cn_got c))) as [Hle|Hgt]; [by apply rtc_once, (sv_answer n c)|].
    destruct (LoadOrCreate _ _ _) as [id cache'] eqn:El. by apply rtc_once, (sv_ask n c).
  - assert (Hsec : forall cl, cn_phase c = Asking cl ->
      rtc server_step (mkServer cache g conns) (let '(cl', cache') := client_next refreshTimeout cl cache in
        mkServer cache' g (<[n := with_phase (Asking cl') c]> conns))).
    { intros cl0 H0. destruct (client_next _ cl0 cache) as [cl' cache'] eqn:Ec. by apply rtc_once, (sv_section n c cl0). }
    destruct cl as [| | | | | |[l|]]; try (by apply Hsec). by apply rtc_once, (sv_get n c).
Qed.

Definition server_reachable (st : server) : Prop := exists g, rtc server_step (sv_initial g) st.

(** ** Lemmas *)

Lemma run_local L1 L2 gs1 gs2 r :
  agree_on L1 L2 gs1 gs2 0 (run gs1 L1 r).2 -> run gs2 L2 r = run gs1 L1 r.
Proof.
  destruct (run_tracks L1 L2 gs1 gs2 (content L1) (content L2) r) as (u & Hu & _ & Hsame).
  - intros r' w. apply content_tracks.
  - unfold run. by rewrite Hu.
Qed.

Lemma replay_bounds g c : 1 <= (replay g c).2 <= 12.
Proof.
  unfold replay, run. set (L := fun i => default zero_lookup _). set (gs := fun i => default g _).
  destruct (run_tracks L L gs gs (content L) (content L) (cn_req c)) as (u & -> & Hu & _); [|done].
  intros r w. apply content_tracks.
Qed.

(** A lookup of the API for the host, or of a context that is done. *)
Definition lookup_ok (c : connection) (l : Lookup) : Prop :=
  api (cn_host c) l \/ cn_gone c = true /\ is_Some (lk_Error l).

Definition none_nil (c : connection) : Prop := Forall (fun l => nil_lookup l = false) (cn_got c).

(** What a request has seen and where it stands. *)
Record conn_ok (cache : @cache_state C) (c : connection) : Prop := {
  co_got : Forall (lookup_ok c) (cn_got c);
  co_calls : length (cn_got c) <= 12;
  co_ready : length (cn_ready c) = length (cn_got c) + match cn_phase c with Asking _ => 1 | _ => 0 end
             \/ cn_phase c = Answered None;
  co_phase : match cn_phase c with
             | Working => none_nil c
             | Asking cl => none_nil c /\ length (cn_got c) < 12 /\ client_ok api (cn_host c) cl cache
             | Answered (Some w) => none_nil c /\ exists g, (replay g c).1 = Some w /\ (replay g c).2 <= length (cn_got c)
             | Answered None => exists l, l ∈ cn_got c /\ nil_lookup l = true
             end }.

Lemma conn_ok_mono cache cache' c : heap_mono (heap cache) (heap cache') -> conn_ok cache c -> conn_ok cache' c.
Proof.
  intros Hm [H1 H2 H3 H4]. split; [done|done|done|]. destruct (cn_phase c); [done| |done].
  destruct H4 as (? & ? & ?). eauto using client_ok_mono.
Qed.

Definition server_inv (st : server) : Prop :=
  clients_inv gc api (sv_cache st) /\ forall n c, sv_conns st !! n = Some c -> conn_ok (sv_cache st) c.

(** One connection and the cache move on. *)
Lemma server_inv_insert cache cache' g g' conns n c :
  server_inv (mkServer cache g conns) -> clients_inv gc api cache' /\ heap_mono (heap cache) (heap cache') ->
  conn_ok cache' c -> server_inv (mkServer cache' g' (<[n := c]> conns)).
Proof.
  intros [_ Hconns] [Hcache Hle] Hc. split; [done|]. cbn [sv_conns sv_cache] in *.
  intros m c' [(_ & <- & _)|[_ Hm]]%list_lookup_insert_Some; [done|]. by eapply conn_ok_mono, Hconns.
Qed.

Context {laws : GoCacheLaws gc}.

Lemma receives_ok cache c cl l :
  conn_ok cache c -> cn_phase c = Asking cl -> lookup_ok c l -> conn_ok cache (receives l c).
Proof.
  intros [H1 H2 H3 H4] Hp Hl. rewrite Hp in H3, H4. destruct H4 as (Hnil & H4 & _). destruct H3 as [H3|]; [|done].
  assert (Hall : Forall (lookup_ok c) (cn_got c ++ [l])) by (apply Forall_app; split; [done|by apply Forall_singleton]).
  split; [done|simpl; rewrite length_app; simpl; lia| |]; cbn [receives cn_got cn_ready cn_phase].
  - destruct (nil_lookup l); [by right|left]. rewrite length_app. simpl. lia.
  - destruct (nil_lookup l) eqn:El; [exists l; split; [apply elem_of_app; right; by constructor|done]|].
    apply Forall_app. split; [done|by apply Forall_singleton].
Qed.

Lemma section_steps st n c cl cl' cache' :
  server_inv st -> sv_conns st !! n = Some c -> cn_phase c = Asking cl ->
  client_next refreshTimeout cl (sv_cache st) = (cl', cache') ->
  (clients_inv gc api cache' /\ heap_mono (heap (sv_cache st)) (heap cache')) /\ client_ok api (cn_host c) cl' cache'.
Proof using laws expirationTimeout ff_disabled.
  intros [Hcache Hconns] Hn Hp E. pose proof (co_phase _ _ (Hconns n c Hn)) as H4. rewrite Hp in H4.
  destruct H4 as (_ & _ & Hok).
  pose proof (client_next_steps gc refreshTimeout expirationTimeout ff_disabled api _ _ _ Hok) as Hs.
  pose proof (client_next_ok gc refreshTimeout expirationTimeout ff_disabled api _ _ _ Hcache Hok) as Hok'.
  rewrite E in Hs, Hok'. split; [|done]. by apply (clients_inv_steps gc refreshTimeout expirationTimeout ff_disabled api _ _ Hcache Hs).
Qed.

Lemma server_step_inv st st' : server_inv st -> server_step st st' -> server_inv st'.
Proof using laws.
  intros Hinv Hs. pose proof Hinv as [Hcache Hconns]. destruct Hs as [r cache g conns|n c cache g conns Hn
    |n c id cache cache' g conns Hn Hp Hlt Hl|n c cl cl' cache cache' g conns Hn Hp Hc
    |n c l cache g conns Hn Hp|n c id l cache g conns Hn Hp Hgone Hgot Hw|n c cache g conns Hn Hp Hle
    |cache cache' g conns Hc|cache g g' conns Hg]; cbn [sv_cache sv_conns] in *.
  - split; [done|]. intros n c [H|[_ H]]%lookup_app_Some; [by eapply Hconns|].
    apply list_lookup_singleton_Some in H as [_ <-]. split; [by constructor|simpl; lia|by left|by constructor].
  - eapply server_inv_insert; [done|by split; [|apply heap_mono_refl]|]. destruct (Hconns n c Hn) as [H1 H2 H3 H4].
    split; [|done..]. eapply Forall_impl; [exact H1|]. intros l [Ha|[_ He]]; [by left|by right].
  - destruct (load_ok gc refreshTimeout expirationTimeout ff_disabled api _ _ _ _ Hcache Hl) as (Hi & Hok & Hm).
    eapply server_inv_insert; [done|done|]. destruct (Hconns n c Hn) as [H1 H2 H3 H4]. rewrite Hp in H3, H4.
    pose proof (replay_bounds g c). destruct H3 as [H3|]; [|done].
    split; cbn [with_phase asks cn_gone cn_got cn_ready cn_phase]; [done|done|left; rewrite ?length_app; simpl; lia|].
    split; [done|]. split; [lia|done].
  - destruct (section_steps _ n c cl cl' cache' Hinv Hn Hp Hc) as [Hm Hok].
    eapply server_inv_insert; [done|done|]. destruct (Hconns n c Hn) as [H1 H2 H3 H4]. rewrite Hp in H3, H4.
    destruct H4 as (? & ? & _). split; [done|done|by destruct H3; [left|]|done].
  - eapply server_inv_insert; [done|by split; [|apply heap_mono_refl]|]. eapply receives_ok; [by eapply Hconns|done|].
    pose proof (co_phase _ _ (Hconns n c Hn)) as H4. rewrite Hp in H4. destruct H4 as (_ & _ & lk & [= ->] & Ha). by left.
  - eapply server_inv_insert; [done|by split; [|apply heap_mono_refl]|]. eapply receives_ok; [by eapply Hconns|done|].
    right. split; [done|]. unfold wait_result in Hw. destruct (heap cache !! id); [|done]. injection Hw as <-. by eexists.
  - eapply server_inv_insert; [done|by split; [|apply heap_mono_refl]|]. destruct (Hconns n c Hn) as [H1 H2 H3 H4].
    rewrite Hp in H3, H4. destruct H3 as [H3|]; [|done]. split; [done|done|by left|].
    cbn [with_phase cn_phase]. destruct (run_no_panic (fun i => default g (cn_ready c !! i))
      (fun i => default zero_lookup (cn_got c !! i)) (cn_req c)) as [w Hw]. fold (replay g c) in Hw. rewrite Hw.
    split; [done|]. by exists g.
  - destruct (clients_inv_step gc _ _ _ api _ _ Hcache Hc) as [Hi Hm]. split; [done|]. intros n c Hn.
    eapply conn_ok_mono; [done|by eapply Hconns].
  - done.
Qed.

Lemma server_steps_inv st st' : server_inv st -> rtc server_step st st' -> server_inv st'.
Proof using laws. intros Hinv Hs. induction Hs as [|st st1 st2 Hstep _ IH]; [done|]. by eapply IH, server_step_inv. Qed.

Lemma server_reachable_inv st : server_reachable st -> server_inv st.
Proof using laws. intros [g Hs]. eapply server_steps_inv; [|exact Hs]. split; [by apply clients_inv_init|done]. Qed.

(** A request whose lookups are not nil is answered by the handlers, over any
    lookups that begin with those it got. *)
Lemma answered_run c out cache L :
  conn_ok cache c -> cn_phase c = Answered out -> none_nil c ->
  (forall i l, cn_got c !! i = Some l -> L i = l) -> exists gs, (run gs L (cn_req c)).1 = out.
Proof.
  intros [_ _ _ Hp] Ha Hnil HL. rewrite Ha in Hp. destruct out as [w|].
  2: { destruct Hp as (l & Hl & Hn). rewrite (proj1 (Forall_forall _ _) Hnil l Hl) in Hn. done. }
  destruct Hp as (_ & g & <- & Hle). exists (fun i => default g (cn_ready c !! i)).
  f_equal. apply run_local. fold (replay g c). split; [|done]. intros i Hi.
  destruct (lookup_lt_is_Some_2 (cn_got c) i) as [l Hl]; [lia|]. rewrite Hl. simpl. symmetry. by apply HL.
Qed.

(** Every answered request has made a call. *)
Lemma answered_got c out cache : conn_ok cache c -> cn_phase c = Answered out -> exists l, head (cn_got c) = Some l.
Proof.
  intros [_ _ _ Hp] Ha. rewrite Ha in Hp. destruct (cn_got c) as [|l ls] eqn:Eg; [|by exists l]. destruct out as [w|].
  - destruct Hp as (_ & g & _ & Hle). pose proof (replay_bounds g c) as Hb. simpl in Hle. lia.
  - destruct Hp as (l & Hl & _). by apply not_elem_of_nil in Hl.
Qed.

Lemma got_from_api c cache : conn_ok cache c -> cn_gone c = false -> Forall (api (cn_host c)) (cn_got c).
Proof. intros [H1 _ _ _] Hg. eapply Forall_impl; [exact H1|]. intros l [Ha|[Hx _]]; [done|congruence]. Qed.

(** *** Requests come to an end *)



Section Progress.

Context (api_answers : forall d, exists l, api d l) (api_domains : forall d l, api d l -> nil_lookup l = false).




End Progress.

(** *** A source that stands still *)

(** The application authenticates with the package. *)
Context (cr : Crypto) (decode_token : str -> result tokenResponse) (fresh_nonce : str) (now : Z).
Context (get_domain : str -> result (option (Domain Certificate))).
Abbreviation package_auth :=
  (auth_as_app cr store_Get store_Save Do decode_token decode_error fresh_state fresh_nonce now get_domain oa).

(** Whether the source is ready is read once. *)
Lemma behind_one_source L gs serve r w n : exists m, behind L gs serve r w n = behind L (fun _ => gs m) serve r w n.
Proof.
  unfold behind, live_pipeline, live_acmeMiddleware. destruct (GetDomain r) as [d|] eqn:Ed; [|by exists 0].
  unfold bind at 1 2. destruct (live_ServeAcmeChallenges _ _ _ _ _ n) as [[[] w1] n1]; [by exists 0|].
  unfold live_authMiddleware. destruct (TryAuthenticate _ _ _) as [[] w2]; [by exists 0|].
  unfold live_auxiliaryMiddleware. rewrite Ed. destruct (GetHost r) as [host|]; [|by exists 0]. exists n1.
  assert (Haux : live_tryAuxiliaryHandlers (views L) store_Get store_Save Do decode_error fresh_state artifact_Do oa
      (domains gs disk L) a (ctx_req r) (IsHTTPS (ctx_req r)) host d w2 n1
    = live_tryAuxiliaryHandlers (views L) store_Get store_Save Do decode_error fresh_state artifact_Do oa
      (domains (fun _ => gs n1) disk L) a (ctx_req r) (IsHTTPS (ctx_req r)) host d w2 n1).
  { unfold live_tryAuxiliaryHandlers. destruct (_ && _); [done|]. by destruct (HandleArtifactRequest _ _ _ _ _ _) as [[] w3]. }
  unfold bind. by rewrite Haux.
Qed.

(** The application over a source that stands still. *)
Definition steady_app (l : Lookup) (g : Gitlab) : theApp (Certificate := Certificate) :=
  app_at (domains (fun _ => g) disk (fun _ => l)) 0 a.

Lemma steady_run gs l r :
  app_Auth a = package_auth ->
  exists g, (run gs (fun _ => l) r).1
    = routingMiddleware (steady_app l g) (domain_pipeline artifact_Do cors_Handler (steady_app l g)) r new_response.
Proof.
  intros Ha. set (L := fun _ : nat => l). set (host := GetHostWithoutPort (ctx_req r)).
  assert (Hbehind : forall d n, one_view (views L) d -> exists g,
    (behind L gs (content L) (WithHostAndDomain r host d) new_response n).1
    = domain_pipeline artifact_Do cors_Handler (steady_app l g) (WithHostAndDomain r host d) new_response).
  { intros d n Hd. destruct (behind_one_source L gs (content L) (WithHostAndDomain r host d) new_response n) as [m ->].
    exists (gs m). unfold domain_pipeline.
    apply (live_pipeline_agrees (views L) store_Get store_Save Do decode_error fresh_state artifact_Do oa
      (domains (fun _ => gs m) disk L) cr decode_token fresh_nonce now get_domain (steady_app l (gs m)) (content L)
      (content_handler cors_Handler (steady_app l (gs m))) (WithHostAndDomain r host d) d); [done|done|done|done|].
    assert (Hfiles : forall w', agrees (files L (WithHostAndDomain r host d) w')
      (serveFileOrNotFoundHandler (steady_app l (gs m)) (WithHostAndDomain r host d) w')).
    { intros w'. by eapply (live_serve_agrees (views L) store_Get store_Save Do decode_error fresh_state oa cr decode_token
        fresh_nonce now get_domain). }
    intros w' k. unfold content_handler, live_content_handler. cbn [steady_app app_at app_DisableCrossOriginRequests].
    destruct (app_DisableCrossOriginRequests a); [apply Hfiles|]. unfold live_cors_Handler, cors_Handler.
    destruct (cors _ _) as [[] w1]; [done|apply Hfiles]. }
  assert (Hroute : forall g, getHostAndDomain (steady_app l g) (ctx_req r) = Some (host, routed l host))
    by (intros g; apply getHostAndDomain_routed).
  unfold run, run_with, live_routingMiddleware, routingMiddleware. rewrite getHostAndDomain_routed. fold host (behind L gs (content L)).
  setoid_rewrite Hroute. change (L 0) with l. destruct (routed l host) as [d|err] eqn:Er.
  - apply Hbehind. unfold routed, Gitlab_GetDomain in Er. destruct (lk_Error l); [done|]. destruct (lk_Domain l); [|done].
    by injection Er as <-.
  - destruct (errors_Is err _); [by apply Hbehind|]. by exists (gs 0).
Qed.

(** ** Properties *)

(** [C4] Many requests at once, each as if alone: when the API gives one lookup
    for a host, then in every interleaving of any number of requests, with
    hits, misses, waits, refreshes, retrievals and time, with or without
    cross-origin handling, every request for the host that is over while its
    client waits has got exactly the response of the handlers run once over
    that lookup, the source being ready or not; or, when the lookup has neither
    an error nor a domain, has ended in a panic. *)
Theorem concurrent_requests_refine_pipeline st n c out l :
  server_reachable st -> sv_conns st !! n = Some c -> cn_phase c = Answered out -> cn_gone c = false ->
  (forall lk, api (cn_host c) lk -> lk = l) -> app_Auth a = package_auth ->
  if nil_lookup l then out = None
  else is_Some out /\ exists g, out = routingMiddleware (steady_app l g)
         (domain_pipeline artifact_Do cors_Handler (steady_app l g)) (cn_req c) new_response.
Proof.
  intros [_ Hconns]%server_reachable_inv Hn Hp Hgone Hapi Ha. specialize (Hconns n c Hn).
  pose proof (got_from_api c _ Hconns Hgone) as Hgot.
  assert (Hall : forall lk, lk ∈ cn_got c -> lk = l) by (intros lk Hlk; rewrite Forall_forall in Hgot; by apply Hapi, Hgot).
  destruct (nil_lookup l) eqn:El.
  - destruct out as [w|]; [|done]. destruct (answered_got c _ _ Hconns Hp) as [l0 H0].
    pose proof (co_phase _ _ Hconns) as H4. rewrite Hp in H4. destruct H4 as [Hnil _]. unfold none_nil in Hnil.
    destruct (cn_got c) as [|l1 ls]; [done|]. inversion Hnil as [|? ? H1 _]. rewrite (Hall l1) in H1 by constructor. congruence.
  - assert (Hnil : none_nil c) by (apply Forall_forall; intros lk Hlk; by rewrite (Hall lk Hlk)).
    destruct (answered_run c out _ (fun _ => l) Hconns Hp Hnil) as [gs <-].
    + intros i lk Hi. symmetry. apply Hall. by eapply list_elem_of_lookup_2.
    + split; [apply run_no_panic|by apply steady_run].
Qed.

(** [C3] Private content stays private among concurrent requests: when all the
    lookups the API gives for the host of a request protect its path as part of
    one project, then, in every interleaving with any number of other
    requests, some of them perhaps allowed to read the project, a request whose
    own session GitLab has not confirmed, whose client has not left before the
    answer and whose path is not below the one of ACME challenges (those are
    served before the access check), gets a response that is the same whatever
    the content handlers would do. *)
Theorem concurrent_private_content st n c out p :
  server_reachable st -> sv_conns st !! n = Some c -> cn_phase c = Answered out -> cn_gone c = false ->
  (forall lk, api (cn_host c) lk -> protects local_Instance zip_Instance (ctx_req (cn_req c)) p lk) ->
  app_Auth a = package_auth -> isAcmeChallenge (Path (req_URL (ctx_req (cn_req c)))) = false ->
  ~ confirmed_project store_Get Do oa (ctx_req (cn_req c)) p ->
  exists gs lookups, (forall i, api (cn_host c) (lookups i))
    /\ forall serve, (run_with serve gs lookups (cn_req c)).1 = out.
Proof.
  intros [_ Hconns]%server_reachable_inv Hn Hp Hgone Hapi Ha Hacme Hno. specialize (Hconns n c Hn).
  pose proof (got_from_api c _ Hconns Hgone) as Hgot. destruct (answered_got c out _ Hconns Hp) as [l0 H0].
  assert (Hl0 : api (cn_host c) l0) by (destruct (cn_got c); [done|]; injection H0 as ->; by inversion Hgot).
  set (L i := default l0 (cn_got c !! i)).
  assert (HL : forall i, api (cn_host c) (L i)).
  { intros i. subst L. cbv beta. destruct (cn_got c !! i) as [l|] eqn:E; [|done]. by eapply Forall_lookup_1. }
  assert (Hnil : none_nil c).
  { eapply Forall_impl; [exact Hgot|]. intros lk (sr & Hsr & _)%Hapi. unfold Gitlab_Resolve in Hsr. unfold nil_lookup.
    destruct (lk_Error lk); [done|]. by destruct (lk_Domain lk). }
  destruct (answered_run c out _ L Hconns Hp Hnil) as [gs <-].
  - intros i l Hi. subst L. cbv beta. by rewrite Hi.
  - exists gs, L. split; [done|]. intros serve. unfold run. f_equal.
    apply (private_content_unreached artifact_Do cr store_Get store_Save Do decode_token decode_error fresh_state fresh_nonce
      now get_domain oa local_Instance zip_Instance gs disk L a serve (content L) (cn_req c) new_response p); [|done..].
    intros i. apply Hapi, HL.
Qed.

End Handlers.

(** ** A member and a stranger at the same time *)

(** An API with one private site, and a session for those who send a cookie. *)
Definition lone_api (d : str) (l : Lookup) : Prop := l = private_answer.
Definition mixed_session (r : Request) : SessionValues * bool :=
  if decide (Header_Get (req_Header r) &"Cookie" = []) then empty_session r else token_session r.
Definition visiting_member : CtxRequest (Certificate := unit) :=
  mkCtxRequest (mkRequest &"GET" (set_Path &"/index.html" no_url) &"group.example.io" &"/index.html"
    {[ &"Cookie" := [&"gitlab-pages=1"] ]} false []) None None.
(** Cross-origin requests are allowed, as by default: preflight requests are
    answered, and the others get a header. *)
Definition open_cors (r : Request) (w : Response) : bool * Response :=
  let w' := w_Set &"Access-Control-Allow-Origin" &"*" w in
  if decide (req_Method r = &"OPTIONS") then (true, WriteHeader 204 w') else (false, w').
Definition busy_app : theApp (Certificate := unit) :=
  mkApp false &"/@status" false (app_domains demo_app) None
    (auth_as_app toy_crypto mixed_session cookie_save api_ok no_json no_json &"state" &"nonce" 0 no_domains (Some io_conf))
    None [].

Abbreviation busy_server := (server (Certificate := unit) (C := list (str * (nat * Z)))).
Abbreviation busy_step := (server_step no_artifacts mixed_session cookie_save api_ok no_json &"state" (Some io_conf)
  demo_disk demo_disk None busy_app open_cors (items_cache 600) 60 600 false lone_api).
Abbreviation next := (advance no_artifacts mixed_session cookie_save api_ok no_json &"state" (Some io_conf)
  demo_disk demo_disk None busy_app open_cors (items_cache 600) 60).

(** Both arrive and wait for the same entry; it is retrieved, and they go on
    in turns. *)
Definition both_arrived : busy_server := mkServer (init_state (items_cache 600)) ready_source
  [mkConnection stranger_request false [] [] Working; mkConnection visiting_member false [] [] Working].
Definition in_turns (st : busy_server) : busy_server := next 0 (next 1 st).
Definition both_wait : busy_server := Nat.iter 4 in_turns both_arrived.
Definition both_woken : busy_server :=
  mkServer (setResponse 0 private_answer (sv_cache both_wait)) (sv_source both_wait) (sv_conns both_wait).
Definition both_served : busy_server := Nat.iter 40 in_turns both_woken.

Lemma next_steps n st : rtc busy_step st (next n st).
Proof. apply advance_steps. Qed.

Lemma turns_steps k st : rtc busy_step st (Nat.iter k in_turns st).
Proof. induction k as [|k IH]; [done|]. etrans; [exact IH|]. etrans; apply next_steps. Qed.

Lemma both_wait_reachable : rtc busy_step (sv_initial (items_cache 600) ready_source) both_wait.
Proof.
  eapply rtc_l; [apply sv_arrive with (r := stranger_request)|].
  eapply rtc_l; [apply sv_arrive with (r := visiting_member)|]. change (rtc busy_step both_arrived both_wait).
  apply turns_steps.
Qed.

Lemma both_served_reachable : rtc busy_step (sv_initial (items_cache 600) ready_source) both_served.
Proof.
  etrans; [exact both_wait_reachable|]. transitivity both_woken.
  - apply rtc_once. destruct (heap (sv_cache both_wait) !! 0) as [e|] eqn:E; [|vm_compute in E; discriminate E].
    assert (Hr : retrieve_once e = true /\ response e = None) by (vm_compute in E; injection E as <-; by split).
    unfold both_woken. destruct both_wait as [cache g conns]. cbn [sv_cache sv_source sv_conns] in *.
    apply sv_cache_step. eapply step_retrieved; [exact E|apply Hr|apply Hr|reflexivity].
  - apply turns_steps.
Qed.

(** How a request ended: with which status, and whether with the page. *)
Definition ended (c : connection (Certificate := unit)) : CtxRequest * bool * option (option Z * bool) :=
  (cn_req c, cn_gone c,
   match cn_phase c with
   | Answered (Some w) => Some (w_status w, bool_decide (w_body w = &"<h1>home</h1>"))
   | _ => None
   end).

Lemma both_ended : exists c0 c1 w0 w1, sv_conns both_served = [c0; c1]
  /\ cn_req c0 = stranger_request /\ cn_gone c0 = false /\ cn_phase c0 = Answered (Some w0) /\ w_status w0 = Some 302%Z
  /\ cn_req c1 = visiting_member /\ cn_gone c1 = false /\ cn_phase c1 = Answered (Some w1) /\ w_body w1 = &"<h1>home</h1>".
Proof.
  assert (E : ended <$> sv_conns both_served
    = [(stranger_request, false, Some (Some 302%Z, false));
       (visiting_member, false, Some (Some 200%Z, true))]) by (vm_compute; reflexivity).
  destruct (sv_conns both_served) as [|c0 [|c1 [|]]]; try discriminate E. rewrite !fmap_cons, fmap_nil in E. unfold ended in E.
  destruct (cn_phase c0) as [| |[w0|]] eqn:P0; try discriminate E.
  destruct (cn_phase c1) as [| |[w1|]] eqn:P1; try discriminate E. injection E as E0 E1 E2 E3 E4 E5 E6 E7.
  exists c0, c1, w0, w1. apply bool_decide_eq_true in E7. by repeat split.
Qed.

(** The member reads the page, the stranger is sent away, whatever the content
    handlers would do. *)
Lemma concurrent_private_content_witness :
  exists c w gs lookups, sv_conns both_served !! 0 = Some c /\ cn_phase c = Answered (Some w)
    /\ w_status w = Some 302%Z
    /\ (forall serve, (run_with no_artifacts mixed_session cookie_save api_ok no_json &"state" (Some io_conf)
          demo_disk demo_disk None busy_app serve gs lookups (cn_req c)).1 = Some w)
    /\ exists c' w', sv_conns both_served !! 1 = Some c' /\ cn_phase c' = Answered (Some w')
         /\ w_body w' = &"<h1>home</h1>".
Proof.
  destruct both_ended as (c & c' & w & w' & Hconns & Hreq & Hgone & Hp & Hw & _ & _ & Hp' & Hw').
  destruct (concurrent_private_content no_artifacts mixed_session cookie_save api_ok no_json &"state" (Some io_conf)
    demo_disk demo_disk None busy_app open_cors (items_cache 600) 60 600 false lone_api toy_crypto no_json &"nonce" 0 no_domains
    both_served 0 c (Some w) 7) as (gs & lookups & _ & H).
  - exists ready_source. exact both_served_reachable.
  - by rewrite Hconns.
  - exact Hp.
  - exact Hgone.
  - intros lk ->. rewrite Hreq. exact private_answer_protects.
  - reflexivity.
  - rewrite Hreq. reflexivity.
  - rewrite Hreq. intros (conf & session & token & body & _ & Hs & Ht & _).
    vm_compute in Hs. injection Hs as <-. vm_compute in Ht. discriminate Ht.
  - exists c, w, gs, lookups. rewrite Hconns. split; [reflexivity|]. split; [exact Hp|]. split; [exact Hw|].
    split; [exact H|]. exists c', w'. split; [reflexivity|]. split; [exact Hp'|exact Hw'].
Defined.

Lemma concurrent_requests_refine_pipeline_witness :
  exists c w g, sv_conns both_served !! 1 = Some c /\ cn_req c = visiting_member /\ w_body w = &"<h1>home</h1>"
    /\ Some w = routingMiddleware (steady_app demo_disk demo_disk None busy_app private_answer g)
                  (domain_pipeline no_artifacts (cors_Handler open_cors) (steady_app demo_disk demo_disk None busy_app private_answer g))
                  (cn_req c) new_response.
Proof.
  destruct both_ended as (c & c' & w & w' & Hconns & _ & _ & _ & _ & Hreq & Hgone & Hp & Hw).
  destruct (concurrent_requests_refine_pipeline no_artifacts mixed_session cookie_save api_ok no_json &"state"
    (Some io_conf) demo_disk demo_disk None busy_app open_cors (items_cache 600) 60 600 false lone_api toy_crypto no_json &"nonce" 0
    no_domains both_served 1 c' (Some w') private_answer) as (_ & g & H).
  - exists ready_source. exact both_served_reachable.
  - by rewrite Hconns.
  - exact Hp.
  - exact Hgone.
  - intros lk ->. reflexivity.
  - reflexivity.
  - exists c', w', g. rewrite Hconns. split; [reflexivity|]. split; [exact Hreq|]. split; [exact Hw|exact H].
Defined.

