(* ===== verification/Transport.v ===== *)
(** * HTTP clients and their settings

    internal/httptransport/{transport,metered_round_tripper,trace}.go with the
    certificate loading of transport_darwin.go, and the settings part of
    internal/vfs/zip/{vfs,lru_cache}.go: [New], [Reconfigure] and
    [newLruCache].  A panic is [None]; metrics are events. *)

From S2P Require Import Prelude GoStd GoPath GoUrl Vfs LocalVfs Header Http Metrics Config HttpFs ZipVfs.

(** ** transport.go *)

Definition DefaultTTFBTimeout : Z := 15 * second.

(** The fields of [http.Transport] the code sets; a registered protocol is a
    file transport, given by its allowed paths. *)
Record http_Transport : Type := mkTransport {
  MaxIdleConns : Z; MaxIdleConnsPerHost : Z; IdleConnTimeout : Z; TLSHandshakeTimeout : Z;
  ResponseHeaderTimeout : Z; ExpectContinueTimeout : Z; protocols : gmap str (list str) }.

Definition NewTransport : http_Transport :=
  mkTransport 100 100 (90 * second) (10 * second) (15 * second) (15 * second) ∅.

(** [http.Transport.RegisterProtocol] panics on a scheme it has. *)
Definition transport_RegisterProtocol (scheme : str) (rt : list str) (t : http_Transport) : option http_Transport :=
  match protocols t !! scheme with
  | Some _ => None
  | None => Some (mkTransport (MaxIdleConns t) (MaxIdleConnsPerHost t) (IdleConnTimeout t) (TLSHandshakeTimeout t)
                    (ResponseHeaderTimeout t) (ExpectContinueTimeout t) (<[scheme := rt]> (protocols t)))
  end.

(** ** metered_round_tripper.go *)

(** A transport, or one behind a library's round tripper. *)
Inductive RoundTripper : Type := TransportRT (t : http_Transport) | WrappedRT (t : http_Transport).

Record meteredRoundTripper : Type := mkMetered {
  mrt_next : RoundTripper; mrt_name : str; mrt_tracer : Collector; mrt_durations : Collector;
  mrt_counter : Collector; mrt_ttfbTimeout : Z }.

Definition NewMeteredRoundTripper (transport : option RoundTripper) (name : str)
    (tracerVec durationsVec counterVec : Collector) (ttfbTimeout : Z) : meteredRoundTripper :=
  mkMetered (default (TransportRT NewTransport) transport) name tracerVec durationsVec counterVec ttfbTimeout.

(** The type assertion panics for other round trippers. *)
Definition RegisterProtocol (scheme : str) (rt : list str) (mrt : meteredRoundTripper) : option meteredRoundTripper :=
  match mrt_next mrt with
  | WrappedRT _ => None
  | TransportRT t =>
      t' ← transport_RegisterProtocol scheme rt t;
      Some (mkMetered (TransportRT t') (mrt_name mrt) (mrt_tracer mrt) (mrt_durations mrt) (mrt_counter mrt)
              (mrt_ttfbTimeout mrt))
  end.

(** *** trace.go *)

Inductive trace_hook : Type :=
  | GetConn | GotConn | GotFirstResponseByte | DNSStart | DNSDone | ConnectStart | ConnectDone
  | TLSHandshakeStart | TLSHandshakeDone.

Definition hook_label (h : trace_hook) : str :=
  &"httptrace.ClientTrace." ++
  match h with
  | GetConn => &"GetConn" | GotConn => &"GotConn" | GotFirstResponseByte => &"GotFirstResponseByte"
  | DNSStart => &"DNSStart" | DNSDone => &"DNSDone" | ConnectStart => &"ConnectStart"
  | ConnectDone => &"ConnectDone" | TLSHandshakeStart => &"TLSHandshakeStart"
  | TLSHandshakeDone => &"TLSHandshakeDone"
  end.

Inductive metric_event : Type := MInc (series : str * list str) | MObserve (series : str * list str).

Definition httpTraceObserve (mrt : meteredRoundTripper) (label : str) : option metric_event :=
  MObserve <$> WithLabelValues (mrt_tracer mrt) [label].

(** The hooks that ran during the round trip. *)
Fixpoint run_tracer (mrt : meteredRoundTripper) (hooks : list trace_hook) : option (list metric_event) :=
  match hooks with
  | [] => Some []
  | h :: rest =>
      e ← httpTraceObserve mrt (hook_label h);
      es ← run_tracer mrt rest;
      Some (e :: es)
  end.

(** *** RoundTrip *)

Record ClientResponse : Type := mkClientResponse { cl_StatusCode : Z; cl_Header : list (str * list str) }.

(** The fields of the trace log, with the headers in the order Go visits. *)
Definition logResponse (mrt : meteredRoundTripper) (trace_level : bool) (url : str) (resp : ClientResponse)
  : option (list (str * str)) :=
  if trace_level then
    Some ([(&"client_name", mrt_name mrt); (&"req_url", url); (&"res_status_code", FormatInt (cl_StatusCode resp))]
          ++ ((fun h => (ToLower h.1, Join h.2 &";")) <$> cl_Header resp))
  else None.

(** What comes back: the response or the error, the metric events, and
    whether the timer cancelled the context before it was stopped. *)
Record round_trip : Type := mkRoundTrip {
  rt_result : result ClientResponse; rt_events : list metric_event; rt_cancelled : bool }.

(** [elapsed] is the time until the transport below returned [next]. *)
Definition RoundTrip (mrt : meteredRoundTripper) (hooks : list trace_hook) (elapsed : Z)
    (next : result ClientResponse) : option round_trip :=
  trace ← run_tracer mrt hooks;
  let cancelled := (mrt_ttfbTimeout mrt <=? elapsed)%Z in
  match next with
  | Err err =>
      c ← WithLabelValues (mrt_counter mrt) [&"error"];
      Some (mkRoundTrip (Err err) (trace ++ [MInc c]) cancelled)
  | Ok resp =>
      let statusCode := FormatInt (cl_StatusCode resp) in
      d ← WithLabelValues (mrt_durations mrt) [statusCode];
      c ← WithLabelValues (mrt_counter mrt) [statusCode];
      Some (mkRoundTrip (Ok resp) (trace ++ [MObserve d; MInc c]) cancelled)
  end.

(** The two clients of the program: the internal API and the archives. *)
Definition api_round_tripper : meteredRoundTripper :=
  NewMeteredRoundTripper (Some (WrappedRT NewTransport)) &"gitlab_internal_api" DomainsSourceAPITraceDuration
    DomainsSourceAPICallDuration DomainsSourceAPIReqTotal DefaultTTFBTimeout.
Definition zip_round_tripper : meteredRoundTripper :=
  NewMeteredRoundTripper (Some (TransportRT NewTransport)) &"zip_vfs" HTTPRangeTraceDuration HTTPRangeRequestDuration
    HTTPRangeRequestsTotal DefaultTTFBTimeout.

(** ** Certificates *)

Section Pool.

#[local] Set Default Proof Using "Type".

Context {Pool : Type} (SystemCertPool : result Pool) (AppendCertsFromPEM : str -> Pool -> bool * Pool).

(** [sysPoolOnce] and [sysPool]; a nil pool is [None]. *)
Record pool_state : Type := mkPool { pool_once : bool; sysPool : option Pool }.

Definition loadPool (loadExtraCerts : Pool -> Pool) (st : pool_state) : pool_state :=
  match SystemCertPool with
  | Err _ => mkPool (pool_once st) None
  | Ok p => mkPool (pool_once st) (Some (loadExtraCerts p))
  end.

Definition pool (loadExtraCerts : Pool -> Pool) (st : pool_state) : option Pool * pool_state :=
  if pool_once st then (sysPool st, st)
  else let st' := loadPool loadExtraCerts (mkPool true (sysPool st)) in (sysPool st', st').

(** *** transport_darwin.go *)

Definition certFileEnv : str := &"SSL_CERT_FILE".
Definition certDirEnv : str := &"SSL_CERT_DIR".

(** A directory entry by its name and whether it is a link. *)
Context (Getenv : str -> str) (ReadFile : str -> result str) (ReadDir : str -> result (list (str * bool))).
Context (Readlink : str -> result str).

Definition loadCertFile (p : Pool) : option error * Pool :=
  let sslCertFile := Getenv certFileEnv in
  if negb (nonempty sslCertFile) then (None, p)
  else
    match ReadFile sslCertFile with
    | Err err => if os_IsNotExist err then (None, (AppendCertsFromPEM [] p).2) else (Some err, p)
    | Ok data => (None, (AppendCertsFromPEM data p).2)
    end.

Definition isSameDirSymlink (fi : str * bool) (dir : str) : bool :=
  if negb fi.2 then false
  else match Readlink (path_Join [dir; fi.1]) with
       | Ok target => negb (Contains target &"/")
       | Err _ => false
       end.

Definition readUniqueDirectoryEntries (dir : str) : result (list (str * bool)) :=
  let? fis := ReadDir dir in
  Ok (filter (fun fi => isSameDirSymlink fi dir = false) fis).

(** The files of one directory: whether a certificate was added. *)
Fixpoint load_files (directory : str) (fis : list (str * bool)) (rootsAdded : bool) (p : Pool) : bool * Pool :=
  match fis with
  | [] => (rootsAdded, p)
  | fi :: rest =>
      match ReadFile (directory ++ &"/" ++ fi.1) with
      | Err _ => load_files directory rest rootsAdded p
      | Ok data =>
          let '(added, p') := AppendCertsFromPEM data p in
          load_files directory rest (rootsAdded || added) p'
      end
  end.

Fixpoint load_dirs (dirs : list str) (firstErr : option error) (p : Pool) : option error * Pool :=
  match dirs with
  | [] => (firstErr, p)
  | directory :: rest =>
      match readUniqueDirectoryEntries directory with
      | Err err =>
          let firstErr := match firstErr with
                          | None => if os_IsNotExist err then None else Some err
                          | Some e => Some e
                          end in
          load_dirs rest firstErr p
      | Ok fis =>
          let '(rootsAdded, p') := load_files directory fis false p in
          if rootsAdded then (None, p') else load_dirs rest firstErr p'
      end
  end.

Definition loadCertDir (p : Pool) : option error * Pool :=
  let d := Getenv certDirEnv in
  load_dirs (if nonempty d then Split d ":" else []) None p.

(** The errors are logged. *)
Definition loadExtraCerts_darwin (p : Pool) : Pool := (loadCertDir (loadCertFile p).2).2.

(** The pool is loaded at most once, and every later call gives the same. *)
Lemma pool_loaded_once extra extra' st p st' :
  pool extra st = (p, st') -> pool extra' st' = (p, st').
Proof.
  unfold pool, loadPool. destruct (pool_once st) eqn:E; [intros [= <- <-]; by rewrite E|].
  destruct SystemCertPool; by intros [= <- <-].
Qed.

End Pool.

(** ** The archives: settings *)

(** *** lru_cache.go *)

Definition lruCacheGetsPerPromote : Z := 64.
Definition lruCacheItemsToPruneDiv : Z := 16.

Record lruCache : Type := mkLruCache {
  lru_op : str; lru_maxSize : Z; lru_itemsToPrune : Z; lru_getsPerPromote : Z; lru_duration : Z }.

Definition newLruCache (op : str) (maxEntries duration : Z) : lruCache :=
  mkLruCache op maxEntries (maxEntries mod 2 ^ 32 / lruCacheItemsToPruneDiv) lruCacheGetsPerPromote duration.

(** *** vfs.go *)

Definition defaultDataOffsetItems : Z := 50000.
Definition defaultReadlinkItems : Z := 10000.
Definition hour : Z := 60 * minute.

Record zipSettings : Type := mkZipSettings {
  zs_openTimeout : Z; zs_cacheExpirationInterval : Z; zs_cacheRefreshInterval : Z; zs_cacheCleanupInterval : Z;
  zs_dataOffsetCache : lruCache; zs_readlinkCache : lruCache; zs_timeout : Z; zs_client : meteredRoundTripper }.

Section ZipSettings.

#[local] Set Default Proof Using "Type".

Context {C : Type} (zc : ZipCache C) (os : OS).

(** The settings with the archives of ZipVfs.v. *)
Definition zip_New (cfg : ZipServing) : zipSettings * zipVFS C :=
  (mkZipSettings (z_OpenTimeout cfg) (z_ExpirationInterval cfg) (z_RefreshInterval cfg) (z_CleanupInterval cfg)
     (newLruCache &"data-offset" defaultDataOffsetItems hour) (newLruCache &"readlink" defaultReadlinkItems hour)
     (30 * minute) zip_round_tripper,
   resetCache zc (initial zc)).

Definition reconfigureTransport (cfg : Config) (s : zipSettings) : option zipSettings :=
  client ← RegisterProtocol &"file" (NewFileSystemPath os (z_AllowedPaths (Zip cfg))) (zs_client s);
  Some (mkZipSettings (zs_openTimeout s) (zs_cacheExpirationInterval s) (zs_cacheRefreshInterval s)
          (zs_cacheCleanupInterval s) (zs_dataOffsetCache s) (zs_readlinkCache s) (zs_timeout s) client).

Definition Reconfigure (cfg : Config) (v : zipSettings * zipVFS C) : option (zipSettings * zipVFS C) :=
  let s := v.1 in
  let s := mkZipSettings (z_OpenTimeout (Zip cfg)) (z_ExpirationInterval (Zip cfg)) (z_RefreshInterval (Zip cfg))
             (z_CleanupInterval (Zip cfg)) (zs_dataOffsetCache s) (zs_readlinkCache s) (zs_timeout s) (zs_client s) in
  s ← reconfigureTransport cfg s;
  Some (s, resetCache zc v.2).

(** The directories below which [file://] archives are opened. *)
Definition file_paths (s : zipSettings) : option (list str) :=
  match mrt_next (zs_client s) with TransportRT t => protocols t !! &"file" | WrappedRT _ => None end.

End ZipSettings.

(** ** Theorems *)

Definition increments (e : metric_event) : list (str * list str) :=
  match e with MInc s => [s] | MObserve _ => [] end.

Lemma run_tracer_observes mrt hooks :
  length (m_labels (mrt_tracer mrt)) = 1 ->
  exists es, run_tracer mrt hooks = Some es /\ mjoin (increments <$> es) = [] /\ length es = length hooks.
Proof.
  intros Hl. induction hooks as [|h hooks (es & IH1 & IH2 & IH3)]; [by exists []|].
  cbn [run_tracer]. unfold httpTraceObserve, WithLabelValues. rewrite Hl. cbn [length Nat.eqb fmap option_fmap option_map].
  cbn [mbind option_bind]. rewrite IH1. cbn [mbind option_bind]. eexists. split; [done|].
  split; [exact IH2|]. cbn. by rewrite IH3.
Qed.

(** Every request of the API client and of the archive client is counted
    exactly once, under its status code or as an error, and no use of the
    metrics panics; the response and the error of the transport are passed
    on, and a response that came within the time limit is not cancelled
    afterwards. *)
Theorem RoundTrip_counts_once (zip : bool) hooks elapsed next :
  let mrt := if zip then zip_round_tripper else api_round_tripper in
  exists t, RoundTrip mrt hooks elapsed next = Some t
    /\ rt_result t = next
    /\ mjoin (increments <$> rt_events t)
       = [(m_Name (mrt_counter mrt), [match next with Ok resp => FormatInt (cl_StatusCode resp) | Err _ => &"error" end])]
    /\ length (rt_events t) = length hooks + (if is_ok next then 2 else 1)
    /\ rt_cancelled t = bool_decide (15 * second <= elapsed)%Z.
Proof.
  intros mrt. assert (Ht : length (m_labels (mrt_tracer mrt)) = 1) by (by destruct zip).
  assert (Hc : forall v, WithLabelValues (mrt_counter mrt) [v] = Some (m_Name (mrt_counter mrt), [v])) by (by destruct zip).
  assert (Hd : forall v, WithLabelValues (mrt_durations mrt) [v] = Some (m_Name (mrt_durations mrt), [v])) by (by destruct zip).
  assert (Hz : (mrt_ttfbTimeout mrt <=? elapsed)%Z = bool_decide (15 * second <= elapsed)%Z).
  { replace (mrt_ttfbTimeout mrt) with (15 * second)%Z by (by destruct zip).
    apply eq_true_iff_eq. by rewrite Z.leb_le, bool_decide_eq_true. }
  destruct (run_tracer_observes mrt hooks Ht) as (es & Hes & Hi & Hl). unfold RoundTrip. rewrite Hes.
  cbn [mbind option_bind]. destruct next as [resp|err]; rewrite ?Hd, !Hc; cbn [mbind option_bind]; eexists;
    (split; [done|]); cbn [rt_result rt_events rt_cancelled is_ok]; rewrite fmap_app, join_app, Hi, length_app, Hl;
    by repeat split.
Qed.

Section ZipTheorems.

#[local] Set Default Proof Using "Type".

Context {C : Type} (zc : ZipCache C).

Lemma Reconfigure_new os cfg cfg0 :
  exists v, Reconfigure zc os cfg (zip_New zc cfg0) = Some v
    /\ file_paths v.1 = Some (NewFileSystemPath os (z_AllowedPaths (Zip cfg))).
Proof. eexists. split; [reflexivity|]. cbn. apply lookup_insert_eq. Qed.

Lemma Reconfigure_registers os cfg v v' :
  Reconfigure zc os cfg v = Some v' -> is_Some (file_paths v'.1).
Proof.
  destruct v as [s st]. unfold Reconfigure, reconfigureTransport, RegisterProtocol, transport_RegisterProtocol.
  cbn [fst zs_client]. destruct (mrt_next (zs_client s)) as [t|t]; [|done]. destruct (protocols t !! &"file") as [x|] eqn:E.
  - done.
  - intros [= <-]. cbn. rewrite lookup_insert_eq. by eexists.
Qed.

End ZipTheorems.

(** [C29] Local archives stay below the pages root: a file system made and
    reconfigured with a loaded configuration, whose pages root is an absolute,
    cleaned path other than ["/"], opens a [file://] name at its cleaned path strictly below that
    root, or refuses it with a permission error. *)
Theorem Reconfigure_confines_archives {C A} (zc : ZipCache C) os ReadFile f cfg rs (os_Open : str -> result A) name :
  loadConfig ReadFile f = Ok cfg -> g_RootDir (General cfg) = abs_path rs -> Forall ordinary rs -> rs <> [] ->
  exists v paths, Reconfigure zc os cfg (zip_New zc (Zip cfg)) = Some v /\ file_paths v.1 = Some paths
    /\ ((exists ds, requested name = rs ++ ds /\ ds <> []
           /\ httpfs_Open os os_Open paths name = os_Open (abs_path (requested name)))
        \/ (httpfs_Open os os_Open paths name = Err os_ErrPermission
            /\ forall ds, requested name = rs ++ ds -> ds = [])).
Proof.
  intros (cert & key & api & _ & _ & _ & -> & _)%loadConfig_ok Hroot Hrs Hne.
  set (cfg := loaded_config f cert key api) in *.
  destruct (Reconfigure_new zc os cfg (Zip cfg)) as (v & Hv & Hp).
  assert (Hpaths : NewFileSystemPath os (z_AllowedPaths (Zip cfg)) = abs_path <$> [rs]).
  { change (z_AllowedPaths (Zip cfg)) with [g_RootDir (General cfg)]. rewrite Hroot. unfold NewFileSystemPath. cbn [fmap list_fmap].
    unfold filepath_Abs. by rewrite IsAbs_abs_path, Clean_abs_path. }
  rewrite Hpaths in Hp. exists v, (abs_path <$> [rs]). split; [done|]. split; [done|].
  destruct (httpfs_Open_cases os os_Open [rs] name) as [(rs' & ds & Hin & Hr & Hd & Ho)|[Ho Hr]].
  - by constructor.
  - left. apply list_elem_of_singleton in Hin as ->. by exists ds.
  - right. split; [done|]. intros ds. apply Hr. by left.
Qed.

(** ** Unintended behaviour *)

(** [Reconfigure] is meant to update the settings, but works once: the second
    call registers the protocol again, which panics. *)
Theorem Reconfigure_twice_panics {C} (zc : ZipCache C) os cfg cfg' v v' :
  Reconfigure zc os cfg v = Some v' -> Reconfigure zc os cfg' v' = None.
Proof.
  intros [paths Hp]%Reconfigure_registers. destruct v' as [s st]. unfold file_paths in Hp. cbn [fst] in Hp.
  unfold Reconfigure, reconfigureTransport, RegisterProtocol, transport_RegisterProtocol. cbn [fst zs_client].
  destruct (mrt_next (zs_client s)) as [t|t]; [|done]. by rewrite Hp.
Qed.

(** With a relative pages root, as in the default flags, local archives are
    refused: the process has changed into the root before the allowed path is
    made absolute, so that the root is appended to itself. *)
Theorem relative_root_refuses_archives {A} os (os_Open : str -> result A) wd root ds name :
  Forall ordinary wd -> Forall ordinary root -> root <> [] ->
  Getwd os = abs_path (wd ++ root) ->
  requested name = (wd ++ root) ++ ds -> (forall k, ds <> root ++ k) ->
  httpfs_Open os os_Open (NewFileSystemPath os [Join root [slash]]) name = Err os_ErrPermission.
Proof.
  intros Hwd Hroot Hne Hget Hreq Hds.
  assert (Hall : Forall ordinary (wd ++ root)) by (by apply Forall_app).
  assert (Hpaths : NewFileSystemPath os [Join root [slash]] = abs_path <$> [(wd ++ root) ++ root]).
  { unfold NewFileSystemPath. cbn [fmap list_fmap]. unfold filepath_Abs. rewrite IsAbs_Join, Hget by done.
    rewrite path_Join_below; [|done|by destruct wd, root]. do 2 f_equal.
    assert (components (Join root [slash]) = root) as ->.
    { apply Split_Join; [done|]. eapply Forall_impl; [done|]. by intros c (?&?&?&?). }
    by rewrite foldl_clean_ordinary, reverse_app, !reverse_involutive. }
  rewrite Hpaths.
  destruct (httpfs_Open_cases os os_Open [(wd ++ root) ++ root] name) as [(rs & k & Hin & Hr & _)|[Ho _]]; [|..|done].
  - constructor; [|done]. split; [by apply Forall_app|by destruct wd, root].
  - exfalso. apply list_elem_of_singleton in Hin as ->. rewrite Hreq, <- !app_assoc in Hr.
    do 2 apply app_inv_head in Hr. by apply (Hds k).
Qed.

(** ** Witnesses *)

Lemma Reconfigure_confines_archives_witness : exists v paths,
  file_paths v = Some paths /\ httpfs_Open (os_with []) (fun p => Ok p) paths &"../../etc/passwd" = Err os_ErrPermission.
Proof.
  set (f := mkFlags [] [] false true &"/srv/pages" &"example.com" [] 10 [] [] [] [] 0 0 true false &"text" false [] []
    [] [] [] (10 * second) (30 * second) (10 * minute) minute minute (30 * second) second 3 &"auto" false [] [] []
    &"api" 0 false &"tls1.2" [] (60 * second) (30 * second) (30 * second) (30 * second) false false
    (mkMultiStringFlag [] &",") (mkMultiStringFlag [] &",") (mkMultiStringFlag [] &",")
    (mkMultiStringFlag [] &",") (mkMultiStringFlag [] &";;")).
  destruct (Reconfigure_confines_archives timed_cache (os_with []) (fun _ => Err (ErrMsg &"none")) f
    (loaded_config f [] [] []) [&"srv"; &"pages"] (fun p => Ok p) &"../../etc/passwd")
    as (v & paths & _ & Hp & [(ds & Hr & _)|[Ho _]]).
  - vm_compute. reflexivity.
  - reflexivity.
  - decide_now.
  - done.
  - exfalso. vm_compute in Hr. discriminate Hr.
  - exists v.1, paths. split; [exact Hp|exact Ho].
Defined.

Lemma relative_root_refuses_archives_witness :
  let os := mkOS &"/var/shared/pages" (fun p => Ok p) (fun _ => Err os_ErrNotExist) (fun _ => Err os_ErrNotExist)
              (fun _ => Err os_ErrNotExist) in
  httpfs_Open os (fun p => Ok p) (NewFileSystemPath os [f_pagesRoot default_flags]) &"/var/shared/pages/g/p/public.zip"
  = Err os_ErrPermission.
Proof.
  intros os.
  apply (relative_root_refuses_archives os (fun p => Ok p) [&"var"] [&"shared"; &"pages"] [&"g"; &"p"; &"public.zip"]);
    [decide_now|decide_now|done|reflexivity|vm_compute; reflexivity|]. intros k Hk. by simplify_eq.
Defined.
