(* ===== verification/Limiter.v ===== *)
(** * The shared connection limit

    internal/netutil/shared_limit_listener.go as a transition system: the
    semaphore that several listeners share, the calls of [Accept] between
    acquiring a slot and the answer of the listener below, and the
    connections.  Gauges and keep-alive settings, which are passed through,
    are left out. *)

From S2P Require Import Prelude.

(** [closed] and [done] hold the listeners whose inner listener was closed and
    whose channel was closed; [accepting] the calls of [Accept] that are past
    [acquire], with what it returned; [conns] the connections, [true] while
    their [releaseOnce] has not run. *)
Record limiter : Type := mkLimiter {
  sem : nat; closed : gset nat; done : gset nat; accepting : list (nat * bool); conns : list bool }.

Section Limiter.

#[local] Set Default Proof Using "Type".

(** [MaxConns], the capacity of the channel. *)
Context (maxConns : nat).

Definition NewLimiter : limiter := mkLimiter 0 ∅ ∅ [] [].

(** [<-l.limiter.sem]; [None] when the receive would block. *)
Definition release (st : limiter) : option limiter :=
  match sem st with
  | 0 => None
  | S n => Some (mkLimiter n (closed st) (done st) (accepting st) (conns st))
  end.

(** [acquire] sends to the channel when it has room, or returns false when
    the listener is done; with both possible either happens. *)
Definition acquire_slot (l : nat) (st : limiter) : option limiter :=
  if sem st <? maxConns
  then Some (mkLimiter (S (sem st)) (closed st) (done st) (accepting st ++ [(l, true)]) (conns st))
  else None.
Definition acquire_done (l : nat) (st : limiter) : option limiter :=
  if decide (l ∈ done st)
  then Some (mkLimiter (sem st) (closed st) (done st) (accepting st ++ [(l, false)]) (conns st))
  else None.

Definition drop_call (i : nat) (st : limiter) : limiter :=
  mkLimiter (sem st) (closed st) (done st) (delete i (accepting st)) (conns st).

(** [l.Listener.Accept] fails: the slot is given back if there is one. *)
Definition Accept_error (i : nat) (st : limiter) : option limiter :=
  match accepting st !! i with
  | Some (_, true) => release (drop_call i st)
  | Some (_, false) => Some (drop_call i st)
  | None => None
  end.

(** It succeeds, which a closed listener does not. *)
Definition Accept_conn (i : nat) (st : limiter) : option limiter :=
  match accepting st !! i with
  | Some (l, _) =>
      if decide (l ∈ closed st) then None
      else Some (mkLimiter (sem st) (closed st) (done st) (delete i (accepting st)) (conns st ++ [true]))
  | None => None
  end.

(** [Close] of a connection: the slot is given back once. *)
Definition Conn_Close (j : nat) (st : limiter) : option limiter :=
  match conns st !! j with
  | Some true => release (mkLimiter (sem st) (closed st) (done st) (accepting st) (<[j := false]> (conns st)))
  | Some false => Some st
  | None => None
  end.

(** [Close] of a listener: first the inner listener, then the channel. *)
Definition Close_inner (l : nat) (st : limiter) : option limiter :=
  Some (mkLimiter (sem st) ({[l]} ∪ closed st) (done st) (accepting st) (conns st)).
Definition Close_done (l : nat) (st : limiter) : option limiter :=
  if decide (l ∈ closed st)
  then Some (mkLimiter (sem st) (closed st) ({[l]} ∪ done st) (accepting st) (conns st)) else None.

Inductive lstep (st st' : limiter) : Prop :=
  | ls_slot l : acquire_slot l st = Some st' -> lstep st st'
  | ls_done l : acquire_done l st = Some st' -> lstep st st'
  | ls_error i : Accept_error i st = Some st' -> lstep st st'
  | ls_conn i : Accept_conn i st = Some st' -> lstep st st'
  | ls_close j : Conn_Close j st = Some st' -> lstep st st'
  | ls_inner l : Close_inner l st = Some st' -> lstep st st'
  | ls_channel l : Close_done l st = Some st' -> lstep st st'.

Definition lreach (st : limiter) : Prop := rtc lstep NewLimiter st.

(** ** Lemmas *)

Definition count {A} (P : A -> bool) (l : list A) : nat := length (filter (fun x => P x = true) l).

Lemma count_app {A} (P : A -> bool) l1 l2 : count P (l1 ++ l2) = count P l1 + count P l2.
Proof. unfold count. by rewrite filter_app, length_app. Qed.

Lemma count_cons {A} (P : A -> bool) x l : count P (x :: l) = (if P x then 1 else 0) + count P l.
Proof. unfold count. rewrite filter_cons. destruct (P x); case_decide; done. Qed.

Lemma count_delete {A} (P : A -> bool) i l x :
  l !! i = Some x -> count P l = (if P x then 1 else 0) + count P (delete i l).
Proof.
  intros H. rewrite delete_take_drop. rewrite <- (take_drop_middle l i x H) at 1.
  rewrite !count_app, count_cons. lia.
Qed.

Lemma count_insert_false j (l : list bool) : l !! j = Some true -> count id l = S (count id (<[j := false]> l)).
Proof.
  intros H. pose proof (lookup_lt_Some _ _ _ H). rewrite insert_take_drop by done.
  rewrite <- (take_drop_middle l j true H) at 1. rewrite !count_app, !count_cons. cbn [id]. lia.
Qed.

(** The slots in use are those of the calls that got one and of the open
    connections; a call that got none belongs to a closed listener. *)
Definition linv (st : limiter) : Prop :=
  sem st = count snd (accepting st) + count id (conns st)
  /\ sem st <= maxConns /\ done st ⊆ closed st
  /\ forall l, (l, false) ∈ accepting st -> l ∈ closed st.

Lemma accepting_delete (i : nat) (cs : list (nat * bool)) x : x ∈ delete i cs -> x ∈ cs.
Proof. intros H. eapply elem_of_submseteq; [exact H|apply submseteq_delete]. Qed.

Lemma release_linv st st' :
  release st = Some st' -> sem st = S (count snd (accepting st) + count id (conns st)) ->
  sem st <= maxConns -> done st ⊆ closed st -> (forall l, (l, false) ∈ accepting st -> l ∈ closed st) -> linv st'.
Proof.
  unfold release. destruct (sem st) as [|n] eqn:E; [done|]. intros [= <-] Hs Hm Hd Ha.
  unfold linv. cbn [drop_call sem closed done accepting conns]. repeat split; [lia|lia|done|done].
Qed.

Lemma lstep_inv st st' : linv st -> lstep st st' -> linv st'.
Proof.
  intros (Hs & Hm & Hd & Ha). destruct 1 as [l H|l H|i H|i H|j H|l H|l H].
  - unfold acquire_slot in H. destruct (_ <? _) eqn:E; [|done]. injection H as <-. bools.
    unfold linv. cbn [drop_call sem closed done accepting conns]. rewrite count_app, count_cons. repeat split; [cbn [snd id]; change (count snd []) with 0; change (count id []) with 0; lia|lia|done|].
    intros l' [Hin|Hin%list_elem_of_singleton]%elem_of_app; [by apply Ha|done].
  - unfold acquire_done in H. case_decide as Hl; [|done]. injection H as <-.
    unfold linv. cbn [drop_call sem closed done accepting conns]. rewrite count_app, count_cons. repeat split; [cbn [snd id]; change (count snd []) with 0; change (count id []) with 0; lia|lia|done|].
    intros l' [Hin|Hin%list_elem_of_singleton]%elem_of_app; [by apply Ha|]. injection Hin as ->. by apply Hd.
  - unfold Accept_error in H. destruct (accepting st !! i) as [[l []]|] eqn:E; [| |done].
    + pose proof (count_delete snd i _ _ E) as Hc. cbn [snd] in Hc.
      apply (release_linv _ _ H); cbn [drop_call sem accepting conns closed done]; [lia|done|done|].
      intros l' Hin%accepting_delete. by apply Ha.
    + injection H as <-. pose proof (count_delete snd i _ _ E) as Hc. cbn [snd] in Hc.
      unfold linv. cbn [drop_call sem closed done accepting conns]. repeat split; [lia|done|done|]. intros l' Hin%accepting_delete. by apply Ha.
  - unfold Accept_conn in H. destruct (accepting st !! i) as [[l acq]|] eqn:E; [|done].
    case_decide as Hl; [done|]. injection H as <-. pose proof (count_delete snd i _ _ E) as Hc. cbn [snd] in Hc.
    assert (acq = true) as -> by (destruct acq; [done|]; destruct Hl; apply Ha; by eapply list_elem_of_lookup_2).
    unfold linv. cbn [drop_call sem closed done accepting conns]. rewrite count_app, count_cons. repeat split; [cbn [snd id]; change (count snd []) with 0; change (count id []) with 0; lia|done|done|].
    intros l' Hin%accepting_delete. by apply Ha.
  - unfold Conn_Close in H. destruct (conns st !! j) as [[]|] eqn:E; [| |done].
    + pose proof (count_insert_false j _ E) as Hc.
      apply (release_linv _ _ H); cbn [sem accepting conns closed done]; [lia|done|done|done].
    + by injection H as <-.
  - injection H as <-. unfold linv. cbn [drop_call sem closed done accepting conns]. repeat split; [done|done|set_solver|]. intros l' Hin. set_solver.
  - unfold Close_done in H. case_decide as Hl; [|done]. injection H as <-.
    unfold linv. cbn [drop_call sem closed done accepting conns]. repeat split; [done|done|set_solver|done].
Qed.

Lemma lreach_inv st : lreach st -> linv st.
Proof.
  unfold lreach. assert (H0 : linv NewLimiter) by (unfold linv; cbn [NewLimiter sem closed done accepting conns]; repeat split; [lia|done|set_solver]).
  revert H0. generalize NewLimiter. intros st0 H0 H. induction H as [|st0 st1 st2 Hs _ IH]; [done|].
  by eapply IH, lstep_inv.
Qed.

(** [C38] The connection limit holds and no slot is lost: in every
    interleaving of the listeners that share the limiter there are never more
    open connections than the limit; giving a slot back never blocks, neither
    for a failed [Accept] nor for the first [Close] of a connection; and when
    no call is under way the slots in use are exactly the open connections. *)
Theorem limiter_respects_limit st :
  lreach st ->
  count id (conns st) <= maxConns
  /\ (forall i l, accepting st !! i = Some (l, true) -> is_Some (Accept_error i st))
  /\ (forall j, conns st !! j = Some true -> is_Some (Conn_Close j st))
  /\ (accepting st = [] -> sem st = count id (conns st)).
Proof.
  intros (Hs & Hm & Hd & Ha)%lreach_inv. split; [lia|]. split; [|split].
  - intros i l Hi. unfold Accept_error. rewrite Hi. pose proof (count_delete snd i _ _ Hi) as Hc. cbn [snd] in Hc.
    unfold release. cbn [drop_call sem]. destruct (sem st) eqn:E; [lia|by eexists].
  - intros j Hj. unfold Conn_Close. rewrite Hj. pose proof (count_insert_false j _ Hj) as Hc.
    unfold release. cbn [sem]. destruct (sem st) eqn:E; [lia|by eexists].
  - intros E. rewrite E in Hs. done.
Qed.

End Limiter.

Lemma limiter_respects_limit_witness :
  exists st, lreach 1 st /\ conns st = [true] /\ acquire_slot 1 0 st = None /\ is_Some (Conn_Close 0 st).
Proof.
  set (st := mkLimiter 1 ∅ ∅ [] [true]). assert (Hr : lreach 1 st).
  { eapply rtc_l; [by apply (ls_slot 1 _ _ 0)|]. eapply rtc_l; [by apply (ls_conn 1 _ _ 0)|]. constructor. }
  exists st. destruct (limiter_respects_limit 1 st Hr) as (_ & _ & H & _).
  split; [exact Hr|]. split; [reflexivity|]. split; [reflexivity|]. apply H. reflexivity.
Defined.
