(* ===== verification/Jail.v ===== *)
(** * The chroot jail

    internal/jail: jail.go, mount_linux.go and mount_not_supported.go.  The
    operating system is an oracle: any answer to a system call is possible
    unless a theorem restricts it by the laws of [JailOSLaws].  Every call is
    recorded in a trace with its answer, so that theorems can speak of what
    happened before a removal.  The order in which Go visits a map is an
    argument.  An error made with [fmt.Errorf] carries its format and path;
    the text of the error inside is left out.  Closing the copied files has
    no effect in the model. *)

From S2P Require Import Prelude GoStd GoPath GoUrl Header Http.

(** ** Modes and files *)

Definition jail_ModeDir : Z := Z.shiftl 1 31.
Definition jail_ModeSymlink : Z := Z.shiftl 1 27.
Definition jail_ModeCharDevice : Z := Z.shiftl 1 21.
(** [os.ModeType]: directory, link, device, pipe, socket, character device,
    irregular. *)
Definition jail_ModeType : Z :=
  Z.lor jail_ModeDir (Z.lor jail_ModeSymlink (Z.lor (Z.shiftl 1 26) (Z.lor (Z.shiftl 1 25)
    (Z.lor (Z.shiftl 1 24) (Z.lor jail_ModeCharDevice (Z.shiftl 1 19)))))).
Definition mode_Perm (mode : Z) : Z := Z.land mode 0x1ff.
Definition mode_IsRegular (mode : Z) : bool := (Z.land mode jail_ModeType =? 0)%Z.
Definition mode_has (mode bit : Z) : bool := negb (Z.land mode bit =? 0)%Z.
Definition S_IFCHR : Z := 0x2000.

(** [os.FileInfo] with the device number, when [Sys] gives it. *)
Record StatInfo : Type := mkStatInfo { st_mode : Z; st_rdev : option Z }.

Record pathAndMode : Type := mkPathAndMode { pm_path : str; pm_mode : Z; pm_rdev : Z }.

Record Jail : Type := mkJail {
  j_root : str; j_deleteRoot : bool; j_directories : list pathAndMode;
  j_files : gmap str pathAndMode; j_bindMounts : gmap str str }.

(** ** System calls *)

Inductive syscall : Type :=
  | SMkdir (path : str) (mode : Z)
  | SMknod (path : str) (mode dev : Z)
  | SOpen (path : str)
  | SCreate (path : str) (perm : Z)        (* O_WRONLY, O_CREATE and O_EXCL *)
  | SCopy (dest src : str)                 (* io.Copy between the two files *)
  | SRemove (path : str)
  | SRemoveAll (path : str)
  | SMount (src dest : str) (flags : Z)
  | SUnmount (dest : str) (flags : Z)
  | SUnshare (flags : Z)
  | SStart (chroot path dir : str) (uid gid : Z)   (* the calls of daemon.go on the child *)
  | SSendConfig
  | SKill
  | SWait.

Definition MS_BIND : Z := 4096.
Definition MS_REC : Z := 16384.
Definition MS_PRIVATE : Z := Z.shiftl 1 18.
Definition MNT_DETACH : Z := 2.
Definition CLONE_NEWNS : Z := 0x20000.
Definition EINVAL : error := ErrSentinel &"EINVAL".

Record JailOS (W : Type) : Type := mkJailOS {
  sys : syscall -> W -> option error * W;
  sys_Stat : W -> str -> result StatInfo }.
Arguments sys {W}.
Arguments sys_Stat {W}.

Abbreviation event := (syscall * option error)%type.

Record jstate {W : Type} : Type := mkJState { world : W; trace : list event }.
Arguments jstate : clear implicits.
Arguments mkJState {W}.

(** ** Building the description of a jail *)

Definition Into (path : str) : Jail := mkJail path false [] ∅ ∅.

Definition add_directory (d : pathAndMode) (j : Jail) : Jail :=
  mkJail (j_root j) (j_deleteRoot j) (j_directories j ++ [d]) (j_files j) (j_bindMounts j).

Definition jail_Create (path : str) (perm : Z) : Jail :=
  let jail := Into path in
  add_directory (mkPathAndMode path perm 0)
    (mkJail (j_root jail) true (j_directories jail) (j_files jail) (j_bindMounts jail)).

(** [now] is [time.Now().UnixNano()], [tempDir] is [os.TempDir()]. *)
Definition CreateTimestamped (tempDir : str) (now : Z) (prefix : str) (perm : Z) : Jail :=
  jail_Create (path_Join [tempDir; prefix ++ &"-" ++ FormatInt now]) perm.

Definition jail_Path (j : Jail) : str := j_root j.

Definition ExternalPath (j : Jail) (internal : str) : str := path_Join [jail_Path j; internal].

Definition MkDir (path : str) (perm : Z) (j : Jail) : Jail :=
  add_directory (mkPathAndMode (ExternalPath j path) perm 0) j.

Fixpoint MkDirAll_loop (subPaths : list str) (currentParent : str) (perm : Z) (j : Jail) : Jail :=
  match subPaths with
  | [] => j
  | subPath :: rest =>
      let currentPath := path_Join [currentParent; subPath] in
      MkDirAll_loop rest currentPath perm (add_directory (mkPathAndMode (ExternalPath j currentPath) perm 0) j)
  end.

(** [subPaths[1:]]: a split string has a first field. *)
Definition MkDirAll (dir : str) (perm : Z) (j : Jail) : Jail :=
  MkDirAll_loop (tail (Split dir slash)) [] perm j.

Definition add_file (dest : str) (f : pathAndMode) (j : Jail) : Jail :=
  mkJail (j_root j) (j_deleteRoot j) (j_directories j) (<[dest := f]> (j_files j)) (j_bindMounts j).

Definition Bind (dest src : str) (j : Jail) : Jail :=
  mkJail (j_root j) (j_deleteRoot j) (j_directories j) (j_files j)
    (<[ExternalPath j dest := src]> (j_bindMounts j)).

Section OS.

#[local] Set Default Proof Using "Type".

Context {W : Type} (os : JailOS W).

Definition CharDev (st : jstate W) (path : str) (j : Jail) : result Jail :=
  match sys_Stat os (world st) path with
  | Err _ => Err (ErrMsg (&"can't stat " ++ path))
  | Ok fi =>
      if negb (mode_has (st_mode fi) jail_ModeCharDevice)
      then Err (ErrMsg (&"can't mknod: not a character device " ++ path))
      else
        match st_rdev fi with
        | None => Err (ErrMsg (&"couldn't determine rdev for " ++ path))
        | Some rdev => Ok (add_file (ExternalPath j path) (mkPathAndMode path (st_mode fi) rdev) j)
        end
  end.

Definition CopyTo (st : jstate W) (dest src : str) (j : Jail) : result Jail :=
  match sys_Stat os (world st) src with
  | Err _ => Err (ErrMsg (&"can't stat " ++ src))
  | Ok fi =>
      if mode_has (st_mode fi) jail_ModeDir then Err (ErrMsg (&"can't copy directories. " ++ src))
      else Ok (add_file (ExternalPath j dest) (mkPathAndMode src (st_mode fi) 0) j)
  end.

Definition Copy (st : jstate W) (path : str) (j : Jail) : result Jail := CopyTo st path path j.

(** ** Building and disposing *)

Definition call (c : syscall) (st : jstate W) : option error * jstate W :=
  let '(r, w) := sys os c (world st) in (r, mkJState w (trace st ++ [(c, r)])).

Definition createCharacterDevice (dest : str) (src : pathAndMode) (st : jstate W) : option error * jstate W :=
  let unixMode := Z.lor (mode_Perm (pm_mode src)) S_IFCHR in
  call (SMknod dest unixMode (pm_rdev src)) st.

Definition copyFile (dest src : str) (perm : Z) (st : jstate W) : option error * jstate W :=
  match call (SOpen src) st with
  | (Some err, st) => (Some err, st)
  | (None, st) =>
      match call (SCreate dest perm) st with
      | (Some err, st) => (Some err, st)
      | (None, st) => call (SCopy dest src) st
      end
  end.

Definition handleFile (dest : str) (src : pathAndMode) (st : jstate W) : option error * jstate W :=
  if mode_has (pm_mode src) jail_ModeCharDevice then createCharacterDevice dest src st
  else copyFile dest (pm_path src) (pm_mode src) st.

(** A loop that stops at the first error. *)
Fixpoint each {A} (f : A -> jstate W -> option error * jstate W) (l : list A) (st : jstate W)
  : option error * jstate W :=
  match l with
  | [] => (None, st)
  | x :: l' =>
      match f x st with
      | (Some err, st) => (Some err, st)
      | (None, st) => each f l' st
      end
  end.

(** mount_linux.go *)

Definition mount_one (m : str * str) (st : jstate W) : option error * jstate W :=
  match call (SMount m.2 m.1 (Z.lor MS_BIND MS_REC)) st with
  | (Some _, st) => (Some (ErrMsg (&"failed to bind mount " ++ m.2 ++ &" on " ++ m.1)), st)
  | (None, st) => (None, st)
  end.
Definition mount (bindMounts : list (str * str)) (st : jstate W) : option error * jstate W :=
  each mount_one bindMounts st.

Definition unmount_one (m : str * str) (st : jstate W) : option error * jstate W :=
  match call (SUnmount m.1 MNT_DETACH) st with
  | (Some err, st) =>
      if decide (err = EINVAL) then (None, st) else (Some (ErrMsg (&"failed to unmount " ++ m.1)), st)
  | (None, st) => (None, st)
  end.
Definition unmount (bindMounts : list (str * str)) (st : jstate W) : option error * jstate W :=
  each unmount_one bindMounts st.

Definition Unshare (st : jstate W) : option error * jstate W :=
  match call (SUnshare CLONE_NEWNS) st with
  | (Some err, st) => (Some err, st)
  | (None, st) => call (SMount &"none" [slash] (Z.lor MS_REC MS_PRIVATE)) st
  end.

(** mount_not_supported.go *)

Definition notSupported (goos : str) (j : Jail) : option error :=
  if 0 <? size (j_bindMounts j) then Some (ErrMsg (&"bind mount not supported on " ++ goos)) else None.
Definition Unshare_not_supported (goos : str) : option error := Some (ErrMsg (&"unshare not supported on " ++ goos)).

(** [forder] is the order in which the files are visited. *)
Definition removeAll (j : Jail) (forder : list (str * pathAndMode)) (st : jstate W)
  : option error * jstate W :=
  if j_deleteRoot j then
    match call (SRemoveAll (jail_Path j)) st with
    | (Some _, st) => (Some (ErrMsg (&"can't delete jail " ++ jail_Path j)), st)
    | (None, st) => (None, st)
    end
  else
    match each (fun f st => match call (SRemove f.1) st with
                            | (Some _, st) => (Some (ErrMsg (&"can't delete file in jail " ++ f.1)), st)
                            | (None, st) => (None, st)
                            end) forder st with
    | (Some err, st) => (Some err, st)
    | (None, st) =>
        each (fun d st => match call (SRemove (pm_path d)) st with
                          | (Some _, st) => (Some (ErrMsg (&"can't delete directory in jail " ++ pm_path d)), st)
                          | (None, st) => (None, st)
                          end) (reverse (j_directories j)) st
    end.

Definition make_directory (d : pathAndMode) (st : jstate W) : option error * jstate W :=
  match call (SMkdir (pm_path d) (pm_mode d)) st with
  | (Some _, st) => (Some (ErrMsg (&"can't create directory " ++ pm_path d)), st)
  | (None, st) => (None, st)
  end.

Definition make_file (f : str * pathAndMode) (st : jstate W) : option error * jstate W :=
  match handleFile f.1 f.2 st with
  | (Some _, st) => (Some (ErrMsg (&"can't copy " ++ pm_path f.2 ++ &" -> " ++ f.1)), st)
  | (None, st) => (None, st)
  end.

(** [forder] and [rorder] are the orders of the copying loop and of the
    removing loop, [morder] that of the mounts. *)
Definition Build (j : Jail) (forder rorder : list (str * pathAndMode)) (morder : list (str * str))
    (st : jstate W) : option error * jstate W :=
  if 1 <? size (j_bindMounts j)
  then (Some (ErrMsg &"BUG: jail does not currently support multiple bind mounts"), st)
  else
    match each make_directory (j_directories j) st with
    | (Some err, st) => (Some err, (removeAll j rorder st).2)
    | (None, st) =>
        match each make_file forder st with
        | (Some err, st) => (Some err, (removeAll j rorder st).2)
        | (None, st) =>
            match mount morder st with
            | (Some err, st) => (Some err, (removeAll j rorder st).2)
            | (None, st) => (None, st)
            end
        end
    end.

Definition Dispose (j : Jail) (rorder : list (str * pathAndMode)) (morder : list (str * str))
    (st : jstate W) : option error * jstate W :=
  match unmount morder st with
  | (Some err, st) => (Some err, st)
  | (None, st) =>
      match removeAll j rorder st with
      | (Some _, st) => (Some (ErrMsg (&"can't delete jail " ++ jail_Path j)), st)
      | (None, st) => (None, st)
      end
  end.

End OS.

(** ** Removals and mounts

    The bind mounts that a trace leaves in place.  Unmounting something that
    is not a mount point answers [EINVAL]. *)

Definition mount_effect (m : gset str) (e : event) : gset str :=
  match e with
  | (SMount _ dest flags, None) => if mode_has flags MS_BIND then {[dest]} ∪ m else m
  | (SUnmount dest _, None) => m ∖ {[dest]}
  | (SUnmount dest _, Some err) => if decide (err = EINVAL) then m ∖ {[dest]} else m
  | _ => m
  end.

Definition mounted (tr : list event) : gset str := foldl mount_effect ∅ tr.

Definition is_removal (c : syscall) : bool :=
  match c with SRemove _ | SRemoveAll _ => true | _ => false end.

(** Whenever something was removed, nothing was mounted. *)
Definition safe_removals (tr : list event) : Prop :=
  forall i c r, tr !! i = Some (c, r) -> is_removal c = true -> mounted (take i tr) = ∅.

Lemma mounted_snoc tr e : mounted (tr ++ [e]) = mount_effect (mounted tr) e.
Proof. unfold mounted. by rewrite foldl_app. Qed.

Lemma safe_snoc tr c r :
  safe_removals tr -> (is_removal c = true -> mounted tr = ∅) -> safe_removals (tr ++ [(c, r)]).
Proof.
  intros Hs Hc i c' r' Hi Hr. destruct (decide (i < length tr)) as [Hlt|Hge].
  - rewrite lookup_app_l in Hi by done. rewrite take_app_le by lia. by eapply Hs.
  - rewrite lookup_app_r in Hi by lia. assert (i - length tr = 0) as E.
    { apply lookup_lt_Some in Hi. simpl in Hi. lia. }
    rewrite E in Hi. injection Hi as <- <-. replace i with (length tr) by lia.
    rewrite take_app_length. by apply Hc.
Qed.

Section Safety.

#[local] Set Default Proof Using "Type".

Context {W : Type} (os : JailOS W).
Implicit Type st : jstate W.

(** The mounts of a state lie in [m] and its removals were safe. *)
Definition guarded (m : gset str) (st : jstate W) : Prop := safe_removals (trace st) /\ mounted (trace st) ⊆ m.

Lemma call_trace c st : trace (call os c st).2 = trace st ++ [(c, (call os c st).1)].
Proof. unfold call. by destruct (sys os c (world st)). Qed.

Lemma call_guarded c st m m' :
  guarded m st -> (is_removal c = true -> m = ∅) ->
  (forall r, r = (call os c st).1 -> mount_effect (mounted (trace st)) (c, r) ⊆ m') ->
  guarded m' (call os c st).2.
Proof.
  intros [Hs Hm] Hr He. split; rewrite call_trace.
  - apply safe_snoc; [done|]. intros Hc. rewrite (Hr Hc) in Hm. set_solver.
  - rewrite mounted_snoc. by apply He.
Qed.

Lemma each_preserves {A} (I : jstate W -> Prop) (f : A -> jstate W -> option error * jstate W) l st :
  (forall x st, x ∈ l -> I st -> I (f x st).2) -> I st -> I (each f l st).2.
Proof.
  revert st. induction l as [|x l IH]; intros st Hf Hi; [done|]. simpl.
  pose proof (Hf x st ltac:(by left) Hi) as Hx. destruct (f x st) as [[err|] st']; [done|].
  apply IH; [|done]. intros y st'' Hy. apply Hf. by right.
Qed.

Lemma handleFile_guarded m f st : guarded m st -> guarded m (make_file os f st).2.
Proof.
  intros Hg. unfold make_file.
  enough (H : guarded m (handleFile os f.1 f.2 st).2) by (by destruct (handleFile os f.1 f.2 st) as [[] ?]).
  unfold handleFile. destruct (mode_has _ _).
  - unfold createCharacterDevice. apply (call_guarded _ _ m); [done|done|]. intros r _. apply Hg.
  - unfold copyFile. pose proof (call_guarded (SOpen (pm_path f.2)) st m m Hg) as H1.
    destruct (call os (SOpen _) st) as [[e|] st1]; simpl in H1; [apply H1; [done|intros; apply Hg]|].
    specialize (H1 ltac:(done) ltac:(intros; apply Hg)).
    pose proof (call_guarded (SCreate f.1 (pm_mode f.2)) st1 m m H1) as H2.
    destruct (call os (SCreate _ _) st1) as [[e|] st2]; simpl in H2; [apply H2; [done|intros; apply H1]|].
    specialize (H2 ltac:(done) ltac:(intros; apply H1)).
    apply (call_guarded _ _ m); [done|done|]. intros r _. apply H2.
Qed.

Lemma make_directory_guarded m d st : guarded m st -> guarded m (make_directory os d st).2.
Proof.
  intros Hg. unfold make_directory. pose proof (call_guarded (SMkdir (pm_path d) (pm_mode d)) st m m Hg) as H.
  destruct (call os _ st) as [[e|] st']; (apply H; [done|]; intros; apply Hg).
Qed.

Lemma removeAll_guarded j rorder st : guarded ∅ st -> guarded ∅ (removeAll os j rorder st).2.
Proof.
  assert (Hc : forall c st, is_removal c = true -> guarded ∅ st -> guarded ∅ (call os c st).2).
  { intros c st' Hr Hg. apply (call_guarded _ _ ∅); [done|done|]. intros r _. destruct c; try done; apply Hg. }
  assert (He : forall {A} (p : A -> str) (msg : A -> error) l st, guarded ∅ st ->
    guarded ∅ (each (fun x st => match call os (SRemove (p x)) st with
                                 | (Some _, st) => (Some (msg x), st) | (None, st) => (None, st) end) l st).2).
  { intros A p msg l st' Hg. apply each_preserves; [|done]. intros x st'' _ Hx.
    pose proof (Hc (SRemove (p x)) st'' eq_refl Hx). by destruct (call os _ st'') as [[] ?]. }
  intros Hg. unfold removeAll. destruct (j_deleteRoot j).
  - pose proof (Hc (SRemoveAll (jail_Path j)) st eq_refl Hg). by destruct (call os _ st) as [[] ?].
  - pose proof (He _ fst (fun f => ErrMsg (&"can't delete file in jail " ++ f.1)) rorder st Hg) as H1.
    cbv beta in H1. destruct (each _ rorder st) as [[e|] st1]; [done|].
    by apply (He _ pm_path (fun d => ErrMsg (&"can't delete directory in jail " ++ pm_path d))).
Qed.

Lemma mount_guarded morder st :
  length morder <= 1 -> guarded ∅ st ->
  (forall err st', mount os morder st = (Some err, st') -> guarded ∅ st')
  /\ guarded (list_to_set morder.*1) (mount os morder st).2.
Proof.
  intros Hl Hg. destruct morder as [|[d s] [|]]; [|clear Hl|simpl in Hl; lia].
  - split; [done|exact Hg].
  - unfold mount. simpl. unfold mount_one. cbn [fst snd].
    pose proof (call_guarded (SMount s d (Z.lor MS_BIND MS_REC)) st ∅) as Hc.
    assert (Hm : mounted (trace st) = ∅) by (destruct Hg; set_solver).
    destruct (call os _ st) as [[e|] st'] eqn:E; cbn [fst snd] in Hc.
    + assert (H : guarded ∅ st') by (apply Hc; [done|done|]; intros r ->; simpl; rewrite Hm; set_solver).
      split; [by intros ? ? [= <- <-]|]. simpl. split; [apply H|]. destruct H. set_solver.
    + split; [done|]. simpl. apply Hc; [done|done|]. intros r ->. simpl. rewrite Hm. set_solver.
Qed.

Lemma unmount_guarded morder st :
  guarded (list_to_set morder.*1) st ->
  guarded (list_to_set morder.*1) (unmount os morder st).2
  /\ (forall st', unmount os morder st = (None, st') -> guarded ∅ st').
Proof.
  unfold unmount. revert st. induction morder as [|[d s] l IH]; intros st Hg.
  - simpl. split; [exact Hg|]. by intros st' [= <-].
  - simpl. unfold unmount_one. cbn [fst].
    set (m := list_to_set l.*1 : gset str). assert (Hg' : guarded ({[d]} ∪ m) st) by exact Hg. clear Hg.
    pose proof (call_guarded (SUnmount d MNT_DETACH) st ({[d]} ∪ m)) as Hc.
    destruct (call os _ st) as [[e|] st1]; cbn [fst snd] in Hc; [case_decide as He|].
    1,3: assert (H1 : guarded m st1)
      by (apply Hc; [done|done|]; intros r ->; simpl; try rewrite decide_True by done; destruct Hg'; set_solver);
      destruct (IH st1 H1) as [H2 H3]; split; [|exact H3]; split; [apply H2|destruct H2; set_solver].
    split; [|done]. apply Hc; [done|done|]. intros r ->. simpl. rewrite decide_False by done. apply Hg'.
Qed.

(** Go visits the entries of a map in any order. *)
Lemma visited_keys (m : gmap str str) l : l ≡ₚ map_to_list m -> list_to_set l.*1 =@{gset str} dom m.
Proof.
  intros Hl. apply set_eq. intros x. rewrite elem_of_list_to_set, Hl, elem_of_dom, list_elem_of_fmap.
  split; [intros ([k v] & -> & Hk%elem_of_map_to_list); by exists v|].
  intros [v Hv%elem_of_map_to_list]. by exists (x, v).
Qed.

Lemma guarded_weaken m m' st : m ⊆ m' -> guarded m st -> guarded m' st.
Proof. intros Hm [? ?]. split; [done|set_solver]. Qed.

Lemma Build_guarded j forder rorder morder st :
  morder ≡ₚ map_to_list (j_bindMounts j) -> guarded ∅ st ->
  guarded (dom (j_bindMounts j)) (Build os j forder rorder morder st).2.
Proof.
  intros Hm H0. unfold Build.
  assert (Hw : forall st : jstate W, guarded ∅ st -> guarded (dom (j_bindMounts j)) st)
    by (intros st'; apply guarded_weaken; set_solver).
  destruct (1 <? size _) eqn:Es; [by apply Hw|]. apply Nat.ltb_ge in Es.
  pose proof (each_preserves (guarded ∅) (make_directory os) (j_directories j) st
    (fun x st _ => make_directory_guarded ∅ x st) H0) as H1.
  destruct (each _ _ _) as [[e|] st1]; [apply Hw, (removeAll_guarded _ _ st1 H1)|].
  pose proof (each_preserves (guarded ∅) (make_file os) forder st1
    (fun x st _ => handleFile_guarded ∅ x st) H1) as H2.
  destruct (each _ _ _) as [[e|] st2]; [apply Hw, (removeAll_guarded _ _ st2 H2)|].
  assert (Hl : length morder <= 1) by (by rewrite Hm, length_map_to_list).
  destruct (mount_guarded morder st2 Hl H2) as [H3 H4]. rewrite visited_keys with (m := j_bindMounts j) in H4 by done.
  destruct (mount os morder st2) as [[e|] st3]; [|exact H4].
  apply Hw, removeAll_guarded, (H3 e st3 eq_refl).
Qed.

Lemma Dispose_guarded j rorder morder st :
  morder ≡ₚ map_to_list (j_bindMounts j) -> guarded (dom (j_bindMounts j)) st ->
  guarded (dom (j_bindMounts j)) (Dispose os j rorder morder st).2.
Proof.
  intros Hm Hg. unfold Dispose. rewrite <- (visited_keys _ _ Hm) in Hg |- *.
  destruct (unmount_guarded morder st Hg) as [H1 H2].
  destruct (unmount os morder st) as [[e|] st1]; [exact H1|]. specialize (H2 st1 eq_refl).
  pose proof (removeAll_guarded j rorder st1 H2) as H3. apply (guarded_weaken ∅ (list_to_set morder.*1)) in H3;
    [|set_solver]. by destruct (removeAll os j rorder st1) as [[e|] st2].
Qed.

End Safety.

(** [C26] A jail is never removed across a bind mount: whatever the operating
    system answers, a call of [Build] on a fresh trace and any number of
    calls of [Dispose] after it (also after a failed [Build]) remove files
    only while no bind mount of the jail is in place. *)
Theorem removals_never_cross_mounts {W} (os : JailOS W) j w forder rorder morder disposals :
  morder ≡ₚ map_to_list (j_bindMounts j) ->
  Forall (fun d => d.2 ≡ₚ map_to_list (j_bindMounts j)) disposals ->
  safe_removals (trace
    (foldl (fun st d => (Dispose os j d.1 d.2 st).2)
       (Build os j forder rorder morder (mkJState w [])).2 disposals)).
Proof.
  intros Hm Hd.
  assert (H : guarded (dom (j_bindMounts j)) (Build os j forder rorder morder (mkJState w [])).2).
  { apply Build_guarded; [done|]. split; [intros i c r Hi; by destruct i|done]. }
  revert H. generalize (Build os j forder rorder morder (mkJState w [])).2.
  induction Hd as [|[ro mo] l Hmo _ IH]; intros st Hg; [apply Hg|]. simpl. by apply IH, Dispose_guarded.
Qed.

(** ** Paths inside a jail *)

Lemma Join_slash_inside ds c : ds <> [] -> Join [Join ds [slash]; c] [slash] = Join (ds ++ [c]) [slash].
Proof. intros H. by rewrite Join_app. Qed.

(** The external path of an absolute path of ordinary components, and of a
    relative one. *)
Lemma path_Join_abs rs ds :
  Forall ordinary rs -> rs <> [] -> Forall ordinary ds -> path_Join [abs_path rs; abs_path ds] = abs_path (rs ++ ds).
Proof.
  intros Hr Hn Hd. rewrite path_Join_below by done. f_equal.
  destruct (decide (ds = [])) as [->|Hds].
  - change (components (abs_path [])) with [[] : str; []]. rewrite !foldl_clean_nil. cbn [foldl].
    by rewrite app_nil_r, reverse_involutive.
  - rewrite components_abs_path by done. rewrite foldl_clean_nil, foldl_clean_ordinary by done.
    by rewrite reverse_app, !reverse_involutive.
Qed.

Lemma path_Join_rel rs ds :
  Forall ordinary rs -> rs <> [] -> Forall ordinary ds -> ds <> [] ->
  path_Join [abs_path rs; Join ds [slash]] = abs_path (rs ++ ds).
Proof.
  intros Hr Hn Hd Hds. rewrite path_Join_below by done. f_equal. unfold components.
  rewrite Split_Join; [|done|eapply Forall_impl; [exact Hd|]; by intros c (_ & _ & _ & H)].
  rewrite foldl_clean_ordinary by done. by rewrite reverse_app, !reverse_involutive.
Qed.

Lemma path_Join_snoc ds c :
  Forall ordinary (ds ++ [c]) -> path_Join [Join ds [slash]; c] = Join (ds ++ [c]) [slash].
Proof.
  intros H. destruct (decide (ds = [])) as [->|Hd].
  - assert (Hc : c <> []) by (inversion H as [|? ? (Hc & _)]; done). simpl. rewrite decide_False by done.
    apply (Clean_Join [c]); [done|done].
  - pose proof (proj1 (proj1 (Forall_app _ _ _) H)) as Hds. unfold path_Join.
    rewrite decide_False by (by apply Join_nonempty). rewrite Join_slash_inside by done.
    apply Clean_Join; [done|by destruct ds].
Qed.

Lemma j_root_MkDirAll_loop ss p perm j : j_root (MkDirAll_loop ss p perm j) = j_root j.
Proof. revert p j. induction ss as [|s ss IH]; intros p j; [done|]. simpl. by rewrite IH. Qed.

Lemma MkDirAll_loop_spec rs ss ds perm j :
  j_root j = abs_path rs -> Forall ordinary rs -> rs <> [] -> Forall ordinary (ds ++ ss) ->
  MkDirAll_loop ss (Join ds [slash]) perm j
  = mkJail (j_root j) (j_deleteRoot j)
      (j_directories j ++ ((fun k => mkPathAndMode (abs_path (rs ++ ds ++ take (S k) ss)) perm 0) <$> seq 0 (length ss)))
      (j_files j) (j_bindMounts j).
Proof.
  intros Hj Hr Hn. revert ds j Hj. induction ss as [|s ss IH]; intros ds j Hj Ho.
  - simpl. rewrite app_nil_r. by destruct j.
  - cbn [MkDirAll_loop]. rewrite (cons_middle s ds ss), app_assoc in Ho.
    pose proof (proj1 (proj1 (Forall_app _ _ _) Ho)) as Hos.
    rewrite path_Join_snoc by done. rewrite IH by done. unfold ExternalPath, jail_Path. rewrite Hj.
    rewrite path_Join_rel; [|done|done|done|by destruct ds].
    unfold add_directory. cbn [j_root j_deleteRoot j_directories j_files j_bindMounts].
    f_equal; [by rewrite Hj|]. rewrite <- app_assoc. f_equal. cbn [length seq]. rewrite fmap_cons.
    cbn [app]. f_equal.
    rewrite <- fmap_S_seq, <- list_fmap_compose. apply list_fmap_ext. intros i k _. simpl. by rewrite <- app_assoc.
Qed.

(** [MkDirAll] asks for every directory on the way, each after its parent. *)
Lemma MkDirAll_spec rs ds perm j :
  j_root j = abs_path rs -> Forall ordinary rs -> rs <> [] -> Forall ordinary ds -> ds <> [] ->
  MkDirAll (abs_path ds) perm j
  = mkJail (j_root j) (j_deleteRoot j)
      (j_directories j ++ ((fun k => mkPathAndMode (abs_path (rs ++ take (S k) ds)) perm 0) <$> seq 0 (length ds)))
      (j_files j) (j_bindMounts j).
Proof.
  intros Hj Hr Hn Hd Hds. unfold MkDirAll. change (Split ?p slash) with (components p).
  rewrite components_abs_path by done. cbn [tail]. by apply (MkDirAll_loop_spec rs ds []).
Qed.

(** ** What the system calls do to the files *)

(** At or below a path. *)
Definition below (p q : str) : bool := bool_decide (q = p) || HasPrefix q (p ++ [slash]).

(** The documented behaviour, in terms of the set of existing paths: a
    directory, device or exclusively created file did not exist before and
    exists afterwards; a failed call of these changes nothing; opening and
    copying create nothing; [Remove] removes one path and [RemoveAll] a
    path with everything below it. *)
Class JailOSLaws {W} (os : JailOS W) (paths : W -> gset str) : Prop := {
  law_mkdir p m w w' : sys os (SMkdir p m) w = (None, w') -> p ∉ paths w /\ paths w' = {[p]} ∪ paths w;
  law_create p m w w' : sys os (SCreate p m) w = (None, w') -> p ∉ paths w /\ paths w' = {[p]} ∪ paths w;
  law_mknod p m d w w' : sys os (SMknod p m d) w = (None, w') -> p ∉ paths w /\ paths w' = {[p]} ∪ paths w;
  law_failed c e w w' : sys os c w = (Some e, w') ->
    match c with SMkdir _ _ | SCreate _ _ | SMknod _ _ _ | SRemove _ => true | _ => false end = true ->
    paths w' = paths w;
  law_open p r w w' : sys os (SOpen p) w = (r, w') -> paths w' = paths w;
  law_copy p q r w w' : sys os (SCopy p q) w = (r, w') -> paths w' = paths w;
  law_remove p w w' : sys os (SRemove p) w = (None, w') -> paths w' = paths w ∖ {[p]};
  law_removeAll p w w' : sys os (SRemoveAll p) w = (None, w') ->
    forall q, q ∈ paths w' <-> q ∈ paths w /\ below p q = false }.

Lemma call_sys {W} (os : JailOS W) c (st : jstate W) r st' : call os c st = (r, st') -> sys os c (world st) = (r, world st').
Proof. unfold call. destruct (sys os c (world st)) as [r' w]. by intros [= <- <-]. Qed.

Section Files.

#[local] Set Default Proof Using "Type*".

Context {W : Type} (os : JailOS W) (paths : W -> gset str) `{!JailOSLaws os paths}.

(** A loop whose steps each add a path that was not there. *)
Lemma each_adds {A} (p : A -> str) (f : A -> jstate W -> option error * jstate W) :
  (forall x st st', f x st = (None, st') ->
     p x ∉ paths (world st) /\ paths (world st') = {[p x]} ∪ paths (world st)) ->
  forall l st st', each f l st = (None, st') ->
    paths (world st') = list_to_set (p <$> l) ∪ paths (world st)
    /\ list_to_set (p <$> l) ## paths (world st).
Proof.
  intros Hf l. induction l as [|x l IH]; intros st st'; simpl.
  - intros [= <-]. set_solver.
  - destruct (f x st) as [[e|] st1] eqn:E; [done|]. intros H.
    apply Hf in E as [Hx E]. apply IH in H as [-> Hd]. rewrite E in *. set_solver.
Qed.

Lemma each_removes {A} (p : A -> str) (msg : A -> error) l st st' :
  each (fun x st => match call os (SRemove (p x)) st with
                    | (Some _, st) => (Some (msg x), st) | (None, st) => (None, st) end) l st = (None, st') ->
  paths (world st') = paths (world st) ∖ list_to_set (p <$> l).
Proof.
  revert st. induction l as [|x l IH]; intros st; simpl.
  - intros [= <-]. set_solver.
  - destruct (call os (SRemove (p x)) st) as [[e|] st1] eqn:E; [done|]. intros H.
    apply call_sys, law_remove in E. rewrite (IH _ H), E. set_solver.
Qed.

Lemma make_directory_adds d st st' : make_directory os d st = (None, st') ->
  pm_path d ∉ paths (world st) /\ paths (world st') = {[pm_path d]} ∪ paths (world st).
Proof.
  unfold make_directory. destruct (call os _ st) as [[e|] st1] eqn:E; [done|]. intros [= <-].
  by eapply law_mkdir, call_sys.
Qed.

Lemma make_file_adds f st st' : make_file os f st = (None, st') ->
  f.1 ∉ paths (world st) /\ paths (world st') = {[f.1]} ∪ paths (world st).
Proof.
  unfold make_file, handleFile. destruct (mode_has _ _).
  - unfold createCharacterDevice. destruct (call os _ st) as [[e|] st1] eqn:E; [done|]. intros [= <-].
    by eapply law_mknod, call_sys.
  - unfold copyFile. destruct (call os (SOpen _) st) as [[e|] st1] eqn:E1; [done|].
    destruct (call os (SCreate _ _) st1) as [[e|] st2] eqn:E2; [done|].
    destruct (call os (SCopy _ _) st2) as [[e|] st3] eqn:E3; [done|]. intros [= <-].
    apply call_sys, law_open in E1. apply call_sys, law_create in E2. apply call_sys, law_copy in E3.
    by rewrite E3, <- E1.
Qed.

(** The outcome of a successful [Build] without mounts. *)
Lemma Build_adds j forder rorder morder st st' :
  Build os j forder rorder morder st = (None, st') -> j_bindMounts j = ∅ ->
  morder ≡ₚ map_to_list (j_bindMounts j) ->
  let new := list_to_set (pm_path <$> j_directories j) ∪ list_to_set forder.*1 in
  paths (world st') = new ∪ paths (world st) /\ new ## paths (world st).
Proof.
  intros H Hb Hm. rewrite Hb, map_to_list_empty in Hm. apply Permutation_nil_r in Hm as ->.
  unfold Build in H. rewrite Hb in H. change (1 <? size (∅ : gmap str str)) with false in H. cbv iota in H.
  destruct (each _ (j_directories j) st) as [[e|] st1] eqn:E1; [done|].
  destruct (each _ forder st1) as [[e|] st2] eqn:E2; [done|]. injection H as <-.
  apply (each_adds pm_path _ make_directory_adds) in E1 as [E1 D1].
  apply (each_adds fst _ make_file_adds) in E2 as [E2 D2]. cbv zeta. rewrite E2, E1 in *. set_solver.
Qed.

End Files.

(** [C40] Building and disposing of a jail in an existing directory leaves no
    trace: when [Build] and [Dispose] succeed on a jail made with [Into] that
    has no bind mounts, exactly the paths that existed before exist
    afterwards, in whatever order the files are visited. *)
Theorem Into_Build_Dispose_restores {W} (os : JailOS W) paths `{!JailOSLaws os paths}
    j forder rorder rorder' morder morder' st st1 st2 :
  j_deleteRoot j = false -> j_bindMounts j = ∅ ->
  forder ≡ₚ map_to_list (j_files j) -> rorder' ≡ₚ map_to_list (j_files j) ->
  morder ≡ₚ map_to_list (j_bindMounts j) -> morder' ≡ₚ map_to_list (j_bindMounts j) ->
  Build os j forder rorder morder st = (None, st1) ->
  Dispose os j rorder' morder' st1 = (None, st2) ->
  paths (world st2) = paths (world st).
Proof.
  intros Hr Hb Hf Hf' Hm Hm' H1 H2. apply (Build_adds os paths) in H1 as [E1 D1]; [|done|done].
  rewrite Hb, map_to_list_empty in Hm'. apply Permutation_nil_r in Hm' as ->.
  unfold Dispose in H2. cbn [unmount each] in H2. unfold removeAll in H2. rewrite Hr in H2.
  destruct (each _ rorder' st1) as [[e|] st'] eqn:E2; [done|].
  destruct (each _ (reverse _) st') as [[e|] st''] eqn:E3; [done|]. injection H2 as <-.
  apply (each_removes os paths fst) in E2. apply (each_removes os paths pm_path) in E3.
  assert (Hs : list_to_set rorder'.*1 =@{gset str} list_to_set forder.*1) by (by rewrite Hf', Hf).
  rewrite E3, E2, E1, Hs, fmap_reverse. set_solver.
Qed.

(** The jail of a created directory disappears with everything in it. *)
Theorem Create_Dispose_removes_root {W} (os : JailOS W) paths `{!JailOSLaws os paths} j rorder morder st st' :
  j_deleteRoot j = true -> Dispose os j rorder morder st = (None, st') ->
  forall q, below (jail_Path j) q = true -> q ∉ paths (world st').
Proof.
  intros Hr H q Hq. unfold Dispose, removeAll in H. rewrite Hr in H.
  destruct (unmount os morder st) as [[e|] st1]; [done|].
  destruct (call os _ st1) as [[e|] st2] eqn:E; [done|]. injection H as <-.
  apply call_sys, (law_removeAll (paths := paths)) with (q := q) in E. rewrite E. intros [_ Hx]. congruence.
Qed.

(** A failed copy into an existing directory removes the file that was
    already there: the exclusive creation fails, and the cleanup removes the
    destination although the jail did not create it. *)
Theorem failed_copy_removes_existing_file {W} (os : JailOS W) paths `{!JailOSLaws os paths}
    root dest f st w :
  dest ∈ paths (world st) -> mode_has (pm_mode f) jail_ModeCharDevice = false ->
  sys os (SOpen (pm_path f)) (world st) = (None, w) ->
  let j := add_file dest f (Into root) in
  exists err e r st', Build os j [(dest, f)] [(dest, f)] [] st = (Some err, st')
    /\ trace st' = trace st ++ [(SOpen (pm_path f), None); (SCreate dest (pm_mode f), Some e); (SRemove dest, r)].
Proof.
  intros Hd Hm Ho j. unfold Build, j. cbn [add_file j_bindMounts Into j_directories each].
  change (1 <? size (∅ : gmap str str)) with false. cbv iota.
  unfold make_file, handleFile. cbn [fst snd]. rewrite Hm. unfold copyFile, call at 1. rewrite Ho.
  pose proof (law_open (paths := paths) _ _ _ _ Ho) as Hw. unfold call at 1. cbn [world].
  destruct (sys os (SCreate dest (pm_mode f)) w) as [[e|] w1] eqn:E.
  - unfold removeAll. cbn [add_file j_deleteRoot Into each fst reverse j_directories]. unfold call. cbn [world trace].
    destruct (sys os (SRemove dest) w1) as [[r|] w2]; do 4 eexists; (split; [reflexivity|]);
      cbn [trace]; by rewrite <- !app_assoc.
  - apply (law_create (paths := paths)) in E as [Hn _]. by rewrite Hw in Hn.
Qed.

(** ** A small operating system

    The world is the set of existing paths; every file is a regular one, and
    mounting always works. *)

Definition mem_sys (c : syscall) (w : gset str) : option error * gset str :=
  match c with
  | SMkdir p _ | SCreate p _ | SMknod p _ _ =>
      if decide (p ∈ w) then (Some (ErrSentinel &"EEXIST"), w) else (None, {[p]} ∪ w)
  | SOpen p => if decide (p ∈ w) then (None, w) else (Some (ErrSentinel &"ENOENT"), w)
  | SRemove p => if decide (p ∈ w) then (None, w ∖ {[p]}) else (Some (ErrSentinel &"ENOENT"), w)
  | SRemoveAll p => (None, filter (fun q => below p q = false) w)
  | SCopy _ _ | SMount _ _ _ | SUnmount _ _ | SUnshare _ | SStart _ _ _ _ _ | SSendConfig | SKill | SWait => (None, w)
  end.

Definition mem_stat (w : gset str) (p : str) : result StatInfo :=
  if decide (p ∈ w)
  then Ok (if HasPrefix p &"/dev/" then mkStatInfo (Z.lor jail_ModeCharDevice 0x1b6) (Some 2305%Z)
           else mkStatInfo 0x1ed None)
  else Err (ErrSentinel &"ENOENT").

Definition mem_os : JailOS (gset str) := mkJailOS _ mem_sys mem_stat.

#[export] Instance mem_os_laws : JailOSLaws mem_os id.
Proof.
  split; unfold mem_os, id; cbn [sys].
  1-3: intros; simpl in *; case_decide; simplify_eq; done.
  - intros c e w w' H Hc. destruct c; simpl in *; try done; case_decide; by simplify_eq.
  - intros p r w w' H. simpl in H. case_decide; by simplify_eq.
  - intros p q r w w' [= _ <-]. done.
  - intros p w w' H. simpl in H. case_decide; by simplify_eq.
  - intros p w w' [= <-] q. rewrite elem_of_filter. naive_solver.
Qed.

Definition demo_jail : Jail :=
  Bind &"/pages" &"/srv/pages" (MkDirAll &"/pages" 0x1ed (jail_Create &"/tmp/jail" 0x1ed)).
Definition demo_world : gset str := {[ &"/tmp"; &"/bin/pages"; &"/srv/pages" ]}.
Definition demo_into : Jail :=
  add_file &"/srv/pages/.daemon" (mkPathAndMode &"/bin/pages" 0x1ed 0) (MkDir &"/etc" 0x1ed (Into &"/srv/pages")).

Lemma removals_never_cross_mounts_witness :
  let st := (Dispose mem_os demo_jail [] [(&"/tmp/jail/pages", &"/srv/pages")]
               (Build mem_os demo_jail [] [] [(&"/tmp/jail/pages", &"/srv/pages")] (mkJState demo_world [])).2).2 in
  safe_removals (trace st) /\ fst <$> trace st
    = [SMkdir &"/tmp/jail" 0x1ed; SMkdir &"/tmp/jail/pages" 0x1ed;
       SMount &"/srv/pages" &"/tmp/jail/pages" (MS_BIND + MS_REC);
       SUnmount &"/tmp/jail/pages" MNT_DETACH; SRemoveAll &"/tmp/jail"].
Proof.
  assert (Hm : [(&"/tmp/jail/pages", &"/srv/pages")] ≡ₚ map_to_list (j_bindMounts demo_jail))
    by (vm_compute; reflexivity).
  intros st. split; [|run].
  apply (removals_never_cross_mounts mem_os demo_jail demo_world [] [] [(&"/tmp/jail/pages", &"/srv/pages")]
           [([], [(&"/tmp/jail/pages", &"/srv/pages")])]); [exact Hm|by constructor].
Defined.

Lemma Into_Build_Dispose_restores_witness :
  let files := map_to_list (j_files demo_into) in
  let st := mkJState demo_world [] in
  let st1 := (Build mem_os demo_into files files [] st).2 in
  let st2 := (Dispose mem_os demo_into files [] st1).2 in
  world st2 = world st /\ &"/srv/pages/etc" ∈ world st1 /\ &"/srv/pages/.daemon" ∈ world st1.
Proof.
  intros files st st1 st2. split; [|split; decide_now].
  apply (Into_Build_Dispose_restores mem_os id demo_into files files files [] [] st st1 st2);
    try reflexivity; vm_compute; reflexivity.
Defined.

Lemma Create_Dispose_removes_root_witness :
  let st := mkJState {[ &"/tmp"; &"/tmp/jail"; &"/tmp/jail/pages" ]} [] in
  &"/tmp/jail/pages" ∉ world (Dispose mem_os demo_jail [] [] st).2.
Proof.
  intros st. apply (Create_Dispose_removes_root mem_os id demo_jail [] [] st (Dispose mem_os demo_jail [] [] st).2);
    [reflexivity|run|run].
Defined.

Lemma failed_copy_removes_existing_file_witness :
  let f := mkPathAndMode &"/bin/pages" 0x1ed 0 in
  exists err e r st', Build mem_os (add_file &"/srv/pages" f (Into &"/srv")) [(&"/srv/pages", f)]
      [(&"/srv/pages", f)] [] (mkJState demo_world []) = (Some err, st')
    /\ trace st' = [] ++ [(SOpen &"/bin/pages", None); (SCreate &"/srv/pages" 0x1ed, Some e); (SRemove &"/srv/pages", r)].
Proof.
  apply (failed_copy_removes_existing_file mem_os id &"/srv" &"/srv/pages" (mkPathAndMode &"/bin/pages" 0x1ed 0)
           (mkJState demo_world []) demo_world); [decide_now|reflexivity|reflexivity].
Defined.
