(* ===== verification/Daemon.v ===== *)
(** * The unprivileged daemon

    daemon.go: the process started with [-daemon-uid] builds a jail, starts
    itself again inside it with fewer privileges, hands over the listening
    sockets as extra files and the configuration through a pipe, and waits.
    The environment of the process is the record [HostEnv]; what it asks the
    operating system to change is in the trace of [Jail].  Passing signals on
    and log lines are left out. *)

From S2P Require Import Prelude GoStd GoPath GoUrl Header Http Tls Config Jail.

Definition daemonRunProgram : str := &"gitlab-pages-unprivileged".

(** [exec.Cmd] with the process attributes the code sets; an extra file is
    its descriptor in the parent. *)
Record Cmd : Type := mkCmd {
  cmd_Path : str; cmd_Args : list str; cmd_Env : list str; cmd_Dir : str; cmd_Chroot : str;
  cmd_Uid : Z; cmd_Gid : Z; cmd_Setsid : bool; cmd_ExtraFiles : list Z; cmd_Process : bool }.

(** What the process can ask about its surroundings. *)
Record HostEnv : Type := mkHostEnv {
  Executable : result str; Environ : list str; Getwd : result str; Getenv : str -> str;
  ReadDir : str -> result (list (str * Z));      (* names with modes *)
  rand_Read : result str;                        (* 16 random bytes *)
  TempDir : str; UnixNano : Z;
  Pipe : result (Z * Z) }.                       (* descriptors of reader and writer *)

(** The order in which Go visits the maps of a jail, at each loop. *)
Record MapVisit : Type := mkMapVisit {
  visit_files : nat -> gmap str pathAndMode -> list (str * pathAndMode);
  visit_mounts : nat -> gmap str str -> list (str * str) }.

Class MapVisitLaws (v : MapVisit) : Prop := {
  visit_files_perm n m : visit_files v n m ≡ₚ map_to_list m;
  visit_mounts_perm n m : visit_mounts v n m ≡ₚ map_to_list m }.

(** ** File descriptors *)

Definition daemonReexec (env : HostEnv) (uid gid : Z) (args : list str) : result Cmd :=
  let? path := Executable env in
  Ok (mkCmd path args (Environ env) [] [] (uid mod 2 ^ 32) (gid mod 2 ^ 32) true [] false).

Definition add_extra_file (fd : Z) (c : Cmd) : Cmd :=
  mkCmd (cmd_Path c) (cmd_Args c) (cmd_Env c) (cmd_Dir c) (cmd_Chroot c) (cmd_Uid c) (cmd_Gid c) (cmd_Setsid c)
    (cmd_ExtraFiles c ++ [fd]) (cmd_Process c).

Definition daemonUpdateFd (fd : Z) (cmd : Cmd) : Z * Cmd :=
  let childFd := (3 + Z.of_nat (length (cmd_ExtraFiles cmd)))%Z in
  (childFd, add_extra_file fd cmd).

(** The slice is updated in place. *)
Fixpoint daemonUpdateFds (fds : list Z) (cmd : Cmd) : list Z * Cmd :=
  match fds with
  | [] => ([], cmd)
  | fd :: rest =>
      let '(fd', cmd) := daemonUpdateFd fd cmd in
      let '(rest', cmd) := daemonUpdateFds rest cmd in
      (fd' :: rest', cmd)
  end.

Definition updateFds (config : Config) (cmd : Cmd) : Config * Cmd :=
  let l := Listeners config in
  let '(http, cmd) := daemonUpdateFds (l_HTTP l) cmd in
  let '(https, cmd) := daemonUpdateFds (l_HTTPS l) cmd in
  let '(proxy, cmd) := daemonUpdateFds (l_Proxy l) cmd in
  let '(proxyv2, cmd) := daemonUpdateFds (l_HTTPSProxyv2 l) cmd in
  let config := set_Listeners (mkListeners http https proxy proxyv2) config in
  if (ListenMetrics config =? 0)%Z then (config, cmd)
  else
    let '(m, cmd) := daemonUpdateFd (ListenMetrics config) cmd in
    (set_ListenMetrics m config, cmd).

(** ** Jails *)

Section Daemon.

#[local] Set Default Proof Using "Type".

Context {W : Type} (os : JailOS W) (env : HostEnv) (visit : MapVisit).

Definition set_env (e : list str) (c : Cmd) : Cmd :=
  mkCmd (cmd_Path c) (cmd_Args c) e (cmd_Dir c) (cmd_Chroot c) (cmd_Uid c) (cmd_Gid c) (cmd_Setsid c)
    (cmd_ExtraFiles c) (cmd_Process c).

Definition set_chroot (chroot path dir : str) (c : Cmd) : Cmd :=
  mkCmd path (cmd_Args c) (cmd_Env c) dir chroot (cmd_Uid c) (cmd_Gid c) (cmd_Setsid c)
    (cmd_ExtraFiles c) (cmd_Process c).

Definition set_started (c : Cmd) : Cmd :=
  mkCmd (cmd_Path c) (cmd_Args c) (cmd_Env c) (cmd_Dir c) (cmd_Chroot c) (cmd_Uid c) (cmd_Gid c) (cmd_Setsid c)
    (cmd_ExtraFiles c) true.

(** [fmt.Sprintf] with [%x] on bytes. *)
Definition hex_bytes (s : str) : str :=
  mjoin ((fun c => let n := nat_of_ascii c in [lower_hex (n / 16); lower_hex (n mod 16)]) <$> s).

Definition chrootDaemon (st : jstate W) (cmd : Cmd) : result (Jail * Cmd) :=
  let? wd := Getwd env in
  let chroot := Into wd in
  let? suffix := rand_Read env in
  let tempExecutablePath := &"/.daemon." ++ hex_bytes suffix in
  let? chroot := CopyTo os st tempExecutablePath (cmd_Path cmd) chroot in
  Ok (chroot, set_chroot (jail_Path chroot) tempExecutablePath [slash] cmd).

(** A file that cannot be copied is logged and left out. *)
Fixpoint copy_certs (st : jstate W) (entries : list (str * Z)) (sslCertDir jailCertsDir : str) (cage : Jail) : Jail :=
  match entries with
  | [] => cage
  | (name, mode) :: rest =>
      let cage' :=
        if negb (mode_IsRegular mode || mode_has mode jail_ModeSymlink) then cage
        else match CopyTo os st (jailCertsDir ++ &"/" ++ name) (sslCertDir ++ &"/" ++ name) cage with
             | Ok c => c
             | Err _ => cage
             end in
      copy_certs st rest sslCertDir jailCertsDir cage'
  end.

Definition jailCopyCertDir (st : jstate W) (sslCertDir jailCertsDir : str) (cage : Jail) : result Jail :=
  match ReadDir env sslCertDir with
  | Err _ => Err (ErrMsg &"failed to read SSL_CERT_DIR")
  | Ok entries => Ok (copy_certs st entries sslCertDir jailCertsDir cage)
  end.

Definition perm755 : Z := 0x1ed.

Definition jailDaemonCerts (st : jstate W) (cmd : Cmd) (cage : Jail) : result (Jail * Cmd) :=
  let sslCertFile := Getenv env &"SSL_CERT_FILE" in
  let sslCertDir := Getenv env &"SSL_CERT_DIR" in
  if negb (nonempty sslCertFile) && negb (nonempty sslCertDir) then Ok (cage, cmd)
  else
    let cage := MkDir &"/etc/ssl" perm755 cage in
    let? p :=
      if nonempty sslCertFile then
        match CopyTo os st &"/etc/ssl/ca-bundle.pem" sslCertFile cage with
        | Err _ => Err (ErrMsg &"failed to copy SSL_CERT_FILE")
        | Ok cage => Ok (cage, set_env (cmd_Env cmd ++ [&"SSL_CERT_FILE=/etc/ssl/ca-bundle.pem"]) cmd)
        end
      else Ok (cage, cmd) in
    let '(cage, cmd) := p in
    if nonempty sslCertDir then
      let cage := MkDir &"/etc/ssl/certs" perm755 cage in
      let? cage := jailCopyCertDir st sslCertDir &"/etc/ssl/certs" cage in
      Ok (cage, set_env (cmd_Env cmd ++ [&"SSL_CERT_DIR=/etc/ssl/certs"]) cmd)
    else Ok (cage, cmd).

Definition jailCreate (st : jstate W) (cmd : Cmd) : result (Jail * Cmd) :=
  let cage := CreateTimestamped (TempDir env) (UnixNano env) &"gitlab-pages" perm755 in
  let cage := MkDir &"/dev" perm755 cage in
  let? cage := CharDev os st &"/dev/urandom" cage in
  let? cage := CharDev os st &"/dev/random" cage in
  let? cage := CopyTo os st &"/gitlab-pages" (cmd_Path cmd) cage in
  let cage := MkDir &"/etc" perm755 cage in
  let? cage := Copy os st &"/etc/resolv.conf" cage in
  let? cage := Copy os st &"/etc/hosts" cage in
  jailDaemonCerts st cmd cage.

Definition jailDaemon (st : jstate W) (pagesRoot : str) (cmd : Cmd) : result (Jail * Cmd) :=
  let? p := jailCreate st cmd in
  let '(cage, cmd) := p in
  let cage := MkDirAll pagesRoot perm755 cage in
  let cage := Bind pagesRoot pagesRoot cage in
  Ok (cage, set_chroot (jail_Path cage) &"/gitlab-pages" pagesRoot cmd).

(** ** Starting the child *)

(** [filepath.Abs] *)
Definition daemon_Abs (path : str) : result str :=
  if IsAbs path then Ok (Clean path)
  else let? wd := Getwd env in Ok (path_Join [wd; path]).

(** Closing the extra files has no effect in the model. *)
Definition killProcess (cmd : Cmd) (st : jstate W) : jstate W :=
  if cmd_Process cmd then (call os SWait (call os SKill st).2).2 else st.

(** *** Signals *)

Inductive signal : Type := SIGTERM | SIGINT | SIGKILL | SIGOTHER (n : nat).

(** The goroutine of [passSignals]: waiting for the channel, or sending. *)
Inductive forwarder : Type := Receiving | Sending (s : signal).
Record signals : Type := mkSignals { sg_forwarder : forwarder; sg_forwarded : list signal }.

(** It starts for a process that has started. *)
Definition passSignals (cmd : Cmd) : option signals :=
  if cmd_Process cmd then Some (mkSignals Receiving []) else None.

Definition notified (s : signal) : bool := match s with SIGOTHER _ => false | _ => true end.

(** A signal arrives.  The signal package does not block in sending to the
    channel, which has no buffer. *)
Definition signal_arrives (s : signal) (st : signals) : signals :=
  if notified s then
    match sg_forwarder st with
    | Receiving => mkSignals (Sending s) (sg_forwarded st)
    | Sending _ => st
    end
  else st.

(** [cmd.Process.Signal] returns. *)
Definition signal_sent (st : signals) : signals :=
  match sg_forwarder st with
  | Sending s => mkSignals Receiving (sg_forwarded st ++ [s])
  | Receiving => st
  end.

(** A signal that finds the goroutine waiting is forwarded; one that arrives
    while another is being sent is lost. *)
Lemma signal_forwarded s st :
  notified s = true -> sg_forwarder st = Receiving ->
  sg_forwarded (signal_sent (signal_arrives s st)) = sg_forwarded st ++ [s].
Proof. intros Hn Hr. unfold signal_arrives. by rewrite Hn, Hr. Qed.

Theorem busy_forwarder_drops_signal s s' st :
  notified s = true -> sg_forwarder st = Receiving ->
  signal_sent (signal_arrives s' (signal_arrives s st)) = signal_sent (signal_arrives s st).
Proof.
  intros Hn Hr. unfold signal_arrives at 2 3. rewrite Hn, Hr. unfold signal_arrives. by destruct (notified s').
Qed.

(** What is left when [daemonize] returns: the error, the configuration and
    the command as they were changed, and the state of the system. *)
Record DaemonRun : Type := mkDaemonRun {
  run_error : option error; run_config : Config; run_cmd : Cmd; run_state : jstate W }.

(** From the creation of the pipe to the end of the child. *)
Definition start_child (config : Config) (cmd : Cmd) (st : jstate W) : DaemonRun :=
  match Pipe env with
  | Err err => mkDaemonRun (Some err) config cmd st
  | Ok (configReader, configWriter) =>
      let cmd := add_extra_file configReader cmd in
      let '(config, cmd) := updateFds config cmd in
      match call os (SStart (cmd_Chroot cmd) (cmd_Path cmd) (cmd_Dir cmd) (cmd_Uid cmd) (cmd_Gid cmd)) st with
      | (Some err, st) => mkDaemonRun (Some err) config cmd st
      | (None, st) =>
          let cmd := set_started cmd in
          match call os SSendConfig st with
          | (Some err, st) => mkDaemonRun (Some err) config cmd st
          | (None, st) => let '(r, st) := call os SWait st in mkDaemonRun r config cmd st
          end
      end
  end.

(** The work between the deferred calls. *)
Definition build_and_start (wrapper : Jail) (config : Config) (cmd : Cmd) (st : jstate W) : DaemonRun :=
  let st := (Unshare os st).2 in
  match Build os wrapper (visit_files visit 0 (j_files wrapper)) (visit_files visit 1 (j_files wrapper))
          (visit_mounts visit 0 (j_bindMounts wrapper)) st with
  | (Some err, st) => mkDaemonRun (Some err) config cmd st
  | (None, st) => start_child config cmd st
  end.

Definition make_wrapper (config : Config) (pagesRoot : str) (cmd : Cmd) (st : jstate W) : result (Jail * Cmd) :=
  if d_InplaceChroot (Daemon config) then chrootDaemon st cmd else jailDaemon st pagesRoot cmd.

Definition daemonize (config : Config) (st : jstate W) : DaemonRun :=
  let no_cmd := mkCmd [] [] [] [] [] 0 0 false [] false in
  match daemon_Abs (g_RootDir (General config)) with
  | Err err => mkDaemonRun (Some err) config no_cmd st
  | Ok pagesRoot =>
      match daemonReexec env (d_UID (Daemon config)) (d_GID (Daemon config)) [daemonRunProgram] with
      | Err err => mkDaemonRun (Some err) config no_cmd st
      | Ok cmd =>
          match make_wrapper config pagesRoot cmd st with
          | Err err => mkDaemonRun (Some err) config cmd (killProcess cmd st)
          | Ok (wrapper, cmd) =>
              let run := build_and_start wrapper config cmd st in
              let st := (Dispose os wrapper (visit_files visit 2 (j_files wrapper))
                           (visit_mounts visit 1 (j_bindMounts wrapper)) (run_state run)).2 in
              mkDaemonRun (run_error run) (run_config run) (run_cmd run) (killProcess (run_cmd run) st)
          end
      end
  end.

End Daemon.

(** ** The child *)

Definition unreachable : str := &"(unreachable)".

(** [None] when the process is not the daemon; the configuration is read from
    descriptor 3. *)
Definition daemonMain (decode : str -> result Config) (env : HostEnv) (arg0 options : str) : option (result Config) :=
  if decide (arg0 = daemonRunProgram) then
    Some (match Getwd env with
          | Err err => Err (ErrWrap &"could not get current working directory" err)
          | Ok wd =>
              if HasPrefix wd unreachable
              then Err (ErrWrap &"could not get current working directory" (ErrSentinel &"os.ErrPermission"))
              else
                match decode options with
                | Err err => Err (ErrWrap &"could not decode app config" err)
                | Ok config => Ok config
                end
          end)
  else None.

(** ** Lemmas: descriptors *)

(** The parent's descriptor behind a descriptor of the child. *)
Definition child_file (cmd : Cmd) (fd : Z) : option Z :=
  if (fd <? 3)%Z then None else cmd_ExtraFiles cmd !! Z.to_nat (fd - 3).

Definition with_files (files : list Z) (c : Cmd) : Cmd :=
  mkCmd (cmd_Path c) (cmd_Args c) (cmd_Env c) (cmd_Dir c) (cmd_Chroot c) (cmd_Uid c) (cmd_Gid c) (cmd_Setsid c)
    files (cmd_Process c).

(** Descriptors for [n] files after [k] others. *)
Definition child_fds (k n : nat) : list Z := (fun i => 3 + Z.of_nat i)%Z <$> seq k n.

Lemma daemonUpdateFds_spec fds cmd :
  daemonUpdateFds fds cmd
  = (child_fds (length (cmd_ExtraFiles cmd)) (length fds), with_files (cmd_ExtraFiles cmd ++ fds) cmd).
Proof.
  revert cmd. induction fds as [|fd fds IH]; intros cmd; simpl.
  - rewrite app_nil_r. by destruct cmd.
  - rewrite IH. unfold child_fds. cbn [add_extra_file cmd_ExtraFiles]. rewrite length_app. cbn [length].
    rewrite Nat.add_1_r. cbn [seq fmap list_fmap]. f_equal. unfold with_files, add_extra_file. cbn.
    by rewrite <- app_assoc.
Qed.

Lemma child_file_spec cmd i fd : cmd_ExtraFiles cmd !! i = Some fd -> child_file cmd (3 + Z.of_nat i) = Some fd.
Proof.
  intros H. unfold child_file. destruct (_ <? _)%Z eqn:E; [bools; lia|].
  by replace (Z.to_nat (3 + Z.of_nat i - 3)) with i by lia.
Qed.

Lemma child_fds_files cmd before fds after k :
  cmd_ExtraFiles cmd = before ++ fds ++ after -> k = length before ->
  Forall2 (fun fd fd' => child_file cmd fd' = Some fd) fds (child_fds k (length fds)).
Proof.
  intros H ->. apply Forall2_same_length_lookup_2; [unfold child_fds; by rewrite length_fmap, length_seq|].
  intros i fd fd' Hfd Hfd'. unfold child_fds in Hfd'. rewrite list_lookup_fmap in Hfd'.
  apply fmap_Some in Hfd' as (k & Hk & ->). apply lookup_seq in Hk as [-> Hi]. apply child_file_spec. rewrite H.
  rewrite lookup_app_r by lia. replace (length before + i - length before) with i by lia.
  by apply lookup_app_l_Some.
Qed.

Definition listener_fds (l : ListenersConfig) : list Z := l_HTTP l ++ l_HTTPS l ++ l_Proxy l ++ l_HTTPSProxyv2 l.

Lemma child_fds_app k n m : child_fds k n ++ child_fds (k + n) m = child_fds k (n + m).
Proof. unfold child_fds. by rewrite seq_app, fmap_app. Qed.

Lemma child_fds_NoDup k n : NoDup (child_fds k n).
Proof. unfold child_fds. apply NoDup_fmap_2; [intros x y; lia|apply NoDup_seq]. Qed.

Definition metrics_fds (config : Config) : list Z :=
  if (ListenMetrics config =? 0)%Z then [] else [ListenMetrics config].

(** The outcome of [updateFds] on a command with [k] extra files. *)
Lemma updateFds_spec config cmd http https proxy proxyv2 k :
  Listeners config = mkListeners http https proxy proxyv2 -> k = length (cmd_ExtraFiles cmd) ->
  let k1 := k + length http in let k2 := k1 + length https in
  let k3 := k2 + length proxy in let k4 := k3 + length proxyv2 in
  updateFds config cmd =
  (set_ListenMetrics (if (ListenMetrics config =? 0)%Z then 0 else 3 + Z.of_nat k4)%Z
     (set_Listeners (mkListeners (child_fds k (length http)) (child_fds k1 (length https))
        (child_fds k2 (length proxy)) (child_fds k3 (length proxyv2))) config),
   with_files (cmd_ExtraFiles cmd ++ http ++ https ++ proxy ++ proxyv2 ++ metrics_fds config) cmd).
Proof.
  intros Hl ->. cbv zeta. unfold updateFds, metrics_fds. rewrite Hl. cbn [l_HTTP l_HTTPS l_Proxy l_HTTPSProxyv2].
  rewrite !daemonUpdateFds_spec. cbn [with_files cmd_ExtraFiles].
  rewrite !length_app, <- !app_assoc. cbn [set_Listeners ListenMetrics].
  destruct (ListenMetrics config =? 0)%Z eqn:E.
  - bools. rewrite app_nil_r. unfold set_ListenMetrics, set_Listeners. cbn. by rewrite E.
  - unfold daemonUpdateFd, add_extra_file, with_files.
    cbn [cmd_Path cmd_Args cmd_Env cmd_Dir cmd_Chroot cmd_Uid cmd_Gid cmd_Setsid cmd_ExtraFiles cmd_Process].
    by rewrite !length_app, !Nat.add_assoc, <- !app_assoc.
Qed.

(** The child inherits the right sockets: after [updateFds] on a command
    whose only extra file is the configuration pipe, descriptor 3 of the
    child is the pipe, each listener of the new configuration names the
    descriptor in the child of the parent's socket at the same place, the
    metrics listener likewise when there is one, no descriptor is used twice,
    and the other settings are unchanged. *)
Theorem updateFds_inherits config cmd reader :
  cmd_ExtraFiles cmd = [] ->
  let '(config', cmd') := updateFds config (add_extra_file reader cmd) in
  let same := Forall2 (fun fd fd' => child_file cmd' fd' = Some fd) in
  child_file cmd' 3 = Some reader
  /\ same (l_HTTP (Listeners config)) (l_HTTP (Listeners config'))
  /\ same (l_HTTPS (Listeners config)) (l_HTTPS (Listeners config'))
  /\ same (l_Proxy (Listeners config)) (l_Proxy (Listeners config'))
  /\ same (l_HTTPSProxyv2 (Listeners config)) (l_HTTPSProxyv2 (Listeners config'))
  /\ same (metrics_fds config) (metrics_fds config')
  /\ NoDup (3%Z :: listener_fds (Listeners config') ++ metrics_fds config')
  /\ set_Listeners (Listeners config) (set_ListenMetrics (ListenMetrics config) config') = config.
Proof.
  intros Hx. destruct (Listeners config) as [h hs p p2] eqn:El.
  rewrite (updateFds_spec config _ h hs p p2 1 El) by (cbn [add_extra_file cmd_ExtraFiles]; by rewrite Hx).
  cbn [add_extra_file cmd_ExtraFiles]. rewrite Hx. cbv zeta. cbn [app].
  set (cmd' := with_files _ _). set (config' := set_ListenMetrics _ _).
  set (k4 := 1 + length h + length hs + length p + length p2) in config'.
  assert (Hf : cmd_ExtraFiles cmd' = [reader] ++ h ++ hs ++ p ++ p2 ++ metrics_fds config) by done.
  assert (Hm : metrics_fds config' = child_fds k4 (length (metrics_fds config))).
  { unfold metrics_fds, config'. cbn [set_ListenMetrics ListenMetrics].
    destruct (ListenMetrics config =? 0)%Z; [done|]. by destruct (3 + Z.of_nat k4 =? 0)%Z eqn:E; [bools; lia|]. }
  assert (Hc : set_Listeners (mkListeners h hs p p2) (set_ListenMetrics (ListenMetrics config) config') = config)
    by (rewrite <- El; by destruct config).
  rewrite Hm. unfold listener_fds, config'. cbn [set_ListenMetrics set_Listeners Listeners l_HTTP l_HTTPS l_Proxy l_HTTPSProxyv2].
  split; [by apply (child_file_spec cmd' 0)|].
  split; [by eapply child_fds_files|].
  split; [apply (child_fds_files cmd' ([reader] ++ h) hs (p ++ p2 ++ metrics_fds config)); [by rewrite Hf, <- !app_assoc|simpl; lia]|].
  split; [apply (child_fds_files cmd' ([reader] ++ h ++ hs) p (p2 ++ metrics_fds config));
          [by rewrite Hf, <- !app_assoc|rewrite !length_app; simpl; lia]|].
  split; [apply (child_fds_files cmd' ([reader] ++ h ++ hs ++ p) p2 (metrics_fds config));
          [by rewrite Hf, <- !app_assoc|rewrite !length_app; simpl; lia]|].
  split; [apply (child_fds_files cmd' ([reader] ++ h ++ hs ++ p ++ p2) _ []);
          [by rewrite Hf, app_nil_r, <- !app_assoc|rewrite !length_app; simpl; lia]|].
  split; [|exact Hc].
  change (3%Z :: ?x) with (child_fds 0 1 ++ x). rewrite <- !app_assoc. unfold k4.
  rewrite (child_fds_app _ (length p2)), (child_fds_app _ (length p)), (child_fds_app _ (length hs)).
  rewrite (child_fds_app 1), (child_fds_app 0 1). apply child_fds_NoDup.
Qed.

(** ** Lemmas: the trace of a start *)

Definition is_start (c : syscall) : bool := match c with SStart _ _ _ _ _ => true | _ => false end.

Section Traces.

#[local] Set Default Proof Using "Type".

Context {W : Type} (os : JailOS W).
Implicit Type st : jstate W.

(** The trace grows by calls with a property. *)
Definition emits (P : syscall -> Prop) (st st' : jstate W) : Prop :=
  exists evs, trace st' = trace st ++ evs /\ Forall (fun e => P e.1) evs.

#[export] Instance emits_preorder P : PreOrder (emits P).
Proof.
  split.
  - intros st. exists []. split; [by rewrite app_nil_r|constructor].
  - intros st1 st2 st3 (e1 & H1 & F1) (e2 & H2 & F2). exists (e1 ++ e2).
    split; [by rewrite H2, H1, app_assoc|by apply Forall_app].
Qed.

(** The calls that building and disposing of a jail may make. *)
Record jail_calls (P : syscall -> Prop) (j : Jail) (files : list (str * pathAndMode)) (mounts : list (str * str)) : Prop := {
  jc_dirs d : d ∈ j_directories j -> P (SMkdir (pm_path d) (pm_mode d)) /\ P (SRemove (pm_path d));
  jc_files f : f ∈ files -> P (SOpen (pm_path f.2)) /\ P (SRemove f.1)
    /\ (forall m, P (SCreate f.1 m)) /\ P (SCopy f.1 (pm_path f.2)) /\ (forall m d, P (SMknod f.1 m d));
  jc_mounts m : m ∈ mounts -> P (SMount m.2 m.1 (Z.lor MS_BIND MS_REC)) /\ P (SUnmount m.1 MNT_DETACH);
  jc_root : P (SRemoveAll (jail_Path j)) }.

Section Emits.

Context (P : syscall -> Prop).

Lemma call_emits c st : P c -> emits P st (call os c st).2.
Proof. intros H. exists [(c, (call os c st).1)]. split; [apply call_trace|by constructor]. Qed.

(** A call and the error that is made of its answer. *)
Lemma call_then_emits c (g : error -> option error) st : P c ->
  emits P st (match call os c st with (Some e, st) => (g e, st) | (None, st) => (None, st) end).2.
Proof. intros H. pose proof (call_emits c st H). by destruct (call os c st) as [[] ?]. Qed.

Lemma each_emits {A} (f : A -> jstate W -> option error * jstate W) l st :
  (forall x st, x ∈ l -> emits P st (f x st).2) -> emits P st (each f l st).2.
Proof. intros Hf. apply (each_preserves (emits P st)); [|reflexivity]. intros x st' Hx H. rewrite H. by apply Hf. Qed.

Lemma make_file_emits f st :
  P (SOpen (pm_path f.2)) -> (forall m, P (SCreate f.1 m)) -> P (SCopy f.1 (pm_path f.2)) ->
  (forall m d, P (SMknod f.1 m d)) -> emits P st (make_file os f st).2.
Proof.
  intros Ho Hc Hy Hm. unfold make_file.
  enough (H : emits P st (handleFile os f.1 f.2 st).2) by (by destruct (handleFile os f.1 f.2 st) as [[] ?]).
  unfold handleFile. destruct (mode_has _ _); [by apply call_emits|]. unfold copyFile.
  pose proof (call_emits (SOpen (pm_path f.2)) st Ho) as H1.
  destruct (call os (SOpen _) st) as [[e|] st1]; [done|]. cbn [snd] in H1. rewrite H1.
  pose proof (call_emits (SCreate f.1 (pm_mode f.2)) st1 (Hc _)) as H2.
  destruct (call os (SCreate _ _) st1) as [[e|] st2]; [done|]. cbn [snd] in H2. rewrite H2. by apply call_emits.
Qed.

Context (j : Jail) (files : list (str * pathAndMode)) (mounts : list (str * str)) (Hj : jail_calls P j files mounts).

Lemma removeAll_emits ro st : (forall f, f ∈ ro -> f ∈ files) -> emits P st (removeAll os j ro st).2.
Proof using Hj.
  intros Hro. unfold removeAll. destruct (j_deleteRoot j); [apply (call_then_emits _ (fun _ => Some _)), Hj|].
  set (f := fun (x : str * pathAndMode) st => _).
  assert (H1 : emits P st (each f ro st).2).
  { apply each_emits. intros x st' Hx. apply (call_then_emits _ (fun _ => Some _)). apply (jc_files _ _ _ _ Hj), Hro, Hx. }
  destruct (each f ro st) as [[e|] st1]; [done|]. cbn [snd] in H1. rewrite H1.
  apply each_emits. intros x st' Hx. apply (call_then_emits _ (fun _ => Some _)).
  apply (jc_dirs _ _ _ _ Hj). by apply elem_of_reverse.
Qed.

Lemma Build_emits fo ro mo st :
  (forall f, f ∈ fo -> f ∈ files) -> (forall f, f ∈ ro -> f ∈ files) -> (forall m, m ∈ mo -> m ∈ mounts) ->
  emits P st (Build os j fo ro mo st).2.
Proof using Hj.
  intros Hfo Hro Hmo. unfold Build. destruct (1 <? _); [reflexivity|].
  assert (H1 : emits P st (each (make_directory os) (j_directories j) st).2).
  { apply each_emits. intros x st' Hx. apply (call_then_emits _ (fun _ => Some _)). by apply (jc_dirs _ _ _ _ Hj). }
  destruct (each _ _ st) as [[e|] st1]; cbn [snd] in H1; rewrite H1; [by apply removeAll_emits|].
  assert (H2 : emits P st1 (each (make_file os) fo st1).2).
  { apply each_emits. intros x st' Hx%Hfo. apply (jc_files _ _ _ _ Hj) in Hx as (? & ? & ? & ? & ?). by apply make_file_emits. }
  destruct (each _ _ st1) as [[e|] st2]; cbn [snd] in H2; rewrite H2; [by apply removeAll_emits|].
  assert (H3 : emits P st2 (mount os mo st2).2).
  { apply each_emits. intros x st' Hx%Hmo. apply (call_then_emits _ (fun _ => Some _)). by apply (jc_mounts _ _ _ _ Hj). }
  destruct (mount os mo st2) as [[e|] st3]; cbn [snd] in H3; rewrite H3; [by apply removeAll_emits|reflexivity].
Qed.

Lemma Dispose_emits ro mo st :
  (forall f, f ∈ ro -> f ∈ files) -> (forall m, m ∈ mo -> m ∈ mounts) -> emits P st (Dispose os j ro mo st).2.
Proof using Hj.
  intros Hro Hmo. unfold Dispose. assert (H1 : emits P st (unmount os mo st).2).
  { apply each_emits. intros x st' Hx%Hmo. unfold unmount_one. apply (jc_mounts _ _ _ _ Hj) in Hx as [_ Hx].
    pose proof (call_emits (SUnmount x.1 MNT_DETACH) st' Hx) as H.
    destruct (call os _ st') as [[e|] st1]; [case_decide|]; done. }
  destruct (unmount os mo st) as [[e|] st1]; [done|]. cbn [snd] in H1. rewrite H1.
  pose proof (removeAll_emits ro st1 Hro). by destruct (removeAll os j ro st1) as [[] ?].
Qed.

Lemma Unshare_emits st :
  P (SUnshare CLONE_NEWNS) -> P (SMount &"none" [slash] (Z.lor MS_REC MS_PRIVATE)) -> emits P st (Unshare os st).2.
Proof.
  intros Hu Hm. unfold Unshare. pose proof (call_emits (SUnshare CLONE_NEWNS) st Hu) as H1.
  destruct (call os _ st) as [[e|] st1]; [done|]. cbn [snd] in H1. rewrite H1. by apply call_emits.
Qed.

Lemma killProcess_emits cmd st : P SKill -> P SWait -> emits P st (killProcess os cmd st).
Proof.
  intros Hk Hw. unfold killProcess. destruct (cmd_Process cmd); [|reflexivity].
  etrans; [by apply (call_emits SKill)|by apply call_emits].
Qed.

End Emits.

(** The trace grows without a start of the child. *)
Definition quiet : jstate W -> jstate W -> Prop := emits (fun c => is_start c = false).

Lemma quiet_calls j files mounts : jail_calls (fun c => is_start c = false) j files mounts.
Proof. by split. Qed.

Lemma quiet_trans st1 st2 st3 : quiet st1 st2 -> quiet st2 st3 -> quiet st1 st3.
Proof. apply transitivity. Qed.

(** A start in a trace that has one start only. *)
Lemma start_index (a b : list event) e i c r :
  Forall (fun e => is_start e.1 = false) a -> Forall (fun e => is_start e.1 = false) b ->
  (a ++ [e] ++ b) !! i = Some (c, r) -> is_start c = true -> i = length a /\ e = (c, r).
Proof.
  intros Ha Hb Hi Hc. destruct (decide (i < length a)) as [Hlt|Hge].
  - rewrite lookup_app_l in Hi by done. apply (Forall_lookup_1 _ _ _ _ Ha) in Hi. simpl in Hi. congruence.
  - rewrite lookup_app_r in Hi by lia. destruct (i - length a) as [|k] eqn:E; [split; [lia|by injection Hi]|].
    simpl in Hi. apply (Forall_lookup_1 _ _ _ _ Hb) in Hi. simpl in Hi. congruence.
Qed.

(** *** Guarded traces *)

Lemma other_call_guarded c m st :
  guarded m st -> match c with SRemove _ | SRemoveAll _ | SMount _ _ _ | SUnmount _ _ => false | _ => true end = true ->
  guarded m (call os c st).2.
Proof.
  intros Hg Hc. apply (call_guarded os c st m m Hg); [by destruct c|]. intros r _. destruct c; try done; apply Hg.
Qed.

Lemma Unshare_guarded m st : guarded m st -> guarded m (Unshare os st).2.
Proof.
  intros Hg. unfold Unshare. pose proof (other_call_guarded (SUnshare CLONE_NEWNS) m st Hg eq_refl) as H1.
  destruct (call os _ st) as [[e|] st1]; [done|]. apply (call_guarded os _ st1 m m H1); [done|].
  intros r _. destruct r; apply H1.
Qed.

Lemma killProcess_guarded m cmd st : guarded m st -> guarded m (killProcess os cmd st).
Proof. intros Hg. unfold killProcess. destruct (cmd_Process cmd); [|done]. by repeat apply other_call_guarded. Qed.

Lemma start_child_guarded env m config cmd st :
  guarded m st -> guarded m (run_state (start_child os env config cmd st)).
Proof.
  intros Hg. unfold start_child. destruct (Pipe env) as [[rd wr]|]; [|done].
  destruct (updateFds config _) as [config' cmd'].
  set (c := SStart _ _ _ _ _). pose proof (other_call_guarded c m st Hg eq_refl) as H1.
  destruct (call os c st) as [[e|] st1]; [done|].
  pose proof (other_call_guarded SSendConfig m st1 H1 eq_refl) as H2.
  destruct (call os SSendConfig st1) as [[e|] st2]; [done|].
  pose proof (other_call_guarded SWait m st2 H2 eq_refl) as H3. by destruct (call os SWait st2).
Qed.

End Traces.

(** Starting the daemon never deletes the pages: for every answer of the
    operating system and every order of visiting the maps, whatever
    [daemonize] removes (on failure or after the child has ended) it removes
    while nothing is mounted in the jail. *)
Theorem daemonize_removals_safe {W} (os : JailOS W) env visit `{!MapVisitLaws visit} config w :
  safe_removals (trace (run_state (daemonize os env visit config (mkJState w [])))).
Proof.
  assert (H0 : guarded ∅ (mkJState w [])) by (split; [intros i c r Hi; by destruct i|done]).
  unfold daemonize. destruct (daemon_Abs env _) as [root|]; [|apply H0].
  destruct (daemonReexec env _ _ _) as [cmd|]; [|apply H0].
  destruct (make_wrapper os env config root cmd _) as [[j cmd']|]; [|by apply (killProcess_guarded os ∅)].
  cbn [run_state]. apply (killProcess_guarded os (dom (j_bindMounts j))), Dispose_guarded; [apply visit_mounts_perm|].
  unfold build_and_start. apply (Unshare_guarded os) in H0.
  pose proof (Build_guarded os j (visit_files visit 0 (j_files j)) (visit_files visit 1 (j_files j))
    (visit_mounts visit 0 (j_bindMounts j)) _ (visit_mounts_perm _ _) H0) as H1.
  destruct (Build _ _ _ _ _ _) as [[e|] st1]; [done|]. by apply start_child_guarded.
Qed.

(** ** Lemmas: the command *)

Section Wrapper.

#[local] Set Default Proof Using "Type".

Context {W : Type} (os : JailOS W) (env : HostEnv).

(** What stays the same while the command is prepared. *)
Definition same_child (c c' : Cmd) : Prop :=
  cmd_Uid c' = cmd_Uid c /\ cmd_Gid c' = cmd_Gid c /\ cmd_ExtraFiles c' = cmd_ExtraFiles c
  /\ cmd_Process c' = cmd_Process c.

Lemma jailDaemonCerts_child st cmd cage cage' cmd' :
  jailDaemonCerts os env st cmd cage = Ok (cage', cmd') -> same_child cmd cmd'.
Proof.
  unfold jailDaemonCerts. destruct (_ && _); [by intros [= <- <-]|]. rewrite result_bind_ok.
  intros ([cage1 cmd1] & H1 & H2).
  assert (Hc : same_child cmd cmd1).
  { destruct (nonempty (Getenv env _)); [|by injection H1 as <- <-].
    destruct (CopyTo _ _ _ _ _); [|done]. by injection H1 as <- <-. }
  destruct (nonempty (Getenv env &"SSL_CERT_DIR")); [|by injection H2 as <- <-].
  apply result_bind_ok in H2 as (cage2 & _ & [= <- <-]). exact Hc.
Qed.

Lemma jailCreate_child st cmd cage cmd' : jailCreate os env st cmd = Ok (cage, cmd') -> same_child cmd cmd'.
Proof.
  unfold jailCreate. intros H. repeat (apply result_bind_ok in H as (? & _ & H)).
  by apply jailDaemonCerts_child in H.
Qed.

Lemma make_wrapper_child config root cmd st j cmd' :
  make_wrapper os env config root cmd st = Ok (j, cmd') -> same_child cmd cmd' /\ cmd_Chroot cmd' = jail_Path j.
Proof.
  unfold make_wrapper, chrootDaemon, jailDaemon. destruct (d_InplaceChroot _); intros H.
  - apply result_bind_ok in H as (wd & _ & H). apply result_bind_ok in H as (suffix & _ & H).
    apply result_bind_ok in H as (c & _ & [= <- <-]). by repeat split.
  - apply result_bind_ok in H as ([cage cmd1] & H1%jailCreate_child & [= <- <-]). by split.
Qed.

Lemma updateFds_cmd config cmd config' cmd' :
  updateFds config cmd = (config', cmd') -> exists files, cmd' = with_files files cmd.
Proof.
  destruct (Listeners config) as [h hs p p2] eqn:El. rewrite (updateFds_spec config cmd h hs p p2 _ El eq_refl).
  intros [= _ <-]. eauto.
Qed.

(** The trace of [start_child]: a start, the configuration and the wait. *)
Lemma start_child_trace config cmd st :
  exists evs, trace (run_state (start_child os env config cmd st)) = trace st ++ evs
  /\ (evs = [] \/ exists r rest,
      evs = [(SStart (cmd_Chroot cmd) (cmd_Path cmd) (cmd_Dir cmd) (cmd_Uid cmd) (cmd_Gid cmd), r)] ++ rest
      /\ Forall (fun e => e.1 = SSendConfig \/ e.1 = SWait) rest).
Proof.
  unfold start_child. destruct (Pipe env) as [[rd wr]|]; [|exists []; split; [by rewrite app_nil_r|by left]].
  destruct (updateFds config _) as [config' cmd'] eqn:E. apply updateFds_cmd in E as [files ->].
  cbn [with_files add_extra_file cmd_Chroot cmd_Path cmd_Dir cmd_Uid cmd_Gid].
  set (c := SStart _ _ _ _ _). pose proof (call_trace os c st) as H1.
  destruct (call os c st) as [r st1]. cbn [fst snd] in H1. destruct r as [e|].
  { exists [(c, Some e)]. split; [done|]. right. exists (Some e), []. by split. }
  pose proof (call_trace os SSendConfig st1) as H2.
  destruct (call os SSendConfig st1) as [[e|] st2]; cbn [fst snd] in H2.
  { exists ([(c, None)] ++ [(SSendConfig, Some e)]). split; [cbn [run_state]; by rewrite H2, H1, <- app_assoc|].
    right. exists None, [(SSendConfig, Some e)]. split; [done|]. repeat constructor. }
  pose proof (call_trace os SWait st2) as H3. destruct (call os SWait st2) as [r3 st3]. cbn [fst snd] in H3.
  exists ([(c, None)] ++ [(SSendConfig, None); (SWait, r3)]).
  split; [cbn [run_state]; by rewrite H3, H2, H1, <- !app_assoc|].
  right. exists None, [(SSendConfig, None); (SWait, r3)]. split; [done|]. repeat constructor; by auto.
Qed.

End Wrapper.

Lemma Unshare_trace {W} (os : JailOS W) w :
  let st := (Unshare os (mkJState w [])).2 in
  (exists e, trace st = [(SUnshare CLONE_NEWNS, Some e)])
  \/ exists e, trace st = [(SUnshare CLONE_NEWNS, None); (SMount &"none" [slash] (Z.lor MS_REC MS_PRIVATE), e)].
Proof.
  cbv zeta. unfold Unshare. pose proof (call_trace os (SUnshare CLONE_NEWNS) (mkJState w [])) as H.
  destruct (call os _ _) as [[e|] st1]; [left; by exists e|]. right. eexists. rewrite call_trace. cbn [snd] in H. by rewrite H.
Qed.

(** [C28] The child runs only in a jail that was built: when the trace of
    [daemonize] has a start of the child, the calls before it are exactly
    those of [Unshare], from the empty trace, and then those of a successful
    [Build] of the jail made for this configuration; those of [Unshare] are
    its two calls, or its first one alone when that fails; the child is confined to the root of that jail, and it runs with the
    configured user and group, as 32-bit numbers. *)
Theorem child_started_in_built_jail {W} (os : JailOS W) env visit config w i chroot path dir uid gid r :
  let tr := trace (run_state (daemonize os env visit config (mkJState w []))) in
  tr !! i = Some (SStart chroot path dir uid gid, r) ->
  uid = (d_UID (Daemon config) mod 2 ^ 32)%Z /\ gid = (d_GID (Daemon config) mod 2 ^ 32)%Z
  /\ exists root cmd j cmd' st st',
       daemon_Abs env (g_RootDir (General config)) = Ok root
       /\ make_wrapper os env config root cmd (mkJState w []) = Ok (j, cmd')
       /\ chroot = jail_Path j
       /\ st = (Unshare os (mkJState w [])).2
       /\ ((exists e, trace st = [(SUnshare CLONE_NEWNS, Some e)])
           \/ exists e, trace st = [(SUnshare CLONE_NEWNS, None); (SMount &"none" [slash] (Z.lor MS_REC MS_PRIVATE), e)])
       /\ Build os j (visit_files visit 0 (j_files j)) (visit_files visit 1 (j_files j))
            (visit_mounts visit 0 (j_bindMounts j)) st = (None, st')
       /\ (exists built, trace st' = trace st ++ built) /\ take i tr = trace st'.
Proof.
  cbv zeta. unfold daemonize. destruct (daemon_Abs env _) as [root|] eqn:Ea; [|by destruct i].
  destruct (daemonReexec env _ _ _) as [cmd|] eqn:Ec; [|by destruct i].
  assert (Hc : cmd_Uid cmd = (d_UID (Daemon config) mod 2 ^ 32)%Z /\ cmd_Gid cmd = (d_GID (Daemon config) mod 2 ^ 32)%Z
    /\ cmd_Process cmd = false).
  { unfold daemonReexec in Ec. by apply result_bind_ok in Ec as (p & _ & [= <-]). }
  destruct Hc as (Hu & Hg & Hp).
  destruct (make_wrapper os env config root cmd (mkJState w [])) as [[j cmd']|] eqn:Ew;
    [|unfold killProcess; cbn [run_state]; rewrite Hp; by destruct i].
  destruct (make_wrapper_child os env _ _ _ _ _ _ Ew) as [(Hu' & Hg' & _ & _) Hch].
  cbn [run_state]. set (run := build_and_start os env visit j config cmd' (mkJState w [])).
  set (st2 := (Dispose os j _ _ (run_state run)).2).
  assert (Hq : quiet (run_state run) (killProcess os (run_cmd run) st2)).
  { eapply quiet_trans; [|by apply killProcess_emits].
    by apply (Dispose_emits os _ _ _ _ (quiet_calls _ (visit_files visit 2 (j_files j)) (visit_mounts visit 1 (j_bindMounts j)))). }
  destruct Hq as (tail & -> & Ft).
  unfold run, build_and_start. set (st0 := (Unshare os (mkJState w [])).2).
  assert (Hb : quiet st0 (Build os j (visit_files visit 0 (j_files j)) (visit_files visit 1 (j_files j))
    (visit_mounts visit 0 (j_bindMounts j)) st0).2).
  { apply (Build_emits os _ _ _ _ (quiet_calls _ (visit_files visit 0 (j_files j) ++ visit_files visit 1 (j_files j))
      (visit_mounts visit 0 (j_bindMounts j)))); set_solver. }
  destruct (Unshare_emits os (fun c => is_start c = false) (mkJState w [])) as (u & Hu0 & Fu); [done|done|].
  fold st0 in Hu0.
  assert (Fu0 : Forall (fun e => is_start e.1 = false) (trace st0)) by (by rewrite Hu0).
  destruct (Build _ _ _ _ _ _) as [[e|] st1] eqn:Eb; cbn [run_state snd] in *; destruct Hb as (evs & Ht & Fe).
  - intros Hi. rewrite Ht in Hi. apply (Forall_lookup_1 (fun e => is_start e.1 = false)) in Hi; [done|].
    apply Forall_app. by split; [apply Forall_app|].
  - assert (F1 : Forall (fun e => is_start e.1 = false) (trace st1)) by (rewrite Ht; by apply Forall_app).
    destruct (start_child_trace os env config cmd' st1) as (evs2 & -> & [->|(r0 & rest & -> & Fr)]).
    + intros Hi. apply (Forall_lookup_1 (fun e => is_start e.1 = false)) in Hi; [done|].
      apply Forall_app. by rewrite app_nil_r.
    + rewrite <- !app_assoc. intros Hi.
      assert (Fr' : Forall (fun e => is_start e.1 = false) rest) by (eapply Forall_impl; [exact Fr|]; by intros e [->| ->]).
      apply (start_index _ (rest ++ tail)) in Hi as Hx; [|done|by apply Forall_app|done].
      destruct Hx as [-> [= <- <- <- <- <- <-]]. split; [congruence|]. split; [congruence|].
      exists root, cmd, j, cmd', st0, st1. split; [done|]. split; [done|]. split; [done|]. split; [done|].
      split; [apply Unshare_trace|]. split; [done|]. split; [by exists evs|]. by rewrite take_app_length.
Qed.

(** ** Lemmas: everything lies below the root of the jail *)

Definition under (rs : list str) (p : str) : Prop := exists ds, Forall ordinary ds /\ p = abs_path (rs ++ ds).

Record confined (rs : list str) (j : Jail) : Prop := {
  conf_root : j_root j = abs_path rs;
  conf_dirs : Forall (fun d => under rs (pm_path d)) (j_directories j);
  conf_files k f : j_files j !! k = Some f -> under rs k;
  conf_mounts k s : j_bindMounts j !! k = Some s -> under rs k }.

Section Confined.

#[local] Set Default Proof Using "Type*".

Context {W : Type} (os : JailOS W) (env : HostEnv) (rs : list str).
Context (Hrs : Forall ordinary rs) (Hne : rs <> []).

Lemma ExternalPath_under j ds : confined rs j -> Forall ordinary ds -> ExternalPath j (abs_path ds) = abs_path (rs ++ ds).
Proof. intros Hc Hd. unfold ExternalPath, jail_Path. rewrite (conf_root _ _ Hc). by apply path_Join_abs. Qed.

Lemma under_root : under rs (abs_path rs).
Proof. exists []. split; [constructor|by rewrite app_nil_r]. Qed.

Lemma confined_add_directory d j : confined rs j -> under rs (pm_path d) -> confined rs (add_directory d j).
Proof. intros [H1 H2 H3 H4] Hd. split; try done. cbn. apply Forall_app. split; [done|by constructor]. Qed.

Lemma confined_add_file p f j : confined rs j -> under rs p -> confined rs (add_file p f j).
Proof.
  intros [H1 H2 H3 H4] Hp. split; try done. intros k f' Hk. cbn [add_file j_files] in Hk.
  apply lookup_insert_Some in Hk as [[<- _]|[_ Hk]]; [done|by eapply H3].
Qed.

Lemma confined_MkDir ds perm j : confined rs j -> Forall ordinary ds -> confined rs (MkDir (abs_path ds) perm j).
Proof.
  intros Hc Hd. apply confined_add_directory; [done|]. cbn [pm_path].
  rewrite ExternalPath_under by done. by exists ds.
Qed.

Lemma confined_CopyTo st ds src j j' :
  confined rs j -> Forall ordinary ds -> CopyTo os st (abs_path ds) src j = Ok j' -> confined rs j'.
Proof.
  intros Hc Hd. unfold CopyTo. destruct (sys_Stat os _ src) as [fi|]; [|done]. destruct (mode_has _ _); [done|].
  intros [= <-]. apply confined_add_file; [done|]. rewrite ExternalPath_under by done. by exists ds.
Qed.

Lemma confined_CharDev st ds j j' :
  confined rs j -> Forall ordinary ds -> CharDev os st (abs_path ds) j = Ok j' -> confined rs j'.
Proof.
  intros Hc Hd. unfold CharDev. destruct (sys_Stat os _ _) as [fi|]; [|done]. destruct (negb _); [done|].
  destruct (st_rdev fi); [|done].
  intros [= <-]. apply confined_add_file; [done|]. rewrite ExternalPath_under by done. by exists ds.
Qed.

Lemma confined_Bind ds src j : confined rs j -> Forall ordinary ds -> confined rs (Bind (abs_path ds) src j).
Proof.
  intros Hc Hd. pose proof (ExternalPath_under j ds Hc Hd) as He. destruct Hc as [H1 H2 H3 H4]. split; try done.
  intros k s Hk. cbn [Bind j_bindMounts] in Hk.
  apply lookup_insert_Some in Hk as [[<- _]|[_ Hk]]; [rewrite He; by exists ds|by eapply H4].
Qed.

Lemma confined_MkDirAll ds perm j :
  confined rs j -> Forall ordinary ds -> confined rs (MkDirAll (abs_path ds) perm j).
Proof.
  intros Hc Hd. destruct (decide (ds = [])) as [->|Hds].
  - change (MkDirAll (abs_path []) perm j) with (add_directory (mkPathAndMode (ExternalPath j []) perm 0) j).
    apply confined_add_directory; [done|]. cbn [pm_path]. unfold ExternalPath, jail_Path.
    rewrite (conf_root _ _ Hc), path_Join_below by done.
    change (components []) with [[] : str]. rewrite foldl_clean_nil. cbn [foldl]. rewrite reverse_involutive.
    apply under_root.
  - rewrite (MkDirAll_spec rs) by (try done; apply Hc). destruct Hc as [H1 H2 H3 H4].
    split; try done. cbn [j_directories]. apply Forall_app. split; [done|]. apply Forall_fmap, Forall_forall.
    intros k _. cbn [pm_path compose]. exists (take (S k) ds). split; [by apply Forall_take|done].
Qed.

(** The names that reading a directory gives are names of entries. *)
Hypothesis ReadDir_names : forall dir entries, ReadDir env dir = Ok entries -> Forall (fun e => ordinary e.1) entries.

Lemma confined_copy_certs st entries src dst j :
  Forall (fun e => ordinary e.1) entries -> Forall ordinary dst -> dst <> [] -> confined rs j ->
  confined rs (copy_certs os st entries src (abs_path dst) j).
Proof.
  intros He Hd Hn. revert j. induction He as [|[name mode] l Hname _ IH]; intros j Hc; [done|]. cbn [copy_certs]. apply IH.
  destruct (negb _); [done|].
  assert (E : abs_path dst ++ &"/" ++ name = abs_path (dst ++ [name])) by (by rewrite abs_path_app).
  rewrite E. destruct (CopyTo _ _ _ _ _) as [c|] eqn:Ec; [|done].
  eapply confined_CopyTo; [exact Hc| |exact Ec]. apply Forall_app. by split; [|constructor].
Qed.

Definition etc_ssl : list str := [&"etc"; &"ssl"].
Definition etc_ssl_certs : list str := [&"etc"; &"ssl"; &"certs"].

Lemma confined_certs st cmd cage cage' cmd' :
  confined rs cage -> jailDaemonCerts os env st cmd cage = Ok (cage', cmd') -> confined rs cage'.
Proof.
  intros Hc. unfold jailDaemonCerts. destruct (_ && _); [by intros [= <- _]|].
  assert (H0 : confined rs (MkDir &"/etc/ssl" perm755 cage)) by (apply (confined_MkDir etc_ssl); [done|decide_now]).
  rewrite result_bind_ok. intros ([cage1 cmd1] & H1 & H2).
  assert (Hc1 : confined rs cage1).
  { destruct (nonempty (Getenv env _)); [|by injection H1 as <- _].
    destruct (CopyTo _ _ _ _ _) as [c|] eqn:E; [|done]. injection H1 as <- _.
    eapply (confined_CopyTo _ (etc_ssl ++ [&"ca-bundle.pem"])); [exact H0|decide_now|exact E]. }
  destruct (nonempty (Getenv env &"SSL_CERT_DIR")); [|by injection H2 as <- _].
  apply result_bind_ok in H2 as (cage2 & H2 & [= <- _]). unfold jailCopyCertDir in H2.
  destruct (ReadDir env _) as [entries|] eqn:Er; [|done]. injection H2 as <-.
  apply (confined_copy_certs _ _ _ etc_ssl_certs); [by eapply ReadDir_names|decide_now|done|].
  apply (confined_MkDir etc_ssl_certs); [done|decide_now].
Qed.

Lemma confined_Create perm : confined rs (jail_Create (abs_path rs) perm).
Proof.
  split; [done| |done|done]. repeat constructor. apply under_root.
Qed.

Lemma confined_jailCreate st cmd cage cmd' :
  path_Join [TempDir env; &"gitlab-pages-" ++ FormatInt (UnixNano env)] = abs_path rs ->
  jailCreate os env st cmd = Ok (cage, cmd') -> confined rs cage.
Proof.
  intros Hroot. unfold jailCreate, CreateTimestamped. change (&"gitlab-pages" ++ &"-" ++ ?x) with (&"gitlab-pages-" ++ x).
  rewrite Hroot. intros H.
  assert (H0 : confined rs (MkDir &"/dev" perm755 (jail_Create (abs_path rs) perm755)))
    by (apply (confined_MkDir [&"dev"]); [apply confined_Create|decide_now]).
  apply result_bind_ok in H as (c1 & E1 & H).
  eapply (confined_CharDev _ [&"dev"; &"urandom"]) in E1; [|exact H0|decide_now].
  apply result_bind_ok in H as (c2 & E2 & H).
  eapply (confined_CharDev _ [&"dev"; &"random"]) in E2; [|exact E1|decide_now].
  apply result_bind_ok in H as (c3 & E3 & H).
  eapply (confined_CopyTo _ [&"gitlab-pages"]) in E3; [|exact E2|decide_now].
  assert (H3 : confined rs (MkDir &"/etc" perm755 c3)) by (apply (confined_MkDir [&"etc"]); [done|decide_now]).
  apply result_bind_ok in H as (c4 & E4 & H).
  eapply (confined_CopyTo _ [&"etc"; &"resolv.conf"]) in E4; [|exact H3|decide_now].
  apply result_bind_ok in H as (c5 & E5 & H).
  eapply (confined_CopyTo _ [&"etc"; &"hosts"]) in E5; [|exact E4|decide_now].
  eapply confined_certs; [exact E5|exact H].
Qed.

End Confined.

(** The directory the jail is built in: the working directory, or a new one
    below the directory for temporary files. *)
Definition jail_root (env : HostEnv) (config : Config) : result str :=
  if d_InplaceChroot (Daemon config) then Getwd env
  else Ok (path_Join [TempDir env; &"gitlab-pages-" ++ FormatInt (UnixNano env)]).

Lemma lower_hex_not_slash n : n < 16 -> lower_hex n <> slash.
Proof. intros H. do 16 (destruct n as [|n]; [done|]). lia. Qed.

Lemma ordinary_daemon_name s : ordinary (&".daemon." ++ hex_bytes s).
Proof.
  split; [done|]. split; [done|]. split; [done|]. intros [H|H]%elem_of_app; [revert H; decide_now|].
  unfold hex_bytes in H. apply list_elem_of_join in H as (l & Hx & Hl).
  apply list_elem_of_fmap in Hl as (c & -> & _).
  pose proof (nat_of_ascii_lt c). rewrite !elem_of_cons in Hx. destruct Hx as [Hx|[Hx|Hx%elem_of_nil]]; [| |done].
  - symmetry in Hx. apply lower_hex_not_slash in Hx; [done|divmod].
  - symmetry in Hx. apply lower_hex_not_slash in Hx; [done|divmod].
Qed.

(** The paths of a Clean absolute path. *)
Lemma daemon_Abs_components env p root :
  daemon_Abs env p = Ok root -> (forall wd, Getwd env = Ok wd -> IsAbs wd = true) ->
  exists ds, Forall ordinary ds /\ root = abs_path ds.
Proof.
  unfold daemon_Abs. intros H Hwd. destruct (IsAbs p) eqn:E.
  - injection H as <-. rewrite Clean_abs by done. eexists. split; [apply clean_components_rooted|done].
  - apply result_bind_ok in H as (wd & Hg & [= <-]). specialize (Hwd wd Hg). unfold path_Join.
    rewrite decide_False by (intros ->; by compute in Hwd).
    rewrite Clean_abs; [eexists; split; [apply clean_components_rooted|done]|].
    apply HasPrefix_spec in Hwd as [t ->]. apply HasPrefix_spec. by eexists.
Qed.

Section WrapperConfined.

#[local] Set Default Proof Using "Type*".

Context {W : Type} (os : JailOS W) (env : HostEnv) (config : Config) (rs : list str).
Context (Hrs : Forall ordinary rs) (Hne : rs <> []) (Hroot : jail_root env config = Ok (abs_path rs)).
Context (ReadDir_names : forall dir entries, ReadDir env dir = Ok entries -> Forall (fun e => ordinary e.1) entries).

Lemma make_wrapper_confined ds cmd st j cmd' :
  Forall ordinary ds -> make_wrapper os env config (abs_path ds) cmd st = Ok (j, cmd') -> confined rs j.
Proof.
  intros Hd. unfold make_wrapper, chrootDaemon, jailDaemon. unfold jail_root in Hroot.
  destruct (d_InplaceChroot _); intros H.
  - rewrite Hroot in H. cbn [result_bind] in H. apply result_bind_ok in H as (suffix & _ & H).
    apply result_bind_ok in H as (c & E & [= <- _]).
    assert (H0 : confined rs (Into (abs_path rs))) by (by split).
    eapply (confined_CopyTo os rs Hrs Hne _ [&".daemon." ++ hex_bytes suffix]); [exact H0| |exact E].
    constructor; [apply ordinary_daemon_name|constructor].
  - injection Hroot as Hroot'. apply result_bind_ok in H as ([cage cmd1] & H1 & [= <- _]).
    eapply confined_jailCreate in H1; [|exact Hrs|exact Hne|exact ReadDir_names|exact Hroot'].
    apply confined_Bind; [done|done| |done]. by apply confined_MkDirAll.
Qed.

End WrapperConfined.

(** The path a call changes: what is mounted on or unmounted, a created or
    removed path. *)
Definition changed_path (c : syscall) : option str :=
  match c with
  | SMkdir p _ | SMknod p _ _ | SCreate p _ | SCopy p _ | SRemove p | SRemoveAll p | SUnmount p _ => Some p
  | SMount _ dest _ => Some dest
  | _ => None
  end.

(** The call with which [Unshare] keeps the mounts of the process to itself:
    it mounts nothing, but names the root of the file system. *)
Definition private_root : syscall := SMount &"none" [slash] (Z.lor MS_REC MS_PRIVATE).

Definition call_under (rs : list str) (c : syscall) : Prop :=
  c = private_root \/ forall p, changed_path c = Some p -> under rs p.

Definition changes_under (rs : list str) (e : event) : Prop := call_under rs e.1.

Lemma call_under_path rs c p : changed_path c = Some p -> under rs p -> call_under rs c.
Proof. intros E H. right. by intros p' [= <-]%(eq_trans (eq_sym E)). Qed.

Lemma confined_calls rs j visit `{!MapVisitLaws visit} n m k :
  confined rs j -> under rs (jail_Path j) ->
  jail_calls (call_under rs) j
    (visit_files visit n (j_files j) ++ visit_files visit m (j_files j)) (visit_mounts visit k (j_bindMounts j)).
Proof.
  intros [H1 H2 H3 H4] Hr. split.
  - intros d Hd. rewrite Forall_forall in H2. apply list_elem_of_In in Hd. apply list_elem_of_In, H2 in Hd.
    by split; eapply call_under_path.
  - intros [dest f] Hf. assert (Hu : under rs dest).
    { rewrite elem_of_app, !visit_files_perm in Hf. apply (H3 dest f). by destruct Hf as [Hf|Hf]; apply elem_of_map_to_list. }
    split; [by right|]. split; [by eapply call_under_path|]. split; [intros ?; by eapply call_under_path|].
    split; [by eapply call_under_path|intros ? ?; by eapply call_under_path].
  - intros [dest src] Hm. rewrite visit_mounts_perm in Hm. apply elem_of_map_to_list, H4 in Hm.
    by split; eapply call_under_path.
  - by eapply call_under_path.
Qed.

(** [C27] Starting the daemon changes nothing outside the jail: every path that
    [daemonize] creates, writes, mounts on, unmounts or removes lies at or
    below the jail's root (the working directory with the in-place chroot, a
    new directory for temporary files otherwise), whatever the pages root,
    the certificate directory and the answers of the operating system are.
    The one exception is the call of [Unshare] that makes the mounts of the
    process private, which names the root of the file system and mounts
    nothing.  The root of the jail is an absolute path other than the root of
    the file system, the working directory is absolute, and directories list
    plain names. *)
Theorem daemonize_changes_confined {W} (os : JailOS W) env visit `{!MapVisitLaws visit} config w rs :
  Forall ordinary rs -> rs <> [] -> jail_root env config = Ok (abs_path rs) ->
  (forall wd, Getwd env = Ok wd -> IsAbs wd = true) ->
  (forall dir entries, ReadDir env dir = Ok entries -> Forall (fun e => ordinary e.1) entries) ->
  Forall (changes_under rs) (trace (run_state (daemonize os env visit config (mkJState w [])))).
Proof.
  intros Hrs Hne Hroot Hwd Hread. set (P := call_under rs).
  enough (H : emits P (mkJState w []) (run_state (daemonize os env visit config (mkJState w []))))
    by (destruct H as (evs & -> & H); exact H).
  unfold daemonize. destruct (daemon_Abs env _) as [root|] eqn:Ea; [|reflexivity].
  assert (Hquiet : forall c, changed_path c = None -> P c) by (intros c Hc; right; by rewrite Hc).
  destruct (daemonReexec env _ _ _) as [cmd|]; [|reflexivity].
  destruct (make_wrapper os env config root cmd _) as [[j cmd']|] eqn:Ew; [|by apply killProcess_emits; apply Hquiet].
  destruct (daemon_Abs_components env _ _ Ea Hwd) as (ds & Hds & ->).
  apply (make_wrapper_confined os env config rs Hrs Hne Hroot Hread) in Ew as Hc; [|done].
  assert (Hu : under rs (jail_Path j)) by (unfold jail_Path; rewrite (conf_root _ _ Hc); by apply under_root).
  cbn [run_state]. etrans; [|by apply killProcess_emits; apply Hquiet].
  etrans; [|apply (Dispose_emits os P j _ _ (confined_calls rs j visit 0 2 1 Hc Hu)); set_solver].
  unfold build_and_start. etrans; [by apply (Unshare_emits os P); [apply Hquiet|left]|].
  pose proof (Build_emits os P j _ _ (confined_calls rs j visit 0 1 0 Hc Hu)
    (visit_files visit 0 (j_files j)) (visit_files visit 1 (j_files j)) (visit_mounts visit 0 (j_bindMounts j))
    (Unshare os (mkJState w [])).2 ltac:(set_solver) ltac:(set_solver) ltac:(done)) as Hb.
  destruct (Build _ _ _ _ _ _) as [[e|] st1]; [exact Hb|]. etrans; [exact Hb|].
  destruct (start_child_trace os env config cmd' st1) as (evs & Ht & Hevs). exists evs. split; [done|].
  destruct Hevs as [->|(r & rest & -> & Hrest)]; [constructor|]. constructor; [by apply Hquiet|].
  eapply Forall_impl; [exact Hrest|]. intros e [E|E]; rewrite E; by apply Hquiet.
Qed.

(** ** Behaviour that is probably not intended *)

(** The user id is cut to 32 bits: a daemon uid that is a multiple of 2^32,
    which is not the zero that keeps the process from dropping privileges,
    starts the child as root. *)
Theorem daemon_uid_wraps_to_root env k gid args cmd :
  daemonReexec env (k * 2 ^ 32) gid args = Ok cmd -> cmd_Uid cmd = 0%Z.
Proof.
  unfold daemonReexec. intros (p & _ & [= <-])%result_bind_ok. cbn [cmd_Uid]. by rewrite Z_mod_mult.
Qed.

(** Making directories one after the other fails at the second occurrence of
    a path. *)
Lemma each_mkdir_NoDup {W} (os : JailOS W) paths `{!JailOSLaws os paths} l st st' :
  each (make_directory os) l st = (None, st') -> NoDup (pm_path <$> l).
Proof.
  revert st. induction l as [|d l IH]; intros st; simpl; [constructor|].
  destruct (make_directory os d st) as [[e|] st1] eqn:E; [done|]. intros H.
  constructor; [|by eapply IH]. apply (make_directory_adds os paths) in E as [_ E].
  apply (each_adds os paths pm_path _ (make_directory_adds os paths)) in H as [_ Hd]. rewrite E in Hd.
  intros Hin. assert (Hs : pm_path d ∈@{gset str} list_to_set (pm_path <$> l)) by (by apply elem_of_list_to_set).
  set_solver.
Qed.

(** Queueing more work keeps the root and the queued directories. *)
Definition grows (j j' : Jail) : Prop :=
  j_root j' = j_root j /\ exists l, j_directories j' = j_directories j ++ l.

#[export] Instance grows_preorder : PreOrder grows.
Proof.
  split.
  - intros j. split; [done|]. exists []. by rewrite app_nil_r.
  - intros j1 j2 j3 [R1 [l1 D1]] [R2 [l2 D2]]. split; [congruence|]. exists (l1 ++ l2). by rewrite D2, D1, app_assoc.
Qed.

Lemma grows_MkDir p perm j : grows j (MkDir p perm j).
Proof. split; [done|]. by eexists. Qed.

Section Grows.

#[local] Set Default Proof Using "Type".

Context {W : Type} (os : JailOS W) (env : HostEnv) (st : jstate W).

Lemma grows_CopyTo d s j j' : CopyTo os st d s j = Ok j' -> grows j j'.
Proof.
  unfold CopyTo. destruct (sys_Stat _ _ _); [|done]. destruct (mode_has _ _); [done|]. intros [= <-].
  split; [done|]. exists []. by rewrite app_nil_r.
Qed.

Lemma grows_CharDev d j j' : CharDev os st d j = Ok j' -> grows j j'.
Proof.
  unfold CharDev. destruct (sys_Stat _ _ _) as [fi|]; [|done]. destruct (negb _); [done|].
  destruct (st_rdev fi); [|done]. intros [= <-]. split; [done|]. exists []. by rewrite app_nil_r.
Qed.

Lemma grows_copy_certs entries src dst j : grows j (copy_certs os st entries src dst j).
Proof.
  revert j. induction entries as [|[name mode] entries IH]; intros j; cbn [copy_certs]; [reflexivity|].
  etrans; [|apply IH]. destruct (negb _); [reflexivity|]. destruct (CopyTo _ _ _ _ _) eqn:E; [|reflexivity].
  by eapply grows_CopyTo.
Qed.

Lemma grows_certs cmd j j' cmd' : jailDaemonCerts os env st cmd j = Ok (j', cmd') -> grows j j'.
Proof.
  unfold jailDaemonCerts. destruct (_ && _); [intros [= <- _]; reflexivity|].
  rewrite result_bind_ok. intros ([c cmd1] & H1 & H2).
  assert (Hc : grows j c).
  { etrans; [apply (grows_MkDir &"/etc/ssl" perm755)|]. destruct (nonempty (Getenv env _)); [|by injection H1 as <- _].
    destruct (CopyTo _ _ _ _ _) eqn:E; [|done]. injection H1 as <- _. by eapply grows_CopyTo. }
  rewrite Hc. destruct (nonempty (Getenv env &"SSL_CERT_DIR")); [|by injection H2 as <- _].
  apply result_bind_ok in H2 as (c2 & H2 & [= <- _]). unfold jailCopyCertDir in H2.
  destruct (ReadDir env _) as [entries|]; [|done]. injection H2 as <-.
  etrans; [apply (grows_MkDir &"/etc/ssl/certs" perm755)|apply grows_copy_certs].
Qed.

(** The jail has the directories /dev and /etc. *)
Lemma jailCreate_directories cmd cage cmd' rs c :
  Forall ordinary rs -> rs <> [] -> c = &"dev" \/ c = &"etc" ->
  path_Join [TempDir env; &"gitlab-pages-" ++ FormatInt (UnixNano env)] = abs_path rs ->
  jailCreate os env st cmd = Ok (cage, cmd') ->
  j_root cage = abs_path rs /\ abs_path (rs ++ [c]) ∈ pm_path <$> j_directories cage.
Proof.
  intros Hrs Hne Hc Hroot. unfold jailCreate, CreateTimestamped.
  change (&"gitlab-pages" ++ &"-" ++ ?x) with (&"gitlab-pages-" ++ x). rewrite Hroot. intros H.
  apply result_bind_ok in H as (c1 & H1%grows_CharDev & H). apply result_bind_ok in H as (c2 & H2%grows_CharDev & H).
  apply result_bind_ok in H as (c3 & H3%grows_CopyTo & H). apply result_bind_ok in H as (c4 & H4%grows_CopyTo & H).
  apply result_bind_ok in H as (c5 & H5%grows_CopyTo & H%grows_certs). rewrite H2, H3 in H1. rewrite H5, H in H4.
  destruct H1 as [R3 [l3 D3]]. pose proof (grows_MkDir &"/etc" perm755 c3) as Hetc.
  destruct H4 as [R [l D]]. split; [by rewrite R, (proj1 Hetc), R3|]. rewrite D.
  cbn [MkDir add_directory j_directories]. rewrite D3, !fmap_app. cbn [MkDir add_directory j_directories jail_Create Into].
  unfold ExternalPath, jail_Path. rewrite R3. cbn [j_root jail_Create add_directory Into MkDir fmap list_fmap pm_path app].
  change &"/dev" with (abs_path [&"dev"]). change &"/etc" with (abs_path [&"etc"]).
  rewrite (path_Join_abs rs [&"dev"] Hrs Hne ltac:(decide_now)), (path_Join_abs rs [&"etc"] Hrs Hne ltac:(decide_now)).
  cbn [app]. destruct Hc as [->| ->]; set_solver.
Qed.

End Grows.

(** A pages root below /etc or /dev cannot be used with a jail: the directory
    is queued twice, the second [os.Mkdir] fails, and the child is never
    started. *)
Theorem pages_root_below_etc_never_starts {W} (os : JailOS W) paths `{!JailOSLaws os paths} env visit config w rs c ds :
  Forall ordinary rs -> rs <> [] -> c = &"dev" \/ c = &"etc" -> Forall ordinary ds ->
  d_InplaceChroot (Daemon config) = false -> jail_root env config = Ok (abs_path rs) ->
  daemon_Abs env (g_RootDir (General config)) = Ok (abs_path (c :: ds)) ->
  let run := daemonize os env visit config (mkJState w []) in
  run_error run <> None /\ cmd_Process (run_cmd run) = false.
Proof.
  intros Hrs Hne Hc Hds Hin Hroot Ha. cbv zeta. unfold daemonize. rewrite Ha. unfold jail_root in Hroot. rewrite Hin in Hroot.
  injection Hroot as Hroot. assert (Ho : ordinary c) by (destruct Hc as [->| ->]; decide_now).
  destruct (daemonReexec env _ _ _) as [cmd|] eqn:Ec; [|done].
  assert (Hp : cmd_Process cmd = false) by (unfold daemonReexec in Ec; by apply result_bind_ok in Ec as (p & _ & [= <-])).
  destruct (make_wrapper os env config _ cmd _) as [[j cmd']|] eqn:Ew; [|done].
  destruct (make_wrapper_child os env _ _ _ _ _ _ Ew) as [(_ & _ & _ & Hp') _]. cbn [run_error run_cmd].
  unfold make_wrapper, jailDaemon in Ew. rewrite Hin in Ew. apply result_bind_ok in Ew as ([cage cmd1] & Hj & [= <- <-]).
  destruct (jailCreate_directories os env _ _ _ _ rs c Hrs Hne Hc Hroot Hj) as [R D].
  set (j := Bind _ _ _). assert (Hd : ~ NoDup (pm_path <$> j_directories j)).
  { unfold j. cbn [Bind j_directories]. rewrite (MkDirAll_spec rs); [|done|done|done|by constructor|done].
    cbn [j_directories length seq]. rewrite fmap_app, fmap_cons, fmap_cons. cbn [pm_path take app].
    intros (_ & Hn & _)%NoDup_app. apply (Hn _ D). by left. }
  unfold build_and_start. assert (Hb : exists e st, Build os j (visit_files visit 0 (j_files j)) (visit_files visit 1 (j_files j))
    (visit_mounts visit 0 (j_bindMounts j)) (Unshare os (mkJState w [])).2 = (Some e, st)).
  { unfold Build. destruct (1 <? _); [by eauto|]. destruct (each _ (j_directories j) _) as [[e|] st1] eqn:E; [by eauto|].
    destruct Hd. by eapply each_mkdir_NoDup. }
  destruct Hb as (e & st & ->). cbn [run_error run_cmd]. split; [done|]. cbn [set_chroot cmd_Process] in *. congruence.
Qed.

(** ** Witnesses *)

Definition map_order : MapVisit := mkMapVisit (fun _ m => map_to_list m) (fun _ m => map_to_list m).

#[export] Instance map_order_laws : MapVisitLaws map_order.
Proof. by split. Qed.

Definition demo_env : HostEnv := mkHostEnv (Ok &"/usr/bin/gitlab-pages") [&"PATH=/bin"] (Ok &"/srv/pages")
  (fun name => if decide (name = &"SSL_CERT_DIR") then &"/certs" else []) (fun _ => Ok [(&"ca.pem", 0x1a4%Z)])
  (Ok (replicate 16 "a"%char)) &"/tmp" 7 (Ok (10%Z, 11%Z)).

Definition demo_machine : gset str :=
  {[ &"/dev/urandom"; &"/dev/random"; &"/usr/bin/gitlab-pages"; &"/etc/resolv.conf"; &"/etc/hosts"; &"/certs/ca.pem" ]}.

(** A configuration with two listeners, a metrics listener and a user. *)
Definition demo_daemon (uid : Z) (inplace : bool) (root : str) : Config :=
  let c := config_from_flags default_flags in
  let g := General c in
  mkConfig (mkGeneral (g_Domain g) (g_DomainConfigurationSource g) false true 0 [] false [] root [] [] false false
              false false [])
    (ArtifactsServer c) (Authentication c) (mkDaemon uid 1000 inplace) (GitLab c) (mkListeners [5%Z] [7%Z] [] [])
    (Log c) (Sentry c) (TLS c) (Zip c) 9 (ListenHTTPStrings c) (ListenHTTPSStrings c) (ListenProxyStrings c)
    (ListenHTTPSProxyv2Strings c).

Definition demo_run (inplace : bool) (root : str) : DaemonRun :=
  daemonize mem_os demo_env map_order (demo_daemon 998 inplace root) (mkJState demo_machine []).

Example demo_run_trace : map fst (trace (run_state (demo_run true &"/srv/pages"))) =
  [SUnshare CLONE_NEWNS; SMount &"none" &"/" (Z.lor MS_REC MS_PRIVATE); SOpen &"/usr/bin/gitlab-pages";
   SCreate &"/srv/pages/.daemon.61616161616161616161616161616161" 0x1ed;
   SCopy &"/srv/pages/.daemon.61616161616161616161616161616161" &"/usr/bin/gitlab-pages";
   SStart &"/srv/pages" &"/.daemon.61616161616161616161616161616161" &"/" 998 1000; SSendConfig; SWait;
   SRemove &"/srv/pages/.daemon.61616161616161616161616161616161"; SKill; SWait].
Proof. vm_compute. reflexivity. Qed.

Lemma updateFds_inherits_witness :
  let '(config, cmd) := updateFds (demo_daemon 998 false &"/srv/pages")
                          (add_extra_file 10 (mkCmd [] [] [] [] [] 0 0 true [] false)) in
  child_file cmd 3 = Some 10%Z /\ Listeners config = mkListeners [4%Z] [5%Z] [] []
  /\ Forall2 (fun fd fd' => child_file cmd fd' = Some fd) [7%Z] (l_HTTPS (Listeners config)).
Proof.
  pose proof (updateFds_inherits (demo_daemon 998 false &"/srv/pages") (mkCmd [] [] [] [] [] 0 0 true [] false) 10 eq_refl) as H.
  destruct (updateFds _ _) as [config cmd] eqn:E. destruct H as (H1 & _ & H2 & _).
  split; [exact H1|]. split; [vm_compute in E; by injection E as <- _|exact H2].
Defined.

Lemma child_started_in_built_jail_witness :
  let tr := trace (run_state (demo_run true &"/srv/pages")) in
  tr !! 5 = Some (SStart &"/srv/pages" &"/.daemon.61616161616161616161616161616161" &"/" 998 1000, None)
  /\ exists j st st', st = (Unshare mem_os (mkJState demo_machine [])).2
       /\ Build mem_os j (visit_files map_order 0 (j_files j)) (visit_files map_order 1 (j_files j))
       (visit_mounts map_order 0 (j_bindMounts j)) st = (None, st') /\ &"/srv/pages" = jail_Path j /\ take 5 tr = trace st'.
Proof.
  assert (H : trace (run_state (demo_run true &"/srv/pages")) !! 5
    = Some (SStart &"/srv/pages" &"/.daemon.61616161616161616161616161616161" &"/" 998 1000, None)) by run.
  split; [exact H|].
  destruct (child_started_in_built_jail mem_os demo_env map_order (demo_daemon 998 true &"/srv/pages") demo_machine
    _ _ _ _ _ _ _ H) as (_ & _ & _ & _ & j & _ & st & st' & _ & _ & Hc & Hst & _ & Hb & _ & Ht).
  exists j, st, st'. split; [exact Hst|]. split; [exact Hb|]. split; [exact Hc|exact Ht].
Defined.

Lemma daemonize_changes_confined_witness :
  Forall (changes_under [&"tmp"; &"gitlab-pages-7"]) (trace (run_state (demo_run false &"/srv/pages")))
  /\ trace (run_state (demo_run false &"/srv/pages")) !! 7 = Some (SMkdir &"/tmp/gitlab-pages-7/srv" perm755, None).
Proof.
  split; [|run].
  apply (daemonize_changes_confined mem_os demo_env map_order); [decide_now|done|run|by intros wd [= <-]|].
  intros dir entries [= <-]. constructor; [decide_now|constructor].
Defined.

Lemma daemonize_removals_safe_witness : safe_removals (trace (run_state (demo_run false &"/srv/pages"))).
Proof. apply (daemonize_removals_safe mem_os demo_env map_order). Defined.

Lemma daemon_uid_wraps_to_root_witness : exists cmd,
  daemonReexec demo_env 4294967296 1000 [] = Ok cmd /\ cmd_Uid cmd = 0%Z.
Proof. eexists. split; [reflexivity|]. by eapply (daemon_uid_wraps_to_root demo_env 1 1000 []). Defined.

Lemma pages_root_below_etc_never_starts_witness :
  run_error (demo_run false &"/etc/pages") <> None /\ cmd_Process (run_cmd (demo_run false &"/etc/pages")) = false.
Proof.
  apply (pages_root_below_etc_never_starts mem_os id demo_env map_order (demo_daemon 998 false &"/etc/pages")
    demo_machine [&"tmp"; &"gitlab-pages-7"] &"etc" [&"pages"]); [decide_now|done|by right|decide_now|done|run|run].
Defined.
