(* ===== verification/Server.v ===== *)
(** * Listeners and servers

    server.go, the keep-alive methods of internal/netutil, and [Run] with the
    [listen*FD] methods of app.go.  The layers around a listener are data and
    [Accept] runs through them; [None] is a panic.  [Run] and the goroutines
    it starts are a transition system with the counter of the wait group. *)

From S2P Require Import Prelude GoStd GoUrl Header Http Domain Domains Tls Config Artifact App Logging.

(** ** The pipeline with its loggers *)

Section LoggedPipeline.

#[local] Set Default Proof Using "Type".

Context {Certificate : Type}.
Abbreviation handler := (HTTPHandler (Certificate := Certificate)).
Context (a : theApp (Certificate := Certificate)) (config : Config).

Context (artifact_Do : URL -> Header -> result ApiResponse).
Context (corsHandler metricsMiddleware : handler -> handler).
(** The option of the correlation middleware is whether it propagates. *)
Context (InjectCorrelationID : bool -> handler -> handler).
Context (correlation_id : CtxRequest (Certificate := Certificate) -> str).
Context (lib_AccessLogger : (CtxRequest (Certificate := Certificate) -> option Fields) -> Logger -> (str -> bool) ->
                            handler -> handler).
Context (Initialize : Initializer).

Abbreviation basic_logger := (BasicAccessLogger correlation_id lib_AccessLogger Initialize).

Definition logged_healthCheckMiddleware (h : handler) : result handler :=
  let? loggedHealthCheck := basic_logger (fun _ w => healthCheck a w) (log_Format (Log config)) None in
  Ok (fun r w => if decide (req_RequestURI (ctx_req r) = app_StatusPath a)
                 then loggedHealthCheck r w else h r w).

Definition build_pipeline : result handler :=
  let? h := logging_AccessLogger correlation_id lib_AccessLogger Initialize
              (domain_pipeline artifact_Do corsHandler a) (log_Format (Log config)) in
  let h := routingMiddleware a (metricsMiddleware h) in
  let? h := logged_healthCheckMiddleware h in
  Ok (NewMiddleware (InjectCorrelationID (g_PropagateCorrelationID (General config)) (customHeadersMiddleware a h))).

(** Where the sources are not nil and the library middlewares add no panic,
    the pipeline with its loggers has none. *)
Lemma build_pipeline_no_panic `{!AccessLoggerLaws lib_AccessLogger, !PanicFree routed corsHandler,
    !PanicFree routed metricsMiddleware, !forall b, PanicFree (fun _ => True) (InjectCorrelationID b)} h :
  sources_ready a -> build_pipeline = Ok h -> no_panic (fun _ => True) h.
Proof.
  intros Hs. unfold build_pipeline, logging_AccessLogger, BasicAccessLogger, logged_healthCheckMiddleware.
  unfold BasicAccessLogger. destruct (getAccessLogger _ _) as [logger|]; [|done]. cbn [result_bind].
  intros [= <-] r w _. unfold NewMiddleware. case_decide as Hm; [|by eauto]. apply panic_free; [|done].
  clear r w Hm. intros r w _. unfold customHeadersMiddleware. case_decide.
  - apply (access_logger_panics lib_AccessLogger (fun _ => True)); [by eexists| |done].
    intros r' w' _. unfold healthCheck. destruct Hs as [[b ->] _]. destruct b; eauto.
  - apply (routing_no_panic a); [done| |done]. apply panic_free, (access_logger_panics lib_AccessLogger).
    + apply getExtraLogFields_routed.
    + by apply domain_pipeline_no_panic.
Qed.

End LoggedPipeline.

(** ** Connections *)

Definition errKeepaliveNotSupported : error := ErrSentinel &"Keepalive not supported".

(** What the kernel gave, a TCP connection or another kind, below the
    wrappers. *)
Inductive Conn : Type :=
  | netConn (tcp : bool) (n : nat)
  | sharedLimitListenerConn (c : Conn) (tcpConn : option nat)
  | proxyprotoConn (c : Conn)
  | tlsServerConn (c : Conn).

Inductive conn_event : Type :=
  | EvAcquire | EvRelease | EvAccept
  | EvKeepAlive (n : nat) (enabled : bool)
  | EvKeepAlivePeriod (n : nat) (d : Z).

(** [c.( *net.TCPConn)] *)
Definition as_tcp (c : Conn) : option nat :=
  match c with netConn true n => Some n | _ => None end.

(** The two methods of [keepAliveSetter]; [None] when the connection does not
    have them. *)
Definition keep_alive_call (ev : nat -> conn_event) (c : Conn) : option (option error * list conn_event) :=
  match c with
  | netConn true n => Some (None, [ev n])
  | sharedLimitListenerConn _ None => Some (Some errKeepaliveNotSupported, [])
  | sharedLimitListenerConn _ (Some n) => Some (None, [ev n])
  | _ => None
  end.
Definition SetKeepAlive (enabled : bool) (c : Conn) := keep_alive_call (fun n => EvKeepAlive n enabled) c.
Definition SetKeepAlivePeriod (period : Z) (c : Conn) := keep_alive_call (fun n => EvKeepAlivePeriod n period) c.

Section Server.

#[local] Set Default Proof Using "Type".

Context {Certificate : Type} (X509KeyPair : str -> str -> result Certificate).

Abbreviation handler := (HTTPHandler (Certificate := Certificate)).
Abbreviation tls_config := (tlsConfig Certificate (str -> option (option Certificate))).

(** ** Listeners *)

Inductive Listener : Type :=
  | FileListener (fd : Z)
  | sharedLimitListener (l : Listener) (maxConns : Z)
  | keepAliveListener (l : Listener)
  | proxyprotoListener (l : Listener)
  | tlsListener (l : Listener) (c : tls_config).

(** What the proxy protocol library makes of an accepted connection. *)
Context (proxyproto_wrap : Conn -> result Conn).

(** [Accept], with the result of [acquire] and the answer of the kernel. *)
Fixpoint Accept (acquired : bool) (answer : result (bool * nat)) (l : Listener)
  : option (result Conn * list conn_event) :=
  match l with
  | FileListener _ =>
      Some (match answer with Ok (tcp, n) => Ok (netConn tcp n) | Err err => Err err end, [EvAccept])
  | sharedLimitListener l _ =>
      match Accept acquired answer l with
      | None => None
      | Some (r, evs) =>
          let evs := (if acquired then [EvAcquire] else []) ++ evs in
          match r with
          | Err err => Some (Err err, evs ++ (if acquired then [EvRelease] else []))
          | Ok c => Some (Ok (sharedLimitListenerConn c (as_tcp c)), evs)
          end
      end
  | keepAliveListener l =>
      match Accept acquired answer l with
      | None => None
      | Some (Err err, evs) => Some (Err err, evs)
      | Some (Ok conn, evs) =>
          match SetKeepAlive true conn, SetKeepAlivePeriod (3 * minute) conn with
          | Some (_, evs1), Some (_, evs2) => Some (Ok conn, evs ++ evs1 ++ evs2)
          | _, _ => None
          end
      end
  | proxyprotoListener l =>
      match Accept acquired answer l with
      | None => None
      | Some (Err err, evs) => Some (Err err, evs)
      | Some (Ok conn, evs) => Some (proxyproto_wrap conn, evs)
      end
  | tlsListener l _ =>
      match Accept acquired answer l with
      | None => None
      | Some (Err err, evs) => Some (Err err, evs)
      | Some (Ok conn, evs) => Some (Ok (tlsServerConn conn), evs)
      end
  end.

(** ** listenAndServe *)

Record http_Server : Type := mkServer { srv_Handler : handler; srv_TLSConfig : option tls_config }.

(** [context.ClearHandler], [http2.ConfigureServer] and [net.FileListener]. *)
Context (ClearHandler : handler -> handler).
Context (http2_ConfigureServer : http_Server -> result http_Server).
Context (net_FileListener : Z -> option error).

(** (The text of the inner error is left out.) *)
Definition fd_error (fd : Z) : error := ErrMsg (&"failed to listen on FD " ++ FormatInt fd).

(** Up to [server.Serve], which gets the server and the listener. *)
Definition listenAndServe (fd : Z) (h : handler) (useHTTP2 : bool) (tlsConfig : option tls_config)
    (limiter : option Z) (proxyv2 : bool) : result (http_Server * Listener) :=
  let server := mkServer (ClearHandler h) tlsConfig in
  let? server := if useHTTP2 then http2_ConfigureServer server else Ok server in
  match net_FileListener fd with
  | Some _ => Err (fd_error fd)
  | None =>
      let l := FileListener fd in
      let l := match limiter with Some n => sharedLimitListener l n | None => l end in
      let l := keepAliveListener l in
      let l := if proxyv2 then proxyprotoListener l else l in
      let l := match tlsConfig, srv_TLSConfig server with
               | Some _, Some c => tlsListener l c
               | _, _ => l
               end in
      Ok (server, l)
  end.

(** The documented effect of [http2.ConfigureServer]: it adds the protocol to
    the server, and of the TLS settings changes neither the certificates nor
    the versions and ciphers. *)
Class Http2Laws : Prop :=
  configure_server s s' : http2_ConfigureServer s = Ok s' ->
    srv_Handler s' = srv_Handler s
    /\ forall c, srv_TLSConfig s = Some c -> exists c', srv_TLSConfig s' = Some c'
         /\ GetCertificate c' = GetCertificate c /\ Certificates c' = Certificates c
         /\ CipherSuites c' = CipherSuites c /\ MinVersion c' = MinVersion c /\ MaxVersion c' = MaxVersion c.

(** ** The application *)

Context (a : theApp (Certificate := Certificate)) (config : Config).

Definition app_TLSConfig : result tls_config :=
  tls_Create X509KeyPair (g_RootCertificate (General config)) (g_RootKey (General config))
    (ServeTLS X509KeyPair a) (g_InsecureCiphers (General config)) (tls_MinVersion (TLS config))
    (tls_MaxVersion (TLS config)).

Context (ProxyHeaders : handler -> handler).

(** *** The servers *)

(** The limiter that all listeners share, by its limit. *)
Definition Run_limiter : option Z :=
  if (0 <? g_MaxConns (General config))%Z then Some (g_MaxConns (General config)) else None.

Section Pipeline.

Context (pipeline : handler).

Definition proxyHandler : handler := proxyInitialMiddleware (ProxyHeaders pipeline).
Definition httpHandler : handler := httpInitialMiddleware pipeline.

Definition listenHTTPFD (fd : Z) : result (http_Server * Listener) :=
  listenAndServe fd httpHandler (g_HTTP2 (General config)) None Run_limiter false.
Definition listenHTTPSFD (fd : Z) : result (http_Server * Listener) :=
  let? tlsConfig := app_TLSConfig in
  listenAndServe fd httpHandler (g_HTTP2 (General config)) (Some tlsConfig) Run_limiter false.
Definition listenProxyFD (fd : Z) : result (http_Server * Listener) :=
  listenAndServe fd proxyHandler (g_HTTP2 (General config)) None Run_limiter false.
Definition ListenHTTPSProxyv2FD (fd : Z) : result (http_Server * Listener) :=
  let? tlsConfig := app_TLSConfig in
  listenAndServe fd httpHandler (g_HTTP2 (General config)) (Some tlsConfig) Run_limiter true.
Definition listenMetricsFD (fd : Z) : result Z :=
  match net_FileListener fd with Some _ => Err (fd_error fd) | None => Ok fd end.

Inductive listener_kind : Type := KHTTP | KHTTPS | KProxy | KHTTPSProxyv2 | KMetrics.

Inductive serving : Type :=
  | Pages (s : http_Server) (l : Listener)
  | Monitoring (fd : Z).

(** What the goroutine of a listener serves, or the error it dies of. *)
Definition start_listener (k : listener_kind) (fd : Z) : result serving :=
  let pages r := let? p := r in Ok (Pages p.1 p.2) in
  match k with
  | KHTTP => pages (listenHTTPFD fd)
  | KHTTPS => pages (listenHTTPSFD fd)
  | KProxy => pages (listenProxyFD fd)
  | KHTTPSProxyv2 => pages (ListenHTTPSProxyv2FD fd)
  | KMetrics => let? fd := listenMetricsFD fd in Ok (Monitoring fd)
  end.

Definition Run_jobs : list (listener_kind * Z) :=
  (pair KHTTP <$> l_HTTP (Listeners config)) ++ (pair KHTTPS <$> l_HTTPS (Listeners config))
  ++ (pair KProxy <$> l_Proxy (Listeners config)) ++ (pair KHTTPSProxyv2 <$> l_HTTPSProxyv2 (Listeners config))
  ++ (if (ListenMetrics config =? 0)%Z then [] else [(KMetrics, ListenMetrics config)]).

(** ** Run and its goroutines *)

(** The goroutine of [listenProxyFD] starts another one. *)
Inductive goroutine : Type :=
  | GOuter (fd : Z)
  | GStarting (k : listener_kind) (fd : Z)
  | GServing (k : listener_kind) (fd : Z) (s : serving).

Definition goroutine_job (g : goroutine) : listener_kind * Z :=
  match g with GOuter fd => (KProxy, fd) | GStarting k fd => (k, fd) | GServing k fd _ => (k, fd) end.

Inductive main_pc : Type := MListen (todo : list (listener_kind * Z)) | MRead | MWait | MReturned.

(** [rs_ended] holds the listeners whose server returned without an error;
    [rs_exit] the error the process exits with. *)
Record run_state : Type := mkRun {
  rs_main : main_pc; rs_wg : nat; rs_go : list goroutine; rs_ended : list (listener_kind * Z);
  rs_exit : option error }.

Definition Run_initial : run_state := mkRun (MListen Run_jobs) 0 [] [] None.

(** [wg.Add(1)] and the [go] statement. *)
Definition spawn (k : listener_kind) (fd : Z) : goroutine :=
  match k with KProxy => GOuter fd | _ => GStarting k fd end.

Inductive rstep : run_state -> run_state -> Prop :=
  | rs_listen k fd todo wg gs en :
      rstep (mkRun (MListen ((k, fd) :: todo)) wg gs en None)
            (mkRun (MListen todo) (S wg) (gs ++ [spawn k fd]) en None)
  | rs_listened wg gs en :
      rstep (mkRun (MListen []) wg gs en None) (mkRun MRead wg gs en None)
  | rs_read wg gs en :
      is_Some (Domains_Read (app_domains a)) ->
      rstep (mkRun MRead wg gs en None) (mkRun MWait wg gs en None)
  | rs_wait gs en :
      rstep (mkRun MWait 0 gs en None) (mkRun MReturned 0 gs en None)
  | rs_outer fd m wg gs1 gs2 en :
      rstep (mkRun m wg (gs1 ++ GOuter fd :: gs2) en None)
            (mkRun m (S wg) (gs1 ++ GStarting KProxy fd :: gs2) en None)
  | rs_start k fd s m wg gs1 gs2 en :
      start_listener k fd = Ok s ->
      rstep (mkRun m wg (gs1 ++ GStarting k fd :: gs2) en None)
            (mkRun m wg (gs1 ++ GServing k fd s :: gs2) en None)
  | rs_start_fails k fd err m wg gs1 gs2 en :
      start_listener k fd = Err err ->
      rstep (mkRun m wg (gs1 ++ GStarting k fd :: gs2) en None)
            (mkRun m wg (gs1 ++ GStarting k fd :: gs2) en (Some err))
  | rs_serve_fails k fd s err m wg gs1 gs2 en :
      rstep (mkRun m wg (gs1 ++ GServing k fd s :: gs2) en None)
            (mkRun m wg (gs1 ++ GServing k fd s :: gs2) en (Some err))
  | rs_serve_returns k fd s m wg gs1 gs2 en :
      rstep (mkRun m (S wg) (gs1 ++ GServing k fd s :: gs2) en None)
            (mkRun m wg (gs1 ++ gs2) (en ++ [(k, fd)]) None).

Definition rreach (st : run_state) : Prop := rtc rstep Run_initial st.




(** ** What a listener serves *)

Definition is_proxy (k : listener_kind) : bool := match k with KProxy => true | _ => false end.
Definition uses_tls (k : listener_kind) : bool := match k with KHTTPS | KHTTPSProxyv2 => true | _ => false end.

(** The listener below TLS and the proxy protocol. *)
Definition base_listener (fd : Z) : Listener :=
  keepAliveListener (match Run_limiter with
                     | Some n => sharedLimitListener (FileListener fd) n
                     | None => FileListener fd
                     end).

(** TLS settings that agree in what the application sets. *)
Definition same_tls (c c' : tls_config) : Prop :=
  GetCertificate c' = GetCertificate c /\ Certificates c' = Certificates c
  /\ CipherSuites c' = CipherSuites c /\ MinVersion c' = MinVersion c /\ MaxVersion c' = MaxVersion c.

(** The promise for one listener: only the proxy listeners trust forwarding
    headers, the https listeners speak TLS with the settings of the
    application around everything else, the others never do, and the proxy
    protocol is read below TLS. *)
Definition serves (k : listener_kind) (fd : Z) (s : serving) : Prop :=
  match k, s with
  | KMetrics, Monitoring fd' => fd' = fd
  | KHTTP, Pages srv l => srv_Handler srv = ClearHandler httpHandler /\ l = base_listener fd
  | KProxy, Pages srv l => srv_Handler srv = ClearHandler proxyHandler /\ l = base_listener fd
  | KHTTPS, Pages srv l =>
      srv_Handler srv = ClearHandler httpHandler
      /\ exists c c', app_TLSConfig = Ok c /\ same_tls c c' /\ l = tlsListener (base_listener fd) c'
  | KHTTPSProxyv2, Pages srv l =>
      srv_Handler srv = ClearHandler httpHandler
      /\ exists c c', app_TLSConfig = Ok c /\ same_tls c c'
           /\ l = tlsListener (proxyprotoListener (base_listener fd)) c'
  | _, _ => False
  end.

Context `{H2 : !Http2Laws}.

Lemma same_tls_refl c : same_tls c c.
Proof. done. Qed.

Lemma listenAndServe_plain fd h h2 limiter proxyv2 s l :
  listenAndServe fd h h2 None limiter proxyv2 = Ok (s, l) ->
  srv_Handler s = ClearHandler h
  /\ l = let b := keepAliveListener (match limiter with Some n => sharedLimitListener (FileListener fd) n
                                     | None => FileListener fd end) in
         if proxyv2 then proxyprotoListener b else b.
Proof using H2.
  unfold listenAndServe. destruct h2; cbn [result_bind].
  - destruct (http2_ConfigureServer _) as [srv|] eqn:E; [|done]. apply configure_server in E as [Hh _].
    cbn. destruct (net_FileListener fd); [done|]. by intros [= <- <-].
  - destruct (net_FileListener fd); [done|]. by intros [= <- <-].
Qed.

Lemma listenAndServe_tls fd h h2 c limiter proxyv2 s l :
  listenAndServe fd h h2 (Some c) limiter proxyv2 = Ok (s, l) ->
  srv_Handler s = ClearHandler h
  /\ exists c', same_tls c c'
       /\ l = tlsListener (let b := keepAliveListener (match limiter with
                                      Some n => sharedLimitListener (FileListener fd) n
                                      | None => FileListener fd end) in
                           if proxyv2 then proxyprotoListener b else b) c'.
Proof using H2.
  unfold listenAndServe. destruct h2; cbn [result_bind].
  - destruct (http2_ConfigureServer _) as [srv|] eqn:E; [|done]. apply configure_server in E as [Hh Hc].
    destruct (Hc c eq_refl) as (c' & Hs & Hsame). cbn. destruct (net_FileListener fd); [done|].
    rewrite Hs. intros [= <- <-]. split; [done|]. by exists c'.
  - destruct (net_FileListener fd); [done|]. intros [= <- <-]. split; [done|]. by exists c.
Qed.

Lemma start_listener_serves k fd s : start_listener k fd = Ok s -> serves k fd s.
Proof using H2.
  unfold start_listener, listenHTTPFD, listenHTTPSFD, listenProxyFD, ListenHTTPSProxyv2FD, listenMetricsFD.
  destruct k; cbn [result_bind].
  - destruct (listenAndServe _ _ _ _ _ _) as [[srv l]|] eqn:E; [|done]. intros [= <-].
    by apply listenAndServe_plain in E.
  - destruct app_TLSConfig as [c|] eqn:Ec; [|done]. cbn [result_bind].
    destruct (listenAndServe _ _ _ _ _ _) as [[srv l]|] eqn:E; [|done]. intros [= <-].
    apply listenAndServe_tls in E as (Hh & c' & Hc & Hl). split; [done|]. by exists c, c'.
  - destruct (listenAndServe _ _ _ _ _ _) as [[srv l]|] eqn:E; [|done]. intros [= <-].
    by apply listenAndServe_plain in E.
  - destruct app_TLSConfig as [c|] eqn:Ec; [|done]. cbn [result_bind].
    destruct (listenAndServe _ _ _ _ _ _) as [[srv l]|] eqn:E; [|done]. intros [= <-].
    apply listenAndServe_tls in E as (Hh & c' & Hc & Hl). split; [done|]. by exists c, c'.
  - destruct (net_FileListener fd); [done|]. by intros [= <-].
Qed.

(** ** The invariant of Run *)

Definition todo_of (m : main_pc) : list (listener_kind * Z) := match m with MListen todo => todo | _ => [] end.

(** A proxy listener past its first goroutine counts twice. *)
Definition weight (g : goroutine) : nat :=
  match g with
  | GStarting KProxy _ | GServing KProxy _ _ => 2
  | _ => 1
  end.
Definition proxies (js : list (listener_kind * Z)) : nat := length (filter (fun j => is_proxy j.1 = true) js).
#[local] Arguments proxies : simpl never.

Record run_inv (st : run_state) : Prop := {
  ri_jobs : todo_of (rs_main st) ++ (goroutine_job <$> rs_go st) ++ rs_ended st ≡ₚ Run_jobs;
  ri_served k fd s : GServing k fd s ∈ rs_go st -> serves k fd s;
  ri_wg : rs_wg st = sum_list_with weight (rs_go st) + proxies (rs_ended st);
  ri_returned : rs_main st = MReturned -> rs_wg st = 0 }.

Lemma served_replace k fd s gs1 g g' gs2 :
  (forall k' fd' s', g' = GServing k' fd' s' -> serves k' fd' s') ->
  (forall k fd s, GServing k fd s ∈ gs1 ++ g :: gs2 -> serves k fd s) ->
  GServing k fd s ∈ gs1 ++ g' :: gs2 -> serves k fd s.
Proof.
  intros Hg H [Hin|[Hin|Hin]%elem_of_cons]%elem_of_app; [|by eapply Hg|]; apply H, elem_of_app;
    [by left|right; by right].
Qed.

Lemma proxies_snoc js k fd : proxies (js ++ [(k, fd)]) = proxies js + if is_proxy k then 1 else 0.
Proof. unfold proxies. rewrite filter_app, length_app. by destruct k. Qed.

Lemma rstep_inv st st' : run_inv st -> rstep st st' -> run_inv st'.
Proof using H2.
  intros [Hj Hs Hw Hr] Hstep. destruct Hstep; cbn in *.
  - split; cbn.
    + rewrite <- Hj, fmap_app. cbn. replace (goroutine_job (spawn k fd)) with (k, fd) by (by destruct k). solve_Permutation.
    + intros k' fd' s [Hin|Hin]%elem_of_app; [by apply Hs|]. apply list_elem_of_singleton in Hin. by destruct k.
    + rewrite sum_list_with_app. cbn. destruct k; cbn; lia.
    + done.
  - by split.
  - by split.
  - by split.
  - split; cbn.
    + rewrite <- Hj, !fmap_app. done.
    + intros k fd' s. eapply served_replace; [|exact Hs]. done.
    + rewrite sum_list_with_app in *. cbn in *. lia.
    + intros ->. specialize (Hr eq_refl). rewrite sum_list_with_app in Hw. cbn in Hw. lia.
  - split; cbn.
    + rewrite <- Hj, !fmap_app. done.
    + intros k' fd' s'. eapply served_replace; [|exact Hs]. intros ??? [= <- <- <-]. by apply start_listener_serves.
    + rewrite sum_list_with_app in *. cbn in *. destruct k; lia.
    + done.
  - by split.
  - by split.
  - split; cbn.
    + rewrite <- Hj, !fmap_app. cbn. solve_Permutation.
    + intros k' fd' s' Hin. apply Hs, elem_of_app.
      apply elem_of_app in Hin as [Hin|Hin]; [by left|right; by right].
    + rewrite proxies_snoc. rewrite sum_list_with_app in *. cbn in Hw. destruct k; cbn in *; lia.
    + intros Hm. specialize (Hr Hm). lia.
Qed.

Lemma rreach_inv st : rreach st -> run_inv st.
Proof using H2.
  unfold rreach. revert st. apply (rtc_ind_r run_inv Run_initial).
  - split; cbn; [by rewrite app_nil_r|by intros ??? ?%not_elem_of_nil|done|done].
  - intros x y _ Hstep IH. by eapply rstep_inv.
Qed.

(** [C30] Each configured socket is served by exactly one server of its kind:
    in every reachable state the listeners still to be started, those of the
    running goroutines and those that ended are together the sockets of the
    configuration; and a running server has the handler and the layers of its
    kind (forwarding headers are trusted on proxy listeners only, TLS with
    the application's settings wraps the https listeners and no others, the
    connection limit is below everything). *)
Theorem Run_serves_each_socket st :
  rreach st ->
  todo_of (rs_main st) ++ (goroutine_job <$> rs_go st) ++ rs_ended st ≡ₚ Run_jobs
  /\ forall k fd s, GServing k fd s ∈ rs_go st -> serves k fd s.
Proof using H2. intros H%rreach_inv. split; apply H. Qed.

(** [Run] waits for its servers, and for proxy listeners for ever: it
    returns only when no goroutine is left, and never when the configuration
    has a proxy listener, whose second [wg.Add] is not taken back. *)
Theorem Run_returns_after_servers st :
  rreach st -> rs_main st = MReturned -> rs_go st = [] /\ l_Proxy (Listeners config) = [].
Proof using H2.
  intros [Hj _ Hw Hr]%rreach_inv Hm. specialize (Hr Hm). rewrite Hr in Hw.
  assert (Hgo : rs_go st = []).
  { destruct (rs_go st) as [|g gs]; [done|]. cbn in Hw. destruct g as [|[]|[]]; cbn in Hw; lia. }
  split; [done|]. rewrite Hm, Hgo in Hj. cbn in Hj.
  destruct (l_Proxy (Listeners config)) as [|fd fds] eqn:E; [done|]. exfalso.
  assert (Hin : (KProxy, fd) ∈ rs_ended st) by (rewrite Hj; unfold Run_jobs; rewrite E; set_solver).
  assert (Hpos : 0 < proxies (rs_ended st)); [|rewrite Hgo in Hw; cbn in Hw; lia].
  unfold proxies.
  destruct (filter _ (rs_ended st)) eqn:Ef; [|cbn; lia]. exfalso.
  apply (filter_nil_not_elem_of _ _ (KProxy, fd)) in Ef; [|done]. done.
Qed.

(** ** Accepted connections *)

Definition limited (acquired : bool) : bool := match Run_limiter with Some _ => acquired | None => false end.

Lemma base_listener_accept acquired answer fd :
  (forall tcp n, answer = Ok (tcp, n) -> tcp = true) ->
  match answer with
  | Err err => Accept acquired answer (base_listener fd)
      = Some (Err err, if limited acquired then [EvAcquire; EvAccept; EvRelease] else [EvAccept])
  | Ok (_, n) => exists c, Accept acquired answer (base_listener fd)
      = Some (Ok c, (if limited acquired then [EvAcquire] else [])
                    ++ [EvAccept; EvKeepAlive n true; EvKeepAlivePeriod n (3 * minute)])
  end.
Proof.
  intros Htcp. unfold base_listener, limited. destruct answer as [[tcp n]|err].
  - rewrite (Htcp tcp n eq_refl). destruct Run_limiter, acquired; by eexists.
  - by destruct Run_limiter, acquired.
Qed.

(** Accepting never panics and never loses a slot: on every page server
    that [Run] starts, with TCP sockets, [Accept] returns; a connection has
    keep-alive switched on with three minutes and, on https listeners, is a
    TLS connection; a slot of the connection limit was taken before it when
    there is a limit; and when the kernel fails, the slot is given back. *)
Theorem accept_sets_up_connections st k fd s l acquired answer :
  rreach st -> GServing k fd (Pages s l) ∈ rs_go st ->
  (forall tcp n, answer = Ok (tcp, n) -> tcp = true) ->
  exists r evs, Accept acquired answer l = Some (r, evs)
    /\ match answer with
       | Err err => r = Err err
           /\ evs = (if limited acquired then [EvAcquire; EvAccept; EvRelease] else [EvAccept])
       | Ok (_, n) =>
           evs = (if limited acquired then [EvAcquire] else [])
                 ++ [EvAccept; EvKeepAlive n true; EvKeepAlivePeriod n (3 * minute)]
           /\ (uses_tls k = true -> forall c, r = Ok c -> exists c', c = tlsServerConn c')
       end.
Proof using H2.
  intros [_ Hs _ _]%rreach_inv Hin%Hs Htcp. pose proof (base_listener_accept acquired answer fd Htcp) as Hb.
  unfold serves in Hin. destruct k; [| | | |done].
  - destruct Hin as [_ ->]. destruct answer as [[tcp n]|err]; [destruct Hb as [c ->]|rewrite Hb]; by eexists _, _.
  - destruct Hin as (_ & c0 & c1 & _ & _ & ->). cbn [Accept].
    destruct answer as [[tcp n]|err]; [destruct Hb as [c ->]|rewrite Hb]; eexists _, _; [|done].
    split; [done|]. split; [done|]. intros _ c' [= <-]. by eexists.
  - destruct Hin as [_ ->]. destruct answer as [[tcp n]|err]; [destruct Hb as [c ->]|rewrite Hb]; by eexists _, _.
  - destruct Hin as (_ & c0 & c1 & _ & _ & ->). cbn [Accept].
    destruct answer as [[tcp n]|err]; [destruct Hb as [c ->]|rewrite Hb; by eexists _, _].
    destruct (proxyproto_wrap c) as [c'|err]; eexists _, _; (split; [done|]); (split; [done|]); [|done].
    intros _ c'' [= <-]. by eexists.
Qed.

End Pipeline.

End Server.

(** ** Witnesses *)

(** A server for plain sockets, one with TLS and one with a limit. *)
Definition demo_server_config (maxConns : Z) (http https proxy : list Z) : Config :=
  let c := config_from_flags default_flags in
  let g := General c in
  set_Listeners (mkListeners http https proxy [])
    (set_General (mkGeneral (g_Domain g) (g_DomainConfigurationSource g) false true maxConns [] false [] [] [] [] false
                    false false false []) c).

Definition demo_pages : HTTPHandler (Certificate := unit) := serveFileOrNotFoundHandler demo_app.
Definition demo_keypair (cert key : str) : result unit := Ok tt.
Definition demo_http2 (s : http_Server (Certificate := unit)) : result http_Server := Ok s.

#[export] Instance demo_http2_laws : Http2Laws demo_http2.
Proof. intros s s' [= <-]. split; [done|]. intros c Hc. by exists c. Qed.

Abbreviation demo_reach config :=
  (rreach demo_keypair transparent demo_http2 (fun _ => None) demo_app config transparent demo_pages).
Abbreviation demo_start config :=
  (start_listener demo_keypair transparent demo_http2 (fun _ => None) demo_app config transparent demo_pages).

(** The https listener on descriptor 8 is served while the one on 7 has only
    been started. *)
Lemma demo_https_reached : exists srv l,
  demo_start (demo_server_config 10 [7%Z] [8%Z] []) KHTTPS 8 = Ok (Pages srv l)
  /\ demo_reach (demo_server_config 10 [7%Z] [8%Z] [])
       (mkRun (MListen []) 2 [GStarting KHTTP 7; GServing KHTTPS 8 (Pages srv l)] [] None).
Proof.
  eexists _, _. split; [reflexivity|]. unfold rreach, Run_initial.
  eapply rtc_l; [apply rs_listen|]. eapply rtc_l; [apply rs_listen|].
  eapply rtc_l; [|apply rtc_refl].
  apply (rs_start _ _ _ _ _ _ _ _ KHTTPS 8 _ (MListen []) 2 [GStarting KHTTP 7] []). reflexivity.
Defined.

Lemma Run_serves_each_socket_witness : exists srv l,
  serves demo_keypair transparent demo_app (demo_server_config 10 [7%Z] [8%Z] []) transparent demo_pages
    KHTTPS 8 (Pages srv l).
Proof.
  destruct demo_https_reached as (srv & l & _ & Hr). exists srv, l.
  apply (Run_serves_each_socket demo_keypair transparent demo_http2 (fun _ => None) demo_app
    (demo_server_config 10 [7%Z] [8%Z] []) transparent demo_pages _ Hr). right; left.
Defined.

Lemma accept_sets_up_connections_witness : exists l r evs,
  Accept Ok true (Ok (true, 5)) (l : Listener (Certificate := unit)) = Some (r, evs)
  /\ evs = [EvAcquire; EvAccept; EvKeepAlive 5 true; EvKeepAlivePeriod 5 (3 * minute)].
Proof.
  destruct demo_https_reached as (srv & l & _ & Hr). exists l.
  destruct (accept_sets_up_connections demo_keypair Ok transparent demo_http2 (fun _ => None) demo_app
    (demo_server_config 10 [7%Z] [8%Z] []) transparent demo_pages _ KHTTPS 8 srv l true (Ok (true, 5)) Hr)
    as (r & evs & Ha & He & _).
  - right; left.
  - by intros tcp n [= <- _].
  - exists r, evs. split; [exact Ha|exact He].
Defined.

Lemma Run_returns_after_servers_witness :
  demo_reach (demo_server_config 0 [] [] []) (mkRun MReturned 0 [] [] None)
  /\ l_Proxy (Listeners (demo_server_config 0 [] [] [])) = [].
Proof.
  assert (Hr : demo_reach (demo_server_config 0 [] [] []) (mkRun MReturned 0 [] [] None)).
  { eapply rtc_l; [apply rs_listened|]. eapply rtc_l; [apply rs_read; by eexists|].
    eapply rtc_l; [apply rs_wait|]. apply rtc_refl. }
  split; [exact Hr|].
  exact (proj2 (Run_returns_after_servers demo_keypair transparent demo_http2 (fun _ => None) demo_app
    (demo_server_config 0 [] [] []) transparent demo_pages _ Hr eq_refl)).
Defined.
