(* ===== verification/Startup.v ===== *)
(** * Starting the process

    main.go, helpers.go, and [runApp] and [setAuth] of app.go.  The
    operations of the start-up append to a trace and either go on or exit the
    process; [Run] and its servers are in Server.v, the unprivileged daemon
    in Daemon.v, which [appMain] calls. *)

From S2P Require Import Prelude GoStd GoUrl Header Http Serving Domain GitlabClient GitlabSource DiskSource Domains.
From S2P Require Import Tls Config Artifact App Logging Auth Jail Daemon Server.

Definition VERSION : str := &"dev".
Definition REVISION : str := &"HEAD".

(** ** The surroundings *)

(** What [runApp] uses from elsewhere: the servings of the two sources, the
    answers of the cached API client, the random keys, stores and clients of
    the authentication, the log library, the zip file system, and the order
    in which Go visits the header map. *)
Record AppEnv : Type := mkAppEnv {
  local_Instance : Serving; zip_Instance : Serving; cached_lookup : Client -> str -> Lookup;
  cr : Crypto; stream : nat -> result str;
  store_Get : Request -> gmap str str * bool;
  store_Save : gmap str str -> Request -> Response -> result Response;
  auth_Do : AuthRequest -> result (Z * str);
  decode_token : str -> result tokenResponse; decode_error : str -> result errorResponse;
  fresh_state : str; fresh_nonce : str; now : Z;
  Initialize : Initializer; zip_Reconfigure : Config -> option error;
  header_order : Header -> list (str * list str) }.

(** What is closed at the end: a listener or its file. *)
Inductive Closer : Type := CListener (id : nat) | CFile (fd : Z).

Inductive event : Type :=
  | EvDeprecated (err : error)
  | EvVersion (version : str)
  | EvSentry (dsn environment version : str)
  | EvLogConfig (fields : list (str * LogValue))
  | EvBanner
  | EvChdir (dir : str)
  | EvListen (addr : str) (id : nat)
  | EvFile (id : nat) (fd : Z)
  | EvDaemonize (config : Config)
  | EvClose (c : Closer).

(** The kernel, whose answers may depend on what was done before, the files
    and the flag library, which exits by itself with a code. *)
Record ProcEnv : Type := mkProcEnv {
  net_Listen : list event -> str -> result nat; listener_File : list event -> nat -> result Z;
  os_Chdir : str -> option error; ReadFile : str -> result str;
  flag_Parse : list str -> Flags -> Flags + Z; DefaultConfigFlagname : str }.

Section Startup.

#[local] Set Default Proof Using "Type".

Context {Certificate : Type} (ae : AppEnv) (pe : ProcEnv).

(** ** Assembling the application *)

Definition NewFromConfig (config : Config) : result Client :=
  NewClient (InternalGitLabServerURL config) (GitlabAPISecret config) (GitlabClientConnectionTimeout config)
    (GitlabJWTTokenExpiry config).

Definition gitlab_source (config : Config) : result (DomainSource (Certificate := Certificate)) :=
  let? client := NewFromConfig config in
  let? g := Gitlab_New (Ok client) true in
  Ok (gitlab_as_source (local_Instance ae) (zip_Instance ae) (cached_lookup ae client) g).

Definition config_domains (config : Config) : result (Domains (Certificate := Certificate)) :=
  NewDomains (DomainConfigSource config) (gitlab_source config) (disk_as_source (local_Instance ae) Disk_New).

Definition setAuth (config : Config) : result (option AuthConf) :=
  let au := Authentication config in
  if negb (nonempty (au_ClientID au)) then Ok None
  else
    let? a := Auth_New (stream ae) (g_Domain (General config)) (au_Secret au) (au_ClientID au) (au_ClientSecret au)
                (au_RedirectURI au) (gl_Server (GitLab config)) (au_Scope au) in
    Ok (Some a).

(** The source of domains that the authentication asks; the nil domain is
    [Ok None]. *)
Definition auth_source (d : Domains (Certificate := Certificate)) (name : str) : result (option (Domain Certificate)) :=
  default (Err errPanic) (Domains_GetDomain d name).

Definition app_custom_headers (config : Config) : result (list (str * list str)) :=
  match g_CustomHeaders (General config) with
  | [] => Ok []
  | hs => let? h := ParseHeaderString hs in Ok (header_order ae h)
  end.

(** The message that is logged with a fatal error. *)
Definition failing {A} (message : str) (r : result A) : result A :=
  match r with Err err => Err (ErrWrap message err) | Ok x => Ok x end.
Definition failing_error (message : str) (err : option error) : result unit :=
  match err with Some err => Err (ErrWrap message err) | None => Ok tt end.

(** [runApp] up to [a.Run]; every error is fatal. *)
Definition runApp (config : Config) : result (theApp (Certificate := Certificate)) :=
  let? domains := failing &"could not create domains config source" (config_domains config) in
  let? _ := failing_error &"Failed to initialize logging"
              (ConfigureLogging (Initialize ae) (log_Format (Log config)) (log_Verbose (Log config))) in
  let artifact := if nonempty (as_URL (ArtifactsServer config))
                  then Some (Artifact_New (as_URL (ArtifactsServer config))
                               (as_TimeoutSeconds (ArtifactsServer config)) (g_Domain (General config)))
                  else None in
  let? oa := failing &"could not initialize auth package" (setAuth config) in
  let acme := if nonempty (gl_Server (GitLab config)) then Some (gl_Server (GitLab config)) else None in
  let? customHeaders := failing &"Unable to parse header string" (app_custom_headers config) in
  let? _ := failing_error &"failed to reconfigure zip VFS" (zip_Reconfigure ae config) in
  Ok (mkApp (g_RedirectHTTP (General config)) (g_StatusPath (General config))
        (g_DisableCrossOriginRequests (General config)) domains artifact
        (auth_as_app (cr ae) (store_Get ae) (store_Save ae) (auth_Do ae) (decode_token ae) (decode_error ae)
           (fresh_state ae) (fresh_nonce ae) (now ae)
           (auth_source domains) oa)
        acme customHeaders).

(** ** The process *)

(** An operation appends to the trace and goes on with a value, or exits the
    process with a code and the error that was logged. *)
Inductive outcome (A : Type) : Type :=
  | Continue (x : A)
  | Exit (code : Z) (err : option error).
Arguments Continue {A}.
Arguments Exit {A}.

Definition M (A : Type) : Type := list event -> outcome A * list event.
Definition ret {A} (x : A) : M A := fun tr => (Continue x, tr).
Definition bind {A B} (m : M A) (k : A -> M B) : M B := fun tr =>
  match m tr with
  | (Continue x, tr') => k x tr'
  | (Exit code err, tr') => (Exit code err, tr')
  end.
Definition emit (e : event) : M unit := fun tr => (Continue tt, tr ++ [e]).
Definition os_Exit {A} (code : Z) : M A := fun tr => (Exit code None, tr).
Definition fatal {A} (err : error) (message : str) : M A := fun tr => (Exit 1 (Some (ErrWrap message err)), tr).
(** An error that is fatal unless it is nil. *)
Definition check (err : option error) (message : str) : M unit :=
  match err with Some err => fatal err message | None => ret tt end.
Definition check_result {A} (r : result A) (message : str) : M A :=
  match r with Err err => fatal err message | Ok x => ret x end.
(** An operation that logs its own fatal errors. *)
Definition or_exit {A} (r : result A) : M A :=
  match r with Err err => fun tr => (Exit 1 (Some err), tr) | Ok x => ret x end.

#[local] Notation "x <- m ; k" := (bind m (fun x => k)) (at level 60, m at level 59, k at level 60, right associativity).

Definition fileForListener (l : nat) : M Z := fun tr =>
  (f <- check_result (listener_File pe tr l) &"could not find file for listener";
   _ <- emit (EvFile l f); ret f) tr.

Definition createSocket (addr : str) : M (nat * Z) := fun tr =>
  (l <- check_result (net_Listen pe tr addr) &"could not create socket";
   _ <- emit (EvListen addr l);
   f <- fileForListener l; ret (l, f)) tr.

(** One of the loops of [createAppListeners]: the closers and the
    descriptors, in order. *)
Fixpoint create_listeners (addrs : list str) : M (list Closer * list Z) :=
  match addrs with
  | [] => ret ([], [])
  | addr :: rest =>
      p <- createSocket addr;
      q <- create_listeners rest;
      ret (CListener p.1 :: CFile p.2 :: q.1, p.2 :: q.2)
  end.

Definition createAppListeners (config : Config) : M (list Closer * Config) :=
  h <- create_listeners (msf_Split (ListenHTTPStrings config));
  s <- create_listeners (msf_Split (ListenHTTPSStrings config));
  p <- create_listeners (msf_Split (ListenProxyStrings config));
  v <- create_listeners (msf_Split (ListenHTTPSProxyv2Strings config));
  ret (h.1 ++ s.1 ++ p.1 ++ v.1, set_Listeners (mkListeners h.2 s.2 p.2 v.2) config).

Definition createMetricsListener (config : Config) : M (list Closer * Config) :=
  let addr := g_MetricsAddress (General config) in
  if negb (nonempty addr) then ret ([], config)
  else p <- createSocket addr; ret ([CListener p.1; CFile p.2], set_ListenMetrics p.2 config).

Fixpoint closeAll (cs : list Closer) : M unit :=
  match cs with
  | [] => ret tt
  | c :: rest => _ <- emit (EvClose c); closeAll rest
  end.

Definition printVersion (showVersion : bool) (version : str) : M unit :=
  if showVersion then _ <- emit (EvVersion version); os_Exit 0 else ret tt.

Definition initErrorReporting (sentryDSN sentryEnvironment : str) : M unit :=
  emit (EvSentry sentryDSN sentryEnvironment (VERSION ++ &"-" ++ REVISION)).

(** ** appMain *)

Context {W : Type} (os : JailOS W) (env : HostEnv) (visit : MapVisit) (world : jstate W).

(** Where the process is when it has not exited: in [Run], with the deferred
    calls, or returned after the daemon ended. *)
Inductive process : Type :=
  | Serving_pages (a : theApp (Certificate := Certificate)) (config : Config) (deferred : list (list Closer))
  | Returned (run : DaemonRun (W := W)).

(** [LoadConfig], with the flags for the log; the flag library exits the
    process by itself. *)
Definition load (args : list str) : M (Flags * Config) :=
  match flag_Parse pe args default_flags with
  | inr code => os_Exit code
  | inl f => config <- or_exit (loadConfig (ReadFile pe) f); ret (f, config)
  end.

(** From the flags to the working directory. *)
Definition prepare (args : list str) : M Config :=
  _ <- check (NotAllowed args) &"Using invalid arguments, use -config=gitlab-pages-config file instead";
  _ <- match Deprecated args with Some err => emit (EvDeprecated err) | None => ret tt end;
  p <- load args;
  let '(f, config) := p in
  _ <- printVersion (g_ShowVersion (General config)) VERSION;
  _ <- (if nonempty (sentry_DSN (Sentry config))
        then initErrorReporting (sentry_DSN (Sentry config)) (sentry_Environment (Sentry config)) else ret tt);
  _ <- check (ConfigureLogging (Initialize ae) (log_Format (Log config)) (log_Verbose (Log config)))
        &"Failed to initialize logging";
  _ <- emit (EvLogConfig (LogConfig (DefaultConfigFlagname pe) f config));
  _ <- emit EvBanner;
  _ <- check (os_Chdir pe (g_RootDir (General config))) &"could not change directory into pagesRoot";
  _ <- emit (EvChdir (g_RootDir (General config)));
  ret config.

Definition appMain (args : list str) : M process :=
  config <- prepare args;
  c1 <- createAppListeners config;
  c2 <- createMetricsListener c1.2;
  let config := c2.2 in
  if negb (d_UID (Daemon config) =? 0)%Z || negb (d_GID (Daemon config) =? 0)%Z then
    let run := daemonize os env visit config world in
    _ <- emit (EvDaemonize config);
    _ <- check (run_error run) &"could not create pages daemon";
    (* the deferred calls, last first *)
    _ <- closeAll c2.1;
    _ <- closeAll c1.1;
    ret (Returned run)
  else
    a <- or_exit (runApp config);
    ret (Serving_pages a config [c2.1; c1.1]).

(** The child of the daemon reads its configuration from the parent. *)
Context (decode : str -> result Config).

Definition main (arg0 options : str) (args : list str) : M process :=
  match daemonMain decode env arg0 options with
  | Some r =>
      config <- or_exit r;
      a <- or_exit (runApp config);
      ret (Serving_pages a config [])
  | None => appMain args
  end.

(** ** Lemmas: traces *)

Lemma bind_continue {A B} (m : M A) (k : A -> M B) tr y tr' :
  bind m k tr = (Continue y, tr') <-> exists x tr1, m tr = (Continue x, tr1) /\ k x tr1 = (Continue y, tr').
Proof.
  unfold bind. destruct (m tr) as [[x|code err] tr1].
  - split; [eauto|]. intros (x' & tr2 & H & H'). by injection H as <- <-.
  - split; [done|]. by intros (x & tr2 & H & _).
Qed.

Lemma check_continue err msg tr x tr' : check err msg tr = (Continue x, tr') <-> err = None /\ x = tt /\ tr' = tr.
Proof. destruct err, x; cbn; split; try done; [by intros (H & _)|by intros H; injection H as ->|by intros (_ & _ & ->)]. Qed.

Lemma check_result_continue {A} (r : result A) msg tr x tr' :
  check_result r msg tr = (Continue x, tr') <-> r = Ok x /\ tr' = tr.
Proof. destruct r; cbn; split; try done; [intros H; by injection H as -> ->|by intros [[= ->] ->]|by intros [H _]]. Qed.

Lemma or_exit_continue {A} (r : result A) tr x tr' : or_exit r tr = (Continue x, tr') <-> r = Ok x /\ tr' = tr.
Proof. destruct r; cbn; split; try done; [intros H; by injection H as -> ->|by intros [[= ->] ->]|by intros [H _]]. Qed.

(** An open socket: address, listener and descriptor. *)
Abbreviation socket := (str * nat * Z)%type.
Definition so_addr (s : socket) : str := s.1.1.
Definition so_fd (s : socket) : Z := s.2.
Definition socket_events (s : socket) : list event := [EvListen s.1.1 s.1.2; EvFile s.1.2 s.2].
Definition socket_closers (s : socket) : list Closer := [CListener s.1.2; CFile s.2].
Definition socket_trace (ss : list socket) : list event := mjoin (socket_events <$> ss).
Definition closers (ss : list socket) : list Closer := mjoin (socket_closers <$> ss).

Lemma socket_trace_app ss1 ss2 : socket_trace (ss1 ++ ss2) = socket_trace ss1 ++ socket_trace ss2.
Proof. unfold socket_trace. by rewrite fmap_app, join_app. Qed.
Lemma closers_app ss1 ss2 : closers (ss1 ++ ss2) = closers ss1 ++ closers ss2.
Proof. unfold closers. by rewrite fmap_app, join_app. Qed.

Lemma createSocket_continue addr tr p tr' :
  createSocket addr tr = (Continue p, tr') -> tr' = tr ++ socket_events (addr, p.1, p.2).
Proof.
  unfold createSocket, fileForListener.
  intros (l & t1 & [_ ->]%check_result_continue & H)%bind_continue.
  apply bind_continue in H as ([] & t2 & [= <-] & H).
  apply bind_continue in H as (f & t3 & H & [= <- <-]).
  apply bind_continue in H as (f' & t4 & [_ ->]%check_result_continue & H).
  apply bind_continue in H as ([] & t5 & [= <-] & [= <- <-]). cbn. by rewrite <- app_assoc.
Qed.

Lemma create_listeners_continue addrs tr q tr' :
  create_listeners addrs tr = (Continue q, tr') ->
  exists ss, so_addr <$> ss = addrs /\ q = (closers ss, so_fd <$> ss) /\ tr' = tr ++ socket_trace ss.
Proof.
  revert tr q tr'. induction addrs as [|addr rest IH]; intros tr q tr'; cbn [create_listeners].
  - intros [= <- <-]. exists []. by rewrite app_nil_r.
  - intros ([l f] & t1 & ->%createSocket_continue & H)%bind_continue.
    apply bind_continue in H as (q' & t2 & (ss & <- & -> & ->)%IH & [= <- <-]).
    exists ((addr, l, f) :: ss). cbn. split; [done|]. split; [done|]. by rewrite <- app_assoc.
Qed.

(** An operation that only adds events with [P]. *)
Definition emits_only (P : event -> Prop) {A} (m : M A) : Prop :=
  forall tr, exists evs, (m tr).2 = tr ++ evs /\ Forall P evs.

Lemma emits_bind P {A B} (m : M A) (k : A -> M B) :
  emits_only P m -> (forall x, emits_only P (k x)) -> emits_only P (bind m k).
Proof.
  intros Hm Hk tr. unfold bind. destruct (Hm tr) as (e1 & E1 & H1). destruct (m tr) as [[x|code err] tr1]; cbn in E1; subst.
  - destruct (Hk x (tr ++ e1)) as (e2 & E2 & H2). exists (e1 ++ e2). rewrite E2, app_assoc. split; [done|].
    by apply Forall_app.
  - by exists e1.
Qed.
Lemma emits_ret P {A} (x : A) : emits_only P (ret x).
Proof. intros tr. exists []. by rewrite app_nil_r. Qed.
Lemma emits_emit (P : event -> Prop) e : P e -> emits_only P (emit e).
Proof. intros H tr. exists [e]. by split; [|constructor]. Qed.
Lemma emits_exit P {A} code err : emits_only P (fun tr => (Exit (A := A) code err, tr)).
Proof. intros tr. exists []. by rewrite app_nil_r. Qed.

#[local] Hint Resolve emits_bind emits_ret emits_emit emits_exit : startup.

(** Events other than those of sockets. *)
Definition no_socket (e : event) : Prop :=
  match e with EvListen _ _ | EvFile _ _ | EvClose _ => False | _ => True end.

Lemma prepare_quiet args : emits_only no_socket (prepare args).
Proof.
  unfold prepare, check, fatal, load, or_exit, printVersion, os_Exit, initErrorReporting.
  repeat first [apply emits_bind; [|intros ?] | case_match | by apply emits_ret | by apply emits_emit | by apply emits_exit].
Qed.

(** What a configuration has passed when the sockets are opened. *)
Record prepared (args : list str) (f : Flags) (c : Config) : Prop := {
  pp_args : NotAllowed args = None;
  pp_flags : flag_Parse pe args default_flags = inl f;
  pp_config : loadConfig (ReadFile pe) f = Ok c;
  pp_version : g_ShowVersion (General c) = false;
  pp_logging : ConfigureLogging (Initialize ae) (log_Format (Log c)) (log_Verbose (Log c)) = None;
  pp_chdir : os_Chdir pe (g_RootDir (General c)) = None }.

Lemma prepare_continue args tr c tr' :
  prepare args tr = (Continue c, tr') -> exists f, prepared args f c.
Proof.
  unfold prepare. intros (u1 & t1 & (Hna & _ & _)%check_continue & H)%bind_continue.
  apply bind_continue in H as (u2 & t2 & _ & H).
  apply bind_continue in H as ([f c'] & t3 & Hl & H).
  apply bind_continue in H as (u4 & t4 & Hv & H).
  apply bind_continue in H as (u5 & t5 & _ & H).
  apply bind_continue in H as (u6 & t6 & (Hlog & _)%check_continue & H).
  apply bind_continue in H as (u7 & t7 & _ & H). apply bind_continue in H as (u8 & t8 & _ & H).
  apply bind_continue in H as (u9 & t9 & (Hcd & _)%check_continue & H).
  apply bind_continue in H as (u10 & t10 & _ & H). injection H as <- <-. exists f.
  unfold load in Hl. destruct (flag_Parse pe args default_flags) as [f'|code] eqn:Ef; [|done].
  apply bind_continue in Hl as (c2 & t11 & [Hc _]%or_exit_continue & H). injection H as -> ->.
  split; try done. unfold printVersion in Hv. by destruct (g_ShowVersion _).
Qed.

(** The addresses of a configuration, by kind. *)
Definition addresses (c : Config) : list (listener_kind * str) :=
  (pair KHTTP <$> msf_Split (ListenHTTPStrings c)) ++ (pair KHTTPS <$> msf_Split (ListenHTTPSStrings c))
  ++ (pair KProxy <$> msf_Split (ListenProxyStrings c)) ++ (pair KHTTPSProxyv2 <$> msf_Split (ListenHTTPSProxyv2Strings c))
  ++ (if nonempty (g_MetricsAddress (General c)) then [(KMetrics, g_MetricsAddress (General c))] else []).

Lemma createAppListeners_continue c tr q tr' :
  createAppListeners c tr = (Continue q, tr') ->
  exists h s p v,
    so_addr <$> h = msf_Split (ListenHTTPStrings c) /\ so_addr <$> s = msf_Split (ListenHTTPSStrings c)
    /\ so_addr <$> p = msf_Split (ListenProxyStrings c) /\ so_addr <$> v = msf_Split (ListenHTTPSProxyv2Strings c)
    /\ q = (closers (h ++ s ++ p ++ v),
            set_Listeners (mkListeners (so_fd <$> h) (so_fd <$> s) (so_fd <$> p) (so_fd <$> v)) c)
    /\ tr' = tr ++ socket_trace (h ++ s ++ p ++ v).
Proof.
  unfold createAppListeners.
  intros (q1 & t1 & (h & Hh & -> & ->)%create_listeners_continue & H)%bind_continue.
  apply bind_continue in H as (q2 & t2 & (s & Hs & -> & ->)%create_listeners_continue & H).
  apply bind_continue in H as (q3 & t3 & (p & Hp & -> & ->)%create_listeners_continue & H).
  apply bind_continue in H as (q4 & t4 & (v & Hv & -> & ->)%create_listeners_continue & H).
  injection H as <- <-. exists h, s, p, v. rewrite !socket_trace_app, !closers_app, <- !app_assoc. by repeat split.
Qed.

Lemma createMetricsListener_continue c tr q tr' :
  createMetricsListener c tr = (Continue q, tr') ->
  exists m, tr' = tr ++ socket_trace m /\ q.1 = closers m
    /\ so_addr <$> m = (if nonempty (g_MetricsAddress (General c)) then [g_MetricsAddress (General c)] else [])
    /\ q.2 = match m with [] => c | so :: _ => set_ListenMetrics (so_fd so) c end.
Proof.
  unfold createMetricsListener. destruct (nonempty _) eqn:E; cbn [negb].
  - intros (p & t1 & ->%createSocket_continue & H)%bind_continue. injection H as <- <-.
    by exists [(g_MetricsAddress (General c), p.1, p.2)].
  - intros H. injection H as <- <-. exists []. by rewrite app_nil_r.
Qed.

Lemma zip_pair {A B D E} (k : E) (l : list A) (f : A -> B) (g : A -> D) :
  zip (fst <$> (pair k <$> (f <$> l))) (g <$> l) = pair k <$> (g <$> l).
Proof. induction l; cbn; [done|by f_equal]. Qed.

(** The configuration [Run] gets. *)
Record with_sockets (c : Config) (ss : list socket) (config : Config) : Prop := {
  ws_addr : so_addr <$> ss = snd <$> addresses c;
  ws_jobs : (nonempty (g_MetricsAddress (General c)) = true -> ListenMetrics config <> 0%Z) ->
            Run_jobs config = zip (fst <$> addresses c) (so_fd <$> ss);
  ws_daemon : Daemon config = Daemon c }.

Lemma sockets_of_config c h s p v m :
  ListenMetrics c = 0%Z ->
  so_addr <$> h = msf_Split (ListenHTTPStrings c) -> so_addr <$> s = msf_Split (ListenHTTPSStrings c) ->
  so_addr <$> p = msf_Split (ListenProxyStrings c) -> so_addr <$> v = msf_Split (ListenHTTPSProxyv2Strings c) ->
  so_addr <$> m = (if nonempty (g_MetricsAddress (General c)) then [g_MetricsAddress (General c)] else []) ->
  let c1 := set_Listeners (mkListeners (so_fd <$> h) (so_fd <$> s) (so_fd <$> p) (so_fd <$> v)) c in
  with_sockets c ((h ++ s ++ p ++ v) ++ m) match m with [] => c1 | so :: _ => set_ListenMetrics (so_fd so) c1 end.
Proof.
  intros H0 Hh Hs Hp Hv Hm c1. split.
  - unfold addresses. rewrite <- Hh, <- Hs, <- Hp, <- Hv, !fmap_app, <- !app_assoc.
    do 4 (f_equal; [by rewrite <- list_fmap_compose, list_fmap_id|]). rewrite Hm. by destruct (nonempty _).
  - intros Hnz. unfold addresses. rewrite <- Hh, <- Hs, <- Hp, <- Hv, !fmap_app, <- !app_assoc.
    repeat (rewrite zip_with_app by (by rewrite !length_fmap); rewrite zip_pair).
    destruct (nonempty _) eqn:E.
    + destruct m as [|so [|]]; [done| |by injection Hm]. unfold Run_jobs. cbn in Hnz |- *. specialize (Hnz eq_refl).
      by rewrite (proj2 (Z.eqb_neq _ _) Hnz).
    + destruct m; [|done]. unfold Run_jobs. cbn. by rewrite H0.
  - by destruct m.
Qed.

Lemma closeAll_continue cs tr : closeAll cs tr = (Continue tt, tr ++ (EvClose <$> cs)).
Proof.
  revert tr. induction cs as [|c cs IH]; intros tr; cbn; [by rewrite app_nil_r|].
  unfold bind, emit. by rewrite IH, <- app_assoc.
Qed.

Definition root_daemon (config : Config) : bool := (d_UID (Daemon config) =? 0)%Z && (d_GID (Daemon config) =? 0)%Z.

(** The trace and the result of a run that does not exit. *)
Lemma appMain_continue args proc tr :
  appMain args [] = (Continue proc, tr) ->
  exists f c pre ss m config,
    prepared args f c /\ Forall no_socket pre /\ with_sockets c (ss ++ m) config
    /\ match proc with
       | Serving_pages a config' deferred =>
           config' = config /\ runApp config = Ok a /\ deferred = [closers m; closers ss]
           /\ root_daemon config = true /\ tr = pre ++ socket_trace (ss ++ m)
       | Returned run =>
           run = daemonize os env visit config world /\ run_error run = None /\ root_daemon config = false
           /\ tr = pre ++ socket_trace (ss ++ m) ++ EvDaemonize config :: (EvClose <$> closers m ++ closers ss)
       end.
Proof.
  unfold appMain. intros (c & pre & Hp & H)%bind_continue.
  pose proof (prepare_quiet args []) as (evs & Epre & Hquiet). rewrite Hp in Epre. cbn in Epre. subst evs.
  apply prepare_continue in Hp as [f Hprep].
  apply bind_continue in H as (q & t1 & (h & s & p & v & Hh & Hs & Hpr & Hv & -> & ->)%createAppListeners_continue & H).
  apply bind_continue in H as ([cs config] & t2 & (m & -> & Hcs & Hm & Hconf)%createMetricsListener_continue & H).
  cbn [fst snd] in Hcs, Hm, Hconf, H. subst cs.
  assert (Hws : with_sockets c ((h ++ s ++ p ++ v) ++ m) config).
  { subst config. apply sockets_of_config; [|done..].
    by apply pp_config, loadConfig_ok in Hprep as (cert & key & api & _ & _ & _ & -> & _). }
  exists f, c, pre, (h ++ s ++ p ++ v), m, config. split; [done|]. split; [done|]. split; [done|].
  rewrite <- negb_andb in H. fold (root_daemon config) in H. destruct (root_daemon config) eqn:Er; cbn [negb] in H.
  - apply bind_continue in H as (a & t3 & [Ha ->]%or_exit_continue & H). injection H as <- <-.
    rewrite (socket_trace_app (h ++ _)), <- app_assoc. by repeat split.
  - apply bind_continue in H as ([] & t3 & He & H). injection He as <-.
    apply bind_continue in H as ([] & t4 & (Hre & _ & ->)%check_continue & H).
    unfold bind in H. rewrite closeAll_continue in H. rewrite closeAll_continue in H. injection H as <- <-.
    split; [done|]. split; [done|]. split; [done|].
    rewrite (socket_trace_app (h ++ _)), fmap_app, <- !app_assoc. done.
Qed.

(** ** Theorems *)

(** [C31] A process that serves opened its sockets as configured: one socket
    per address of the listen flags, in order, and one for the metrics, each
    served as the kind of its flag; nothing else was opened, nothing closed,
    and the application is the one [runApp] built from this configuration.
    (Descriptor 0 counts as no metrics listener.) *)
Theorem appMain_opens_each_address args a config deferred tr :
  appMain args [] = (Continue (Serving_pages a config deferred), tr) ->
  exists f c pre ss,
    prepared args f c /\ runApp config = Ok a
    /\ tr = pre ++ socket_trace ss /\ Forall no_socket pre
    /\ so_addr <$> ss = snd <$> addresses c
    /\ ((nonempty (g_MetricsAddress (General c)) = true -> ListenMetrics config <> 0%Z) ->
        Run_jobs config = zip (fst <$> addresses c) (so_fd <$> ss)).
Proof.
  intros (f & c & pre & ss & m & config' & Hp & Hq & Hw & -> & Ha & _ & _ & ->)%appMain_continue.
  exists f, c, pre, (ss ++ m). split; [done|]. split; [done|]. split; [done|]. split; [done|]. split; apply Hw.
Qed.

(** No socket is opened before the start-up checks: when the trace has a
    listening socket, the arguments carry no secret option, the configuration
    was loaded and validated, it is not a request for the version, logging is
    set up, and the working directory is the pages root. *)
Theorem appMain_checks_before_sockets args out tr addr id :
  appMain args [] = (out, tr) -> EvListen addr id ∈ tr -> exists f c, prepared args f c.
Proof.
  unfold appMain. destruct (prepare_quiet args []) as (evs & Epre & Hquiet).
  unfold bind at 1. destruct (prepare args []) as [[c|code err] tr1] eqn:Hp.
  - intros _ _. apply prepare_continue in Hp as [f Hp]. by exists f, c.
  - intros H Hin. injection H as <- <-. cbn in Epre. subst tr1. exfalso.
    by apply (proj1 (Forall_forall _ _) Hquiet) in Hin.
Qed.

(** What an event opens and closes. *)
Definition opens (e : event) : list Closer :=
  match e with EvListen _ id => [CListener id] | EvFile _ fd => [CFile fd] | _ => [] end.
Definition closes (e : event) : list Closer := match e with EvClose c => [c] | _ => [] end.

Lemma collect_cons {A} (f : event -> list A) e es : mjoin (f <$> e :: es) = f e ++ mjoin (f <$> es).
Proof. done. Qed.
Lemma opens_socket_trace ss : mjoin (opens <$> socket_trace ss) = closers ss.
Proof.
  induction ss as [|s ss IH]; [done|]. change (socket_trace (s :: ss)) with (socket_events s ++ socket_trace ss).
  by rewrite fmap_app, join_app, IH.
Qed.
Lemma closes_socket_trace ss : mjoin (closes <$> socket_trace ss) = [].
Proof.
  induction ss as [|s ss IH]; [done|]. change (socket_trace (s :: ss)) with (socket_events s ++ socket_trace ss).
  by rewrite fmap_app, join_app, IH.
Qed.
Lemma quiet_nothing pre : Forall no_socket pre -> mjoin (opens <$> pre) = [] /\ mjoin (closes <$> pre) = [].
Proof. induction 1 as [|e pre He _ [IH1 IH2]]; [done|]. rewrite !collect_cons, IH1, IH2. by destruct e. Qed.
Lemma closing_events cs : mjoin (opens <$> (EvClose <$> cs)) = [] /\ mjoin (closes <$> (EvClose <$> cs)) = cs.
Proof.
  induction cs as [|c cs [IH1 IH2]]; [done|]. rewrite fmap_cons, !collect_cons, IH1, IH2. done.
Qed.

(** The parent of the daemon leaks no socket: when [appMain] returns, the
    daemon was run on the configuration with the sockets and ended without an
    error, and the listeners and files closed are exactly those opened, each
    closed once, after the daemon. *)
Theorem appMain_closes_each_socket args run tr :
  appMain args [] = (Continue (Returned run), tr) ->
  exists before after config,
    tr = before ++ EvDaemonize config :: after
    /\ run = daemonize os env visit config world /\ run_error run = None
    /\ mjoin (closes <$> before) = [] /\ mjoin (opens <$> after) = []
    /\ mjoin (closes <$> after) ≡ₚ mjoin (opens <$> before).
Proof.
  intros (f & c & pre & ss & m & config & _ & Hq & _ & Hr & He & _ & ->)%appMain_continue.
  exists (pre ++ socket_trace (ss ++ m)), (EvClose <$> closers m ++ closers ss), config.
  destruct (quiet_nothing pre Hq) as [Q1 Q2], (closing_events (closers m ++ closers ss)) as [E1 E2].
  rewrite E1, E2, !fmap_app, !join_app, Q1, Q2, <- !fmap_app, opens_socket_trace, closes_socket_trace, closers_app.
  split; [by rewrite <- app_assoc|]. repeat split; try done. by rewrite app_nil_l, Permutation_app_comm.
Qed.

(** *** The application of a configuration *)

Lemma runApp_ok config a :
  runApp config = Ok a -> config_domains config = Ok (app_domains a).
Proof.
  unfold runApp, failing, failing_error. intros H.
  apply result_bind_ok in H as (d & Hd & H). destruct (config_domains config) as [d'|]; [|done]. injection Hd as ->.
  apply result_bind_ok in H as (_ & _ & H). apply result_bind_ok in H as (oa & _ & H).
  apply result_bind_ok in H as (hs & _ & H). apply result_bind_ok in H as (_ & _ & H). by injection H as <-.
Qed.

(** The middlewares of the libraries. *)
Context (artifact_Do : URL -> Header -> result ApiResponse).
Context (corsHandler metricsMiddleware ProxyHeaders ClearHandler :
           HTTPHandler (Certificate := Certificate) -> HTTPHandler (Certificate := Certificate)).
Context (InjectCorrelationID : bool -> HTTPHandler (Certificate := Certificate) -> HTTPHandler (Certificate := Certificate)).
Context (correlation_id : CtxRequest (Certificate := Certificate) -> str).
Context (lib_AccessLogger : (CtxRequest (Certificate := Certificate) -> option Fields) -> Logger -> (str -> bool) ->
           HTTPHandler (Certificate := Certificate) -> HTTPHandler (Certificate := Certificate)).
Context `{L1 : !AccessLoggerLaws lib_AccessLogger, L2 : !PanicFree routed corsHandler,
          L3 : !PanicFree routed metricsMiddleware, L4 : !forall b, PanicFree (fun _ => True) (InjectCorrelationID b),
          L5 : !PanicFree (fun _ => True) ProxyHeaders, L6 : !PanicFree (fun _ => True) ClearHandler}.

(** The application at a later time: the cached client gives other lookups,
    the source may have become ready or not ready. *)
Definition in_state (lookups : str -> Lookup) (g : Gitlab) (a : theApp (Certificate := Certificate))
  : theApp (Certificate := Certificate) :=
  mkApp (app_RedirectHTTP a) (app_StatusPath a) (app_DisableCrossOriginRequests a)
    (mkDomains sourceGitlab (Some (gitlab_as_source (local_Instance ae) (zip_Instance ae) lookups g)) None)
    (app_Artifact a) (app_Auth a) (app_Acme a) (app_CustomHeaders a).

Lemma in_state_started config a :
  DomainConfigSource config = &"gitlab" -> runApp config = Ok a ->
  exists client, NewFromConfig config = Ok client /\ a = in_state (cached_lookup ae client) (mkGitlab false true) a.
Proof.
  intros Hm Hd%runApp_ok. unfold config_domains, NewDomains, setConfigSource, setGitLabClient, gitlab_source in Hd.
  rewrite Hm, decide_True in Hd by done. destruct (NewFromConfig config) as [client|]; [|done]. exists client.
  split; [done|]. cbn in Hd. injection Hd as Hd. unfold in_state. rewrite Hd. by destruct a.
Qed.

(** What the source gives for a host is not the dereference of a nil domain. *)
Definition source_sound (out : option (result (option (Domain Certificate)))) : Prop :=
  match out with
  | Some (Ok (Some dom)) => forall r, d_Resolver dom r <> Err errPanic
  | Some (Err e) => e <> errPanic
  | _ => False
  end.

Lemma in_state_sound lookups g a host :
  (forall name, sound_lookup (lookups name)) -> source_sound (app_domain (in_state lookups g a) host).
Proof.
  intros Hl. unfold app_domain, Domains_GetDomain, Domains_source. cbn [in_state app_domains dom_configSource dom_gitlab].
  assert ((if IsServerlessDomain host
           then Some (gitlab_as_source (Certificate := Certificate) (local_Instance ae) (zip_Instance ae) lookups g)
           else Some (gitlab_as_source (local_Instance ae) (zip_Instance ae) lookups g))
          = Some (gitlab_as_source (local_Instance ae) (zip_Instance ae) lookups g)) as -> by by case_match.
  cbn [fmap option_fmap option_map gitlab_as_source source_GetDomain].
  pose proof (Gitlab_GetDomain_no_panic (local_Instance ae) (zip_Instance ae) (Certificate := Certificate) lookups host g (Hl host)) as H.
  destruct (Gitlab_GetDomain _ _ _ _ _).1 as [d|e]; [|done]. intros r. rewrite H. by apply Gitlab_Resolve_no_panic.
Qed.

(** [C13] An application started on the GitLab API answers every request: when
    [runApp] succeeds with the mode [gitlab], its source is that of the client
    it has made, and at any later time, whatever state the source is in and
    whatever lookups the cached client gives, as long as each of them has an
    error or a domain, the handlers of all page servers give a response to
    every request, from the nil checks of the domain sources through the
    logger to the content, and no nil domain is dereferenced.  (The condition
    on the lookups is needed: a client without retries and the answer [null]
    of the API give lookups with neither, see [zero_retries_dereferences_nil]
    and [null_answer_dereferences_nil].) *)
Theorem started_app_answers config a :
  DomainConfigSource config = &"gitlab" -> runApp config = Ok a ->
  (exists client, NewFromConfig config = Ok client /\ a = in_state (cached_lookup ae client) (mkGitlab false true) a)
  /\ forall lookups g h r w, (forall name, sound_lookup (lookups name)) ->
       build_pipeline (in_state lookups g a) config artifact_Do corsHandler metricsMiddleware InjectCorrelationID correlation_id
         lib_AccessLogger (Initialize ae) = Ok h ->
       is_Some (ClearHandler (httpHandler h) r w) /\ is_Some (ClearHandler (proxyHandler ProxyHeaders h) r w)
       /\ forall host, source_sound (app_domain (in_state lookups g a) host).
Proof using L1 L2 L3 L4 L5 L6.
  intros Hm Hrun. split; [by apply in_state_started|]. intros lookups g h r w Hl Hh.
  assert (Hsound := fun host => in_state_sound lookups g a host Hl).
  assert (Hs : sources_ready (in_state lookups g a)).
  { split; [by eexists|]. intros host. specialize (Hsound host). by destruct (app_domain _ host). }
  pose proof (build_pipeline_no_panic (in_state lookups g a) config _ _ _ _ _ _ _ h Hs Hh) as Hp. clear Hh.
  split; [|split; [|done]]; apply panic_free; try done; intros r' w' _.
  - by apply Hp.
  - unfold proxyHandler, proxyInitialMiddleware. case_match; by apply panic_free.
Qed.

End Startup.

Arguments Continue {A}.
Arguments Exit {A}.

(** ** Witnesses *)

Definition demo_ae : AppEnv := {|
  local_Instance := demo_disk; zip_Instance := demo_disk; cached_lookup := fun _ => demo_lookup_client;
  cr := toy_crypto; stream := fun _ => Ok &"key"; store_Get := empty_session; store_Save := cookie_save;
  auth_Do := api_ok; decode_token := no_json; decode_error := no_json; fresh_state := &"s"; fresh_nonce := &"n";
  now := 0; Initialize := fun _ _ => None; zip_Reconfigure := fun _ => None; header_order := map_to_list |}.

(** The default flags with two plain addresses, an https address, a metrics
    address and a user. *)
Definition start_flags (uid : Z) : Flags :=
  mkFlags [] [] false true &"/srv/pages" &"example.com" [] 10 [] &":9235" [] [] uid 0 true false &"text" false [] []
    [] [] [] (10 * second) (30 * second) (10 * minute) minute minute (30 * second) second 3 &"auto" false [] [] []
    &"api" 0 false &"tls1.2" [] (60 * second) (30 * second) (30 * second) (30 * second) false false
    (mkMultiStringFlag [&":80,:8080"] &",") (mkMultiStringFlag [&":443"] &",") (mkMultiStringFlag [] &",")
    (mkMultiStringFlag [] &",") (mkMultiStringFlag [] &";;").

(** Listeners and descriptors are numbered by what was done before. *)
Definition demo_pe (uid : Z) : ProcEnv := {|
  net_Listen := fun tr _ => Ok (length tr); listener_File := fun tr _ => Ok (Z.of_nat (length tr));
  os_Chdir := fun _ => None; ReadFile := fun _ => Err (ErrMsg &"no such file");
  flag_Parse := fun _ _ => inl (start_flags uid); DefaultConfigFlagname := &"config" |}.

Abbreviation demo_appMain uid :=
  (appMain (Certificate := unit) demo_ae (demo_pe uid) mem_os demo_env map_order (mkJState demo_machine []) []).

Lemma demo_serves : exists a config deferred tr id,
  demo_appMain 0 [] = (Continue (Serving_pages a config deferred), tr)
  /\ ListenMetrics config <> 0%Z /\ EvListen &":443" id ∈ tr.
Proof.
  assert (Hc : match demo_appMain 0 [] with
               | (Continue (Serving_pages _ config _), tr) =>
                   negb (ListenMetrics config =? 0)%Z
                   && match tr !! 7 with Some (EvListen addr _) => bool_decide (addr = &":443") | _ => false end
               | _ => false
               end = true) by (vm_compute; reflexivity).
  destruct (demo_appMain 0 []) as [[[a config deferred|run]|code err] tr]; try done.
  apply andb_true_iff in Hc as [Hm Ht]. destruct (tr !! 7) as [[| | | | | |addr id| | |]|] eqn:E; try done.
  apply bool_decide_eq_true in Ht as ->. exists a, config, deferred, tr, id. split; [done|]. split.
  - by apply negb_true_iff, Z.eqb_neq in Hm.
  - by eapply list_elem_of_lookup_2.
Qed.

Lemma demo_loaded f c : prepared demo_ae (demo_pe 0) [] f c -> c = loaded_config (start_flags 0) [] [] [].
Proof.
  intros Hp. pose proof (pp_flags _ _ _ _ _ Hp) as Hf. injection Hf as <-. pose proof (pp_config _ _ _ _ _ Hp) as Hl.
  assert (El : loadConfig (ReadFile (demo_pe 0)) (start_flags 0) = Ok (loaded_config (start_flags 0) [] [] []))
    by (vm_compute; reflexivity). congruence.
Qed.

Lemma appMain_opens_each_address_witness : exists config ss,
  so_addr <$> ss = [&":80"; &":8080"; &":443"; &":9235"]
  /\ Run_jobs config = zip [KHTTP; KHTTP; KHTTPS; KMetrics] (so_fd <$> ss).
Proof.
  destruct demo_serves as (a & config & deferred & tr & id & H & Hm & _).
  destruct (appMain_opens_each_address demo_ae (demo_pe 0) mem_os demo_env map_order (mkJState demo_machine []) []
    a config deferred tr H) as (f & c & pre & ss & Hp & _ & _ & _ & Ha & Hj).
  exists config, ss. rewrite Ha, (Hj (fun _ => Hm)), (demo_loaded f c Hp). split; vm_compute; reflexivity.
Defined.

Lemma appMain_checks_before_sockets_witness : exists f c, prepared demo_ae (demo_pe 0) [] f c.
Proof.
  destruct demo_serves as (a & config & deferred & tr & id & H & _ & Hin).
  exact (appMain_checks_before_sockets demo_ae (demo_pe 0) mem_os demo_env map_order (mkJState demo_machine []) []
    _ tr &":443" id H Hin).
Defined.

Lemma demo_returns : exists run tr, demo_appMain 998 [] = (Continue (Returned run), tr).
Proof.
  assert (Hc : match demo_appMain 998 [] with (Continue (Returned _), _) => true | _ => false end = true)
    by (vm_compute; reflexivity).
  destruct (demo_appMain 998 []) as [[[|run]|] tr]; try done. by exists run, tr.
Qed.

Lemma appMain_closes_each_socket_witness : exists run tr before after config,
  demo_appMain 998 [] = (Continue (Returned run), tr)
  /\ tr = before ++ EvDaemonize config :: after
  /\ mjoin (closes <$> after) ≡ₚ mjoin (opens <$> before).
Proof.
  destruct demo_returns as (run & tr & H).
  destruct (appMain_closes_each_socket demo_ae (demo_pe 998) mem_os demo_env map_order (mkJState demo_machine []) []
    run tr H) as (before & after & config & H1 & _ & _ & _ & _ & H2).
  exists run, tr, before, after, config. split; [exact H|]. split; [exact H1|exact H2].
Defined.

(** The GitLab mode with an API secret. *)
Definition gitlab_config : Config :=
  let c := loaded_config (start_flags 0) [] [] [] in
  let g := General c in
  set_GitLab (mkGitLab &"https://gitlab.example" &"https://gitlab.example" demo_secret second second (gl_Cache (GitLab c)))
    (set_General (mkGeneral (g_Domain g) &"gitlab" false true 0 [] false [] [] [] [] false false false false [&"X: y"]) c).

(** A day later the source is ready and knows a site. *)
Lemma started_app_answers_witness : exists a h,
  runApp (Certificate := unit) demo_ae gitlab_config = Ok a
  /\ App.isReady (in_state demo_ae demo_lookup_client (mkGitlab true false) a) = Some true
  /\ is_Some (transparent (httpHandler h) (demo_ctx &"/index.html") new_response).
Proof.
  assert (Ha : is_ok (runApp (Certificate := unit) demo_ae gitlab_config) = true) by (vm_compute; reflexivity).
  destruct (runApp demo_ae gitlab_config) as [a|] eqn:Ea; [|done].
  eexists a, _. split; [reflexivity|]. split; [reflexivity|].
  refine (proj1 (proj2 (started_app_answers demo_ae no_artifacts transparent transparent transparent transparent
    (fun _ => transparent) (fun _ => []) toy_AccessLogger gitlab_config a eq_refl Ea) demo_lookup_client (mkGitlab true false)
    _ (demo_ctx &"/index.html") new_response _ _)).
  - intros name. eexists. reflexivity.
  - reflexivity.
Defined.
